(** * Pokemon-Store-Bot: a shallow embedding of the direct-API checkout core

    The development follows the JavaScript sources:

    - [src/fast-checkout.js]: [CookieJar], [FastCheckout] (request, the
      checkout steps, [run], [jigAddress], session snapshots);
    - [src/http-engine.js]: [HttpEngine.request], [SmartProxyManager];
    - [src/fleet-runner.js]: [FleetRunner] and [AddressJigger].

    Conventions of the embedding.

    - A JavaScript string is a [string] of 8-bit characters.  Case mapping,
      [trim], [length] and the classes [\s], [\d], [\D] and [.] are those of
      JavaScript on ASCII text ([Str.isAscii]), a condition the theorems on
      the cookie jar and on [AddressJigger] state.
    - A JavaScript object with constant keys (headers, form fields, JSON) is
      an association list in insertion order ([Dict]).  An object whose keys
      come from input (the cookie jar) follows [Obj]: array-index keys are
      listed first, in ascending order, an assignment to [__proto__] stores
      nothing, and a read also finds the properties every object inherits.
    - [undefined]/[null] are [None]; truthiness of a string is non-emptiness.
    - An exception is the [Throw] outcome of a computation.
    - The JavaScript runtime services the code calls ([new URL], [JSON.parse],
      [RegExp] matching of the page patterns) are the fields of [Runtime].
    - The network is a script of transport outcomes, consumed one per
      transport attempt; every attempt is recorded as an [Event].

    Part I holds the definitions, Part II the theorems. *)

From Stdlib Require Import List String Ascii Bool Arith ZArith QArith Lia DecimalString.
From Stdlib Require Import SpecFloat.
Import ListNotations.
Set Warnings "-register-all".
Close Scope Q_scope.
Open Scope list_scope.
Open Scope string_scope.
Open Scope nat_scope.

(* ===================================================================== *)
(** * Part I: the model                                                   *)
(* ===================================================================== *)

(** ** Outcomes of a call that may throw *)

Inductive Res (A : Type) : Type :=
| Ok (a : A)
| Throw (msg : string).
Arguments Ok {A} a.
Arguments Throw {A} msg.

Definition rbind {A B : Type} (r : Res A) (f : A -> Res B) : Res B :=
  match r with
  | Ok a => f a
  | Throw msg => Throw msg
  end.

Declare Scope res_scope.
Delimit Scope res_scope with res.
Notation "x <~ r ;; k" := (rbind r (fun x => k))
  (at level 61, r at next level, right associativity) : res_scope.

(** ** String primitives of the JavaScript runtime *)

Module Str.

(** [s.slice(n)] for [0 <= n]. *)
Fixpoint drop (n : nat) (s : string) : string :=
  match n, s with
  | O, _ => s
  | S _, EmptyString => EmptyString
  | S k, String _ t => drop k t
  end.

(** [s.substring(0, n)]. *)
Fixpoint take (n : nat) (s : string) : string :=
  match n, s with
  | O, _ => EmptyString
  | S _, EmptyString => EmptyString
  | S k, String c t => String c (take k t)
  end.

(** [s.startsWith(p)]. *)
Definition startsWith (p s : string) : bool := String.prefix p s.

(** [s.includes(p)]. *)
Fixpoint includes (p s : string) : bool :=
  String.prefix p s ||
  match s with
  | EmptyString => false
  | String _ t => includes p t
  end.

(** [s.endsWith(p)]. *)
Definition endsWith (p s : string) : bool :=
  Nat.leb (String.length p) (String.length s) &&
  String.eqb (drop (String.length s - String.length p) s) p.

(** [s.indexOf(c)] for a one-character needle; [None] is [-1]. *)
Fixpoint indexOf (c : ascii) (s : string) : option nat :=
  match s with
  | EmptyString => None
  | String d t =>
      if Ascii.eqb d c then Some O
      else match indexOf c t with
           | Some i => Some (S i)
           | None => None
           end
  end.

(** [s.split(c)[0]]: the text before the first [c], all of [s] without one. *)
Fixpoint before (c : ascii) (s : string) : string :=
  match s with
  | EmptyString => EmptyString
  | String d t => if Ascii.eqb d c then EmptyString else String d (before c t)
  end.

Definition code (c : ascii) : nat := nat_of_ascii c.

(** The ASCII members of the class [\s]: TAB, LF, VT, FF, CR and space. *)
Definition isSpace (c : ascii) : bool :=
  let n := code c in (((9 <=? n) && (n <=? 13)) || (n =? 32))%nat.

(** [\d]. *)
Definition isDigit (c : ascii) : bool :=
  let n := code c in ((48 <=? n) && (n <=? 57))%nat.

Definition isUpper (c : ascii) : bool :=
  let n := code c in ((65 <=? n) && (n <=? 90))%nat.

Definition isLower (c : ascii) : bool :=
  let n := code c in ((97 <=? n) && (n <=? 122))%nat.

(** Line terminators, which the pattern [.] does not match. *)
Definition isLineTerminator (c : ascii) : bool :=
  let n := code c in ((n =? 10) || (n =? 13))%nat.

Definition upperChar (c : ascii) : ascii :=
  if isLower c then ascii_of_nat (code c - 32) else c.

Definition lowerChar (c : ascii) : ascii :=
  if isUpper c then ascii_of_nat (code c + 32) else c.

Fixpoint map (f : ascii -> ascii) (s : string) : string :=
  match s with
  | EmptyString => EmptyString
  | String c t => String (f c) (map f t)
  end.

Definition toUpperCase : string -> string := map upperChar.
Definition toLowerCase : string -> string := map lowerChar.

Fixpoint filter (p : ascii -> bool) (s : string) : string :=
  match s with
  | EmptyString => EmptyString
  | String c t => if p c then String c (filter p t) else filter p t
  end.

Fixpoint forallb (p : ascii -> bool) (s : string) : bool :=
  match s with
  | EmptyString => true
  | String c t => p c && forallb p t
  end.

Fixpoint existsb (p : ascii -> bool) (s : string) : bool :=
  match s with
  | EmptyString => false
  | String c t => p c || existsb p t
  end.

Fixpoint rev_onto (s acc : string) : string :=
  match s with
  | EmptyString => acc
  | String c t => rev_onto t (String c acc)
  end.

Definition rev (s : string) : string := rev_onto s EmptyString.

Fixpoint dropWhile (p : ascii -> bool) (s : string) : string :=
  match s with
  | EmptyString => EmptyString
  | String c t => if p c then dropWhile p t else s
  end.

(** Removes the longest suffix whose characters satisfy [p]
    ([s.replace(/[p]+$/, "")]). *)
Fixpoint dropWhileEnd (p : ascii -> bool) (s : string) : string :=
  match s with
  | EmptyString => EmptyString
  | String c t =>
      match dropWhileEnd p t with
      | EmptyString => if p c then EmptyString else String c EmptyString
      | r => String c r
      end
  end.

(** [s.trim()]. *)
Definition trim (s : string) : string :=
  dropWhileEnd isSpace (dropWhile isSpace s).

(** [s.charAt(0)]: the first character as a string, empty on [""]. *)
Definition charAt0 (s : string) : string := take 1 s.

(** Every character is ASCII.  On such text the functions of this module
    are the JavaScript ones; beyond it JavaScript maps case by the Unicode
    tables and counts further characters as white space. *)
Definition isAscii (s : string) : bool := forallb (fun c => code c <? 128) s.

(** [isAscii] for a value that may be [undefined]. *)
Definition oisAscii (o : option string) : bool :=
  match o with Some s => isAscii s | None => true end.

(** Truthiness of a string value. *)
Definition truthy (s : string) : bool :=
  match s with EmptyString => false | _ => true end.

(** Truthiness of a value that may be [undefined] or a string. *)
Definition otruthy (o : option string) : bool :=
  match o with Some s => truthy s | None => false end.

(** [o || d] for an optional string [o]. *)
Definition orElse (o : option string) (d : string) : string :=
  match o with
  | Some s => if truthy s then s else d
  | None => d
  end.

End Str.

(** ** Parsed URLs *)

(** The fields of a [URL] object that the code reads. *)
Record Url : Type := mkUrl {
  protocol : string;
  hostname : string;
  port : string;
  pathname : string;
  search : string;
  href : string
}.

(** A reference reading of [new URL(s)] for absolute URLs of the shape
    [scheme://host[:port][/path][?query]], used to run the model on concrete
    inputs.  The theorems quantify over the parser instead. *)

Module SimpleUrl.

Fixpoint takeUntil (p : ascii -> bool) (s : string) : string :=
  match s with
  | EmptyString => EmptyString
  | String c t => if p c then EmptyString else String c (takeUntil p t)
  end.

Definition isPathStart (c : ascii) : bool :=
  Ascii.eqb c "/" || Ascii.eqb c "?" || Ascii.eqb c "#".

Definition isQueryStart (c : ascii) : bool :=
  Ascii.eqb c "?" || Ascii.eqb c "#".

Definition parse (s : string) : option Url :=
  let scheme := Str.before ":" s in
  if Str.truthy scheme && Str.startsWith (scheme ++ "://") s then
    let rest := Str.drop (String.length scheme + 3) s in
    let authority := takeUntil isPathStart rest in
    let host := Str.toLowerCase (Str.before ":" authority) in
    let prt := Str.drop (S (String.length (Str.before ":" authority))) authority in
    let after := Str.drop (String.length authority) rest in
    let path0 := takeUntil isQueryStart after in
    let path := if Str.truthy path0 then path0 else "/" in
    let query := takeUntil (fun c => Ascii.eqb c "#") (Str.drop (String.length path0) after) in
    if Str.truthy host then
      Some {| protocol := scheme ++ ":"; hostname := host; port := prt;
              pathname := path; search := query;
              href := scheme ++ "://" ++ authority ++ path ++ query |}
    else None
  else None.

(** [new URL(rel, base)] for an absolute [rel] or a path-absolute [rel]. *)
Definition resolve (rel base : string) : option Url :=
  match parse rel with
  | Some u => Some u
  | None =>
      match parse base with
      | Some b =>
          if Str.startsWith "/" rel then
            parse (protocol b ++ "//" ++ hostname b ++
                   (if Str.truthy (port b) then ":" ++ port b else "") ++ rel)
          else None
      | None => None
      end
  end.

End SimpleUrl.

(** ** Objects used as dictionaries *)

Module Dict.

(** An object with string keys, in insertion order. *)
Definition dict (V : Type) : Type := list (string * V).

(** [m[k]]. *)
Fixpoint lookup {V : Type} (k : string) (m : dict V) : option V :=
  match m with
  | [] => None
  | (k', v) :: m' => if String.eqb k' k then Some v else lookup k m'
  end.

(** [m[k] = v]: overwrite in place, or append a new key. *)
Fixpoint assign {V : Type} (k : string) (v : V) (m : dict V) : dict V :=
  match m with
  | [] => [(k, v)]
  | (k', v') :: m' =>
      if String.eqb k' k then (k', v) :: m' else (k', v') :: assign k v m'
  end.

(** [{...a, ...b}]. *)
Definition spread {V : Type} (a b : dict V) : dict V :=
  fold_left (fun m kv => assign (fst kv) (snd kv) m) b a.

End Dict.

(** ** Plain objects with keys taken from input *)

Module Obj.

(** The property names every object inherits from [Object.prototype]. *)
Definition inheritedNames : list string :=
  [ "constructor"; "__defineGetter__"; "__defineSetter__"; "hasOwnProperty";
    "__lookupGetter__"; "__lookupSetter__"; "isPrototypeOf"; "propertyIsEnumerable";
    "toString"; "valueOf"; "__proto__"; "toLocaleString" ].

(** [k] is not an own key and [o[k]] is still truthy for every object [o]. *)
Definition inherited (k : string) : bool := List.existsb (String.eqb k) inheritedNames.

Fixpoint digitsValue (s : string) (acc : N) : option N :=
  match s with
  | EmptyString => Some acc
  | String c t =>
      if Str.isDigit c then digitsValue t (10 * acc + N.of_nat (Str.code c - 48))%N
      else None
  end.

(** An array index: the canonical decimal text of an integer in
    [0, 2^32 - 2]. *)
Definition arrayIndex (k : string) : option N :=
  match k with
  | EmptyString => None
  | String c t =>
      if Ascii.eqb c "0" then (match t with EmptyString => Some 0%N | _ => None end)
      else
        match digitsValue k 0%N with
        | Some n => if (n <=? 4294967294)%N then Some n else None
        | None => None
        end
  end.

(** A new array-index key takes its place among the array indices. *)
Fixpoint insertIndex {V : Type} (i : N) (k : string) (v : V) (o : Dict.dict V)
  : Dict.dict V :=
  match o with
  | [] => [(k, v)]
  | (k', v') :: rest =>
      match arrayIndex k' with
      | Some j => if (j <? i)%N then (k', v') :: insertIndex i k v rest
                  else (k, v) :: o
      | None => (k, v) :: o
      end
  end.

(** [o[k] = v] for a key other than [__proto__]: an own key keeps its
    place; a new key is listed after the others, or among the array
    indices when it is one. *)
Definition define {V : Type} (k : string) (v : V) (o : Dict.dict V) : Dict.dict V :=
  match Dict.lookup k o with
  | Some _ => Dict.assign k v o
  | None =>
      match arrayIndex k with
      | Some i => insertIndex i k v o
      | None => (o ++ [(k, v)])%list
      end
  end.

(** [o[k] = v] for a string [v]: the setter of [__proto__] ignores a value
    that is not an object, so nothing is stored under that name. *)
Definition set (k v : string) (o : Dict.dict string) : Dict.dict string :=
  if String.eqb k "__proto__" then o else define k v o.

End Obj.

(** ** CookieJar ([src/fast-checkout.js], lines 64-96) *)

Module CookieJar.

(** [this.store]: domain -> (cookie name -> value), the own properties in
    the order [Object.keys] and [Object.entries] list them. *)
Definition store : Type := Dict.dict (Dict.dict string).

(** [constructor() { this.store = {}; }] *)
Definition empty : store := [].

(** The [setCookieHeaders] argument: absent, one header, or an array. *)
Inductive SetCookie : Type :=
| NoHeader
| OneHeader (raw : string)
| Headers (raws : list string).

(** One iteration of the loop body before the assignment: the name and
    value of a header, [None] where the loop [continue]s ([eq < 1]). *)
Definition parseCookie (raw : string) : option (string * string) :=
  let parts := Str.before ";" raw in
  match Str.indexOf "=" parts with
  | None => None
  | Some O => None
  | Some eq => Some (Str.trim (Str.take eq parts), Str.drop (S eq) parts)
  end.

(** [this.store[domain][name] = value]. *)
Definition storeCookie (jar : Dict.dict string) (raw : string) : Dict.dict string :=
  match parseCookie raw with
  | Some (name, value) => Obj.set name value jar
  | None => jar
  end.

(** The body of [update] once the domain is known.  For a domain that
    names an inherited property, [this.store[domain]] is the built-in object
    of that name: the jar gets no entry and the loop assigns the cookies to
    that built-in object, which is not part of the jar; what the program
    does once a built-in object was written to is outside this model. *)
Definition updateDomain (domain : string) (arr : list string) (s : store) : store :=
  match Dict.lookup domain s with
  | Some jar => Dict.assign domain (fold_left storeCookie arr jar) s
  | None =>
      if Obj.inherited domain then s
      else Obj.define domain (fold_left storeCookie arr []) s
  end.

Section WithUrl.
Variable parseUrl : string -> option Url.

(** [update(url, setCookieHeaders)]; the new store, or the [TypeError] of
    [new URL(url)]. *)
Definition update (url : string) (h : SetCookie) (s : store) : Res store :=
  let go arr :=
    match parseUrl url with
    | None => Throw "Invalid URL"
    | Some u => Ok (updateDomain (hostname u) arr s)
    end in
  match h with
  | NoHeader => Ok s
  | OneHeader raw => if Str.truthy raw then go [raw] else Ok s
  | Headers raws => go raws
  end.

(** The test of [get] on one stored domain [d]. *)
Definition serves (domain d : string) : bool :=
  String.eqb domain d || Str.endsWith ("." ++ d) domain || Str.endsWith ("." ++ domain) d.

Definition render (kv : string * string) : string := fst kv ++ "=" ++ snd kv.

(** The array [cookies] that [get] builds. *)
Definition cookiesFor (domain : string) (s : store) : list string :=
  flat_map (fun e => if serves domain (fst e) then List.map render (snd e) else []) s.

(** [get(url)]. *)
Definition get (url : string) (s : store) : Res string :=
  match parseUrl url with
  | None => Throw "Invalid URL"
  | Some u => Ok (String.concat "; " (cookiesFor (hostname u) s))
  end.

(** [clear()]. *)
Definition clear (s : store) : store := [].

End WithUrl.

(** The value the last header of [arr] naming [name] assigns to it. *)
Definition lastValue (name : string) (arr : list string) : option string :=
  fold_left (fun acc raw =>
               match parseCookie raw with
               | Some (n, v) => if String.eqb n name then Some v else acc
               | None => acc
               end) arr None.

End CookieJar.

(** ** SmartProxyManager ([src/http-engine.js], lines 350-426) *)

Module SmartProxyManager.

(** One entry of [this.proxies].  Latencies are rationals: every finite
    double is one, and [getNext] only compares them; the rolling average of
    [reportSuccess] is computed without the rounding of the code's
    doubles. *)
Record Proxy : Type := mkProxy {
  url : string;
  index : nat;
  bans : nat;
  lastBan : Z;
  requests : nat;
  avgLatency : Q;
  alive : bool
}.

Definition pool : Type := list Proxy.

Fixpoint createFrom (i : nat) (proxyList : list string) : pool :=
  match proxyList with
  | [] => []
  | p :: rest =>
      {| url := if Str.includes "://" p then p else "http://" ++ p;
         index := i; bans := 0; lastBan := 0%Z; requests := 0;
         avgLatency := 0%Q; alive := true |} :: createFrom (S i) rest
  end.

(** [constructor(proxyList)]. *)
Definition create (proxyList : list string) : pool := createFrom 0 proxyList.

(** The filter of [getNext]: alive and outside the 30 s ban cooldown. *)
Definition available (now : Z) (p : Proxy) : bool :=
  alive p && (now - lastBan p >? 30000)%Z.

(** The sign of the comparator passed to [alive.sort]. *)
Definition cmp (a b : Proxy) : comparison :=
  if Nat.eqb (bans a) (bans b)
  then Qcompare (avgLatency a) (avgLatency b)
  else Nat.compare (bans a) (bans b).

Definition leb (a b : Proxy) : bool :=
  match cmp a b with Gt => false | _ => true end.

(** [Array.prototype.sort] is stable; on a list it is insertion from the
    right, an element staying before the ones it does not exceed. *)
Fixpoint insert (x : nat * Proxy) (l : list (nat * Proxy)) : list (nat * Proxy) :=
  match l with
  | [] => [x]
  | y :: l' => if leb (snd x) (snd y) then x :: l else y :: insert x l'
  end.

Definition sort (l : list (nat * Proxy)) : list (nat * Proxy) :=
  fold_right insert [] l.

(** The entries of the pool with their positions: [alive] holds references
    to the pool's own objects. *)
Fixpoint positionsFrom (i : nat) (s : pool) : list (nat * Proxy) :=
  match s with
  | [] => []
  | p :: rest => (i, p) :: positionsFrom (S i) rest
  end.

Definition positions (s : pool) : list (nat * Proxy) := positionsFrom 0 s.

Definition candidates (now : Z) (s : pool) : list (nat * Proxy) :=
  List.filter (fun ip => available now (snd ip)) (positions s).

Definition revive (p : Proxy) : Proxy :=
  {| url := url p; index := index p; bans := 0; lastBan := lastBan p;
     requests := requests p; avgLatency := avgLatency p; alive := true |}.

Definition used (p : Proxy) : Proxy :=
  {| url := url p; index := index p; bans := bans p; lastBan := lastBan p;
     requests := S (requests p); avgLatency := avgLatency p; alive := alive p |}.

Fixpoint setAt (i : nat) (q : Proxy) (s : pool) {struct s} : pool :=
  match s, i with
  | [], _ => []
  | _ :: rest, O => q :: rest
  | p :: rest, S k => p :: setAt k q rest
  end.

(** [getNext()] at time [now]: the position and the state of the returned
    entry ([None] is [null]), and the pool afterwards. *)
Definition getNext (now : Z) (s : pool) : option (nat * Proxy) * pool :=
  match s with
  | [] => (None, s)
  | _ :: _ =>
      match candidates now s with
      | [] =>
          let s' := List.map revive s in
          (match s' with p0 :: _ => Some (0, p0) | [] => None end, s')
      | c :: _ =>
          let (i, p) := hd c (sort (candidates now s)) in
          (Some (i, used p), setAt i (used p) s)
      end
  end.

Definition banned (now : Z) (p : Proxy) : Proxy :=
  {| url := url p; index := index p; bans := S (bans p); lastBan := now;
     requests := requests p; avgLatency := avgLatency p;
     alive := if 3 <=? S (bans p) then false else alive p |}.

(** [reportBan(proxyUrl)] at time [now]: the first entry with that URL. *)
Fixpoint reportBan (proxyUrl : string) (now : Z) (s : pool) : pool :=
  match s with
  | [] => []
  | p :: rest =>
      if String.eqb (url p) proxyUrl then banned now p :: rest
      else p :: reportBan proxyUrl now rest
  end.

Definition measured (latencyMs : Q) (p : Proxy) : Proxy :=
  {| url := url p; index := index p; bans := bans p; lastBan := lastBan p;
     requests := requests p;
     avgLatency := if Qeq_bool (avgLatency p) 0 then latencyMs
                   else (avgLatency p * (7 # 10) + latencyMs * (3 # 10))%Q;
     alive := alive p |}.

(** [reportSuccess(proxyUrl, latencyMs)]. *)
Fixpoint reportSuccess (proxyUrl : string) (latencyMs : Q) (s : pool) : pool :=
  match s with
  | [] => []
  | p :: rest =>
      if String.eqb (url p) proxyUrl then measured latencyMs p :: rest
      else p :: reportSuccess proxyUrl latencyMs rest
  end.

(** The position [proxies.find(p => p.url === proxyUrl)] selects. *)
Fixpoint findPos (proxyUrl : string) (s : pool) : option nat :=
  match s with
  | [] => None
  | p :: rest =>
      if String.eqb (url p) proxyUrl then Some 0
      else option_map S (findPos proxyUrl rest)
  end.

(** Calls on one manager, in program order. *)
Inductive Call : Type :=
| ReportBan (proxyUrl : string) (now : Z)
| ReportSuccess (proxyUrl : string) (latencyMs : Q)
| GetNext (now : Z).

Definition step (s : pool) (c : Call) : pool :=
  match c with
  | ReportBan u now => reportBan u now s
  | ReportSuccess u ms => reportSuccess u ms s
  | GetNext now => snd (getNext now s)
  end.

Definition run (cs : list Call) (s : pool) : pool := fold_left step cs s.

(** Whether some [getNext] of the calls found no available identity and
    reset the pool. *)
Fixpoint resets (cs : list Call) (s : pool) : bool :=
  match cs with
  | [] => false
  | c :: rest =>
      match c with
      | GetNext now =>
          match candidates now s with [] => true | _ => false end
      | _ => false
      end || resets rest (step s c)
  end.

Fixpoint countBans (proxyUrl : string) (cs : list Call) : nat :=
  match cs with
  | [] => 0
  | ReportBan u _ :: rest =>
      (if String.eqb u proxyUrl then 1 else 0) + countBans proxyUrl rest
  | _ :: rest => countBans proxyUrl rest
  end.

End SmartProxyManager.

(** ** Addresses *)

(** A checkout address: the keys the code reads, each [None] when the
    property is absent. *)
Record Address : Type := mkAddress {
  email : option string;
  firstName : option string;
  lastName : option string;
  address : option string;
  address2 : option string;
  city : option string;
  county : option string;
  state : option string;
  zip : option string;
  country : option string;
  phone : option string
}.

(** [{}]. *)
Definition emptyAddress : Address :=
  mkAddress None None None None None None None None None None None.


(** [variants[n % variants.length]]. *)
Definition pick (n : nat) (variants : list string) : string :=
  nth (n mod List.length variants) variants "".

(** ** AddressJigger ([src/fleet-runner.js], lines 391-632) *)

Module AddressJigger.

Definition table : Type := list (string * list string).

(** The own property [k] of a table. *)
Fixpoint tableGet (k : string) (t : table) : option (list string) :=
  match t with
  | [] => None
  | (k', v) :: t' => if String.eqb k' k then Some v else tableGet k t'
  end.

(** What [TABLE[k]] yields: the variants of an own key, the built-in
    object a name inherited from [Object.prototype] stands for, or
    [undefined]. *)
Inductive Entry : Type :=
| Variants (variants : list string)
| Builtin
| Missing.

Definition tableLookup (k : string) (t : table) : Entry :=
  match tableGet k t with
  | Some variants => Variants variants
  | None => if Obj.inherited k then Builtin else Missing
  end.

(** The [TypeError] of calling [method] on [undefined]. *)
Definition undefinedHas {A : Type} (method : string) : Res A :=
  Throw ("Cannot read properties of undefined (reading '" ++ method ++ "')").

Definition street4 : list string := ["street"; "st"; "st."; "str"].
Definition road3 : list string := ["road"; "rd"; "rd."].
Definition avenue4 : list string := ["avenue"; "ave"; "ave."; "av"].
Definition drive3 : list string := ["drive"; "dr"; "dr."].
Definition lane3 : list string := ["lane"; "ln"; "ln."].
Definition close3 : list string := ["close"; "cl"; "cl."].
Definition court3 : list string := ["court"; "ct"; "ct."].
Definition place3 : list string := ["place"; "pl"; "pl."].

Definition STREET_TYPES : table :=
  [ ("street", street4); ("st", street4); ("st.", street4);
    ("road", road3); ("rd", road3); ("rd.", road3);
    ("avenue", avenue4); ("ave", avenue4); ("ave.", avenue4);
    ("drive", drive3); ("dr", drive3);
    ("lane", lane3); ("ln", lane3);
    ("close", close3); ("cl", close3);
    ("court", court3); ("ct", court3);
    ("place", place3); ("pl", place3);
    ("terrace", ["terrace"; "terr"; "ter"]);
    ("crescent", ["crescent"; "cres"; "cr"]);
    ("gardens", ["gardens"; "gdns"; "gdn"]);
    ("grove", ["grove"; "gr"; "grv"]);
    ("way", ["way"; "wy"]);
    ("park", ["park"; "pk"]);
    ("hill", ["hill"; "hl"]);
    ("square", ["square"; "sq"; "sq."]);
    ("boulevard", ["boulevard"; "blvd"; "blvd."]) ].

Definition flat5 : list string := ["flat"; "fl"; "flt"; "unit"; "apt"].

Definition UNIT_PREFIXES : table :=
  [ ("flat", flat5); ("fl", flat5); ("flt", flat5);
    ("unit", ["unit"; "flat"; "fl"; "apt"]);
    ("apt", ["apt"; "apt."; "apartment"; "flat"; "unit"]);
    ("apartment", ["apartment"; "apt"; "apt."; "flat"; "unit"]) ].

Definition DIRECTIONS : table :=
  [ ("north", ["north"; "n"; "n."]); ("n", ["north"; "n"; "n."]);
    ("south", ["south"; "s"; "s."]); ("s", ["south"; "s"; "s."]);
    ("east", ["east"; "e"; "e."]); ("e", ["east"; "e"; "e."]);
    ("west", ["west"; "w"; "w."]); ("w", ["west"; "w"; "w."]) ].

Definition isDot (c : ascii) : bool := Ascii.eqb c ".".
Definition isDotComma (c : ascii) : bool := Ascii.eqb c "." || Ascii.eqb c ",".
Definition notLineTerminator (c : ascii) : bool := negb (Str.isLineTerminator c).
Definition notDigit (c : ascii) : bool := negb (Str.isDigit c).
Definition notSpace (c : ascii) : bool := negb (Str.isSpace c).

Fixpoint takeWhile (p : ascii -> bool) (s : string) : string :=
  match s with
  | EmptyString => EmptyString
  | String c t => if p c then String c (takeWhile p t) else EmptyString
  end.

(** [s.replace(/[p]$/, "")]: one trailing character, when it satisfies [p]. *)
Fixpoint dropLastIf (p : ascii -> bool) (s : string) : string :=
  match s with
  | EmptyString => EmptyString
  | String c EmptyString => if p c then EmptyString else s
  | String c t => String c (dropLastIf p t)
  end.

(** Group 2 of [\s+(.+)] matched at the start of [s]: the whitespace run is
    as long as a following non-terminator character allows. *)
Fixpoint spacesThenRest (s : string) : option string :=
  match s with
  | EmptyString => None
  | String c t =>
      if Str.isSpace c then
        match spacesThenRest t with
        | Some r => Some r
        | None =>
            match t with
            | EmptyString => None
            | String d _ =>
                if Str.isLineTerminator d then None
                else Some (takeWhile notLineTerminator t)
            end
        end
      else None
  end.

(** [s.match(/^(\d+)\s+(.+)/)]: groups 1 and 2. *)
Definition matchStreetNumber (s : string) : option (string * string) :=
  let num := takeWhile Str.isDigit s in
  if Str.truthy num then
    match spacesThenRest (Str.drop (String.length num) s) with
    | Some rest => Some (num, rest)
    | None => None
    end
  else None.

(** [s.split(/\s+/)]. *)
Fixpoint splitWs (s : string) : list string :=
  match s with
  | EmptyString => [EmptyString]
  | String c t =>
      let r := splitWs t in
      if Str.isSpace c then
        match t with
        | String d _ => if Str.isSpace d then r else EmptyString :: r
        | EmptyString => EmptyString :: r
        end
      else
        match r with
        | w :: ws => String c w :: ws
        | [] => [String c EmptyString]
        end
  end.

(** [p.charAt(0).toUpperCase() + p.slice(1)]. *)
Definition capitalize (p : string) : string :=
  Str.toUpperCase (Str.charAt0 p) ++ Str.drop 1 p.

(** [w[0] === w[0].toUpperCase()]. *)
Definition firstIsUpper (w : string) : bool :=
  String.eqb (Str.charAt0 w) (Str.toUpperCase (Str.charAt0 w)).

(** The word [w] selects a built-in object in a table whose keys are
    stripped by [strip]. *)
Definition namesBuiltin (strip : ascii -> bool) (w : string) : bool :=
  Obj.inherited (dropLastIf strip (Str.toLowerCase w)).

(** One replacement step of the word loop on [words[i]], [None] being an
    element left [undefined]: a table hit puts the variant in the case of
    the word's first character.  A built-in object has no variants: [pick]
    is [undefined], its [charAt] throws, and a lower-case word is replaced
    by [undefined]. *)
Definition replaceFrom (t : table) (strip : ascii -> bool) (n : nat) (w : option string)
  : Res (option string) :=
  match w with
  | None => undefinedHas "toLowerCase"
  | Some w =>
      match tableLookup (dropLastIf strip (Str.toLowerCase w)) t with
      | Variants variants =>
          Ok (Some (if firstIsUpper w then capitalize (pick n variants)
                    else pick n variants))
      | Builtin => if firstIsUpper w then undefinedHas "charAt" else Ok None
      | Missing => Ok (Some w)
      end
  end.

(** The body of the loop over [words] at index [i]. *)
Definition jigWord (seed i : nat) (w : string) : Res (option string) :=
  rbind (replaceFrom STREET_TYPES isDotComma (seed + i) (Some w))
        (replaceFrom DIRECTIONS isDot (seed + i + 1)).

Fixpoint jigWords (seed i : nat) (words : list string) : Res (list (option string)) :=
  match words with
  | [] => Ok []
  | w :: rest =>
      rbind (jigWord seed i w) (fun w' =>
      rbind (jigWords seed (S i) rest) (fun rest' => Ok (w' :: rest')))
  end.

(** [words.join(" ")]: an [undefined] element reads as the empty string. *)
Definition joinWords (words : list (option string)) : string :=
  String.concat " " (List.map (fun w => match w with Some x => x | None => "" end) words).

(** The street number step of [_jigStreetAddress]. *)
Definition numbered (addr : string) (seed : nat) : string :=
  match matchStreetNumber addr with
  | Some (num, rest) =>
      pick seed [num; num ++ "."; "0" ++ num; "#" ++ num] ++ " " ++ rest
  | None => addr
  end.

(** The case and punctuation steps of [_jigStreetAddress]. *)
Definition finished (result : string) (seed : nat) : string :=
  let result :=
    if seed mod 5 =? 1 then Str.toUpperCase result
    else if seed mod 5 =? 2 then Str.toLowerCase result
    else result in
  if (seed mod 3 =? 1) && negb (Str.endsWith "." result) then result ++ "."
  else if seed mod 3 =? 2 then Str.dropWhileEnd isDotComma result
  else result.

Definition _jigStreetAddress (addr : string) (seed : nat) : Res string :=
  if negb (Str.truthy addr) then Ok addr else
  rbind (jigWords seed 0 (splitWs (numbered addr seed)))
        (fun words => Ok (finished (joinWords words) seed)).

(** [s.replace(/(\D)\s+(\d)/, "$1$2")]: the first match only. *)
Fixpoint closeUp (s : string) : string :=
  match s with
  | EmptyString => EmptyString
  | String c t =>
      let after := Str.dropWhile Str.isSpace t in
      if notDigit c &&
         match t with String d _ => Str.isSpace d | EmptyString => false end &&
         match after with String d _ => Str.isDigit d | EmptyString => false end
      then String c after
      else String c (closeUp t)
  end.

(** [s.replace(/(\D)(\d)/, "$1 $2")]: the first match only. *)
Fixpoint spaceOut (s : string) : string :=
  match s with
  | EmptyString => EmptyString
  | String c t =>
      match t with
      | String d _ =>
          if notDigit c && Str.isDigit d then String c (String " " t)
          else String c (spaceOut t)
      | EmptyString => s
      end
  end.

(** The unit prefix step of [_jigAddressLine2]; [pick.charAt(0)] throws
    on the [undefined] a built-in object yields. *)
Definition prefixed (addr2 : string) (seed : nat) : Res (list string) :=
  match splitWs addr2 with
  | w :: rest =>
      match tableLookup (dropLastIf isDotComma (Str.toLowerCase w)) UNIT_PREFIXES with
      | Variants variants => Ok (capitalize (pick seed variants) :: rest)
      | Builtin => undefinedHas "charAt"
      | Missing => Ok (w :: rest)
      end
  | [] => Ok []
  end.

(** The spacing and case steps of [_jigAddressLine2]. *)
Definition spaced (result : string) (seed : nat) : string :=
  let result := if seed mod 4 =? 1 then closeUp result else result in
  let result := if seed mod 4 =? 2 then spaceOut result else result in
  if seed mod 6 =? 3 then Str.toUpperCase result
  else if seed mod 6 =? 4 then Str.toLowerCase result
  else result.

Definition _jigAddressLine2 (addr2 addr1 : string) (seed : nat) : Res string :=
  if negb (Str.truthy addr2) then Ok (pick seed [""; "."; ","; "-"]) else
  rbind (prefixed addr2 seed)
        (fun words => Ok (spaced (String.concat " " words) seed)).

Definition initialUpper (name : string) : string :=
  Str.toUpperCase (Str.charAt0 name).

Definition normalized (name : string) : string :=
  initialUpper name ++ Str.toLowerCase (Str.drop 1 name).

Definition _jigFirstName (name : string) (seed : nat) : string :=
  if negb (Str.truthy name) then name else
  pick seed [ name; initialUpper name ++ "."; initialUpper name;
              Str.toUpperCase name; Str.toLowerCase name; normalized name ].

Definition _jigLastName (name : string) (seed : nat) : string :=
  if negb (Str.truthy name) then name else
  pick seed [ name; Str.toUpperCase name; Str.toLowerCase name; normalized name ].

(** [s.slice(-a)]. *)
Definition lastN (a : nat) (s : string) : string :=
  Str.drop (String.length s - a) s.

(** [s.slice(0, -n)]. *)
Definition dropLastN (n : nat) (s : string) : string :=
  Str.take (String.length s - n) s.

(** [s.slice(-a, -b)]. *)
Definition sliceEnd (a b : nat) (s : string) : string :=
  Str.take ((String.length s - b) - (String.length s - a))
           (Str.drop (String.length s - a) s).

Definition _jigPostcode (zip : string) (seed : nat) : string :=
  if negb (Str.truthy zip) then zip else
  let clean := Str.toUpperCase (Str.filter notSpace zip) in
  pick seed [ zip; clean;
              if 3 <? String.length clean
              then dropLastN 3 clean ++ " " ++ lastN 3 clean
              else clean;
              Str.toLowerCase zip; Str.toLowerCase clean ].

Definition _jigCity (city : string) (seed : nat) : string :=
  if negb (Str.truthy city) then city else
  pick seed [ city; Str.toUpperCase city; Str.toLowerCase city; normalized city ].

Definition _jigPhone (phone : string) (seed : nat) : string :=
  if negb (Str.truthy phone) then phone else
  let digits := Str.filter Str.isDigit phone in
  if String.length digits <? 10 then phone else
  pick seed [ phone; digits;
              if Str.startsWith "44" digits then "0" ++ Str.drop 2 digits else digits;
              "+44 " ++ sliceEnd 10 7 digits ++ " " ++ sliceEnd 7 4 digits ++ " " ++
                lastN 4 digits;
              "0" ++ sliceEnd 10 6 digits ++ " " ++ lastN 6 digits;
              "(0" ++ sliceEnd 10 7 digits ++ ") " ++ lastN 7 digits ].

(** Some character of [s] is neither a full stop nor a comma. *)
Definition hasStreetText (s : string) : bool :=
  Str.existsb (fun c => negb (isDotComma c)) s.


(** [x || ''] for a property that may be absent. *)
Definition orEmpty (o : option string) : string := Str.orElse o "".

(** [AddressJigger.jig(address, index)]; reading a property of an
    [undefined] address throws, and so does a word that selects a built-in
    object in one of the tables. *)
Definition jig (addr : option Address) (index : nat) : Res Address :=
  match index, addr with
  | O, Some a => Ok a
  | O, None => Ok emptyAddress
  | S _, None => undefinedHas "address"
  | S _, Some a =>
      let seed := index in
      rbind (_jigStreetAddress (orEmpty (address a)) seed) (fun line1 =>
      rbind (_jigAddressLine2 (orEmpty (address2 a)) (orEmpty (address a)) seed)
            (fun line2 =>
      Ok {| email := email a;
            firstName := Some (_jigFirstName (orEmpty (firstName a)) seed);
            lastName := Some (_jigLastName (orEmpty (lastName a)) seed);
            address := Some line1;
            address2 := Some line2;
            city := Some (_jigCity (orEmpty (city a)) seed);
            county := county a;
            state := state a;
            zip := Some (_jigPostcode (orEmpty (zip a)) seed);
            country := country a;
            phone := Some (_jigPhone (orEmpty (phone a)) seed) |}))
  end.

(** The fields [jig] rewrites are ASCII text. *)
Definition asciiAddress (a : Address) : bool :=
  Str.oisAscii (firstName a) && Str.oisAscii (lastName a) &&
  Str.oisAscii (address a) && Str.oisAscii (address2 a) &&
  Str.oisAscii (city a) && Str.oisAscii (zip a) && Str.oisAscii (phone a).

(** Some word that [jig] looks up at index [seed] selects a built-in
    object: a word of the street address, as the word loop meets it after
    the street number step, or the first word of address line 2. *)
Definition meetsBuiltin (a : Address) (seed : nat) : bool :=
  List.existsb (namesBuiltin isDotComma)
               (splitWs (numbered (orEmpty (address a)) seed)) ||
  match splitWs (orEmpty (address2 a)) with
  | w :: _ => namesBuiltin isDotComma w
  | [] => false
  end.

(** *** Conditions on the tables *)

(** No key of the table [t] is an inherited name. *)
Definition ownKeysPlain (t : table) : bool :=
  List.forallb (fun k => negb (Obj.inherited k)) (List.map fst t).

(** Every variant a table offers, as it is or capitalised, satisfies [p]. *)
Definition rowsSatisfy (p : string -> bool) (t : table) : bool :=
  List.forallb (fun row => negb (Nat.eqb (List.length row) 0) &&
                           List.forallb (fun v => p v && p (capitalize v)) row)
               (List.map snd t).

(** The conjunction of [p] with selecting no built-in object in
    [DIRECTIONS]. *)
Definition andPlain (p : string -> bool) (v : string) : bool :=
  p v && negb (namesBuiltin isDot v).

End AddressJigger.

(** ** Numbers in messages *)

Module Fmt.

Definition ofNat (n : nat) : string := NilZero.string_of_uint (Nat.to_uint n).

Definition ofZ (z : Z) : string := NilZero.string_of_int (Z.to_int z).

(** A JavaScript number: an IEEE 754 double. *)
Definition double : Type := spec_float.

(** The double nearest to an integer; an integer below [2^53] in absolute
    value, such as a time in milliseconds, is that double. *)
Definition ofInt (z : Z) : double := binary_normalize 53 1024 z 0 false.

(** [x / y]. *)
Definition divide (x y : double) : double := SFdiv 53 1024 x y.

Fixpoint zeros (n : nat) : string :=
  match n with
  | O => EmptyString
  | S k => String "0" (zeros k)
  end.

(** The decimal text of [n >= 0] with a point before its last [digits]
    digits. *)
Definition pointed (n : Z) (digits : nat) : string :=
  let text := ofZ n in
  let text := (zeros (S digits - String.length text) ++ text)%string in
  if digits =? 0 then text
  else (Str.take (String.length text - digits) text ++ "." ++
        Str.drop (String.length text - digits) text)%string.

(** [x.toFixed(digits)]: the integer [n] for which [n / 10^digits] is
    nearest to the exact value of [x], the larger one of two.  (A value of
    [10^21] or more, which JavaScript prints with an exponent, does not
    arise from a difference of clock readings.) *)
Definition toFixed (digits : nat) (x : double) : string :=
  match x with
  | S754_nan => "NaN"
  | S754_infinity s => if s then "-Infinity" else "Infinity"
  | S754_zero _ => pointed 0 digits
  | S754_finite s m e =>
      let scaled := (Z.pos m * 10 ^ Z.of_nat digits)%Z in
      let n := if (0 <=? e)%Z then (scaled * 2 ^ e)%Z
               else ((2 * scaled + 2 ^ (- e)) / (2 * 2 ^ (- e)))%Z in
      ((if s then "-" else "") ++ pointed n digits)%string
  end.

(** [(num / den).toFixed(digits)] for integers [num] and [den]. *)
Definition quotientFixed (digits : nat) (num den : Z) : string :=
  toFixed digits (divide (ofInt num) (ofInt den)).

End Fmt.

(** ** JavaScript values read from JSON *)

(** A parsed JSON document.  Numbers are integers. *)
Inductive json : Type :=
| JNull
| JBool (b : bool)
| JNum (n : Z)
| JStr (s : string)
| JArr (items : list json)
| JObj (fields : list (string * json)).

(** A value that may be [undefined]. *)
Definition jsval : Type := option json.

Module J.

Definition typeError {A : Type} (what : string) : Res A :=
  Throw ("TypeError: " ++ what).

(** [v.k]: reading a property of [undefined] or [null] throws. *)
Definition get (k : string) (v : jsval) : Res jsval :=
  match v with
  | None => typeError ("Cannot read properties of undefined (reading '" ++ k ++ "')")
  | Some JNull => typeError ("Cannot read properties of null (reading '" ++ k ++ "')")
  | Some (JObj fs) => Ok (Dict.lookup k fs)
  | Some (JArr l) =>
      Ok (if String.eqb k "length" then Some (JNum (Z.of_nat (List.length l))) else None)
  | Some (JStr s) =>
      Ok (if String.eqb k "length" then Some (JNum (Z.of_nat (String.length s))) else None)
  | Some _ => Ok None
  end.

(** [v?.k]. *)
Definition opt (k : string) (v : jsval) : Res jsval :=
  match v with
  | None | Some JNull => Ok None
  | _ => get k v
  end.

(** Truthiness. *)
Definition truthy (v : jsval) : bool :=
  match v with
  | None | Some JNull => false
  | Some (JBool b) => b
  | Some (JNum n) => negb (n =? 0)%Z
  | Some (JStr s) => Str.truthy s
  | Some _ => true
  end.

(** [a || b]. *)
Definition or (a b : jsval) : jsval := if truthy a then a else b.

(** [v.length > 0], the comparison being false on a missing length (and,
    in the model, on a [length] property that is not a number). *)
Definition lengthPositive (v : jsval) : bool :=
  match v with
  | Some (JArr l) => negb (Nat.eqb (List.length l) 0)
  | Some (JStr s) => Str.truthy s
  | Some (JObj fs) =>
      match Dict.lookup "length" fs with
      | Some (JNum n) => (0 <? n)%Z
      | _ => false
      end
  | _ => false
  end.

Fixpoint chars (s : string) : list json :=
  match s with
  | EmptyString => []
  | String c t => JStr (String c EmptyString) :: chars t
  end.

(** The values a [for ... of] loop visits; other values are not iterable. *)
Definition items (v : jsval) : Res (list jsval) :=
  match v with
  | Some (JArr l) => Ok (List.map Some l)
  | Some (JStr s) => Ok (List.map Some (chars s))
  | _ => typeError "value is not iterable"
  end.

(** [v[0]]. *)
Definition first (v : jsval) : Res jsval :=
  match v with
  | None => typeError "Cannot read properties of undefined (reading '0')"
  | Some JNull => typeError "Cannot read properties of null (reading '0')"
  | Some (JArr l) => Ok (List.hd_error l)
  | Some (JStr s) => Ok (List.hd_error (chars s))
  | Some (JObj fs) => Ok (Dict.lookup "0" fs)
  | Some _ => Ok None
  end.

(** The text of a value inside a template literal or a concatenation. *)
Fixpoint text (j : json) : string :=
  match j with
  | JNull => "null"
  | JBool true => "true"
  | JBool false => "false"
  | JNum n => Fmt.ofZ n
  | JStr s => s
  | JArr l =>
      String.concat "," (List.map (fun x => match x with JNull => "" | _ => text x end) l)
  | JObj _ => "[object Object]"
  end.

Definition show (v : jsval) : string :=
  match v with
  | None => "undefined"
  | Some j => text j
  end.

(** [v.toString()]. *)
Definition toString (v : jsval) : Res string :=
  match v with
  | None => typeError "Cannot read properties of undefined (reading 'toString')"
  | Some JNull => typeError "Cannot read properties of null (reading 'toString')"
  | Some j => Ok (text j)
  end.

(** The receiver of a string method ([toLowerCase], [includes], ...). *)
Definition str (v : jsval) : Res string :=
  match v with
  | Some (JStr s) => Ok s
  | None => typeError "Cannot read properties of undefined"
  | Some JNull => typeError "Cannot read properties of null"
  | Some _ => typeError "not a function"
  end.

(** An array receiver ([find], [sort], [map]). *)
Definition array (v : jsval) : Res (list json) :=
  match v with
  | Some (JArr l) => Ok l
  | None => typeError "Cannot read properties of undefined"
  | Some JNull => typeError "Cannot read properties of null"
  | Some _ => typeError "not a function"
  end.

End J.

(** ** Services of the JavaScript runtime *)

(** The regular expressions of [src/fast-checkout.js] whose first capture
    group the code reads. *)
Inductive Pattern : Type :=
| AuthToken (i : nat)          (* the 12 patterns of [extractAuthToken], in order *)
| PaymentGateway (i : nat)     (* the 4 patterns of [extractPaymentGateway] *)
| CheckoutsInUrl               (* /\/checkouts\/([a-z0-9]+)/i *)
| CheckoutInUrl                (* /\/checkout\/([a-z0-9]+)/i *)
| CheckoutTokenInPage          (* /Shopify\.Checkout\.token\s*=\s*[...]/ *)
| PollUrl                      (* /pollUrl\s*[:=]\s*[...]/ *)
| QueueUrl                     (* /queue_url\s*[:=]\s*[...]/ *)
| CheckoutPathInBody           (* /\/checkouts?\/([a-z0-9]+)/i *)
| StorefrontToken (i : nat).   (* the 4 patterns of [graphqlCheckout], in order *)

Class Runtime : Type := {
  (** [new URL(s)]; [None] when it throws. *)
  parseUrl : string -> option Url;
  (** [new URL(rel, base)]; [None] when it throws. *)
  resolveUrl : string -> string -> option Url;
  (** [JSON.parse(s)]; [None] when it throws. *)
  parseJSON : string -> option json;
  (** [s.match(p)[1]] for the first match of [p]; [None] without a match. *)
  capture : Pattern -> string -> option string;
  (** Group 1 of every match of the shipping-rate pattern, in order. *)
  shippingRateIds : string -> list string;
  encodeURIComponent : string -> string;
  (** [parseInt(s)]; [None] is [NaN]. *)
  parseInt : string -> option Z;
  (** [parseFloat(s)]; [None] is [NaN]. *)
  parseFloat : string -> option Q
}.

(** ** FastCheckout: the session object ([src/fast-checkout.js], lines 101-143) *)

Module FastCheckout.

Inductive LogType : Type := info | success | error.

(** A log entry.  [message] is the text passed to [log]; the wall-clock
    [timestamp] and the elapsed-time prefix are left out. *)
Record LogEntry : Type := mkLog { ltype : LogType; message : string }.

(** [generateFingerprint()]'s result. *)
Record Fingerprint : Type := mkFingerprint {
  sec_ch_ua : string;
  sec_ch_ua_mobile : string;
  sec_ch_ua_platform : string;
  accept_encoding : string
}.

(** The fields of a [FastCheckout] instance that the modelled methods read
    or write.  [prePaymentToken], [baseUrl] and [proxyAgent] are [undefined]
    until assigned.  [useH2] holds a boolean or, after a snapshot with
    [useH2: null] was restored, [null] ([None]).  The connection cache and the timing samples of the
    instance's [HttpEngine] are not part of the state. *)
Record Session : Type := mkSession {
  logs : list LogEntry;
  startTime : option Z;
  jar : CookieJar.store;
  ua : string;
  runId : string;
  authToken : option string;
  paymentGatewayId : option string;
  checkoutToken : option string;
  preCheckoutUrl : option string;
  preShippingDone : bool;
  preShippingRateId : option string;
  prePaymentToken : option string;
  baseUrl : option string;
  useH2 : option bool;
  proxyAgent : option string;
  fingerprint : Fingerprint
}.

Definition set_logs (v : list LogEntry) (s : Session) : Session :=
  {| logs := v; startTime := startTime s; jar := jar s; ua := ua s;
     runId := runId s; authToken := authToken s;
     paymentGatewayId := paymentGatewayId s;
     checkoutToken := checkoutToken s; preCheckoutUrl := preCheckoutUrl s;
     preShippingDone := preShippingDone s;
     preShippingRateId := preShippingRateId s;
     prePaymentToken := prePaymentToken s; baseUrl := baseUrl s;
     useH2 := useH2 s; proxyAgent := proxyAgent s;
     fingerprint := fingerprint s |}.

Definition set_startTime (v : option Z) (s : Session) : Session :=
  {| logs := logs s; startTime := v; jar := jar s; ua := ua s;
     runId := runId s; authToken := authToken s;
     paymentGatewayId := paymentGatewayId s;
     checkoutToken := checkoutToken s; preCheckoutUrl := preCheckoutUrl s;
     preShippingDone := preShippingDone s;
     preShippingRateId := preShippingRateId s;
     prePaymentToken := prePaymentToken s; baseUrl := baseUrl s;
     useH2 := useH2 s; proxyAgent := proxyAgent s;
     fingerprint := fingerprint s |}.

Definition set_jar (v : CookieJar.store) (s : Session) : Session :=
  {| logs := logs s; startTime := startTime s; jar := v; ua := ua s;
     runId := runId s; authToken := authToken s;
     paymentGatewayId := paymentGatewayId s;
     checkoutToken := checkoutToken s; preCheckoutUrl := preCheckoutUrl s;
     preShippingDone := preShippingDone s;
     preShippingRateId := preShippingRateId s;
     prePaymentToken := prePaymentToken s; baseUrl := baseUrl s;
     useH2 := useH2 s; proxyAgent := proxyAgent s;
     fingerprint := fingerprint s |}.

Definition set_ua (v : string) (s : Session) : Session :=
  {| logs := logs s; startTime := startTime s; jar := jar s; ua := v;
     runId := runId s; authToken := authToken s;
     paymentGatewayId := paymentGatewayId s;
     checkoutToken := checkoutToken s; preCheckoutUrl := preCheckoutUrl s;
     preShippingDone := preShippingDone s;
     preShippingRateId := preShippingRateId s;
     prePaymentToken := prePaymentToken s; baseUrl := baseUrl s;
     useH2 := useH2 s; proxyAgent := proxyAgent s;
     fingerprint := fingerprint s |}.

Definition set_authToken (v : option string) (s : Session) : Session :=
  {| logs := logs s; startTime := startTime s; jar := jar s; ua := ua s;
     runId := runId s; authToken := v;
     paymentGatewayId := paymentGatewayId s;
     checkoutToken := checkoutToken s; preCheckoutUrl := preCheckoutUrl s;
     preShippingDone := preShippingDone s;
     preShippingRateId := preShippingRateId s;
     prePaymentToken := prePaymentToken s; baseUrl := baseUrl s;
     useH2 := useH2 s; proxyAgent := proxyAgent s;
     fingerprint := fingerprint s |}.

Definition set_paymentGatewayId (v : option string) (s : Session) : Session :=
  {| logs := logs s; startTime := startTime s; jar := jar s; ua := ua s;
     runId := runId s; authToken := authToken s; paymentGatewayId := v;
     checkoutToken := checkoutToken s; preCheckoutUrl := preCheckoutUrl s;
     preShippingDone := preShippingDone s;
     preShippingRateId := preShippingRateId s;
     prePaymentToken := prePaymentToken s; baseUrl := baseUrl s;
     useH2 := useH2 s; proxyAgent := proxyAgent s;
     fingerprint := fingerprint s |}.

Definition set_checkoutToken (v : option string) (s : Session) : Session :=
  {| logs := logs s; startTime := startTime s; jar := jar s; ua := ua s;
     runId := runId s; authToken := authToken s;
     paymentGatewayId := paymentGatewayId s; checkoutToken := v;
     preCheckoutUrl := preCheckoutUrl s;
     preShippingDone := preShippingDone s;
     preShippingRateId := preShippingRateId s;
     prePaymentToken := prePaymentToken s; baseUrl := baseUrl s;
     useH2 := useH2 s; proxyAgent := proxyAgent s;
     fingerprint := fingerprint s |}.

Definition set_preCheckoutUrl (v : option string) (s : Session) : Session :=
  {| logs := logs s; startTime := startTime s; jar := jar s; ua := ua s;
     runId := runId s; authToken := authToken s;
     paymentGatewayId := paymentGatewayId s;
     checkoutToken := checkoutToken s; preCheckoutUrl := v;
     preShippingDone := preShippingDone s;
     preShippingRateId := preShippingRateId s;
     prePaymentToken := prePaymentToken s; baseUrl := baseUrl s;
     useH2 := useH2 s; proxyAgent := proxyAgent s;
     fingerprint := fingerprint s |}.

Definition set_preShippingDone (v : bool) (s : Session) : Session :=
  {| logs := logs s; startTime := startTime s; jar := jar s; ua := ua s;
     runId := runId s; authToken := authToken s;
     paymentGatewayId := paymentGatewayId s;
     checkoutToken := checkoutToken s; preCheckoutUrl := preCheckoutUrl s;
     preShippingDone := v; preShippingRateId := preShippingRateId s;
     prePaymentToken := prePaymentToken s; baseUrl := baseUrl s;
     useH2 := useH2 s; proxyAgent := proxyAgent s;
     fingerprint := fingerprint s |}.

Definition set_preShippingRateId (v : option string) (s : Session) : Session :=
  {| logs := logs s; startTime := startTime s; jar := jar s; ua := ua s;
     runId := runId s; authToken := authToken s;
     paymentGatewayId := paymentGatewayId s;
     checkoutToken := checkoutToken s; preCheckoutUrl := preCheckoutUrl s;
     preShippingDone := preShippingDone s; preShippingRateId := v;
     prePaymentToken := prePaymentToken s; baseUrl := baseUrl s;
     useH2 := useH2 s; proxyAgent := proxyAgent s;
     fingerprint := fingerprint s |}.

Definition set_prePaymentToken (v : option string) (s : Session) : Session :=
  {| logs := logs s; startTime := startTime s; jar := jar s; ua := ua s;
     runId := runId s; authToken := authToken s;
     paymentGatewayId := paymentGatewayId s;
     checkoutToken := checkoutToken s; preCheckoutUrl := preCheckoutUrl s;
     preShippingDone := preShippingDone s;
     preShippingRateId := preShippingRateId s; prePaymentToken := v;
     baseUrl := baseUrl s; useH2 := useH2 s; proxyAgent := proxyAgent s;
     fingerprint := fingerprint s |}.

Definition set_baseUrl (v : option string) (s : Session) : Session :=
  {| logs := logs s; startTime := startTime s; jar := jar s; ua := ua s;
     runId := runId s; authToken := authToken s;
     paymentGatewayId := paymentGatewayId s;
     checkoutToken := checkoutToken s; preCheckoutUrl := preCheckoutUrl s;
     preShippingDone := preShippingDone s;
     preShippingRateId := preShippingRateId s;
     prePaymentToken := prePaymentToken s; baseUrl := v; useH2 := useH2 s;
     proxyAgent := proxyAgent s; fingerprint := fingerprint s |}.

Definition set_useH2 (v : option bool) (s : Session) : Session :=
  {| logs := logs s; startTime := startTime s; jar := jar s; ua := ua s;
     runId := runId s; authToken := authToken s;
     paymentGatewayId := paymentGatewayId s;
     checkoutToken := checkoutToken s; preCheckoutUrl := preCheckoutUrl s;
     preShippingDone := preShippingDone s;
     preShippingRateId := preShippingRateId s;
     prePaymentToken := prePaymentToken s; baseUrl := baseUrl s; useH2 := v;
     proxyAgent := proxyAgent s; fingerprint := fingerprint s |}.

Definition set_fingerprint (v : Fingerprint) (s : Session) : Session :=
  {| logs := logs s; startTime := startTime s; jar := jar s; ua := ua s;
     runId := runId s; authToken := authToken s;
     paymentGatewayId := paymentGatewayId s;
     checkoutToken := checkoutToken s; preCheckoutUrl := preCheckoutUrl s;
     preShippingDone := preShippingDone s;
     preShippingRateId := preShippingRateId s;
     prePaymentToken := prePaymentToken s; baseUrl := baseUrl s;
     useH2 := useH2 s; proxyAgent := proxyAgent s; fingerprint := v |}.

(** Truthiness of [this.useH2], which is all the methods test. *)
Definition h2Enabled (s : Session) : bool :=
  match useH2 s with Some b => b | None => false end.

(** [log(message, type)]. *)
Definition pushLog (msg : string) (ty : LogType) (s : Session) : Session :=
  set_logs (logs s ++ [mkLog ty msg])%list s.

(** The double-quote character, for texts that contain it. *)
Definition dq : string := String (ascii_of_nat 34) EmptyString.

Definition quoted (x : string) : string := dq ++ x ++ dq.

Definition UA_POOL : list string :=
  [ "Mozilla/5.0 (Windows NT 10.0; Win64; x64) AppleWebKit/537.36 (KHTML, like Gecko) Chrome/131.0.0.0 Safari/537.36";
    "Mozilla/5.0 (Windows NT 10.0; Win64; x64) AppleWebKit/537.36 (KHTML, like Gecko) Chrome/130.0.0.0 Safari/537.36";
    "Mozilla/5.0 (Macintosh; Intel Mac OS X 10_15_7) AppleWebKit/537.36 (KHTML, like Gecko) Chrome/131.0.0.0 Safari/537.36";
    "Mozilla/5.0 (Macintosh; Intel Mac OS X 10_15_7) AppleWebKit/537.36 (KHTML, like Gecko) Chrome/130.0.0.0 Safari/537.36";
    "Mozilla/5.0 (X11; Linux x86_64) AppleWebKit/537.36 (KHTML, like Gecko) Chrome/131.0.0.0 Safari/537.36";
    "Mozilla/5.0 (Windows NT 10.0; Win64; x64) AppleWebKit/537.36 (KHTML, like Gecko) Chrome/129.0.0.0 Safari/537.36";
    "Mozilla/5.0 (Macintosh; Intel Mac OS X 10_15_7) AppleWebKit/605.1.15 (KHTML, like Gecko) Version/18.2 Safari/605.1.15";
    "Mozilla/5.0 (Windows NT 10.0; Win64; x64; rv:133.0) Gecko/20100101 Firefox/133.0" ].

Definition MOBILE_UA : string :=
  "Mozilla/5.0 (iPhone; CPU iPhone OS 17_2 like Mac OS X) AppleWebKit/605.1.15 (KHTML, like Gecko) Version/17.2 Mobile/15E148 Safari/604.1".

Definition brand (chrome notABrand : string) : string :=
  quoted "Chromium" ++ ";v=" ++ quoted chrome ++ ", " ++
  quoted "Google Chrome" ++ ";v=" ++ quoted chrome ++ ", " ++
  quoted "Not_A Brand" ++ ";v=" ++ quoted notABrand.

(** [FINGERPRINT_PROFILES], already in the shape [generateFingerprint]
    returns. *)
Definition FINGERPRINT_PROFILES : list Fingerprint :=
  [ mkFingerprint (brand "131" "24") "?0" (quoted "Windows") "gzip, deflate, br, zstd";
    mkFingerprint (brand "131" "24") "?0" (quoted "macOS") "gzip, deflate, br, zstd";
    mkFingerprint (brand "130" "99") "?0" (quoted "Windows") "gzip, deflate, br";
    mkFingerprint (brand "130" "99") "?0" (quoted "macOS") "gzip, deflate, br";
    mkFingerprint (brand "129" "8") "?0" (quoted "Windows") "gzip, deflate, br";
    mkFingerprint (brand "131" "24") "?0" (quoted "Linux") "gzip, deflate, br, zstd" ].

(** [new FastCheckout()]; [uaPick] and [fpPick] are the two random
    indices, [rid] the random run id. *)
Definition newSession (uaPick fpPick : nat) (rid : string) : Session :=
  {| logs := []; startTime := None; jar := CookieJar.empty;
     ua := nth (uaPick mod 8) UA_POOL "";
     runId := rid; authToken := None; paymentGatewayId := None;
     checkoutToken := None; preCheckoutUrl := None; preShippingDone := false;
     preShippingRateId := None; prePaymentToken := None; baseUrl := None;
     useH2 := Some true; proxyAgent := None;
     fingerprint := nth (fpPick mod 6) FINGERPRINT_PROFILES
                        (mkFingerprint "" "" "" "") |}.

(** ** Address jigging ([src/fast-checkout.js], lines 588-601) *)

Definition suffixes : list string :=
  [ ""; "Apt 1"; "Apt 2"; "Apt A"; "Apt B"; "Suite 1"; "Unit 1"; "Ste 2"; "#1"; "#2";
    "Apt 3"; "Apt C"; "Suite 3"; "Unit 2"; "Ste 1"; "#3"; "Apt 4"; "Apt D"; "Suite 4"; "Unit 3";
    "Fl 1"; "Fl 2"; "Rm 1"; "Rm 2"; "Box 1"; "Box 2"; "Dept 1"; "Dept 2"; "Bldg A"; "Bldg B";
    "Apt 5"; "Apt E"; "Suite 5"; "Unit 4"; "Ste 3"; "#4"; "Apt 6"; "Apt F"; "Suite 6"; "Unit 5";
    "Fl 3"; "Fl 4"; "Rm 3"; "Rm 4"; "Box 3"; "Box 4"; "Dept 3"; "Dept 4"; "Bldg C"; "Bldg D" ].

(** [jigAddress(details, taskIndex)]; [None] is a falsy [details]. *)
Definition jigAddress (details : option Address) (taskIndex : nat) : option Address :=
  match details, taskIndex with
  | None, _ => details
  | Some _, O => details
  | Some d, S _ =>
      let fn :=
        if (taskIndex mod 3 =? 1) && Str.otruthy (firstName d)
        then Some (Str.charAt0 (Str.orElse (firstName d) "") ++ ".")
        else firstName d in
      let ln :=
        if (taskIndex mod 3 =? 2) && Str.otruthy (lastName d)
        then Some (Str.orElse (lastName d) "" ++ ".")
        else lastName d in
      Some {| email := email d; firstName := fn; lastName := ln;
              address := address d;
              address2 := Some (pick taskIndex suffixes);
              city := city d; county := county d; state := state d;
              zip := zip d; country := country d; phone := phone d |}
  end.

(** ** Session snapshots ([src/fast-checkout.js], lines 1470-1510) *)

(** The object [restoreSession] receives: every key is absent, [null] or
    of the type [serializeSession] writes.  A field is [None] when the key
    is absent or [null], which the code does not tell apart, except for
    [useH2]: there [None] is an absent key and [Some None] is [null]. *)
Record Snapshot : Type := mkSnapshot {
  s_cookies : option CookieJar.store;
  s_ua : option string;
  s_fingerprint : option Fingerprint;
  s_authToken : option string;
  s_paymentGatewayId : option string;
  s_checkoutToken : option string;
  s_preCheckoutUrl : option string;
  s_preShippingDone : option bool;
  s_preShippingRateId : option string;
  s_prePaymentToken : option string;
  s_baseUrl : option string;
  s_useH2 : option (option bool);
  s_savedAt : option Z
}.

(** [serializeSession()] at time [now]. *)
Definition serializeSession (now : Z) (s : Session) : Snapshot :=
  {| s_cookies := Some (jar s); s_ua := Some (ua s);
     s_fingerprint := Some (fingerprint s);
     s_authToken := authToken s; s_paymentGatewayId := paymentGatewayId s;
     s_checkoutToken := checkoutToken s; s_preCheckoutUrl := preCheckoutUrl s;
     s_preShippingDone := Some (preShippingDone s);
     s_preShippingRateId := preShippingRateId s;
     s_prePaymentToken := prePaymentToken s; s_baseUrl := baseUrl s;
     s_useH2 := Some (useH2 s); s_savedAt := Some now |}.

(** [x || null] for an optional string. *)
Definition orNull (o : option string) : option string :=
  if Str.otruthy o then o else None.

(** Truthiness of [data.savedAt]: present and not zero. *)
Definition savedAtTruthy (d : Snapshot) : bool :=
  match s_savedAt d with
  | Some t => negb (t =? 0)%Z
  | None => false
  end.

Definition fourHours : Z := (4 * 60 * 60 * 1000)%Z.

(** The condition of the age check of [restoreSession]. *)
Definition expired (now : Z) (d : Snapshot) : bool :=
  savedAtTruthy d &&
  match s_savedAt d with
  | Some t => (now - t >? fourHours)%Z
  | None => false
  end.

(** The assignments of [restoreSession], lines 1495-1506. *)
Definition loadSnapshot (d : Snapshot) (s : Session) : Session :=
  {| logs := logs s; startTime := startTime s;
     jar := match s_cookies d with Some c => c | None => [] end;
     ua := Str.orElse (s_ua d) (ua s);
     runId := runId s;
     authToken := orNull (s_authToken d);
     paymentGatewayId := orNull (s_paymentGatewayId d);
     checkoutToken := orNull (s_checkoutToken d);
     preCheckoutUrl := orNull (s_preCheckoutUrl d);
     preShippingDone := match s_preShippingDone d with Some b => b | None => false end;
     preShippingRateId := orNull (s_preShippingRateId d);
     prePaymentToken := orNull (s_prePaymentToken d);
     baseUrl := orNull (s_baseUrl d);
     useH2 := match s_useH2 d with Some v => v | None => Some true end;
     proxyAgent := proxyAgent s;
     fingerprint := match s_fingerprint d with Some f => f | None => fingerprint s end |}.

(** [restoreSession(data)] at time [now]: the returned flag and the
    session afterwards. *)
Definition restoreSession (now : Z) (data : option Snapshot) (s : Session)
  : bool * Session :=
  match data with
  | None => (false, s)
  | Some d =>
      if expired now d then
        (false, pushLog "Saved session expired (>4h old). Starting fresh." info s)
      else
        let age := match s_savedAt d with
                   | Some t => if savedAtTruthy d then Fmt.quotientFixed 1 (now - t) 60000 else "?"
                   | None => "?"
                   end in
        (true,
         pushLog ("Session restored (" ++ age ++
                  " min old). Cookies, tokens, fingerprint loaded.") success
                 (loadSnapshot d s))
  end.

(** ** The network, the clock and the effect monad *)

Inductive Transport : Type :=
| H2          (* HttpEngine._requestH2 *)
| Undici      (* HttpEngine._requestUndici, HTTP/1.1 *)
| NodeFetch   (* node-fetch, HTTP/1.1 *)
| Smtp.       (* nodemailer *)

(** A GraphQL document of [graphqlCheckout], by the values it interpolates. *)
Inductive GqlQuery : Type :=
| CheckoutCreate (variantId : string) (details : Address)
| ShippingLineUpdate (checkoutId handle : string).

(** A request body before serialisation. *)
Inductive Payload : Type :=
| NoBody
| Text (s : string)
| Form (fields : list (string * string))      (* URLSearchParams *)
| JsonBody (j : json)                         (* JSON.stringify(j) *)
| Gql (q : GqlQuery).                         (* JSON.stringify({ query }) *)

(** One transport attempt.  [tokenHeld] is [this.authToken] at that moment. *)
Record Event : Type := mkEvent {
  transport : Transport;
  method : string;
  target : string;
  headers : Dict.dict string;
  payload : Payload;
  tokenHeld : option string
}.

Record Response : Type := mkResponse {
  status : nat;
  location : option string;
  setCookie : list string;
  body : string
}.

(** [res.ok]. *)
Definition ok (r : Response) : bool := (200 <=? status r) && (status r <? 300).

(** What one transport attempt meets, and how long it takes (ms). *)
Inductive Outcome : Type :=
| Responded (r : Response)
| Failed (msg : string).

(** The state a method runs in: the instance, the scripted outcomes of the
    transport attempts still to come (an exhausted script refuses every
    connection), the clock ([Date.now()]) and the values [Math.random]
    will yield, as integers. *)
Record St : Type := mkSt {
  sess : Session;
  script : list (nat * Outcome);
  clock : Z;
  draws : list nat
}.

Definition M (A : Type) : Type := St -> Res A * St * list Event.

Definition ret {A : Type} (a : A) : M A := fun st => (Ok a, st, []).

Definition throw {A : Type} (msg : string) : M A := fun st => (Throw msg, st, []).

Definition bind {A B : Type} (m : M A) (f : A -> M B) : M B :=
  fun st =>
    match m st with
    | (Ok a, st1, e1) =>
        match f a st1 with
        | (r, st2, e2) => (r, st2, (e1 ++ e2)%list)
        end
    | (Throw msg, st1, e1) => (Throw msg, st1, e1)
    end.

(** [try { m } catch (err) { handler(err.message) }]. *)
Definition tryCatch {A : Type} (m : M A) (handler : string -> M A) : M A :=
  fun st =>
    match m st with
    | (Throw msg, st1, e1) =>
        match handler msg st1 with
        | (r, st2, e2) => (r, st2, (e1 ++ e2)%list)
        end
    | done => done
    end.

Declare Scope monad_scope.
Delimit Scope monad_scope with monad.
Notation "x <- m ;; k" := (bind m (fun x => k))
  (at level 61, m at next level, right associativity) : monad_scope.
Notation "' pat <- m ;; k" := (bind m (fun x => let 'pat := x in k))
  (at level 61, pat pattern, m at next level, right associativity) : monad_scope.
Notation "m ;;; k" := (bind m (fun _ => k))
  (at level 61, right associativity) : monad_scope.
Local Open Scope monad_scope.

Definition lift {A : Type} (r : Res A) : M A :=
  match r with
  | Ok a => ret a
  | Throw msg => throw msg
  end.

Definition gets {A : Type} (f : Session -> A) : M A :=
  fun st => (Ok (f (sess st)), st, []).

Definition modify (f : Session -> Session) : M unit :=
  fun st => (Ok tt, mkSt (f (sess st)) (script st) (clock st) (draws st), []).

(** [this.log(message, type)]. *)
Definition log (msg : string) (ty : LogType) : M unit := modify (pushLog msg ty).

(** [Date.now()]. *)
Definition now : M Z := fun st => (Ok (clock st), st, []).

(** [await this._sleep(ms)]. *)
Definition _sleep (ms : nat) : M unit :=
  fun st => (Ok tt, mkSt (sess st) (script st) (clock st + Z.of_nat ms)%Z (draws st), []).

(** [Math.floor(Math.random() * n)]. *)
Definition random (n : nat) : M nat :=
  fun st =>
    match draws st with
    | [] => (Ok 0, st, [])
    | d :: rest => (Ok (d mod n), mkSt (sess st) (script st) (clock st) rest, [])
    end.

(** One transport attempt: it is recorded, takes the next outcome of the
    script and the time it states. *)
Definition attempt (t : Transport) (meth url : string) (hdrs : Dict.dict string)
  (b : Payload) : M Response :=
  fun st =>
    let ev := mkEvent t meth url hdrs b (authToken (sess st)) in
    match script st with
    | [] => (Throw "connect ECONNREFUSED", st, [ev])
    | (ms, o) :: rest =>
        let st' := mkSt (sess st) rest (clock st + Z.of_nat ms)%Z (draws st) in
        match o with
        | Responded r => (Ok r, st', [ev])
        | Failed msg => (Throw msg, st', [ev])
        end
    end.

(** [this.jar.get(url)]. *)
Definition jarGet `{Runtime} (url : string) : M string :=
  j <- gets jar ;; lift (CookieJar.get parseUrl url j).

(** [this.jar.update(url, setCookies)]. *)
Definition jarUpdate `{Runtime} (url : string) (setCookies : list string) : M unit :=
  j <- gets jar ;;
  j' <- lift (CookieJar.update parseUrl url (CookieJar.Headers setCookies) j) ;;
  modify (set_jar j').

(** The options of [request]. *)
Record Options : Type := mkOptions {
  o_method : option string;
  o_headers : Dict.dict string;
  o_body : Payload
}.

Definition GET : Options := mkOptions None [] NoBody.

Definition methodOf (o : Options) : string := Str.orElse (o_method o) "GET".

(** ** HttpEngine.request ([src/http-engine.js], lines 92-137, 142-303) *)

Module HttpEngine.

(** [_requestH2]: refused without a network attempt unless the URL is
    [https:]; the session setup and the request are one attempt. *)
Definition _requestH2 (u : Url) (meth url : string) (hdrs : Dict.dict string)
  (b : Payload) : M Response :=
  if String.eqb (protocol u) "https:" then attempt H2 meth url hdrs b
  else throw "H2 requires HTTPS".

(** The cookie-jar update both transports perform on a response. *)
Definition storeCookies `{Runtime} (url : string) (r : Response) : M unit :=
  match setCookie r with
  | [] => ret tt
  | cs => jarUpdate url cs
  end.

(** [_requestUndici]. *)
Definition _requestUndici `{Runtime} (meth url : string) (hdrs : Dict.dict string)
  (b : Payload) : M Response :=
  tryCatch
    (r <- attempt Undici meth url hdrs b ;;
     storeCookies url r ;;;
     ret r)
    (fun msg => throw ("HTTP request failed: " ++ msg)).

(** [request(url, options, cookieJar)] with the session's jar: every call
    tries HTTP/2 first and falls back to HTTP/1.1 for that call. *)
Definition request `{Runtime} (url : string) (meth : string) (hdrs : Dict.dict string)
  (b : Payload) : M Response :=
  match parseUrl url with
  | None => throw "Invalid URL"
  | Some u =>
      cookies <- jarGet url ;;
      let hdrs := if Str.truthy cookies then Dict.assign "cookie" cookies hdrs else hdrs in
      tryCatch
        (r <- _requestH2 u (Str.toUpperCase meth) url hdrs b ;;
         storeCookies url r ;;;
         ret r)
        (fun _ => _requestUndici (Str.toUpperCase meth) url hdrs b)
  end.

End HttpEngine.

(** ** FastCheckout.request ([src/fast-checkout.js], lines 149-226) *)

(** The header object [request] builds before [options.headers]. *)
Definition baseHeaders (s : Session) : Dict.dict string :=
  [ ("sec-ch-ua", sec_ch_ua (fingerprint s));
    ("sec-ch-ua-mobile", sec_ch_ua_mobile (fingerprint s));
    ("sec-ch-ua-platform", sec_ch_ua_platform (fingerprint s));
    ("upgrade-insecure-requests", "1");
    ("user-agent", ua s);
    ("accept", "text/html,application/xhtml+xml,application/xml;q=0.9,image/avif,image/webp,image/apng,*/*;q=0.8");
    ("sec-fetch-site", "same-origin");
    ("sec-fetch-mode", "navigate");
    ("sec-fetch-user", "?1");
    ("sec-fetch-dest", "document");
    ("accept-encoding", accept_encoding (fingerprint s));
    ("accept-language", "en-US,en;q=0.9") ].

(** The wrapper around an engine response: [headers.get] yields [null] for
    an empty header. *)
Definition wrapH2 (r : Response) : Response :=
  mkResponse (status r) (orNull (location r)) (setCookie r) (body r).

(** The body of the [try] of one loop iteration. *)
Definition requestOnce `{Runtime} (url : string) (o : Options) (hdrs : Dict.dict string)
  : M Response :=
  h2 <- gets h2Enabled ;;
  proxy <- gets proxyAgent ;;
  if h2 && negb (Str.otruthy proxy) then
    r <- HttpEngine.request url (methodOf o) hdrs (o_body o) ;;
    ret (wrapH2 r)
  else
    cookieStr <- jarGet url ;;
    let hdrs := if Str.truthy cookieStr then Dict.assign "cookie" cookieStr hdrs else hdrs in
    res <- attempt NodeFetch (methodOf o) url hdrs (o_body o) ;;
    match setCookie res with
    | [] => ret tt
    | cs => jarUpdate url cs
    end ;;;
    ret res.

(** The loop [for (attempt = 0; attempt <= retries; attempt++)], with
    [left] iterations to go; [None] is the [undefined] of falling out of
    the loop. *)
Fixpoint requestFrom `{Runtime} (url : string) (o : Options) (hdrs : Dict.dict string)
  (retries attempt left : nat) : M (option Response) :=
  match left with
  | O => ret None
  | S left' =>
      tryCatch
        (r <- requestOnce url o hdrs ;; ret (Some r))
        (fun err =>
           h2 <- gets h2Enabled ;;
           if h2 && (attempt =? 0) then
             modify (set_useH2 (Some false)) ;;;
             log ("H2 failed (" ++ err ++ "), falling back to HTTP/1.1") info ;;;
             requestFrom url o hdrs retries (S attempt) left'
           else if attempt =? retries then throw err
           else
             let wait := 500 * 2 ^ attempt in
             log ("Request failed (" ++ err ++ "), retry in " ++ Fmt.ofNat wait ++ "ms...")
                 error ;;;
             _sleep wait ;;;
             requestFrom url o hdrs retries (S attempt) left')
  end.

(** [request(url, options)] with the default [retries = 2], which every
    call of the sources uses. *)
Definition request `{Runtime} (url : string) (o : Options) : M Response :=
  s <- gets (fun s => s) ;;
  r <- requestFrom url o (Dict.spread (baseHeaders s) (o_headers o)) 2 0 3 ;;
  match r with
  | Some res => ret res
  | None => throw "TypeError: Cannot read properties of undefined"
  end.


(** ** Page scraping ([src/fast-checkout.js], lines 248-294) *)

(** The loop of [extractAuthToken] over the patterns numbered [ps]. *)
Fixpoint firstAuthToken `{Runtime} (ps : list nat) (html : string) : option string :=
  match ps with
  | [] => None
  | i :: rest =>
      match capture (AuthToken i) html with
      | Some m =>
          if Str.truthy m && (10 <? String.length m) then Some m
          else firstAuthToken rest html
      | None => firstAuthToken rest html
      end
  end.

Definition extractAuthToken `{Runtime} (html : string) : option string :=
  firstAuthToken (seq 0 12) html.

Fixpoint firstGateway `{Runtime} (ps : list nat) (html : string) : option string :=
  match ps with
  | [] => None
  | i :: rest =>
      match capture (PaymentGateway i) html with
      | Some m => Some m
      | None => firstGateway rest html
      end
  end.

Definition extractPaymentGateway `{Runtime} (html : string) : option string :=
  firstGateway (seq 0 4) html.

Definition extractCheckoutToken `{Runtime} (url html : string) : option string :=
  match capture CheckoutsInUrl url with
  | Some m => Some m
  | None =>
      match capture CheckoutInUrl url with
      | Some m => Some m
      | None => if Str.truthy html then capture CheckoutTokenInPage html else None
      end
  end.

(** [loc.startsWith("http") ? loc : new URL(loc, base).href]. *)
Definition absolute `{Runtime} (loc base : string) : M string :=
  if Str.startsWith "http" loc then ret loc
  else match resolveUrl loc base with
       | Some u => ret (href u)
       | None => throw "Invalid URL"
       end.

(** [await p.catch(() => {})]: the value, or [undefined] on rejection. *)
Definition swallow {A : Type} (m : M A) : M (option A) :=
  tryCatch (a <- m ;; ret (Some a)) (fun _ => ret None).

(** ** Queue handling ([src/fast-checkout.js], lines 299-394) *)

Record Queued : Type := mkQueued { qbody : string; queued : bool }.

(** The markers of the first test of [handleQueueIfPresent]. *)
Definition isQueuePage (b : string) : bool :=
  Str.includes "queue" b || Str.includes "throttle" b ||
  Str.includes "checkout_queue" b || Str.includes "Shopify.Checkout.Queue" b ||
  Str.includes "pollQueue" b || Str.includes "You are in line" b.

(** The markers the backup sessions and the re-fetch poll test. *)
Definition stillQueued (b : string) : bool :=
  Str.includes "queue" b || Str.includes "throttle" b || Str.includes "You are in line" b.

(** One backup session, run to completion: [slot] is the jar object that
    [this.jar] refers to while it runs, [back] the one its closure restores
    on failure.  [jars] holds the contents of the four jar objects (the
    session's own and the three backups). *)
Definition backupAttempt `{Runtime} (b : nat) (url : string)
  (jars : list CookieJar.store) (slot back : nat)
  : M (option string * list CookieJar.store * nat) :=
  jitter <- random 500 ;;
  _sleep (200 + jitter) ;;;
  modify (set_jar (nth slot jars CookieJar.empty)) ;;;
  r <- tryCatch
         (freshRes <- request url GET ;;
          let freshBody := body freshRes in
          if negb (stillQueued freshBody) then
            log ("Backup session " ++ Fmt.ofNat (b + 1) ++ " bypassed queue!") success ;;;
            ret (Some freshBody)
          else ret None)
         (fun _ => ret None) ;;
  j <- gets jar ;;
  let jars' := (firstn slot jars ++ j :: skipn (S slot) jars)%list in
  match r with
  | Some fb => ret (Some fb, jars', slot)
  | None => ret (None, jars', back)
  end.

(** One iteration of the polling loop; [Some] is a [return]. *)
Definition pollOnce `{Runtime} (url : string) (pollUrl : option string) (elapsed : string)
  : M (option Queued) :=
  if Str.otruthy pollUrl then
    tryCatch
      (fullPollUrl <- absolute (Str.orElse pollUrl "") url ;;
       pollRes <- request fullPollUrl GET ;;
       if status pollRes =? 200 then
         let pollBody := body pollRes in
         tryCatch
           (data <- lift (match parseJSON pollBody with
                          | Some d => Ok (Some d)
                          | None => Throw "Unexpected token in JSON"
                          end) ;;
            u <- lift (J.get "url" data) ;;
            cu <- (if J.truthy u then ret u else lift (J.get "checkout_url" data)) ;;
            if J.truthy cu then
              nextUrl <- lift (J.str cu) ;;
              log ("Queue passed! Redirecting to checkout (" ++ elapsed ++ "s)") success ;;;
              target <- absolute nextUrl url ;;
              finalRes <- request target GET ;;
              ret (Some (mkQueued (body finalRes) true))
            else ret None)
           (fun _ =>
              if negb (Str.includes "queue" pollBody) && negb (Str.includes "throttle" pollBody)
              then
                log ("Queue passed! (" ++ elapsed ++ "s)") success ;;;
                ret (Some (mkQueued pollBody true))
              else ret None)
       else ret None)
      (fun _ => ret None)
  else
    tryCatch
      (retryRes <- request url GET ;;
       let retryBody := body retryRes in
       if negb (stillQueued retryBody) then
         log ("Queue passed! (" ++ elapsed ++ "s)") success ;;;
         ret (Some (mkQueued retryBody true))
       else ret None)
      (fun _ => ret None).

(** [while (Date.now() - start < maxWait)]: every iteration sleeps at least
    two seconds, so sixty iterations exhaust the two minutes. *)
Fixpoint pollLoop `{Runtime} (left : nat) (start : Z) (url : string)
  (pollUrl : option string) : M (option Queued) :=
  match left with
  | O => ret None
  | S left' =>
      t <- now ;;
      if (t - start <? 120000)%Z then
        jitter <- random 1000 ;;
        _sleep (2000 + jitter) ;;;
        t' <- now ;;
        let elapsed := Fmt.quotientFixed 0 (t' - start) 1000 in
        log ("Queue: waiting... (" ++ elapsed ++ "s)") info ;;;
        r <- pollOnce url pollUrl elapsed ;;
        match r with
        | Some q => ret (Some q)
        | None => pollLoop left' start url pollUrl
        end
      else ret None
  end.

(** [handleQueueIfPresent(res, url)].  The three backup sessions run one
    after the other in launch order, which is one schedule of the event
    loop; the jar bookkeeping follows the closures' captured variables. *)
Definition handleQueueIfPresent `{Runtime} (res : Response) (url : string) : M Queued :=
  let b := body res in
  if negb (isQueuePage b) then ret (mkQueued b false) else
  log "Shopify queue detected! Trying backup sessions + polling..." info ;;;
  j <- gets jar ;;
  (* after the launch loop [this.jar] is the third backup jar (slot 3) *)
  let jars0 := [j; CookieJar.empty; CookieJar.empty; CookieJar.empty] in
  '(r0, jars1, cur1) <- backupAttempt 0 url jars0 3 0 ;;
  '(r1, jars2, cur2) <- backupAttempt 1 url jars1 cur1 1 ;;
  '(r2, jars3, cur3) <- backupAttempt 2 url jars2 cur2 2 ;;
  let winner :=
    match r0, r1, r2 with
    | Some fb, _, _ => Some (fb, 1)
    | None, Some fb, _ => Some (fb, 2)
    | None, None, Some fb => Some (fb, 3)
    | None, None, None => None
    end in
  match winner with
  | Some (fb, slot) =>
      modify (set_jar (nth slot jars3 CookieJar.empty)) ;;;
      ret (mkQueued fb true)
  | None =>
      (* [const origJar = this.jar] was read after the launch loop *)
      modify (set_jar (nth 3 jars3 CookieJar.empty)) ;;;
      let pollUrl :=
        match capture PollUrl b with
        | Some m => Some m
        | None => capture QueueUrl b
        end in
      start <- now ;;
      r <- pollLoop 60 start url pollUrl ;;
      match r with
      | Some q => ret q
      | None =>
          log "Queue timeout after 2 minutes." error ;;;
          ret (mkQueued b false)
      end
  end.

(** ** Payment tokenisation ([src/fast-checkout.js], lines 399-435) *)

Record Payment : Type := mkPayment {
  cardNumber : option string;
  cardName : option string;
  expiryMonth : option string;
  expiryYear : option string;
  cvv : option string;
  preToken : option string;       (* [_preToken] *)
  captchaToken : option string    (* [_captchaToken] *)
}.

(** [{}]. *)
Definition noPayment : Payment := mkPayment None None None None None None None.

(** [parseInt(x) || d]. *)
Definition parseIntOr `{Runtime} (x : option string) (d : Z) : Z :=
  match x with
  | Some s1 => match parseInt s1 with
              | Some n => if (n =? 0)%Z then d else n
              | None => d
              end
  | None => d
  end.

Definition vaultUrl : string := "https://deposit.shopifycs.com/sessions".

Definition vaultPayload `{Runtime} (payment : Payment) : json :=
  JObj [("credit_card",
         JObj [("number", JStr (Str.filter (fun c => negb (Str.isSpace c))
                                           (Str.orElse (cardNumber payment) "")));
               ("name", JStr (Str.orElse (cardName payment) ""));
               ("month", JNum (parseIntOr (expiryMonth payment) 1));
               ("year", JNum (parseIntOr (expiryYear payment) 2030));
               ("verification_value", JStr (Str.orElse (cvv payment) ""))])].

(** [res.json()]. *)
Definition jsonOf `{Runtime} (r : Response) : M jsval :=
  match parseJSON (body r) with
  | Some d => ret (Some d)
  | None => throw "Unexpected token in JSON"
  end.

(** [getPaymentSessionToken(payment)]: a direct [fetch], outside the
    cookie jar and the retry loop. *)
Definition getPaymentSessionToken `{Runtime} (payment : Payment) : M string :=
  log "Tokenizing payment via deposit.shopifycs.com..." info ;;;
  agent <- gets ua ;;
  res <- attempt NodeFetch "POST" vaultUrl
           [("Content-Type", "application/json"); ("Accept", "application/json");
            ("User-Agent", agent)]
           (JsonBody (vaultPayload payment)) ;;
  if negb (ok res) then
    throw ("Payment tokenization failed (" ++ Fmt.ofNat (status res) ++ "): " ++
           Str.take 200 (body res))
  else
    data <- jsonOf res ;;
    id <- lift (J.get "id" data) ;;
    if J.truthy id then
      idText <- lift (J.str id) ;;
      log ("Payment session token obtained: " ++ Str.take 12 idText ++ "...") success ;;;
      ret idText
    else throw "No session ID returned from deposit.shopifycs.com".

(** ** Variant resolution ([src/fast-checkout.js], lines 440-531) *)

(** [getBaseUrl(url)]. *)
Definition getBaseUrl `{Runtime} (url : string) : Res string :=
  match parseUrl url with
  | Some u => Ok (protocol u ++ "//" ++ hostname u)
  | None => Throw "Invalid URL"
  end.

(** [getBaseUrl(a || b)]; [new URL] rejects [undefined] and [""]. *)
Definition getBaseUrlOf `{Runtime} (a b : option string) : Res string :=
  if Str.otruthy a then getBaseUrl (Str.orElse a "")
  else if Str.otruthy b then getBaseUrl (Str.orElse b "")
  else Throw "Invalid URL".

Local Open Scope res_scope.

(** [(v.title || "").toLowerCase()]. *)
Definition lowerTitle (v : jsval) : Res string :=
  t <~ J.get "title" v ;;
  x <~ J.str (J.or t (Some (JStr ""))) ;;
  Ok (Str.toLowerCase x).

(** [words.filter(w => title.includes(w)).length / words.length]. *)
Definition matchScore (lowerName title : string) : Q :=
  let words := AddressJigger.splitWs lowerName in
  let hits := List.filter (fun w => Str.includes w title) words in
  Qmake (Z.of_nat (List.length hits)) (Pos.of_nat (List.length words)).

(** The loop over [product.variants] of the first strategy. *)
Fixpoint fuzzyBest (lowerName : string) (vs : list jsval) (best : jsval) (bestScore : Q)
  : Res jsval :=
  match vs with
  | [] => Ok best
  | v :: rest =>
      title <~ lowerTitle v ;;
      if Str.includes lowerName title || Str.includes title lowerName then Ok v
      else
        let score := matchScore lowerName title in
        if negb (Qle_bool score bestScore) then fuzzyBest lowerName rest v score
        else fuzzyBest lowerName rest best bestScore
  end.

(** [variants.find(v => v.available)]. *)
Fixpoint findAvailable (vs : list json) : Res jsval :=
  match vs with
  | [] => Ok None
  | v :: rest =>
      a <~ J.get "available" (Some v) ;;
      if J.truthy a then Ok (Some v) else findAvailable rest
  end.

(** [x.id.toString()]. *)
Definition idOf (x : jsval) : Res string :=
  i <~ J.get "id" x ;; J.toString i.

(** The text after [Selected: ] in the log line of the first strategy. *)
Definition selectedLine (x : jsval) : Res string :=
  t <~ J.get "title" x ;;
  i <~ J.get "id" x ;;
  pr <~ J.get "price" x ;;
  Ok (quoted (J.show (J.or t (Some (JStr "Default")))) ++
      " (ID: " ++ J.show i ++ ", $" ++ J.show pr ++ ")").

Local Close Scope res_scope.

(** Strategy 1, inside its [try]: [Some id] is a [return]. *)
Definition fromProductJson `{Runtime} (jsonUrl : string) (itemName : option string)
  : M (option string) :=
  res <- request jsonUrl GET ;;
  if negb (ok res) then ret None else
  data <- jsonOf res ;;
  product <- lift (J.get "product" data) ;;
  variants <- lift (J.opt "variants" product) ;;
  if negb (J.lengthPositive variants) then ret None else
  title <- lift (J.get "title" product) ;;
  len <- lift (J.get "length" variants) ;;
  log ("Found: " ++ quoted (J.show title) ++ " (" ++ J.show len ++ " variants)") success ;;;
  if Str.otruthy itemName then
    let lowerName := Str.toLowerCase (Str.orElse itemName "") in
    v0 <- lift (J.first variants) ;;
    vs <- lift (J.items variants) ;;
    best <- lift (fuzzyBest lowerName vs v0 0%Q) ;;
    line <- lift (selectedLine best) ;;
    log ("Selected: " ++ line) success ;;;
    id <- lift (idOf best) ;;
    ret (Some id)
  else
    arr <- lift (J.array variants) ;;
    found <- lift (findAvailable arr) ;;
    v0 <- lift (J.first variants) ;;
    let available := J.or found v0 in
    line <- lift (selectedLine available) ;;
    log ("Selected: " ++ line) success ;;;
    id <- lift (idOf available) ;;
    ret (Some id).

(** Strategy 2, inside its [try]. *)
Definition fromSearch `{Runtime} (base itemName : string) : M (option string) :=
  let searchUrl := base ++ "/search/suggest.json?q=" ++ encodeURIComponent itemName ++
                   "&resources[type]=product&resources[limit]=5" in
  res <- request searchUrl GET ;;
  if negb (ok res) then ret None else
  data <- jsonOf res ;;
  resources <- lift (J.get "resources" data) ;;
  results <- lift (J.opt "results" resources) ;;
  products <- lift (J.opt "products" results) ;;
  if negb (J.lengthPositive products) then ret None else
  m <- lift (J.first products) ;;
  title <- lift (J.get "title" m) ;;
  log ("Found: " ++ quoted (J.show title)) success ;;;
  murl <- lift (J.get "url" m) ;;
  prodRes <- request (base ++ J.show murl ++ ".json") GET ;;
  if negb (ok prodRes) then ret None else
  prodData <- jsonOf prodRes ;;
  product <- lift (J.get "product" prodData) ;;
  variants <- lift (J.opt "variants" product) ;;
  variant <- lift (match variants with
                   | None | Some JNull => Ok None
                   | _ => J.first variants
                   end) ;;
  if J.truthy variant then
    id <- lift (J.get "id" variant) ;;
    pr <- lift (J.get "price" variant) ;;
    log ("Variant: " ++ J.show id ++ " ($" ++ J.show pr ++ ")") success ;;;
    idText <- lift (J.toString id) ;;
    ret (Some idText)
  else ret None.

(** The loop over [data.products] of the catalog scan. *)
Fixpoint scanProducts (lowerName : string) (products : list jsval)
  : M (option string) :=
  match products with
  | [] => ret None
  | product :: rest =>
      title <- lift (lowerTitle product) ;;
      if Str.includes lowerName title then
        variants <- lift (J.get "variants" product) ;;
        variant <- lift (match variants with
                         | None | Some JNull => Ok None
                         | _ =>
                             rbind (J.array variants) (fun arr =>
                             rbind (findAvailable arr) (fun found =>
                             if J.truthy found then Ok found else J.first variants))
                         end) ;;
        if J.truthy variant then
          ptitle <- lift (J.get "title" product) ;;
          id <- lift (J.get "id" variant) ;;
          log ("Match: " ++ quoted (J.show ptitle) ++ " → " ++ J.show id) success ;;;
          idText <- lift (J.toString id) ;;
          ret (Some idText)
        else scanProducts lowerName rest
      else scanProducts lowerName rest
  end.

(** Strategy 3: the loop over the pages [page :: later]. *)
Fixpoint scanPages `{Runtime} (base lowerName : string) (pages : list nat)
  : M (option string) :=
  match pages with
  | [] => ret None
  | page :: later =>
      res <- request (base ++ "/products.json?limit=250&page=" ++ Fmt.ofNat page) GET ;;
      if negb (ok res) then ret None else
      data <- jsonOf res ;;
      products <- lift (J.get "products" data) ;;
      len <- lift (J.opt "length" products) ;;
      if negb (J.truthy len) then ret None else
      ps <- lift (J.items products) ;;
      r <- scanProducts lowerName ps ;;
      match r with
      | Some id => ret (Some id)
      | None => scanPages base lowerName later
      end
  end.

(** [resolveVariant(config)]; [None] is [null]. *)
Definition resolveVariant `{Runtime} (storeUrl productUrl itemName variantId : option string)
  : M (option string) :=
  if Str.otruthy variantId then
    log ("Using provided variant ID: " ++ Str.orElse variantId "") success ;;;
    ret variantId
  else
    base <- lift (getBaseUrlOf storeUrl productUrl) ;;
    let productPath :=
      if Str.otruthy productUrl then
        match parseUrl (Str.orElse productUrl "") with
        | Some u => pathname u
        | None => Str.orElse productUrl ""
        end
      else "" in
    r1 <- (if Str.truthy productPath then
             let jsonUrl := base ++ AddressJigger.dropLastIf (fun c => Ascii.eqb c "/") productPath
                            ++ ".json" in
             log ("Fetching product data: " ++ jsonUrl) info ;;;
             tryCatch (fromProductJson jsonUrl itemName)
                      (fun err => log ("product.json failed: " ++ err) error ;;; ret None)
           else ret None) ;;
    match r1 with
    | Some id => ret (Some id)
    | None =>
        r2 <- (if Str.otruthy itemName then
                 let name := Str.orElse itemName "" in
                 log ("Searching catalog for: " ++ quoted name) info ;;;
                 s2 <- tryCatch (fromSearch base name)
                                (fun err => log ("Search failed: " ++ err) error ;;; ret None) ;;
                 match s2 with
                 | Some id => ret (Some id)
                 | None =>
                     log "Scanning products.json..." info ;;;
                     tryCatch (scanPages base (Str.toLowerCase name) [1; 2; 3; 4; 5])
                              (fun err => log ("Catalog scan failed: " ++ err) error ;;;
                                          ret None)
                 end
               else ret None) ;;
        match r2 with
        | Some id => ret (Some id)
        | None => log "Could not resolve variant ID." error ;;; ret None
        end
    end.

(** ** Direct checkout link, cart and checkout session
       ([src/fast-checkout.js], lines 607-716) *)

Definition postJson (hdrs : Dict.dict string) (b : Payload) : Options :=
  mkOptions (Some "POST") hdrs b.

Definition formHeaders : Dict.dict string :=
  [("Content-Type", "application/x-www-form-urlencoded")].

(** [directCheckout(baseUrl, variantId)] with the default quantity 1. *)
Definition directCheckout `{Runtime} (baseUrl variantId : string) : M (option string) :=
  log ("Direct checkout link: /cart/" ++ variantId ++ ":1") info ;;;
  let directUrl := baseUrl ++ "/cart/" ++ variantId ++ ":1" in
  res <- request directUrl GET ;;
  let loc := Str.orElse (location res) "" in
  if Str.otruthy (location res) &&
     (Str.includes "/checkout" loc || Str.includes "/checkouts" loc) then
    checkoutUrl <- absolute loc baseUrl ;;
    log ("Direct checkout success: " ++ checkoutUrl) success ;;;
    ret (Some checkoutUrl)
  else
    let paramUrl := baseUrl ++ "/checkout?line_items[0][variant_id]=" ++ variantId ++
                    "&line_items[0][quantity]=1" in
    res2 <- request paramUrl GET ;;
    let loc2 := Str.orElse (location res2) "" in
    if Str.otruthy (location res2) && Str.includes "/checkout" loc2 then
      checkoutUrl <- absolute loc2 baseUrl ;;
      log ("Direct checkout (param) success: " ++ checkoutUrl) success ;;;
      ret (Some checkoutUrl)
    else
      log "Direct checkout link failed, falling back to ATC flow." info ;;;
      ret None.

(** [addToCart(baseUrl, variantId)] with the default quantity 1. *)
Definition addToCart `{Runtime} (baseUrl variantId : string) : M bool :=
  log ("Adding variant " ++ variantId ++ " to cart...") info ;;;
  swallow (request (baseUrl ++ "/cart/clear.js")
                   (postJson [("Content-Type", "application/json")] NoBody)) ;;;
  res <- request (baseUrl ++ "/cart/add.js")
           (postJson [("Content-Type", "application/json");
                      ("X-Requested-With", "XMLHttpRequest")]
                     (JsonBody
                        (JObj [("items",
                                JArr [JObj [("id", match parseInt variantId with
                                                   | Some n => JNum n
                                                   | None => JNull
                                                   end);
                                            ("quantity", JNum 1)]])]))) ;;
  if ok res || (status res =? 302) then
    let data := match parseJSON (body res) with
                | Some d => Some d
                | None => Some (JObj [])
                end in
    items <- lift (J.get "items" data) ;;
    count <- (if J.truthy items
              then len <- lift (J.get "length" items) ;; ret (J.show len ++ " item(s)")
              else ret "OK") ;;
    log ("Added to cart! " ++ count) success ;;;
    ret true
  else
    formRes <- request (baseUrl ++ "/cart/add.js")
                 (postJson formHeaders (Text ("id=" ++ variantId ++ "&quantity=1"))) ;;
    if ok formRes || (status formRes =? 302) then
      log "Added to cart (form fallback)." success ;;;
      ret true
    else
      log ("Add to cart failed (" ++ Fmt.ofNat (status formRes) ++ "): " ++
           Str.take 200 (body formRes)) error ;;;
      ret false.

(** [createCheckout(baseUrl)]. *)
Definition createCheckout `{Runtime} (baseUrl : string) : M string :=
  log "Creating checkout session..." info ;;;
  res <- request (baseUrl ++ "/checkout") (postJson formHeaders (Text "")) ;;
  checkoutUrl <-
    (if Str.otruthy (location res) then
       let loc := Str.orElse (location res) "" in
       ret (if Str.startsWith "http" loc then loc else baseUrl ++ loc)
     else
       getRes <- request (baseUrl ++ "/checkout") GET ;;
       if Str.otruthy (location getRes) then
         let getLoc := Str.orElse (location getRes) "" in
         ret (if Str.startsWith "http" getLoc then getLoc else baseUrl ++ getLoc)
       else
         match capture CheckoutPathInBody (body getRes) with
         | Some m => ret (baseUrl ++ "/checkout/" ++ m)
         | None => ret (baseUrl ++ "/checkout")
         end) ;;
  log ("Checkout URL: " ++ checkoutUrl) success ;;;
  pageRes <- request checkoutUrl GET ;;
  q <- handleQueueIfPresent pageRes checkoutUrl ;;
  let pageBody := qbody q in
  modify (set_authToken (extractAuthToken pageBody)) ;;;
  modify (set_paymentGatewayId (extractPaymentGateway pageBody)) ;;;
  modify (set_checkoutToken (extractCheckoutToken checkoutUrl pageBody)) ;;;
  tok <- gets authToken ;;
  (if Str.otruthy tok
   then log ("Auth token: " ++ Str.take 16 (Str.orElse tok "") ++ "...") success
   else ret tt) ;;;
  gw <- gets paymentGatewayId ;;
  (if Str.otruthy gw
   then log ("Payment gateway: " ++ Str.orElse gw "") success
   else ret tt) ;;;
  (if queued q then log "Passed through Shopify queue." success else ret tt) ;;;
  ret checkoutUrl.

(** ** Shipping ([src/fast-checkout.js], lines 721-863) *)

(** The [authenticity_token] field, appended only while a token is held. *)
Definition tokenField (tok : option string) : list (string * string) :=
  if Str.otruthy tok then [("authenticity_token", Str.orElse tok "")] else [].

(** The page load after a step: a fresh token and gateway id replace the
    held ones when the page has them. *)
Definition refreshFrom `{Runtime} (pageBody : string) (what : string) : M unit :=
  match extractAuthToken pageBody with
  | Some newAuth =>
      if Str.truthy newAuth then
        modify (set_authToken (Some newAuth)) ;;;
        log ("Auth token refreshed " ++ what ++ ": " ++ Str.take 16 newAuth ++ "...") success
      else ret tt
  | None => ret tt
  end ;;;
  match extractPaymentGateway pageBody with
  | Some gw => if Str.truthy gw then modify (set_paymentGatewayId (Some gw)) else ret tt
  | None => ret tt
  end.

(** [submitShippingAddress(checkoutUrl, details)]. *)
Definition submitShippingAddress `{Runtime} (checkoutUrl : string) (details : Address)
  : M string :=
  log "Submitting shipping address..." info ;;;
  tok <- gets authToken ;;
  let formData :=
    ([("_method", "patch")] ++ tokenField tok ++
     [ ("previous_step", "contact_information");
       ("step", "shipping_method");
       ("checkout[email]", Str.orElse (email details) "");
       ("checkout[buyer_accepts_marketing]", "0");
       ("checkout[shipping_address][first_name]", Str.orElse (firstName details) "");
       ("checkout[shipping_address][last_name]", Str.orElse (lastName details) "");
       ("checkout[shipping_address][address1]", Str.orElse (address details) "");
       ("checkout[shipping_address][address2]", Str.orElse (address2 details) "");
       ("checkout[shipping_address][city]", Str.orElse (city details) "");
       ("checkout[shipping_address][province]",
        Str.orElse (county details) (Str.orElse (state details) ""));
       ("checkout[shipping_address][zip]", Str.orElse (zip details) "");
       ("checkout[shipping_address][country]", Str.orElse (country details) "GB");
       ("checkout[shipping_address][phone]", Str.orElse (phone details) "") ])%list in
  res <- request checkoutUrl (postJson formHeaders (Form formData)) ;;
  let hasLocation := Str.otruthy (location res) in
  nextUrl <- (if hasLocation then absolute (Str.orElse (location res) "") checkoutUrl
              else ret checkoutUrl) ;;
  if hasLocation || ok res || (status res =? 302) then
    log "Shipping address submitted." success ;;;
    tryCatch
      (let followUrl := if hasLocation && (300 <=? status res) then nextUrl else checkoutUrl in
       followRes <- request followUrl GET ;;
       refreshFrom (body followRes) "after shipping")
      (fun e => log ("Warning: could not refresh auth token after shipping: " ++ e) info) ;;;
    ret nextUrl
  else
    log ("Shipping submission returned " ++ Fmt.ofNat (status res) ++ ".") error ;;;
    ret checkoutUrl.

(** [list.sort((a, b) => price(a) - price(b))]: with fewer than two
    elements the comparator is never called; otherwise it reads the price
    of every element (and throws where that throws).  A [NaN] difference
    counts as equal. *)
Definition cmpPrice (a b : option Q) : comparison :=
  match a, b with
  | Some x, Some y => Qcompare x y
  | _, _ => Eq
  end.

Fixpoint insertByPrice (x : option Q * json) (l : list (option Q * json))
  : list (option Q * json) :=
  match l with
  | [] => [x]
  | y :: l' =>
      match cmpPrice (fst x) (fst y) with
      | Gt => y :: insertByPrice x l'
      | _ => x :: l
      end
  end.

Fixpoint priced (price : json -> Res (option Q)) (l : list json)
  : Res (list (option Q * json)) :=
  match l with
  | [] => Ok []
  | x :: rest =>
      rbind (price x) (fun p =>
      rbind (priced price rest) (fun ps => Ok ((p, x) :: ps)))
  end.

Definition sortByPrice (price : json -> Res (option Q)) (l : list json)
  : Res (list json) :=
  match l with
  | [] | [_] => Ok l
  | _ => rbind (priced price l)
               (fun ps => Ok (List.map snd (fold_right insertByPrice [] ps)))
  end.

(** [parseFloat(v)]. *)
Definition parseFloatOf `{Runtime} (v : jsval) : option Q :=
  match v with
  | Some (JNum n) => Some (inject_Z n)
  | Some j => parseFloat (J.text j)
  | None => None
  end.

(** [url.includes("?") ? url + "&step=" + s : url + "?step=" + s]. *)
Definition withStep (url step : string) : string :=
  if Str.includes "?" url then url ++ "&step=" ++ step else url ++ "?step=" ++ step.

(** The rates endpoint consulted when the page lists no rate; inside its
    [try].  The result is the array [rates] afterwards. *)
Definition ratesFromApi `{Runtime} (checkoutUrl : string) : M (list jsval) :=
  let apiUrl := Str.before "?" checkoutUrl ++ "/shipping_rates.json" in
  apiRes <- request apiUrl (mkOptions None [("Accept", "application/json")] NoBody) ;;
  if negb (ok apiRes) then ret [] else
  data <- jsonOf apiRes ;;
  sr <- lift (J.get "shipping_rates" data) ;;
  let apiRates := J.or sr (Some (JArr [])) in
  if negb (J.lengthPositive apiRates) then ret [] else
  arr <- lift (J.array apiRates) ;;
  sorted <- lift (sortByPrice
                    (fun r => rbind (J.get "price" (Some r))
                                    (fun pr => Ok (parseFloatOf pr))) arr) ;;
  let r0 := List.hd_error sorted in
  id <- lift (J.get "id" r0) ;;
  pick <- (if J.truthy id then ret id else lift (J.get "handle" r0)) ;;
  ret [pick].

(** [selectShippingRate(checkoutUrl)]. *)
Definition selectShippingRate `{Runtime} (checkoutUrl : string) : M string :=
  log "Fetching shipping rates..." info ;;;
  res <- request (withStep checkoutUrl "shipping_method") GET ;;
  let pageBody := body res in
  match extractAuthToken pageBody with
  | Some newAuth =>
      if Str.truthy newAuth then modify (set_authToken (Some newAuth)) else ret tt
  | None => ret tt
  end ;;;
  gw0 <- gets paymentGatewayId ;;
  (if negb (Str.otruthy gw0) then
     match extractPaymentGateway pageBody with
     | Some gw => if Str.truthy gw then modify (set_paymentGatewayId (Some gw)) else ret tt
     | None => ret tt
     end
   else ret tt) ;;;
  let pageRates := List.map (fun r => Some (JStr r)) (shippingRateIds pageBody) in
  rates <- match pageRates with
           | [] => tryCatch (ratesFromApi checkoutUrl) (fun _ => ret [])
           | _ => ret pageRates
           end ;;
  match rates with
  | rateId :: _ =>
      log ("Shipping rate: " ++ J.show rateId) success ;;;
      tok <- gets authToken ;;
      let formData :=
        ([("_method", "patch")] ++ tokenField tok ++
         [ ("previous_step", "shipping_method");
           ("step", "payment_method");
           ("checkout[shipping_rate][id]", J.show rateId) ])%list in
      submitRes <- request checkoutUrl (postJson formHeaders (Form formData)) ;;
      let hasLocation := Str.otruthy (location submitRes) in
      nextUrl <- (if hasLocation
                  then absolute (Str.orElse (location submitRes) "") checkoutUrl
                  else ret checkoutUrl) ;;
      tryCatch
        (let payPageUrl := if hasLocation && (300 <=? status submitRes)
                           then nextUrl else checkoutUrl in
         payPageRes <- request payPageUrl GET ;;
         refreshFrom (body payPageRes) "after shipping rate")
        (fun e => log ("Warning: could not refresh auth token after shipping rate: " ++ e)
                      info) ;;;
      log "Shipping rate selected." success ;;;
      ret nextUrl
  | [] =>
      log "No shipping rate found (may be free/auto-selected)." info ;;;
      ret checkoutUrl
  end.

(** ** Payment submission ([src/fast-checkout.js], lines 868-1007) *)

(** The form of the final submission; [complete=1] makes it the
    payment-completion request. *)
Definition paymentForm (tok gw : option string) (card : list (string * string))
  : list (string * string) :=
  ([ ("_method", "patch");
     ("authenticity_token", Str.orElse tok "");
     ("previous_step", "payment_method");
     ("step", "") ] ++ card ++
   [ ("checkout[different_billing_address]", "false");
     ("complete", "1") ])%list.

Definition tokenCard (sessionToken : string) (gw : option string) : list (string * string) :=
  [ ("s", sessionToken);
    ("checkout[payment_gateway]", Str.orElse gw "");
    ("checkout[credit_card][vault]", "false") ].

Definition rawCard (gw : option string) (payment : Payment) : list (string * string) :=
  [ ("checkout[payment_gateway]", Str.orElse gw "");
    ("checkout[credit_card][number]", Str.orElse (cardNumber payment) "");
    ("checkout[credit_card][name]", Str.orElse (cardName payment) "");
    ("checkout[credit_card][month]", Str.orElse (expiryMonth payment) "");
    ("checkout[credit_card][year]", Str.orElse (expiryYear payment) "");
    ("checkout[credit_card][verification_value]", Str.orElse (cvv payment) "") ].

Definition confirms (loc : string) : bool :=
  Str.includes "thank_you" loc || Str.includes "orders" loc.

(** The polling of a processing page: at most [left] rounds. *)
Fixpoint followProcessing `{Runtime} (left : nat) (loc checkoutUrl : string) : M bool :=
  match left with
  | O => ret false
  | S left' =>
      _sleep 2000 ;;;
      target <- absolute loc checkoutUrl ;;
      procRes <- request target GET ;;
      if Str.otruthy (location procRes) && confirms (Str.orElse (location procRes) "") then
        log "ORDER CONFIRMED (after processing)!" success ;;;
        ret true
      else
        let procBody := body procRes in
        if Str.includes "thank_you" procBody || Str.includes "order-confirmed" procBody ||
           Str.includes "Thank you" procBody then
          log "ORDER CONFIRMED!" success ;;;
          ret true
        else followProcessing left' loc checkoutUrl
  end.

(** [s.slice(-4)]. *)
Definition last4 (x : string) : string := AddressJigger.lastN 4 x.

(** Step 3 of [submitPayment] and the checks of the response: the payment
    form is built with the token [tok] just read from the session and
    posted to the checkout URL. *)
Definition sendPayment `{Runtime} (checkoutUrl : string) (payment : Payment)
  (sessionToken tok : option string) : M bool :=
  gw <- gets paymentGatewayId ;;
  card <-
    (if Str.otruthy sessionToken then ret (tokenCard (Str.orElse sessionToken "") gw)
     else if Str.otruthy (preToken payment) then
       log "Using pre-tokenized payment." success ;;;
       ret (tokenCard (Str.orElse (preToken payment) "") gw)
     else ret (rawCard gw payment)) ;;
  res <- request checkoutUrl (postJson formHeaders (Form (paymentForm tok gw card))) ;;
  let loc := Str.orElse (location res) "" in
  if Str.otruthy (location res) && (confirms loc || Str.includes "processing" loc) then
    log "ORDER CONFIRMED!" success ;;;
    ret true
  else
    confirmed <-
      (if Str.otruthy (location res) && Str.includes "processing" loc then
         log "Payment processing..." info ;;;
         followProcessing 10 loc checkoutUrl
       else ret false) ;;
    if confirmed then ret true
    else if ok res || (status res =? 302) then
      log ("Payment submitted (status: " ++ Fmt.ofNat (status res) ++ ").") success ;;;
      ret true
    else
      let errBody := body res in
      if Str.includes "thank_you" errBody || Str.includes "Thank you" errBody then
        log "ORDER CONFIRMED!" success ;;;
        ret true
      else
        log ("Payment failed (" ++ Fmt.ofNat (status res) ++ "): " ++
             Str.take 300 errBody) error ;;;
        ret false.

(** Step 1 of [submitPayment]: the session token of the card vault, or
    [null] when the tokenisation throws. *)
Definition tokenizeCard `{Runtime} (payment : Payment) : M (option string) :=
  tryCatch (t <- getPaymentSessionToken payment ;; ret (Some t))
           (fun err =>
              log ("Payment tokenization failed: " ++ err) error ;;;
              log "Falling back to direct card submission..." info ;;;
              ret None).

(** Step 2 of [submitPayment]: the payment page is loaded for a fresh
    token and gateway, whatever the session holds. *)
Definition loadPaymentPage `{Runtime} (checkoutUrl : string) : M unit :=
  tryCatch
    (payRes <- request (withStep checkoutUrl "payment_method") GET ;;
     let payBody := body payRes in
     match extractPaymentGateway payBody with
     | Some freshGw =>
         if Str.truthy freshGw then modify (set_paymentGatewayId (Some freshGw)) else ret tt
     | None => ret tt
     end ;;;
     if Str.otruthy (extractAuthToken payBody) then
       let freshAuth := Str.orElse (extractAuthToken payBody) "" in
       modify (set_authToken (Some freshAuth)) ;;;
       log ("Auth token refreshed for payment: " ++ Str.take 16 freshAuth ++ "...") success
     else
       log "Warning: could not extract fresh auth token from payment page." error)
    (fun e => log ("Warning: payment page load failed: " ++ e) error).

(** Step 2b of [submitPayment]: with the token still missing, one retry
    against the checkout URL itself. *)
Definition retryCheckoutUrl `{Runtime} (checkoutUrl : string) : M unit :=
  tok1 <- gets authToken ;;
  if negb (Str.otruthy tok1) then
    log "Auth token missing — retrying from checkout URL..." error ;;;
    tryCatch
      (retryRes <- request checkoutUrl GET ;;
       let retryBody := body retryRes in
       (if Str.otruthy (extractAuthToken retryBody) then
          let retryAuth := Str.orElse (extractAuthToken retryBody) "" in
          modify (set_authToken (Some retryAuth)) ;;;
          log ("Auth token recovered: " ++ Str.take 16 retryAuth ++ "...") success
        else ret tt) ;;;
       gw1 <- gets paymentGatewayId ;;
       if negb (Str.otruthy gw1) then
         match extractPaymentGateway retryBody with
         | Some retryGw =>
             if Str.truthy retryGw then modify (set_paymentGatewayId (Some retryGw))
             else ret tt
         | None => ret tt
         end
       else ret tt)
      (fun _ => ret tt)
  else ret tt.

(** [submitPayment(checkoutUrl, payment, dryRun)]. *)
Definition submitPayment `{Runtime} (checkoutUrl : string) (payment : Payment)
  (dryRun : bool) : M bool :=
  if dryRun then
    log "[DRY RUN] Payment step reached — NOT submitting." success ;;;
    gw <- gets paymentGatewayId ;;
    log ("[DRY RUN] Card: ..." ++ last4 (Str.orElse (cardNumber payment) "") ++
         ", Gateway: " ++ Str.orElse gw "auto") info ;;;
    ret true
  else
    log "Submitting payment..." info ;;;
    sessionToken <- tokenizeCard payment ;;
    loadPaymentPage checkoutUrl ;;;
    retryCheckoutUrl checkoutUrl ;;;
    tok <- gets authToken ;;
    if negb (Str.otruthy tok) then
      log "FATAL: No authentication token available for payment submission." error ;;;
      ret false
    else sendPayment checkoutUrl payment sessionToken tok.

(** ** GraphQL checkout ([src/fast-checkout.js], lines 1156-1330) *)

Record GqlResult : Type := mkGqlResult {
  g_success : bool;
  g_dryRun : bool;
  g_checkoutUrl : jsval;
  g_mode : string
}.

(** The four patterns of the storefront token, tried in order. *)
Fixpoint firstStorefrontToken `{Runtime} (ps : list nat) (page : string) : option string :=
  match ps with
  | [] => None
  | i :: rest =>
      match capture (StorefrontToken i) page with
      | Some m => Some m
      | None => firstStorefrontToken rest page
      end
  end.

(** [errors.map(e => e.message).join(", ")]. *)
Fixpoint errorMessages (errs : list json) : Res (list string) :=
  match errs with
  | [] => Ok []
  | e :: rest =>
      rbind (J.get "message" (Some e)) (fun m =>
      rbind (errorMessages rest) (fun ms =>
      Ok (match m with None | Some JNull => "" | Some j => J.text j end :: ms)))
  end.

(** The payment form of [graphqlCheckout], posted with the token [tok]
    just read from the session. *)
Definition graphqlSendPayment `{Runtime} (checkoutUrl sessionToken : string)
  (tok : option string) : M (option GqlResult) :=
  gw <- gets paymentGatewayId ;;
  payRes <- request checkoutUrl
              (postJson formHeaders
                 (Form (paymentForm tok gw (tokenCard sessionToken gw)))) ;;
  let loc := Str.orElse (location payRes) "" in
  if Str.otruthy (location payRes) && (confirms loc || Str.includes "processing" loc)
  then
    log "ORDER CONFIRMED via GraphQL checkout!" success ;;;
    ret (Some (mkGqlResult true false None "graphql"))
  else
    log ("GraphQL payment response: " ++ Fmt.ofNat (status payRes)) info ;;;
    ret (Some (mkGqlResult (ok payRes || (status payRes =? 302)) false None "graphql")).

(** The part of [graphqlCheckout] after the shipping rate, in live mode:
    tokenise, load the checkout page for a token, submit the payment. *)
Definition graphqlPayment `{Runtime} (checkout : jsval) (payment : Payment)
  : M (option GqlResult) :=
  pre <- gets prePaymentToken ;;
  tokenised <-
    tryCatch
      (if Str.otruthy pre then ret (Some (Str.orElse pre ""))
       else t <- getPaymentSessionToken payment ;; ret (Some t))
      (fun e => log ("Payment tokenization failed: " ++ e) error ;;; ret None) ;;
  match tokenised with
  | None => ret None
  | Some sessionToken =>
      webUrl <- lift (J.get "webUrl" checkout) ;;
      let checkoutUrl := J.show webUrl in
      pageRes <- request checkoutUrl GET ;;
      let pageBody := body pageRes in
      modify (set_authToken (extractAuthToken pageBody)) ;;;
      modify (set_paymentGatewayId (extractPaymentGateway pageBody)) ;;;
      tok0 <- gets authToken ;;
      (if negb (Str.otruthy tok0) then
         tryCatch
           (u <- lift (J.str webUrl) ;;
            payStepRes <- request (withStep u "payment_method") GET ;;
            let payStepBody := body payStepRes in
            held <- gets authToken ;;
            modify (set_authToken
                      (if Str.otruthy (extractAuthToken payStepBody)
                       then extractAuthToken payStepBody else held)) ;;;
            gw0 <- gets paymentGatewayId ;;
            if negb (Str.otruthy gw0)
            then modify (set_paymentGatewayId (extractPaymentGateway payStepBody))
            else ret tt)
           (fun _ => ret tt)
       else ret tt) ;;;
      tok <- gets authToken ;;
      if negb (Str.otruthy tok) then
        log "GraphQL payment: no auth token available." error ;;;
        ret None
      else graphqlSendPayment checkoutUrl sessionToken tok
  end.

(** The steps of [graphqlCheckout] that dry-run and live mode share, inside
    the big [try]: create the checkout and select the cheapest rate.
    [Some checkout] lets the caller go on to the payment step. *)
Definition graphqlCreate `{Runtime} (gqlUrl : string) (gqlHeaders : Dict.dict string)
  (variantId : string) (jiggedDetails : Address) : M (option jsval) :=
  createRes <- request gqlUrl
                 (postJson gqlHeaders (Gql (CheckoutCreate variantId jiggedDetails))) ;;
  createData <- jsonOf createRes ;;
  d <- lift (J.get "data" createData) ;;
  cc <- lift (J.opt "checkoutCreate" d) ;;
  checkout <- lift (J.opt "checkout" cc) ;;
  errors <- lift (J.opt "checkoutUserErrors" cc) ;;
  if J.lengthPositive errors then
    errs <- lift (J.array errors) ;;
    msgs <- lift (errorMessages errs) ;;
    log ("GraphQL errors: " ++ String.concat ", " msgs) error ;;;
    ret None
  else
    id <- lift (J.opt "id" checkout) ;;
    if negb (J.truthy id) then
      log "GraphQL checkout creation failed." error ;;;
      ret None
    else
      total <- lift (J.get "totalPriceV2" checkout) ;;
      amount <- lift (J.opt "amount" total) ;;
      log ("GraphQL checkout created: $" ++ J.show amount) success ;;;
      asr <- lift (J.get "availableShippingRates" checkout) ;;
      sr <- lift (J.opt "shippingRates" asr) ;;
      let rates := J.or sr (Some (JArr [])) in
      (if J.lengthPositive rates then
         arr <- lift (J.array rates) ;;
         sorted <- lift (sortByPrice
                           (fun r => rbind (J.get "priceV2" (Some r)) (fun pv =>
                                     rbind (J.get "amount" pv) (fun a =>
                                     Ok (parseFloatOf a)))) arr) ;;
         let rate := List.hd_error sorted in
         title <- lift (J.get "title" rate) ;;
         pv <- lift (J.get "priceV2" rate) ;;
         a <- lift (J.get "amount" pv) ;;
         log ("Shipping: " ++ J.show title ++ " ($" ++ J.show a ++ ")") success ;;;
         handle <- lift (J.get "handle" rate) ;;
         request gqlUrl
           (postJson gqlHeaders (Gql (ShippingLineUpdate (J.show id) (J.show handle)))) ;;;
         ret tt
       else ret tt) ;;;
      ret (Some checkout).

(** [graphqlCheckout(config)]; [None] is [null]. *)
Definition graphqlCheckout `{Runtime} (storeUrl variantId : string)
  (checkoutDetails : Address) (payment : Payment) (dryRun : bool) (taskIndex : nat)
  : M (option GqlResult) :=
  baseUrl <- lift (getBaseUrl storeUrl) ;;
  let jiggedDetails :=
    match jigAddress (Some checkoutDetails) taskIndex with
    | Some d => d
    | None => checkoutDetails
    end in
  (* Step 1: the storefront token of the theme *)
  storefrontToken <-
    tryCatch (res <- request baseUrl GET ;;
              ret (firstStorefrontToken (seq 0 4) (body res)))
             (fun _ => ret None) ;;
  if negb (Str.otruthy storefrontToken) then
    log "Storefront API token not found, using REST checkout." info ;;;
    ret None
  else
    let token := Str.orElse storefrontToken "" in
    log ("Storefront API token: " ++ Str.take 8 token ++ "...") success ;;;
    let gqlUrl := baseUrl ++ "/api/2024-01/graphql.json" in
    let gqlHeaders :=
      [ ("Content-Type", "application/json");
        ("X-Shopify-Storefront-Access-Token", token);
        ("accept", "application/json") ] in
    tryCatch
      (created <- graphqlCreate gqlUrl gqlHeaders variantId jiggedDetails ;;
       match created with
       | None => ret None
       | Some checkout =>
           (* Step 4: payment *)
           if dryRun then
             log "[DRY RUN] GraphQL checkout complete — payment NOT submitted." success ;;;
             webUrl <- lift (J.get "webUrl" checkout) ;;
             ret (Some (mkGqlResult true true webUrl "graphql"))
           else graphqlPayment checkout payment
       end)
      (fun err => log ("GraphQL checkout failed: " ++ err) error ;;; ret None).

(** ** Confirmation e-mail ([src/fast-checkout.js], lines 1335-1371) *)

(** [sendConfirmationEmail(config)]: the mail transport is one [Smtp]
    attempt; the body of its response is the preview URL, if any. *)
Definition sendConfirmationEmail (confirmationEmail itemName storeUrl : string) : M unit :=
  if negb (Str.truthy confirmationEmail) then ret tt else
  log ("Sending confirmation to " ++ confirmationEmail ++ "...") info ;;;
  tryCatch
    (info_ <- attempt Smtp "SEND" confirmationEmail []
                (Text ("Purchase Confirmation: " ++ itemName)) ;;
     if Str.truthy (body info_) then log ("Email preview: " ++ body info_) success
     else log ("Sent to " ++ confirmationEmail) success)
    (fun err => log ("Email failed: " ++ err) error).

(** ** The standard flow ([src/fast-checkout.js], lines 1376-1464) *)

(** The [config] argument of [run].  [None] is an absent key; the
    destructuring defaults of the code apply to it. *)
Record Config : Type := mkConfig {
  c_storeUrl : option string;
  c_productUrl : option string;
  c_itemName : option string;
  c_variantId : option string;
  c_checkoutDetails : option Address;
  c_paymentDetails : option Payment;
  c_dryRun : option bool;
  c_confirmationEmail : option string;
  c_mobileMode : bool;
  c_taskIndex : option nat
}.

(** The object [run] resolves to; an absent key is [None]. *)
Record RunResult : Type := mkRunResult {
  r_success : bool;
  r_step : option string;
  r_dryRun : option bool;
  r_elapsed : option string;
  r_mode : option string;
  r_error : option string;
  r_logs : list LogEntry
}.

(** [{ success: false, step, logs: this.getLogs() }]. *)
Definition failedAt (step : string) : M RunResult :=
  l <- gets logs ;;
  ret (mkRunResult false (Some step) None None None None l).

(** [((Date.now() - this.startTime) / 1000).toFixed(1)]. *)
Definition elapsedSeconds : M string :=
  t <- now ;;
  st <- gets startTime ;;
  ret (Fmt.quotientFixed 1 (t - match st with Some t0 => t0 | None => 0%Z end) 1000).

(** [Object.keys(details).length > 0]. *)
Definition hasKeys (a : Address) : bool :=
  match a with
  | mkAddress None None None None None None None None None None None => false
  | _ => true
  end.

(** The success exit shared by the GraphQL and the REST path; the two
    messages are [DRY RUN <dryTag>in <elapsed>s] and
    [ORDER PLACED <liveTag>in <elapsed>s!]. *)
Definition complete `{Runtime} (cfg : Config) (dryRun : bool) (baseUrl resolvedVariant : string)
  (dryTag liveTag : string) (mode : string) : M RunResult :=
  elapsed <- elapsedSeconds ;;
  log (if dryRun then "DRY RUN " ++ dryTag ++ "in " ++ elapsed ++ "s"
       else "ORDER PLACED " ++ liveTag ++ "in " ++ elapsed ++ "s!") success ;;;
  (if negb dryRun && Str.otruthy (c_confirmationEmail cfg) then
     sendConfirmationEmail (Str.orElse (c_confirmationEmail cfg) "")
       (Str.orElse (c_itemName cfg) ("Variant " ++ resolvedVariant)) baseUrl
   else ret tt) ;;;
  l <- gets logs ;;
  ret (mkRunResult true (Some "complete") (Some dryRun) (Some elapsed) (Some mode) None l).

(** Steps 2 to 4 of [run]: the checkout URL via the direct link or via
    cart and checkout session, the shipping address, the shipping rate.
    [inr step] is an early [return] of a failure at [step]; [inl url] is
    the URL handed to the payment step. *)
Definition upToPayment `{Runtime} (baseUrl resolvedVariant : string) (jigged : Address)
  : M (string + string) :=
  direct <- directCheckout baseUrl resolvedVariant ;;
  located <-
    (if Str.otruthy direct then
       let checkoutUrl := Str.orElse direct "" in
       pageRes <- request checkoutUrl GET ;;
       q <- handleQueueIfPresent pageRes checkoutUrl ;;
       modify (set_authToken (extractAuthToken (qbody q))) ;;;
       modify (set_paymentGatewayId (extractPaymentGateway (qbody q))) ;;;
       log "Direct checkout link succeeded — skipped ATC + create checkout!" success ;;;
       ret (inl checkoutUrl)
     else
       added <- addToCart baseUrl resolvedVariant ;;
       if negb added then ret (inr "add-to-cart")
       else
         checkoutUrl <- createCheckout baseUrl ;;
         if negb (Str.truthy checkoutUrl) then ret (inr "create-checkout")
         else ret (inl checkoutUrl)) ;;
  match located with
  | inr step => ret (inr step)
  | inl checkoutUrl =>
      currentUrl <- (if hasKeys jigged then submitShippingAddress checkoutUrl jigged
                     else ret checkoutUrl) ;;
      currentUrl <- selectShippingRate currentUrl ;;
      ret (inl currentUrl)
  end.

(** The destructuring default [dryRun = true]. *)
Definition dryRunOf (cfg : Config) : bool :=
  match c_dryRun cfg with Some b => b | None => true end.

(** The destructuring defaults [checkoutDetails = {}], [paymentDetails = {}]
    and [taskIndex = 0], and the jigged address of the task. *)
Definition checkoutDetailsOf (cfg : Config) : Address :=
  match c_checkoutDetails cfg with Some a => a | None => emptyAddress end.

Definition paymentDetailsOf (cfg : Config) : Payment :=
  match c_paymentDetails cfg with Some p => p | None => noPayment end.

Definition taskIndexOf (cfg : Config) : nat :=
  match c_taskIndex cfg with Some i => i | None => 0 end.

Definition jiggedOf (cfg : Config) : Address :=
  match jigAddress (Some (checkoutDetailsOf cfg)) (taskIndexOf cfg) with
  | Some d => d
  | None => checkoutDetailsOf cfg
  end.

(** The body of the [try] of [run]. *)
Definition runBody `{Runtime} (cfg : Config) (baseUrl : string) : M RunResult :=
  let dryRun := dryRunOf cfg in
  let checkoutDetails :=
    match c_checkoutDetails cfg with Some a => a | None => emptyAddress end in
  let paymentDetails :=
    match c_paymentDetails cfg with Some p => p | None => noPayment end in
  let taskIndex := match c_taskIndex cfg with Some i => i | None => 0 end in
  let jigged :=
    match jigAddress (Some checkoutDetails) taskIndex with
    | Some d => d
    | None => checkoutDetails
    end in
  (* Step 1: resolve the variant *)
  resolved <- resolveVariant (Some baseUrl) (c_productUrl cfg) (c_itemName cfg)
                             (c_variantId cfg) ;;
  if negb (Str.otruthy resolved) then failedAt "resolve-variant" else
  let resolvedVariant := Str.orElse resolved "" in
  (* Step 1.5: the GraphQL checkout *)
  gqlResult <- graphqlCheckout baseUrl resolvedVariant jigged paymentDetails dryRun
                               taskIndex ;;
  if match gqlResult with Some g => g_success g | None => false end then
    complete cfg dryRun baseUrl resolvedVariant "(GraphQL) " "(GraphQL) " "graphql"
  else
    match gqlResult with
    | None => log "GraphQL unavailable, using REST checkout." info
    | Some _ => ret tt
    end ;;;
    (* Steps 2-4 *)
    reached <- upToPayment baseUrl resolvedVariant jigged ;;
    match reached with
    | inr step => failedAt step
    | inl currentUrl =>
        (* Step 5: payment *)
        paid <- submitPayment currentUrl paymentDetails dryRun ;;
        if paid then complete cfg dryRun baseUrl resolvedVariant "complete " "" "fast"
        else failedAt "payment"
    end.

(** The statements of [run] before the [try]: the session is reset, the
    user agent drawn, the base URL computed and the two opening lines
    logged. *)
Definition runStart `{Runtime} (cfg : Config) : M string :=
  t0 <- now ;;
  modify (set_startTime (Some t0)) ;;;
  modify (set_logs []) ;;;
  modify (set_jar (CookieJar.clear [])) ;;;
  (if c_mobileMode cfg then modify (set_ua MOBILE_UA)
   else i <- random 8 ;; modify (set_ua (nth i UA_POOL ""))) ;;;
  modify (set_authToken None) ;;;
  modify (set_paymentGatewayId None) ;;;
  baseUrl <- lift (getBaseUrlOf (c_storeUrl cfg) (c_productUrl cfg)) ;;
  log ("FAST MODE — Direct API checkout for " ++ baseUrl) info ;;;
  agent <- gets ua ;;
  log ("UA: " ++ Str.take 50 agent ++ "..." ++
       (if c_mobileMode cfg then " (MOBILE)" else "")) info ;;;
  ret baseUrl.

(** The [catch] of [run]. *)
Definition runCatch (err : string) : M RunResult :=
  log ("Fatal: " ++ err) error ;;;
  l <- gets logs ;;
  ret (mkRunResult false None None None None (Some err) l).

(** [run(config)].  The base URL is computed before the [try], so an
    invalid store URL rejects the promise instead of producing a result. *)
Definition run `{Runtime} (cfg : Config) : M RunResult :=
  t0 <- now ;;
  modify (set_startTime (Some t0)) ;;;
  modify (set_logs []) ;;;
  modify (set_jar (CookieJar.clear [])) ;;;
  (if c_mobileMode cfg then modify (set_ua MOBILE_UA)
   else i <- random 8 ;; modify (set_ua (nth i UA_POOL ""))) ;;;
  modify (set_authToken None) ;;;
  modify (set_paymentGatewayId None) ;;;
  baseUrl <- lift (getBaseUrlOf (c_storeUrl cfg) (c_productUrl cfg)) ;;
  log ("FAST MODE — Direct API checkout for " ++ baseUrl) info ;;;
  agent <- gets ua ;;
  log ("UA: " ++ Str.take 50 agent ++ "..." ++
       (if c_mobileMode cfg then " (MOBILE)" else "")) info ;;;
  tryCatch (runBody cfg baseUrl)
    (fun err =>
       log ("Fatal: " ++ err) error ;;;
       l <- gets logs ;;
       ret (mkRunResult false None None None None (Some err) l)).

(** ** Observations on a run *)

Definition resultOf {A : Type} (x : Res A * St * list Event) : Res A := fst (fst x).
Definition stateOf {A : Type} (x : Res A * St * list Event) : St := snd (fst x).
Definition eventsOf {A : Type} (x : Res A * St * list Event) : list Event := snd x.

(** A form with [complete=1]: the payment-completion request. *)
Definition completesPayment (b : Payload) : bool :=
  match b with
  | Form fields =>
      List.existsb (fun kv => String.eqb (fst kv) "complete" && String.eqb (snd kv) "1")
                   fields
  | _ => false
  end.

Definition isPaymentSubmission (e : Event) : bool := completesPayment (payload e).

(** The request is not a payment submission. *)
Definition notPayment (e : Event) : Prop := isPaymentSubmission e = false.

(** A payment submission is made while an auth token is held. *)
Definition paysWithToken (e : Event) : Prop :=
  isPaymentSubmission e = true -> Str.otruthy (tokenHeld e) = true.

Definition dryRunReached : string :=
  "[DRY RUN] Payment step reached — NOT submitting.".
Definition dryRunReachedGraphql : string :=
  "[DRY RUN] GraphQL checkout complete — payment NOT submitted.".
Definition fatalNoToken : string :=
  "FATAL: No authentication token available for payment submission.".

(** The three log lines that mark the payment step. *)
Definition marksPayment (msg : string) : bool :=
  String.eqb msg dryRunReached || String.eqb msg dryRunReachedGraphql ||
  String.eqb msg fatalNoToken.

(** A dry-run confirmation is in the log. *)
Definition dryRunConfirmed (l : list LogEntry) : Prop :=
  In (mkLog success dryRunReached) l \/ In (mkLog success dryRunReachedGraphql) l.

(** The missing-token failure is in the log. *)
Definition tokenMissingLogged (l : list LogEntry) : Prop :=
  In (mkLog error fatalNoToken) l.

(** A failure of [run] before the payment step: at one of the three
    earlier steps, or an exception caught by [run]. *)
Definition earlyFailure (res : RunResult) : Prop :=
  r_success res = false /\ r_dryRun res = None /\
  (r_step res = Some "resolve-variant" \/ r_step res = Some "add-to-cart" \/
   r_step res = Some "create-checkout" \/ (r_step res = None /\ r_error res <> None)).

(** The result of a completed dry run. *)
Definition dryRunComplete (res : RunResult) : Prop :=
  r_success res = true /\ r_step res = Some "complete" /\ r_dryRun res = Some true /\
  r_error res = None /\ dryRunConfirmed (r_logs res).

(** The result of a run refused at the payment step. *)
Definition refusedAtPayment (res : RunResult) : Prop :=
  r_success res = false /\ r_step res = Some "payment" /\
  tokenMissingLogged (r_logs res).

(** No line of the log marks the payment step. *)
Definition beforePayment (s : Session) : Prop :=
  forall e, In e (logs s) -> marksPayment (message e) = false.

(** The triple [{Pre} m {P | Post}]: from a session satisfying [Pre], every
    transport attempt of [m] satisfies [P] and the outcome and the session
    afterwards satisfy [Post]. *)
Definition triple {A : Type} (Pre : Session -> Prop) (m : M A) (P : Event -> Prop)
  (Post : Res A -> Session -> Prop) : Prop :=
  forall st, Pre (sess st) ->
    Forall P (eventsOf (m st)) /\ Post (resultOf (m st)) (sess (stateOf (m st))).

(** As [triple], with a postcondition that also reads the transport
    attempts made. *)
Definition spec {A : Type} (Pre : Session -> Prop) (m : M A)
  (Post : Res A -> Session -> list Event -> Prop) : Prop :=
  forall st, Pre (sess st) ->
    Post (resultOf (m st)) (sess (stateOf (m st))) (eventsOf (m st)).

(** [m] never throws. *)
Definition unfailing {A : Type} (m : M A) : Prop :=
  forall st, exists a, resultOf (m st) = Ok a.

(** [m] keeps the invariant [I] and only makes attempts satisfying [P]. *)
Definition keeps_ {A : Type} (I : Session -> Prop) (P : Event -> Prop) (m : M A) : Prop :=
  triple I m P (fun _ s => I s).

(** An invariant that survives what [request] changes: the jar, the
    protocol flag, and log lines that do not mark the payment step. *)
Definition quiet (I : Session -> Prop) : Prop :=
  forall s, I s ->
    (forall j, I (set_jar j s)) /\
    I (set_useH2 (Some false) s) /\
    (forall msg ty, marksPayment msg = false -> I (pushLog msg ty s)).

(** An invariant that reads only the log and survives lines that do not
    mark the payment step. *)
Definition steady (I : Session -> Prop) : Prop :=
  forall s s', I s ->
    (forall e, In e (logs s') -> In e (logs s) \/ marksPayment (message e) = false) ->
    I s'.


(** Two states that differ in the log at most. *)
Definition sameButLog (a b : St) : Prop :=
  set_logs [] (sess a) = set_logs [] (sess b) /\
  script a = script b /\ clock a = clock b /\ draws a = draws b.



(** A session in sequence: each request starts where the last one ended,
    whether it returned or threw.  The result lists, per request, the
    transport attempts made and the protocol flag afterwards. *)
Fixpoint requestsInTurn `{Runtime} (rs : list (string * Options)) (st : St)
  : list (list Event * bool) :=
  match rs with
  | [] => []
  | (url, o) :: rest =>
      let out := request url o st in
      (eventsOf out, h2Enabled (sess (stateOf out))) :: requestsInTurn rest (stateOf out)
  end.

(** ** Redirect chains ([src/fast-checkout.js], lines 229-238) *)

(** [followRedirects(url, maxRedirects)]: the loop with [maxRedirects]
    iterations to go, then the last request.  The result is the pair
    [{ res, url }]. *)
Fixpoint followRedirects `{Runtime} (url : string) (maxRedirects : nat)
  : M (Response * string) :=
  match maxRedirects with
  | O => res <- request url GET ;; ret (res, url)
  | S left' =>
      res <- request url GET ;;
      let loc := location res in
      if negb (Str.otruthy loc) || (status res <? 300) || (400 <=? status res)
      then ret (res, url)
      else
        next <- absolute (Str.orElse loc "") url ;;
        followRedirects next left'
  end.

(** ** Session warm-up ([src/fast-checkout.js], lines 1013-1072) *)

(** [this.httpEngine.preConnect(domain)] ([src/http-engine.js], lines
    308-316): the session setup is one [H2] attempt on
    [https://<domain>:443] that sends no request, so its method is empty;
    only whether it fails is read. *)
Definition preConnect (domain : string) : M bool :=
  tryCatch
    (attempt H2 "" ("https://" ++ domain ++ ":443") [] NoBody ;;; ret true)
    (fun _ => ret false).

(** The object [preCheckout] resolves to; an absent key is [None]. *)
Record WarmResult : Type := mkWarmResult {
  w_success : bool;
  w_message : option string;
  w_error : option string
}.

(** The body of the [try] of [preCheckout]. *)
Definition warmBody `{Runtime} (cfg : Config) (baseUrl : string) : M WarmResult :=
  (* Step 0: the HTTP/2 sessions of the store and of the card vault *)
  domain <- match parseUrl baseUrl with
            | Some u => ret (hostname u)
            | None => throw "Invalid URL"
            end ;;
  h2 <- gets h2Enabled ;;
  (if h2 then
     h2ok <- preConnect domain ;;
     if h2ok then log "HTTP/2 session pre-connected (Chrome TLS fingerprint)." success
     else log "HTTP/2 pre-connect failed, using HTTP/1.1." info
   else ret tt) ;;;
  h2 <- gets h2Enabled ;;
  (if h2 then swallow (preConnect "deposit.shopifycs.com") ;;; ret tt else ret tt) ;;;
  (* Step 1: the home page *)
  request baseUrl GET ;;;
  log "Session cookies + DNS cached." success ;;;
  (* Step 2: the cart endpoint *)
  swallow (request (baseUrl ++ "/cart.js")
                   (mkOptions None [("accept", "application/json")] NoBody)) ;;;
  log "Cart endpoint warmed." success ;;;
  (* Step 3: the checkout endpoint *)
  swallow (request (baseUrl ++ "/checkout") (mkOptions (Some "GET") [] NoBody)) ;;;
  log "Checkout endpoint warmed." success ;;;
  (* Step 4: the payment token *)
  modify (set_prePaymentToken None) ;;;
  match c_paymentDetails cfg with
  | Some payment =>
      if Str.otruthy (cardNumber payment) then
        tryCatch
          (t <- getPaymentSessionToken payment ;;
           modify (set_prePaymentToken (Some t)) ;;;
           log "Payment pre-tokenized." success)
          (fun e => log ("Payment pre-tokenize skipped: " ++ e) info)
      else ret tt
  | None => ret tt
  end ;;;
  modify (set_preCheckoutUrl None) ;;;
  modify (set_preShippingDone false) ;;;
  ret (mkWarmResult true
         (Some "Session fully warmed. DNS, cookies, cart, checkout, payment ready.")
         None).

(** [preCheckout(config)].  As in [run], the base URL is computed before
    the [try].  The copy of [config] kept in [this.preConfig] is read by no
    method and is left out. *)
Definition preCheckout `{Runtime} (cfg : Config) : M WarmResult :=
  t0 <- now ;;
  modify (set_startTime (Some t0)) ;;;
  modify (set_logs []) ;;;
  modify (set_jar (CookieJar.clear [])) ;;;
  i <- random 8 ;;
  modify (set_ua (nth i UA_POOL "")) ;;;
  baseUrl <- lift (getBaseUrlOf (c_storeUrl cfg) (c_productUrl cfg)) ;;
  modify (set_baseUrl (Some baseUrl)) ;;;
  log ("PRE-CHECKOUT: Warming session for " ++ baseUrl ++ "...") info ;;;
  tryCatch (warmBody cfg baseUrl)
    (fun err =>
       log ("Pre-checkout failed: " ++ err) error ;;;
       ret (mkWarmResult false None (Some err))).

(** ** Instant checkout ([src/fast-checkout.js], lines 1076-1150) *)

(** [captchaHarvester.getToken(kind)]: the class is not part of the
    sources; a call yields a token, [null], or throws. *)
Definition Harvester : Type := string -> Res (option string).

(** [captchaHarvester.getToken("recaptchav2") ||
     captchaHarvester.getToken("hcaptcha")]. *)
Definition harvestedToken (h : Harvester) : Res (option string) :=
  rbind (h "recaptchav2") (fun t => if Str.otruthy t then Ok t else h "hcaptcha").

(** [paymentOpts._preToken = t]. *)
Definition withPreToken (t : option string) (p : Payment) : Payment :=
  mkPayment (cardNumber p) (cardName p) (expiryMonth p) (expiryYear p) (cvv p)
            t (captchaToken p).

(** [paymentOpts._captchaToken = t]. *)
Definition withCaptchaToken (t : option string) (p : Payment) : Payment :=
  mkPayment (cardNumber p) (cardName p) (expiryMonth p) (expiryYear p) (cvv p)
            (preToken p) t.

(** The body of the [try] of [runFromPreCheckout]. *)
Definition instantBody `{Runtime} (cfg : Config) (captchaHarvester : option Harvester)
  (baseUrl : string) : M RunResult :=
  let dryRun := dryRunOf cfg in
  let checkoutDetails :=
    match c_checkoutDetails cfg with Some a => a | None => emptyAddress end in
  let paymentDetails :=
    match c_paymentDetails cfg with Some p => p | None => noPayment end in
  let taskIndex := match c_taskIndex cfg with Some i => i | None => 0 end in
  resolved <- (if Str.otruthy (c_variantId cfg) then ret (c_variantId cfg)
               else resolveVariant (Some baseUrl) (c_productUrl cfg) (c_itemName cfg)
                                   (c_variantId cfg)) ;;
  if negb (Str.otruthy resolved) then failedAt "resolve-variant" else
  let resolvedVariant := Str.orElse resolved "" in
  let jigged :=
    match jigAddress (Some checkoutDetails) taskIndex with
    | Some d => d
    | None => checkoutDetails
    end in
  direct <- directCheckout baseUrl resolvedVariant ;;
  located <-
    (if negb (Str.otruthy direct) then
       added <- addToCart baseUrl resolvedVariant ;;
       if negb added then ret (inr "add-to-cart")
       else
         checkoutUrl <- createCheckout baseUrl ;;
         if negb (Str.truthy checkoutUrl) then ret (inr "create-checkout")
         else ret (inl checkoutUrl)
     else
       let checkoutUrl := Str.orElse direct "" in
       pageRes <- request checkoutUrl GET ;;
       q <- handleQueueIfPresent pageRes checkoutUrl ;;
       modify (set_authToken (extractAuthToken (qbody q))) ;;;
       modify (set_paymentGatewayId (extractPaymentGateway (qbody q))) ;;;
       ret (inl checkoutUrl)) ;;
  match located with
  | inr step => failedAt step
  | inl checkoutUrl =>
      currentUrl <- (if hasKeys jigged then submitShippingAddress checkoutUrl jigged
                     else ret checkoutUrl) ;;
      currentUrl <- selectShippingRate currentUrl ;;
      pre <- gets prePaymentToken ;;
      let paymentOpts :=
        if Str.otruthy pre then withPreToken pre paymentDetails else paymentDetails in
      paymentOpts <-
        match captchaHarvester with
        | Some h =>
            token <- lift (harvestedToken h) ;;
            if Str.otruthy token then
              log ("Injecting pre-harvested CAPTCHA token (" ++
                   Str.take 20 (Str.orElse token "") ++ "...)") success ;;;
              ret (withCaptchaToken token paymentOpts)
            else ret paymentOpts
        | None => ret paymentOpts
        end ;;
      paid <- submitPayment currentUrl paymentOpts dryRun ;;
      if paid then complete cfg dryRun baseUrl resolvedVariant "" "" "fast-preloaded"
      else failedAt "payment"
  end.

(** [runFromPreCheckout(config)]; [captchaHarvester] is the key of that
    name in [config].  The log and the jar are kept as they are. *)
Definition runFromPreCheckout `{Runtime} (cfg : Config) (captchaHarvester : option Harvester)
  : M RunResult :=
  t0 <- now ;;
  modify (set_startTime (Some t0)) ;;;
  stored <- gets baseUrl ;;
  baseUrl <- (if Str.otruthy stored then ret (Str.orElse stored "")
              else lift (getBaseUrlOf (c_storeUrl cfg) (c_productUrl cfg))) ;;
  log ("INSTANT CHECKOUT — Pre-warmed session for " ++ baseUrl) info ;;;
  tryCatch (instantBody cfg captchaHarvester baseUrl)
    (fun err =>
       log ("Fatal: " ++ err) error ;;;
       l <- gets logs ;;
       ret (mkRunResult false None None None None (Some err) l)).

(** ** Further observations *)

(** A payment form that carries the card number itself. *)
Definition sendsRawCard (e : Event) : bool :=
  match payload e with
  | Form fields =>
      List.existsb (fun kv => String.eqb (fst kv) "checkout[credit_card][number]") fields
  | _ => false
  end.

(** From a session satisfying [Pre], [m] makes at most [n] transport
    attempts and leaves a session satisfying [Post]. *)
Definition bounded {A : Type} (Pre : Session -> Prop) (n : nat) (m : M A)
  (Post : Session -> Prop) : Prop :=
  forall st, Pre (sess st) ->
    List.length (eventsOf (m st)) <= n /\ Post (sess (stateOf (m st))).

(** The flags that choose the transport have the values [h2] and [proxy]. *)
Definition flagged (h2 : bool) (proxy : option string) (s : Session) : Prop :=
  h2Enabled s = h2 /\ proxyAgent s = proxy.

(** The requests of a session go out over HTTP/2: the flag is set and no
    proxy agent is installed. *)
Definition onH2 (s : Session) : bool := h2Enabled s && negb (Str.otruthy (proxyAgent s)).

(** The session after the cookies of a response [r] from [host] were
    stored, as [storeCookies] leaves it. *)
Definition stored (host : string) (r : Response) (s : Session) : Session :=
  match setCookie r with
  | [] => s
  | cs => set_jar (CookieJar.updateDomain host cs (jar s)) s
  end.

End FastCheckout.

(** ** FleetRunner ([src/fleet-runner.js], lines 109-352)

    The status fields of a bot ([state], [stateDetail], [startTime]), the
    fleet log, the event emissions and the listener that tags the log
    entries of an instance with its bot only report progress and are not
    modelled; a summary reads none of them. *)

Module FleetRunner.

Import FastCheckout.

(** [s.split(c)] for a one-character separator. *)
Fixpoint split (c : ascii) (s : string) : list string :=
  match s with
  | EmptyString => [EmptyString]
  | String d t =>
      match split c t with
      | w :: ws => if Ascii.eqb d c then EmptyString :: w :: ws else String d w :: ws
      | [] => [EmptyString]
      end
  end.

(** What the code reads of a user object. *)
Record User : Type := mkUser {
  u_id : string;
  u_name : string;
  u_email : option string     (* [user.shipping?.email] *)
}.

(** What the code reads of the object [toCheckoutConfig(user)] returns. *)
Record UserConfig : Type := mkUserConfig {
  uc_checkoutDetails : option Address;
  uc_paymentDetails : option Payment
}.

Record Target : Type := mkTarget {
  t_storeUrl : option string;
  t_productUrl : option string;
  t_itemName : option string;
  t_variantId : option string
}.

(** The options of [launch].  [None] is an absent key. *)
Record Opts : Type := mkOpts {
  o_users : option (list User);
  o_target : option Target;
  o_dryRun : option bool;
  o_proxyList : list string;
  o_confirmationEmail : option string;
  o_toCheckoutConfig : User -> Res UserConfig
}.

(** [bot.result]. *)
Inductive BotResult : Type :=
| NoResult                  (* [null] *)
| Ran (r : RunResult)       (* the result of [instance.run(config)] *)
| Stopped                   (* [{ success: false, error: "Fleet stopped" }] *)
| Crashed (msg : string).   (* [{ success: false, error: msg, step: "fatal" }] *)

(** [bot.result?.success || false]. *)
Definition resultSuccess (b : BotResult) : bool :=
  match b with
  | Ran r => r_success r
  | _ => false
  end.

(** [bot.result?.elapsed || "?"]. *)
Definition resultElapsed (b : BotResult) : string :=
  match b with
  | Ran r => Str.orElse (r_elapsed r) "?"
  | _ => "?"
  end.

(** [bot.result?.error || ""]. *)
Definition resultError (b : BotResult) : string :=
  match b with
  | Ran r => Str.orElse (r_error r) ""
  | Stopped => "Fleet stopped"
  | Crashed msg => msg
  | NoResult => ""
  end.

(** [bot.result?.step || ""]. *)
Definition resultStep (b : BotResult) : string :=
  match b with
  | Ran r => Str.orElse (r_step r) ""
  | Crashed _ => "fatal"
  | _ => ""
  end.

(** An entry of [this.bots]. *)
Record Bot : Type := mkBot {
  botId : string;
  user : User;
  instance : Session;
  result : BotResult
}.

(** What one task meets while it runs: the random choices of
    [new FastCheckout()], whether [stop()] was called before the task woke
    from its stagger, the outcomes of its transport attempts, the clock
    when it starts and the values [Math.random] yields to it. *)
Record TaskEnv : Type := mkTaskEnv {
  uaPick : nat;
  fpPick : nat;
  rid : string;
  stopped : bool;
  responses : list (nat * Outcome);
  startedAt : Z;
  randoms : list nat
}.

(** The proxy URL built from an entry of [proxyList]. *)
Definition proxyUrl (proxy : string) : string :=
  if Str.includes "://" proxy then proxy
  else
    match split ":" proxy with
    | [h; p; u; pw] => "http://" ++ u ++ ":" ++ pw ++ "@" ++ h ++ ":" ++ p
    | [h; p] => "http://" ++ h ++ ":" ++ p
    | _ => "http://" ++ proxy
    end.

Definition withProxy (agent : option string) (s : Session) : Session :=
  {| logs := logs s; startTime := startTime s; jar := jar s; ua := ua s;
     runId := runId s; authToken := authToken s;
     paymentGatewayId := paymentGatewayId s;
     checkoutToken := checkoutToken s; preCheckoutUrl := preCheckoutUrl s;
     preShippingDone := preShippingDone s;
     preShippingRateId := preShippingRateId s;
     prePaymentToken := prePaymentToken s; baseUrl := FastCheckout.baseUrl s;
     useH2 := useH2 s; proxyAgent := agent;
     fingerprint := fingerprint s |}.

Section Launch.

Context `{Runtime}.

(** [new HttpsProxyAgent(url)]; [None] when the constructor throws. *)
Variable agentOf : string -> option string.

(** The environment of the task with a given index. *)
Variable envOf : nat -> TaskEnv.

(** One iteration of the creation loop of [launch]: the bot of index [i],
    with its proxy assigned round-robin. *)
Definition newBot (proxyList : list string) (i : nat) (u : User) : Bot :=
  let e := envOf i in
  let fresh := newSession (uaPick e) (fpPick e) (rid e) in
  let inst :=
    match proxyList with
    | [] => fresh
    | _ =>
        let proxy := nth (i mod List.length proxyList) proxyList "" in
        match agentOf (proxyUrl proxy) with
        | Some agent => withProxy (Some agent) fresh
        | None => fresh
        end
    end in
  mkBot ("bot-" ++ Fmt.ofNat (i + 1)) u inst NoResult.

(** The creation loop of [launch], from index [i] on. *)
Fixpoint createBots (proxyList : list string) (users : list User) (i : nat) : list Bot :=
  match users with
  | [] => []
  | u :: rest => newBot proxyList i u :: createBots proxyList rest (S i)
  end.

(** The destructuring default [dryRun = true] of [launch]. *)
Definition dryRunOf (opts : Opts) : bool :=
  match o_dryRun opts with Some b => b | None => true end.

(** The [config] that [_runSingleBot] builds inside its [try]. *)
Definition configFor (opts : Opts) (target : Target) (u : User) (taskIndex : nat)
  : Res Config :=
  rbind (o_toCheckoutConfig opts u) (fun userConfig =>
  rbind (AddressJigger.jig (uc_checkoutDetails userConfig) taskIndex) (fun jiggedDetails =>
  Ok {| c_storeUrl := Some (Str.orElse (t_storeUrl target) "");
        c_productUrl := Some (Str.orElse (t_productUrl target) "");
        c_itemName := Some (Str.orElse (t_itemName target) "");
        c_variantId := Some (Str.orElse (t_variantId target) "");
        c_checkoutDetails := Some jiggedDetails;
        c_paymentDetails := uc_paymentDetails userConfig;
        c_dryRun := Some (dryRunOf opts);
        c_confirmationEmail :=
          Some (if Str.otruthy (o_confirmationEmail opts)
                then Str.orElse (o_confirmationEmail opts) ""
                else Str.orElse (u_email u) "");
        c_mobileMode := false;
        c_taskIndex := Some 0 |})).

(** The state in which the instance of [bot] runs as task [taskIndex]. *)
Definition taskState (taskIndex : nat) (bot : Bot) : St :=
  let e := envOf taskIndex in
  mkSt (instance bot) (responses e) (startedAt e) (randoms e).

(** [_runSingleBot(botId, bot, opts)]: the value it leaves in
    [bot.result]. *)
Definition _runSingleBot (opts : Opts) (target : Target) (taskIndex : nat) (bot : Bot)
  : BotResult :=
  if stopped (envOf taskIndex) then Stopped
  else
    match configFor opts target (user bot) taskIndex with
    | Throw msg => Crashed msg
    | Ok config =>
        match resultOf (run config (taskState taskIndex bot)) with
        | Ok r => Ran r
        | Throw msg => Crashed msg
        end
    end.

(** What the task of index [k], launched for user [u], records. *)
Definition taskResult (opts : Opts) (target : Target) (k : nat) (u : User) : BotResult :=
  _runSingleBot opts target k (newBot (o_proxyList opts) k u).

(** [bot.result = r] for the bot at position [i] of [this.bots]. *)
Fixpoint setResult (i : nat) (r : BotResult) (bots : list Bot) : list Bot :=
  match bots, i with
  | [], _ => []
  | b :: rest, O => mkBot (botId b) (user b) (instance b) r :: rest
  | b :: rest, S k => b :: setResult k r rest
  end.

(** The tasks complete in the order [order]; each writes the result of its
    own bot into the shared [this.bots]. *)
Fixpoint runBots (opts : Opts) (target : Target) (order : list nat) (bots : list Bot)
  : list Bot :=
  match order with
  | [] => bots
  | i :: later =>
      match nth_error bots i with
      | Some bot =>
          runBots opts target later (setResult i (_runSingleBot opts target i bot) bots)
      | None => runBots opts target later bots
      end
  end.

Record Summary : Type := mkSummary {
  s_botId : string;
  s_userId : string;
  s_userName : string;
  s_success : bool;
  s_elapsed : string;
  s_error : string;
  s_step : string
}.

Definition summarize (b : Bot) : Summary :=
  {| s_botId := botId b;
     s_userId := u_id (user b);
     s_userName := u_name (user b);
     s_success := resultSuccess (result b);
     s_elapsed := resultElapsed (result b);
     s_error := resultError (result b);
     s_step := resultStep (result b) |}.

Record FleetResult : Type := mkFleetResult {
  f_success : bool;
  successCount : nat;
  failCount : nat;
  total : nat;
  f_elapsed : string;
  f_dryRun : bool;
  summaries : list Summary
}.

(** The tally loop of [launch]. *)
Definition tally (bots : list Bot) : nat * nat :=
  fold_left (fun (acc : nat * nat) b =>
               if resultSuccess (result b) then (S (fst acc), snd acc)
               else (fst acc, S (snd acc)))
            bots (0, 0).

(** [launch(opts)], the tasks completing in the order [order]; [began] and
    [ended] are the two readings of the clock. *)
Definition launchIn (order : list nat) (opts : Opts) (began ended : Z) : Res FleetResult :=
  match o_users opts with
  | None | Some [] => Throw "No users selected."
  | Some users =>
      if 50 <? List.length users then Throw "Maximum 50 concurrent bots."
      else
        match o_target opts with
        | None => Throw "Store URL or Product URL required."
        | Some target =>
            if negb (Str.otruthy (t_storeUrl target)) &&
               negb (Str.otruthy (t_productUrl target))
            then Throw "Store URL or Product URL required."
            else
              let bots := createBots (o_proxyList opts) users 0 in
              let bots := runBots opts target order bots in
              let '(successes, failures) := tally bots in
              Ok {| f_success := 0 <? successes;
                    successCount := successes;
                    failCount := failures;
                    total := List.length users;
                    f_elapsed := Fmt.quotientFixed 1 (ended - began) 1000;
                    f_dryRun := dryRunOf opts;
                    summaries := List.map summarize bots |}
        end
  end.

(** [launch(opts)] with the tasks completing in index order. *)
Definition launch (opts : Opts) (began ended : Z) : Res FleetResult :=
  match o_users opts with
  | Some users => launchIn (seq 0 (List.length users)) opts began ended
  | None => launchIn [] opts began ended
  end.

(** The bot of task [k] once the task has completed. *)
Definition settledBot (opts : Opts) (target : Target) (k : nat) (u : User) : Bot :=
  let b := newBot (o_proxyList opts) k u in
  mkBot (botId b) (user b) (instance b) (taskResult opts target k u).

(** [this.bots] once every task has completed, from index [i] on. *)
Fixpoint settled (opts : Opts) (target : Target) (users : list User) (i : nat)
  : list Bot :=
  match users with
  | [] => []
  | u :: rest => settledBot opts target i u :: settled opts target rest (S i)
  end.

End Launch.

(** A launch that passes the three checks of [launch]. *)
Definition accepted (opts : Opts) (users : list User) (target : Target) : Prop :=
  o_users opts = Some users /\ users <> [] /\ List.length users <= 50 /\
  o_target opts = Some target /\
  Str.otruthy (t_storeUrl target) || Str.otruthy (t_productUrl target) = true.

(** [opts] with another list of users. *)
Definition withUsers (users : list User) (opts : Opts) : Opts :=
  mkOpts (Some users) (o_target opts) (o_dryRun opts) (o_proxyList opts)
         (o_confirmationEmail opts) (o_toCheckoutConfig opts).

End FleetRunner.

(** ** UserManager ([src/user-manager.js], lines 13-23)

    The country normalisation applied to a stored profile; the profile
    store itself, a JSON file, is not modelled. *)

Module UserManager.





End UserManager.

(** ** What stays of a jigged address *)

(** The compact upper-case form of a postcode. *)
Definition postcodeKey (zip : string) : string :=
  Str.toUpperCase (Str.filter AddressJigger.notSpace zip).

(** ** A reference runtime

    A small reading of the runtime services, used to run the model on
    concrete inputs: URLs are read by [SimpleUrl]; a page carries its auth
    token as [token:<value>;], its payment gateway as [gateway:<value>;]
    and its storefront token as [storefront:<value>;]; no body is JSON.
    The theorems quantify over the runtime instead. *)

Module Demo.

Import FastCheckout.

Fixpoint afterMarker (marker s : string) : option string :=
  if String.prefix marker s then Some (Str.drop (String.length marker) s)
  else match s with
       | EmptyString => None
       | String _ t => afterMarker marker t
       end.

Definition field (marker s : string) : option string :=
  match afterMarker marker s with
  | Some rest => Some (Str.before ";" rest)
  | None => None
  end.

Definition runtime : Runtime :=
  {| parseUrl := SimpleUrl.parse;
     resolveUrl := SimpleUrl.resolve;
     parseJSON := fun _ => None;
     capture := fun p s =>
                  match p with
                  | AuthToken 0 => field "token:" s
                  | PaymentGateway 0 => field "gateway:" s
                  | StorefrontToken 0 => field "storefront:" s
                  | _ => None
                  end;
     shippingRateIds := fun _ => [];
     encodeURIComponent := fun s => s;
     parseInt := fun _ => None;
     parseFloat := fun _ => None |}.

(** A fresh session whose clock starts at 0 and whose transport attempts
    meet the outcomes [script], each after 10 ms. *)
Definition startWith (script : list Outcome) : St :=
  mkSt (newSession 0 0 "run") (List.map (fun o => (10, o)) script) 0 [].

Definition page (b : string) : Outcome := Responded (mkResponse 200 None [] b).

Definition redirect (loc : string) : Outcome := Responded (mkResponse 302 (Some loc) [] "").

Definition notFound : Outcome := Responded (mkResponse 404 None [] "").

(** A store at [https://shop.example], variant 42 given, no address. *)
Definition config (dryRun : bool) : Config :=
  mkConfig (Some "https://shop.example") None None (Some "42") None None (Some dryRun)
           None false None.

(** The outcomes up to the payment step: the store page (no storefront
    token), the direct checkout link, the checkout page with a token, the
    shipping page, the rates endpoint. *)
Definition upToPaymentScript : list Outcome :=
  [ page "welcome";
    redirect "https://shop.example/checkouts/c1";
    page "token:tok-0123456789;gateway:gw1;";
    page "shipping";
    notFound ].

(** The same with a checkout page that carries no token. *)
Definition tokenlessScript : list Outcome :=
  [ page "welcome";
    redirect "https://shop.example/checkouts/c1";
    page "checkout";
    page "shipping";
    notFound ].

(** The outcomes the payment step meets: the card vault (not JSON), the
    payment page with a fresh token, the confirmed submission. *)
Definition paymentScript : list Outcome :=
  [ page "vault";
    page "token:fresh-0123456789;";
    redirect "https://shop.example/checkouts/c1/thank_you" ].

(** What a trace shows of an attempt. *)
Definition shape (e : Event) : Transport * string * string * bool :=
  (transport e, method e, target e, isPaymentSubmission e).

(** *** A reference fleet *)

Definition user (n : nat) : FleetRunner.User :=
  FleetRunner.mkUser ("u" ++ Fmt.ofNat n) ("user " ++ Fmt.ofNat n) None.

Definition address : Address :=
  mkAddress (Some "ash@example.com") (Some "Ash") (Some "Ketchum")
            (Some "12 Pallet Road") (Some "") (Some "Pallet") (Some "") (Some "")
            (Some "PA1 1ET") (Some "GB") (Some "07000000000").

(** A user-manager that cannot read the profile of the user with id [u9]. *)
Definition toCheckoutConfig (u : FleetRunner.User) : Res FleetRunner.UserConfig :=
  if String.eqb (FleetRunner.u_id u) "u9" then Throw "profile unreadable"
  else Ok (FleetRunner.mkUserConfig (Some address) (Some noPayment)).

(** The outcomes up to the payment step when an address is submitted: the
    store page, the direct checkout link, the checkout page, the address
    form, the page after it, the shipping page, the rates endpoint. *)
Definition addressScript : list Outcome :=
  [ page "welcome";
    redirect "https://shop.example/checkouts/c1";
    page "token:tok-0123456789;gateway:gw1;";
    page "address accepted";
    page "token:tok-1123456789;";
    page "shipping";
    notFound ].

Definition opts (users : list FleetRunner.User) : FleetRunner.Opts :=
  FleetRunner.mkOpts (Some users)
    (Some (FleetRunner.mkTarget (Some "https://shop.example") None None (Some "42")))
    (Some true) [] None toCheckoutConfig.

(** No proxy agent can be built. *)
Definition noAgent (url : string) : option string := None.

(** The store answers the task of index [k] only, every other connection
    is refused. *)
Definition onlyTask (k : nat) (i : nat) : FleetRunner.TaskEnv :=
  FleetRunner.mkTaskEnv 0 0 "run" false
    (if i =? k then List.map (fun o => (10, o)) addressScript else []) 0 [].

(** What a summary shows. *)
Definition outcome (s : FleetRunner.Summary)
  : string * string * bool * string * string :=
  (FleetRunner.s_botId s, FleetRunner.s_userId s, FleetRunner.s_success s,
   FleetRunner.s_error s, FleetRunner.s_step s).

End Demo.

(* ===================================================================== *)
(** * Part II: theorems                                                   *)
(* ===================================================================== *)

(** ** Strings *)

Lemma append_assoc (a b c : string) : (a ++ b) ++ c = a ++ (b ++ c).
Proof. induction a as [|x a IH]; simpl; [reflexivity | now rewrite IH]. Qed.

Lemma append_nil_r (a : string) : a ++ "" = a.
Proof. induction a as [|x a IH]; simpl; [reflexivity | now rewrite IH]. Qed.

Lemma concat_contains (sep x : string) (l : list string) :
  In x l -> exists pre post, String.concat sep l = pre ++ x ++ post.
Proof.
  induction l as [|y l IH]; intros Hin; [destruct Hin|].
  destruct Hin as [->|Hin].
  - destruct l as [|z l].
    + exists "", "". simpl. now rewrite append_nil_r.
    + exists "", (sep ++ String.concat sep (z :: l)). reflexivity.
  - destruct (IH Hin) as (pre & post & E).
    destruct l as [|z l]; [destruct Hin|].
    exists (y ++ sep ++ pre), post.
    change (String.concat sep (y :: z :: l)) with (y ++ sep ++ String.concat sep (z :: l)).
    rewrite E. now rewrite !append_assoc.
Qed.

(** ** CookieJar *)

Lemma lookup_assign_same {V : Type} (k : string) (v : V) (m : Dict.dict V) :
  Dict.lookup k (Dict.assign k v m) = Some v.
Proof.
  induction m as [|[k' v'] m IH]; simpl.
  - now rewrite String.eqb_refl.
  - destruct (String.eqb k' k) eqn:E; simpl; rewrite E; [reflexivity | exact IH].
Qed.

Lemma lookup_assign_other {V : Type} (k k' : string) (v : V) (m : Dict.dict V) :
  k <> k' -> Dict.lookup k' (Dict.assign k v m) = Dict.lookup k' m.
Proof.
  intros Hne. induction m as [|[k0 v0] m IH]; simpl.
  - destruct (String.eqb k k') eqn:E; [apply String.eqb_eq in E; contradiction | reflexivity].
  - destruct (String.eqb k0 k) eqn:E; simpl.
    + apply String.eqb_eq in E. subst k0.
      destruct (String.eqb k k') eqn:E'; [apply String.eqb_eq in E'; contradiction | reflexivity].
    + destruct (String.eqb k0 k'); [reflexivity | exact IH].
Qed.

Lemma lookup_In {V : Type} (k : string) (v : V) (m : Dict.dict V) :
  Dict.lookup k m = Some v -> In (k, v) m.
Proof.
  induction m as [|[k' v'] m IH]; simpl; [discriminate|].
  destruct (String.eqb k' k) eqn:E.
  - apply String.eqb_eq in E. intros [= ->]. subst. now left.
  - intros H. right. now apply IH.
Qed.

(** *** Assignments to a plain object *)

Lemma lookup_app_new {V : Type} (k k' : string) (v : V) (o : Dict.dict V) :
  Dict.lookup k' (o ++ [(k, v)])%list =
  match Dict.lookup k' o with
  | Some x => Some x
  | None => if String.eqb k k' then Some v else None
  end.
Proof.
  induction o as [|[k0 v0] o IH]; simpl; [reflexivity|].
  destruct (String.eqb k0 k'); [reflexivity | exact IH].
Qed.

Lemma lookup_insertIndex {V : Type} (i : N) (k k' : string) (v : V) (o : Dict.dict V) :
  Dict.lookup k o = None ->
  Dict.lookup k' (Obj.insertIndex i k v o) =
  if String.eqb k k' then Some v else Dict.lookup k' o.
Proof.
  induction o as [|[k0 v0] o IH]; simpl; [reflexivity|].
  destruct (String.eqb k0 k) eqn:E0; [discriminate|]. intros Hk.
  assert (Hhead : Dict.lookup k' ((k, v) :: (k0, v0) :: o) =
                  if String.eqb k k' then Some v else Dict.lookup k' ((k0, v0) :: o))
    by reflexivity.
  destruct (Obj.arrayIndex k0) as [j|]; [|exact Hhead].
  destruct (j <? i)%N; [|exact Hhead].
  simpl. rewrite (IH Hk).
  destruct (String.eqb k0 k') eqn:E1; [|reflexivity].
  destruct (String.eqb k k') eqn:E2; [|reflexivity].
  apply String.eqb_eq in E1, E2. subst. now rewrite String.eqb_refl in E0.
Qed.

Lemma lookup_define_same {V : Type} (k : string) (v : V) (o : Dict.dict V) :
  Dict.lookup k (Obj.define k v o) = Some v.
Proof.
  unfold Obj.define. destruct (Dict.lookup k o) eqn:E; [apply lookup_assign_same|].
  destruct (Obj.arrayIndex k).
  - rewrite (lookup_insertIndex _ _ _ _ _ E). now rewrite String.eqb_refl.
  - rewrite lookup_app_new, E. now rewrite String.eqb_refl.
Qed.

Lemma lookup_define_other {V : Type} (k k' : string) (v : V) (o : Dict.dict V) :
  k <> k' -> Dict.lookup k' (Obj.define k v o) = Dict.lookup k' o.
Proof.
  intros Hne. assert (En : String.eqb k k' = false) by now apply String.eqb_neq.
  unfold Obj.define. destruct (Dict.lookup k o) eqn:E; [now apply lookup_assign_other|].
  destruct (Obj.arrayIndex k).
  - rewrite (lookup_insertIndex _ _ _ _ _ E). now rewrite En.
  - rewrite lookup_app_new, En. now destruct (Dict.lookup k' o).
Qed.

Lemma lookup_set_same (k v : string) (o : Dict.dict string) :
  k <> "__proto__" -> Dict.lookup k (Obj.set k v o) = Some v.
Proof.
  intros Hk. unfold Obj.set.
  destruct (String.eqb k "__proto__") eqn:E; [apply String.eqb_eq in E; contradiction|].
  apply lookup_define_same.
Qed.

Lemma lookup_set_other (k k' v : string) (o : Dict.dict string) :
  k <> k' -> Dict.lookup k' (Obj.set k v o) = Dict.lookup k' o.
Proof.
  intros Hk. unfold Obj.set. destruct (String.eqb k "__proto__"); [reflexivity|].
  now apply lookup_define_other.
Qed.

(** After the loop of [update], a name other than [__proto__] holds the
    value of the last header that names it, and keeps its old value when
    no header does. *)
Lemma storeCookie_fold_lookup (name : string) (raws : list string) (jar : Dict.dict string) :
  name <> "__proto__" ->
  Dict.lookup name (fold_left CookieJar.storeCookie raws jar) =
  match CookieJar.lastValue name raws with
  | Some v => Some v
  | None => Dict.lookup name jar
  end.
Proof.
  intros Hname. unfold CookieJar.lastValue.
  induction raws as [|raw raws IH] using rev_ind; [reflexivity|].
  rewrite !fold_left_app. simpl.
  unfold CookieJar.storeCookie at 1.
  destruct (CookieJar.parseCookie raw) as [[n v]|]; [|exact IH].
  destruct (String.eqb n name) eqn:E.
  - apply String.eqb_eq in E. subst n. now apply lookup_set_same.
  - rewrite lookup_set_other; [exact IH|].
    intros ->. now rewrite String.eqb_refl in E.
Qed.

Lemma updateDomain_lookup (domain : string) (arr : list string) (s : CookieJar.store) :
  Obj.inherited domain = false ->
  exists jar0,
    Dict.lookup domain (CookieJar.updateDomain domain arr s)
    = Some (fold_left CookieJar.storeCookie arr jar0).
Proof.
  intros Hd. unfold CookieJar.updateDomain.
  destruct (Dict.lookup domain s) as [jar|] eqn:E.
  - exists jar. apply lookup_assign_same.
  - rewrite Hd. exists []. apply lookup_define_same.
Qed.

Lemma cookiesFor_In (domain d name value : string) (jar : Dict.dict string) (s : CookieJar.store) :
  In (d, jar) s -> CookieJar.serves domain d = true -> In (name, value) jar ->
  In (name ++ "=" ++ value) (CookieJar.cookiesFor domain s).
Proof.
  intros Hd Hs Hin. unfold CookieJar.cookiesFor.
  apply in_flat_map. exists (d, jar). split; [exact Hd|].
  simpl. rewrite Hs.
  exact (in_map CookieJar.render jar (name, value) Hin).
Qed.

Lemma lastValue_of_split (name value raw : string) (pre post : list string) :
  CookieJar.parseCookie raw = Some (name, value) ->
  (forall r v', In r post -> CookieJar.parseCookie r <> Some (name, v')) ->
  CookieJar.lastValue name (pre ++ raw :: post)%list = Some value.
Proof.
  intros Hraw Hpost. unfold CookieJar.lastValue.
  rewrite fold_left_app. simpl. rewrite Hraw, String.eqb_refl.
  induction post as [|r post IH] using rev_ind; [reflexivity|].
  rewrite fold_left_app. simpl.
  assert (Hr : forall v', CookieJar.parseCookie r <> Some (name, v')).
  { intros v'. apply Hpost. apply in_or_app. right. now left. }
  assert (IH' := IH (fun r0 v' H => Hpost r0 v' (in_or_app _ _ _ (or_introl H)))).
  destruct (CookieJar.parseCookie r) as [[n v]|]; [|exact IH'].
  destruct (String.eqb n name) eqn:E; [|exact IH'].
  apply String.eqb_eq in E. subst n. now destruct (Hr v).
Qed.

Example cookie_demo :
  CookieJar.updateDomain "shop.example" ["a=1; Path=/"; "b=2"] CookieJar.empty
  = [("shop.example", [("a", "1"); ("b", "2")])].
Proof. reflexivity. Qed.

(** Cookie names that are array indices are listed first, in ascending
    order, as [Object.entries] does. *)
Example cookie_order_demo :
  CookieJar.get SimpleUrl.parse "https://shop.example/"
    (CookieJar.updateDomain "shop.example" ["b=1"; "10=x"; "2=y"; "b=3"] CookieJar.empty)
  = Ok "2=y; 10=x; b=3".
Proof. reflexivity. Qed.

(** A cookie named [__proto__] is not stored, and the jar gets no entry
    for a host that names an inherited property. *)
Example cookie_inherited_names_demo :
  CookieJar.get SimpleUrl.parse "https://shop.example/"
    (CookieJar.updateDomain "shop.example" ["__proto__=x"] CookieJar.empty) = Ok "" /\
  CookieJar.updateDomain "constructor" ["a=1"] CookieJar.empty = CookieJar.empty.
Proof. split; reflexivity. Qed.

(** C5 (amended).  For ASCII set-cookie headers and an update host that
    does not name an inherited property, [update(url, headers)] followed by
    [get(url')], for a [url'] whose host equals the update host or is
    suffix-related to it, returns the cookies joined by ["; "], and the
    result holds the pair [name=value] of every header that has a
    [name=value] prefix, whose name is not [__proto__] and is not assigned
    again by a later header of the same call; [clear()] followed by [get]
    returns the empty string. *)
Theorem cookie_update_get_roundtrip
  (parseUrl : string -> option Url) (url url' : string) (u u' : Url)
  (pre post : list string) (raw name value : string) (s : CookieJar.store) :
  parseUrl url = Some u ->
  parseUrl url' = Some u' ->
  (hostname u' = hostname u \/
   Str.endsWith ("." ++ hostname u) (hostname u') = true \/
   Str.endsWith ("." ++ hostname u') (hostname u) = true) ->
  Obj.inherited (hostname u) = false ->
  Forall (fun r => Str.isAscii r = true) (pre ++ raw :: post)%list ->
  CookieJar.parseCookie raw = Some (name, value) ->
  name <> "__proto__" ->
  (forall r v', In r post -> CookieJar.parseCookie r <> Some (name, v')) ->
  (exists s' cs,
     CookieJar.update parseUrl url (CookieJar.Headers (pre ++ raw :: post)) s = Ok s' /\
     CookieJar.get parseUrl url' s' = Ok (String.concat "; " cs) /\
     In (name ++ "=" ++ value) cs /\
     exists l r, String.concat "; " cs = l ++ (name ++ "=" ++ value) ++ r)
  /\ (forall s0, CookieJar.get parseUrl url' (CookieJar.clear s0) = Ok "").
Proof.
  intros Hu Hu' Hrel Hhost _ Hraw Hname Hpost. split.
  - unfold CookieJar.update, CookieJar.get. rewrite Hu, Hu'.
    set (s' := CookieJar.updateDomain (hostname u) (pre ++ raw :: post) s).
    exists s', (CookieJar.cookiesFor (hostname u') s').
    assert (Hin : In (name ++ "=" ++ value) (CookieJar.cookiesFor (hostname u') s')).
    { destruct (updateDomain_lookup (hostname u) (pre ++ raw :: post) s Hhost)
        as [jar0 Hjar].
      fold s' in Hjar.
      apply (cookiesFor_In _ (hostname u) _ _ _ _ (lookup_In _ _ _ Hjar)).
      - unfold CookieJar.serves.
        destruct Hrel as [E | [E | E]].
        + rewrite E, String.eqb_refl. reflexivity.
        + rewrite E. apply orb_true_iff. left. apply orb_true_r.
        + rewrite E. apply orb_true_r.
      - apply lookup_In. rewrite (storeCookie_fold_lookup _ _ _ Hname).
        now rewrite (lastValue_of_split name value raw pre post Hraw Hpost). }
    repeat split; [exact Hin|].
    now apply concat_contains.
  - intros s0. unfold CookieJar.get. now rewrite Hu'.
Qed.

Lemma cookie_update_get_roundtrip_witness :
  (exists s' cs,
     CookieJar.update SimpleUrl.parse "https://shop.example/cart"
       (CookieJar.Headers ([] ++ "sid=abc; Path=/" :: ["cart=1"])) CookieJar.empty = Ok s' /\
     CookieJar.get SimpleUrl.parse "https://www.shop.example/checkout" s'
       = Ok (String.concat "; " cs) /\
     In ("sid" ++ "=" ++ "abc") cs /\
     exists l r, String.concat "; " cs = l ++ ("sid" ++ "=" ++ "abc") ++ r)
  /\ (forall s0, CookieJar.get SimpleUrl.parse "https://www.shop.example/checkout"
                   (CookieJar.clear s0) = Ok "").
Proof.
  apply (cookie_update_get_roundtrip SimpleUrl.parse
           "https://shop.example/cart" "https://www.shop.example/checkout"
           (mkUrl "https:" "shop.example" "" "/cart" "" "https://shop.example/cart")
           (mkUrl "https:" "www.shop.example" "" "/checkout" ""
                  "https://www.shop.example/checkout")
           [] ["cart=1"] "sid=abc; Path=/" "sid" "abc" CookieJar.empty).
  - reflexivity.
  - reflexivity.
  - right. left. reflexivity.
  - reflexivity.
  - repeat constructor.
  - reflexivity.
  - discriminate.
  - intros r v' [<-|[]]. vm_compute. discriminate.
Defined.

(** C5, as stated, fails: a later header with the same cookie name
    overwrites the earlier value, so the earlier pair is not in the result. *)
Lemma cookie_same_name_overwritten :
  CookieJar.parseCookie "a=1" = Some ("a", "1") /\
  match CookieJar.update SimpleUrl.parse "https://shop.example/cart"
          (CookieJar.Headers ["a=1"; "a=2"]) CookieJar.empty with
  | Ok s' => CookieJar.get SimpleUrl.parse "https://shop.example/cart" s'
  | Throw m => Throw m
  end = Ok "a=2" /\
  Str.includes "a=1" "a=2" = false.
Proof. repeat split. Qed.

(** ** SmartProxyManager *)

Section ProxyFacts.
Import SmartProxyManager.
Local Open Scope Q_scope.
Local Open Scope nat_scope.

Lemma leb_iff (a b : Proxy) :
  leb a b = true <->
  bans a < bans b \/ (bans a = bans b /\ (avgLatency a <= avgLatency b)%Q).
Proof.
  unfold leb, cmp. destruct (Nat.eqb (bans a) (bans b)) eqn:E.
  - apply Nat.eqb_eq in E. rewrite Qle_alt. split.
    + intros H. right. split; [exact E|]. intros G. now rewrite G in H.
    + intros [H | [_ H]]; [lia|].
      destruct (avgLatency a ?= avgLatency b)%Q; try reflexivity. now destruct H.
  - apply Nat.eqb_neq in E. split.
    + intros H. left.
      destruct (Nat.compare_spec (bans a) (bans b)); [lia | assumption | discriminate].
    + intros [H | [H _]]; [|lia].
      apply Nat.compare_lt_iff in H. now rewrite H.
Qed.

Lemma leb_refl (a : Proxy) : leb a a = true.
Proof. apply leb_iff. right. split; [reflexivity | apply Qle_refl]. Qed.

Lemma leb_trans (a b c : Proxy) : leb a b = true -> leb b c = true -> leb a c = true.
Proof.
  rewrite !leb_iff. intros [H1 | [E1 L1]] [H2 | [E2 L2]]; try (left; lia).
  right. split; [lia | eapply Qle_trans; eassumption].
Qed.

Lemma leb_total (a b : Proxy) : leb a b = false -> leb b a = true.
Proof.
  intros H. apply leb_iff.
  destruct (Nat.lt_trichotomy (bans a) (bans b)) as [L | [E | G]].
  - assert (leb a b = true) by (apply leb_iff; now left). congruence.
  - right. split; [lia|].
    destruct (Qlt_le_dec (avgLatency a) (avgLatency b)) as [Hl | Hl]; [|exact Hl].
    assert (leb a b = true)
      by (apply leb_iff; right; split; [exact E | now apply Qlt_le_weak]).
    congruence.
  - now left.
Qed.

Lemma In_insert (x y : nat * Proxy) (l : list (nat * Proxy)) :
  In y (insert x l) <-> y = x \/ In y l.
Proof.
  induction l as [|z l IH]; simpl.
  - intuition.
  - destruct (leb (snd x) (snd z)); simpl; [intuition|].
    rewrite IH. intuition.
Qed.

Lemma In_sort (y : nat * Proxy) (l : list (nat * Proxy)) :
  In y (sort l) <-> In y l.
Proof.
  induction l as [|z l IH]; simpl; [reflexivity|].
  rewrite In_insert, IH. intuition.
Qed.

(** The first element of the sorted array is a least one. *)
Lemma sort_head_least (l : list (nat * Proxy)) (d y : nat * Proxy) :
  In y l -> leb (snd (hd d (sort l))) (snd y) = true.
Proof.
  revert y. induction l as [|a l IH]; intros y Hy; [destruct Hy|].
  simpl. destruct (sort l) as [|z L] eqn:Es.
  - simpl. destruct Hy as [<- | Hy]; [apply leb_refl|].
    apply (In_sort y l) in Hy. rewrite Es in Hy. destruct Hy.
  - simpl. destruct (leb (snd a) (snd z)) eqn:Eaz; simpl.
    + destruct Hy as [<- | Hy]; [apply leb_refl|].
      eapply leb_trans; [exact Eaz|]. exact (IH y Hy).
    + destruct Hy as [<- | Hy]; [now apply leb_total|]. exact (IH y Hy).
Qed.

Lemma sort_head_In (l : list (nat * Proxy)) (c : nat * Proxy) :
  In c l -> In (hd c (sort l)) l.
Proof.
  intros Hc. apply In_sort.
  destruct (sort l) as [|z L] eqn:Es; simpl; [|now left].
  apply (In_sort c l) in Hc. rewrite Es in Hc. destruct Hc.
Qed.

Lemma positionsFrom_In (k i : nat) (p : Proxy) (s : pool) :
  In (i, p) (positionsFrom k s) -> k <= i /\ nth_error s (i - k) = Some p.
Proof.
  revert k. induction s as [|q s IH]; intros k; simpl; [intros []|].
  intros [E | H].
  - inversion E; subst. rewrite Nat.sub_diag. split; [lia | reflexivity].
  - destruct (IH _ H) as [Hle Hn]. split; [lia|].
    replace (i - k) with (S (i - S k)) by lia. exact Hn.
Qed.

Lemma candidates_In (now : Z) (i : nat) (p : Proxy) (s : pool) :
  In (i, p) (candidates now s) -> nth_error s i = Some p /\ available now p = true.
Proof.
  unfold candidates, positions. intros H. apply filter_In in H. destruct H as [H A].
  apply positionsFrom_In in H. rewrite Nat.sub_0_r in H. now split.
Qed.

Lemma nth_error_setAt (i j : nat) (q : Proxy) (s : pool) :
  nth_error (setAt i q s) j =
  if Nat.eqb i j then option_map (fun _ => q) (nth_error s j) else nth_error s j.
Proof.
  revert i j. induction s as [|p s IH]; intros [|i] [|j]; simpl;
    try reflexivity.
  - now destruct (Nat.eqb i j).
  - apply IH.
Qed.

Lemma findPos_nth (u : string) (s : pool) (i : nat) :
  findPos u s = Some i -> exists p, nth_error s i = Some p /\ url p = u.
Proof.
  revert i. induction s as [|q s IH]; intros i; simpl; [discriminate|].
  destruct (String.eqb (url q) u) eqn:E.
  - intros [= <-]. exists q. split; [reflexivity | now apply String.eqb_eq].
  - destruct (findPos u s) as [k|]; simpl; [|discriminate].
    intros [= <-]. exact (IH k eq_refl).
Qed.

Lemma findPos_urls (u : string) (s s' : pool) :
  List.map url s = List.map url s' -> findPos u s = findPos u s'.
Proof.
  revert s'. induction s as [|q s IH]; intros [|q' s']; simpl; try discriminate;
    [reflexivity|].
  intros [= E1 E2]. rewrite E1, (IH s' E2). reflexivity.
Qed.

Lemma reportBan_urls (u : string) (now : Z) (s : pool) :
  List.map url (reportBan u now s) = List.map url s.
Proof.
  induction s as [|q s IH]; simpl; [reflexivity|].
  destruct (String.eqb (url q) u); simpl; [reflexivity | now rewrite IH].
Qed.

Lemma reportSuccess_urls (u : string) (ms : Q) (s : pool) :
  List.map url (reportSuccess u ms s) = List.map url s.
Proof.
  induction s as [|q s IH]; simpl; [reflexivity|].
  destruct (String.eqb (url q) u); simpl; [reflexivity | now rewrite IH].
Qed.

Lemma setAt_urls (i : nat) (p q : Proxy) (s : pool) :
  nth_error s i = Some p -> url q = url p ->
  List.map url (setAt i q s) = List.map url s.
Proof.
  revert i. induction s as [|r s IH]; intros [|i]; simpl; try discriminate.
  - intros [= ->] ->. reflexivity.
  - intros H E. now rewrite (IH i H E).
Qed.

(** The branch [getNext] takes when some identity is available. *)
Lemma getNext_pick (now : Z) (s : pool) :
  candidates now s <> [] ->
  exists j p,
    getNext now s = (Some (j, used p), setAt j (used p) s) /\
    In (j, p) (candidates now s) /\
    forall k q, In (k, q) (candidates now s) -> leb p q = true.
Proof.
  intros Hne. unfold getNext.
  destruct s as [|p0 rest]; [now destruct Hne|].
  destruct (candidates now (p0 :: rest)) as [|c cs] eqn:Ec; [now destruct Hne|].
  destruct (hd c (sort (c :: cs))) as [j p] eqn:Eh.
  exists j, p. split; [reflexivity|]. split.
  - rewrite <- Eh. apply sort_head_In. now left.
  - intros k q Hq.
    change p with (snd (j, p)). rewrite <- Eh.
    exact (sort_head_least (c :: cs) c (k, q) Hq).
Qed.

(** The branch [getNext] takes when the whole pool is unavailable. *)
Lemma getNext_reset (now : Z) (p0 : Proxy) (rest : pool) :
  candidates now (p0 :: rest) = [] ->
  getNext now (p0 :: rest) = (Some (0, revive p0), List.map revive (p0 :: rest)).
Proof. intros H. unfold getNext. now rewrite H. Qed.

Lemma getNext_urls (now : Z) (s : pool) :
  List.map url (snd (getNext now s)) = List.map url s.
Proof.
  destruct (candidates now s) as [|c cs] eqn:Ec.
  - destruct s as [|p0 rest]; [reflexivity|].
    rewrite (getNext_reset now p0 rest Ec). unfold snd.
    generalize (p0 :: rest). intros l.
    induction l as [|q l IHl]; simpl; [reflexivity | now rewrite IHl].
  - destruct (getNext_pick now s) as (j & p & E & Hin & _); [now rewrite Ec|].
    rewrite E. simpl snd. apply candidates_In in Hin. destruct Hin as [Hn _].
    now apply (setAt_urls j p).
Qed.

Lemma step_urls (s : pool) (c : Call) : List.map url (step s c) = List.map url s.
Proof.
  destruct c; simpl; [apply reportBan_urls | apply reportSuccess_urls | apply getNext_urls].
Qed.

Lemma reportBan_at (u : string) (now : Z) (s : pool) (i : nat) :
  findPos u s = Some i ->
  exists p, nth_error s i = Some p /\ nth_error (reportBan u now s) i = Some (banned now p).
Proof.
  revert i. induction s as [|q s IH]; intros i; simpl; [discriminate|].
  destruct (String.eqb (url q) u) eqn:E.
  - intros [= <-]. exists q. now split.
  - destruct (findPos u s) as [k|]; simpl; [|discriminate].
    intros [= <-]. exact (IH k eq_refl).
Qed.

Lemma reportBan_other (u u' : string) (now : Z) (s : pool) (i : nat) :
  findPos u s = Some i -> u' <> u ->
  nth_error (reportBan u' now s) i = nth_error s i.
Proof.
  intros Hf Hne. revert i Hf. induction s as [|q s IH]; intros i; simpl; [discriminate|].
  destruct (String.eqb (url q) u) eqn:E.
  - intros [= <-]. apply String.eqb_eq in E.
    destruct (String.eqb (url q) u') eqn:E'; [|reflexivity].
    apply String.eqb_eq in E'. congruence.
  - destruct (findPos u s) as [k|]; simpl; [|discriminate].
    intros [= <-].
    destruct (String.eqb (url q) u'); simpl; [reflexivity | exact (IH k eq_refl)].
Qed.

Lemma reportSuccess_flags (u : string) (ms : Q) (s : pool) (i : nat) :
  option_map (fun p => (bans p, alive p)) (nth_error (reportSuccess u ms s) i) =
  option_map (fun p => (bans p, alive p)) (nth_error s i).
Proof.
  revert i. induction s as [|q s IH]; intros i; simpl; [reflexivity|].
  destruct (String.eqb (url q) u); destruct i; simpl; try reflexivity. apply IH.
Qed.

Lemma getNext_flags (now : Z) (s : pool) (i : nat) :
  candidates now s <> [] ->
  option_map (fun p => (bans p, alive p)) (nth_error (snd (getNext now s)) i) =
  option_map (fun p => (bans p, alive p)) (nth_error s i).
Proof.
  intros Hne. destruct (getNext_pick now s Hne) as (j & p & E & Hin & _).
  rewrite E. simpl snd. rewrite nth_error_setAt.
  destruct (Nat.eqb j i) eqn:Eji; [|reflexivity].
  apply Nat.eqb_eq in Eji. subst j.
  apply candidates_In in Hin. destruct Hin as [Hn _]. now rewrite Hn.
Qed.

(** Three or more bans of one identity, with no pool-wide reset in
    between, leave that identity dead. *)
Lemma dead_after_three_bans (u : string) (i : nat) (cs : list Call) :
  forall s : pool,
    findPos u s = Some i ->
    resets cs s = false ->
    (exists p, nth_error s i = Some p /\
               ((1 <= countBans u cs /\ 3 <= bans p + countBans u cs) \/ alive p = false)) ->
    exists p', nth_error (run cs s) i = Some p' /\ alive p' = false.
Proof.
  induction cs as [|c cs IH]; intros s Hf Hr (p & Hp & Hcase).
  - exists p. split; [exact Hp|]. destruct Hcase as [[H _] | H]; [simpl in H; lia | exact H].
  - simpl in Hr. apply orb_false_iff in Hr. destruct Hr as [Hr1 Hr2].
    change (run (c :: cs) s) with (run cs (step s c)).
    apply IH; [now rewrite (findPos_urls u _ s (step_urls s c)) | exact Hr2 |].
    destruct c as [u' now | u' ms | now]; simpl step; simpl countBans in Hcase.
    + destruct (String.eqb u' u) eqn:E.
      * apply String.eqb_eq in E. subst u'.
        destruct (reportBan_at u now s i Hf) as (p0 & Hp0 & Hb).
        rewrite Hp in Hp0. injection Hp0 as <-.
        exists (banned now p). split; [exact Hb|].
        unfold banned. cbn [alive bans].
        destruct (Nat.leb 3 (S (bans p))) eqn:E3.
        -- now right.
        -- apply Nat.leb_gt in E3.
           destruct Hcase as [[H1 H3] | H]; [left; lia | now right].
      * assert (Hne : u' <> u) by (intros ->; now rewrite String.eqb_refl in E).
        exists p. rewrite (reportBan_other u u' now s i Hf Hne). split; [exact Hp|].
        destruct Hcase as [[H1 H3] | H]; [left; simpl in *; lia | now right].
    + pose proof (reportSuccess_flags u' ms s i) as Hfl. rewrite Hp in Hfl.
      destruct (nth_error (reportSuccess u' ms s) i) as [p'|]; [|discriminate].
      simpl in Hfl. injection Hfl as Hb Ha. exists p'. split; [reflexivity|].
      rewrite Hb, Ha. exact Hcase.
    + assert (Hne : candidates now s <> []).
      { intros E. now rewrite E in Hr1. }
      pose proof (getNext_flags now s i Hne) as Hfl. rewrite Hp in Hfl.
      destruct (nth_error (snd (getNext now s)) i) as [p'|]; [|discriminate].
      simpl in Hfl. injection Hfl as Hb Ha. exists p'. split; [reflexivity|].
      rewrite Hb, Ha. exact Hcase.
Qed.

Lemma run_urls (cs : list Call) : forall s : pool, List.map url (run cs s) = List.map url s.
Proof.
  induction cs as [|c cs IH]; intros s; [reflexivity|].
  change (run (c :: cs) s) with (run cs (step s c)).
  now rewrite IH, step_urls.
Qed.

Lemma findPos_of_nth (s : pool) (j : nat) (p : Proxy) :
  NoDup (List.map url s) -> nth_error s j = Some p -> findPos (url p) s = Some j.
Proof.
  revert j. induction s as [|q s IH]; intros [|j]; simpl; try discriminate.
  - intros _ [= ->]. now rewrite String.eqb_refl.
  - intros Hnd Hn. inversion Hnd as [|? ? Hq Hnd']; subst.
    destruct (String.eqb (url q) (url p)) eqn:E.
    + apply String.eqb_eq in E. destruct Hq. rewrite E.
      apply in_map. exact (nth_error_In _ _ Hn).
    + now rewrite (IH j Hnd' Hn).
Qed.

Lemma positionsFrom_complete (k0 k : nat) (q : Proxy) (s : pool) :
  nth_error s k = Some q -> In (k0 + k, q) (positionsFrom k0 s).
Proof.
  revert k0 k. induction s as [|p s IH]; intros k0 [|k]; simpl; try discriminate.
  - intros [= ->]. left. f_equal. lia.
  - intros H. right. replace (k0 + S k) with (S k0 + k) by lia. now apply IH.
Qed.

Lemma candidates_complete (now : Z) (k : nat) (q : Proxy) (s : pool) :
  nth_error s k = Some q -> available now q = true -> In (k, q) (candidates now s).
Proof.
  intros Hn Ha. unfold candidates, positions. apply filter_In. split; [|exact Ha].
  exact (positionsFrom_complete 0 k q s Hn).
Qed.

(** C6 (amended).  With some entry available, [getNext] returns an available entry
    that has the fewest bans and, among those, the lowest average latency.
    In a pool whose URLs are pairwise distinct it never returns the URL that
    [reportBan] was called on three or more times since the last pool-wide
    reset.  With every entry of a non-empty pool unavailable, [getNext] sets
    every [alive] flag, zeroes every ban count and returns the first
    entry. *)
Theorem proxy_getNext_policy (now : Z) (s : pool) :
  (candidates now s <> [] ->
   exists j p,
     getNext now s = (Some (j, used p), setAt j (used p) s) /\
     nth_error s j = Some p /\ available now p = true /\
     (forall k q, nth_error s k = Some q -> available now q = true ->
        bans p < bans q \/ (bans p = bans q /\ (avgLatency p <= avgLatency q)%Q)) /\
     (forall s0 cs u,
        s = run cs s0 -> NoDup (List.map url s0) ->
        resets cs s0 = false -> 3 <= countBans u cs ->
        url p <> u))
  /\
  (s <> [] -> candidates now s = [] ->
   exists p0 rest,
     s = p0 :: rest /\
     getNext now s = (Some (0, revive p0), List.map revive s) /\
     Forall (fun p => alive p = true /\ bans p = 0) (List.map revive s)).
Proof.
  split.
  - intros Hne. destruct (getNext_pick now s Hne) as (j & p & E & Hin & Hmin).
    destruct (candidates_In now j p s Hin) as [Hn Ha].
    exists j, p. repeat split; try assumption.
    + intros k q Hk Hq. apply leb_iff. apply (Hmin k).
      now apply candidates_complete.
    + intros s0 cs u -> Hnd Hr H3 Hu.
      assert (Hf : findPos u s0 = Some j).
      { rewrite <- (findPos_urls u _ s0 (run_urls cs s0)). rewrite <- Hu.
        apply findPos_of_nth; [now rewrite run_urls | exact Hn]. }
      destruct (findPos_nth u s0 j Hf) as (p0 & Hp0 & _).
      destruct (dead_after_three_bans u j cs s0 Hf Hr) as (p' & Hp' & Hdead).
      { exists p0. split; [exact Hp0|]. left. lia. }
      rewrite Hn in Hp'. injection Hp' as <-.
      unfold available in Ha. rewrite Hdead in Ha. discriminate.
  - intros Hs Hc. destruct s as [|p0 rest]; [now destruct Hs|].
    exists p0, rest. split; [reflexivity|]. split; [now apply getNext_reset|].
    apply Forall_forall. intros q Hq. apply in_map_iff in Hq.
    destruct Hq as (r & <- & _). now split.
Qed.

Lemma proxy_getNext_policy_witness :
  (exists j p,
     getNext 100000
       (run [ReportBan "http://10.0.0.1:8080" 1000; ReportBan "http://10.0.0.1:8080" 2000;
             ReportBan "http://10.0.0.1:8080" 3000]
            (create ["10.0.0.1:8080"; "10.0.0.2:8080"]))
     = (Some (j, used p),
        setAt j (used p)
          (run [ReportBan "http://10.0.0.1:8080" 1000; ReportBan "http://10.0.0.1:8080" 2000;
                ReportBan "http://10.0.0.1:8080" 3000]
               (create ["10.0.0.1:8080"; "10.0.0.2:8080"]))) /\
     url p <> "http://10.0.0.1:8080")
  /\
  (exists p0 rest,
     getNext 4000
       (run [ReportBan "http://10.0.0.1:8080" 1000; ReportBan "http://10.0.0.2:8080" 2000]
            (create ["10.0.0.1:8080"; "10.0.0.2:8080"]))
     = (Some (0, revive p0), List.map revive (p0 :: rest)) /\
     alive (revive p0) = true /\ bans (revive p0) = 0).
Proof.
  split.
  - destruct (proj1 (proxy_getNext_policy 100000
       (run [ReportBan "http://10.0.0.1:8080" 1000; ReportBan "http://10.0.0.1:8080" 2000;
             ReportBan "http://10.0.0.1:8080" 3000]
            (create ["10.0.0.1:8080"; "10.0.0.2:8080"]))))
      as (j & p & E & _ & _ & _ & Hban).
    + vm_compute. discriminate.
    + exists j, p. split; [exact E|].
      apply (Hban (create ["10.0.0.1:8080"; "10.0.0.2:8080"])
                  [ReportBan "http://10.0.0.1:8080" 1000; ReportBan "http://10.0.0.1:8080" 2000;
                   ReportBan "http://10.0.0.1:8080" 3000]
                  "http://10.0.0.1:8080");
        [reflexivity | | reflexivity | simpl; lia].
      repeat constructor; simpl; intuition discriminate.
  - destruct (proj2 (proxy_getNext_policy 4000
       (run [ReportBan "http://10.0.0.1:8080" 1000; ReportBan "http://10.0.0.2:8080" 2000]
            (create ["10.0.0.1:8080"; "10.0.0.2:8080"]))))
      as (p0 & rest & Es & E & _).
    + vm_compute. discriminate.
    + reflexivity.
    + exists p0, rest. rewrite <- Es. split; [exact E|]. split; reflexivity.
Defined.

Example proxy_demo_pick :
  fst (getNext 100000
        (run [ReportBan "http://10.0.0.1:8080" 1000; ReportBan "http://10.0.0.1:8080" 2000;
              ReportBan "http://10.0.0.1:8080" 3000]
             (create ["10.0.0.1:8080"; "10.0.0.2:8080"])))
  = Some (1, mkProxy "http://10.0.0.2:8080" 1 0 0%Z 1 0%Q true).
Proof. reflexivity. Qed.

(** C6, as stated, fails for a pool that lists a URL twice: [reportBan]
    marks the first entry with that URL only, so after three reports the
    second entry is still available and [getNext] returns it, although the
    entry of another URL is available too. *)
Lemma proxy_duplicate_url_survives_ban :
  let s0 := create ["10.0.0.1:8080"; "10.0.0.1:8080"; "10.0.0.2:8080"] in
  let cs := [ReportBan "http://10.0.0.1:8080" 1000; ReportBan "http://10.0.0.1:8080" 2000;
             ReportBan "http://10.0.0.1:8080" 3000] in
  resets cs s0 = false /\
  countBans "http://10.0.0.1:8080" cs = 3 /\
  (exists q, nth_error (run cs s0) 2 = Some q /\
             url q = "http://10.0.0.2:8080" /\ available 100000 q = true) /\
  exists p, fst (getNext 100000 (run cs s0)) = Some (1, p) /\
            url p = "http://10.0.0.1:8080".
Proof.
  cbv zeta. split; [reflexivity|]. split; [reflexivity|]. split.
  - eexists. split; [reflexivity|]. split; reflexivity.
  - eexists. split; reflexivity.
Qed.

End ProxyFacts.

(** ** Session snapshots *)

Section SnapshotFacts.
Import FastCheckout.
Local Open Scope Z_scope.

Lemma expired_iff (now : Z) (d : Snapshot) :
  expired now d = true <->
  exists t, s_savedAt d = Some t /\ t <> 0 /\ now - t > fourHours.
Proof.
  unfold expired, savedAtTruthy. destruct (s_savedAt d) as [t|]; simpl.
  - rewrite andb_true_iff, negb_true_iff, Z.eqb_neq, Z.gtb_gt. split.
    + intros [H1 H2]. exists t. now repeat split.
    + intros (t' & [= <-] & H1 & H2). now split.
  - split; [discriminate | intros (t & H & _); discriminate].
Qed.

(** C4 (amended).  A snapshot whose [savedAt] is a non-zero timestamp more
    than four hours before the current time is rejected: [restoreSession]
    returns [false] and leaves the cookie jar, user agent, fingerprint,
    auth token, gateway id, checkout token, pre-warm state, base URL and
    protocol flag as they were; it only appends one log entry. *)
Theorem restore_rejects_expired (now t : Z) (d : Snapshot) (s : Session) :
  s_savedAt d = Some t -> t <> 0 -> now - t > fourHours ->
  exists s',
    restoreSession now (Some d) s = (false, s') /\
    jar s' = jar s /\ ua s' = ua s /\ fingerprint s' = fingerprint s /\
    authToken s' = authToken s /\ paymentGatewayId s' = paymentGatewayId s /\
    checkoutToken s' = checkoutToken s /\ preCheckoutUrl s' = preCheckoutUrl s /\
    preShippingDone s' = preShippingDone s /\
    preShippingRateId s' = preShippingRateId s /\
    prePaymentToken s' = prePaymentToken s /\
    baseUrl s' = baseUrl s /\ useH2 s' = useH2 s /\
    logs s' = (logs s ++ [mkLog info "Saved session expired (>4h old). Starting fresh."])%list.
Proof.
  intros Ht Hnz Hold.
  assert (E : expired now d = true) by (apply expired_iff; exists t; now repeat split).
  unfold restoreSession. rewrite E. eexists. split; [reflexivity|].
  repeat split.
Qed.

Lemma restore_rejects_expired_witness :
  exists s',
    restoreSession 1700014400001
      (Some (serializeSession 1700000000000 (newSession 0 0 "r1"))) (newSession 1 1 "r2")
    = (false, s') /\
    jar s' = jar (newSession 1 1 "r2") /\ ua s' = ua (newSession 1 1 "r2") /\
    fingerprint s' = fingerprint (newSession 1 1 "r2") /\
    authToken s' = authToken (newSession 1 1 "r2") /\
    paymentGatewayId s' = paymentGatewayId (newSession 1 1 "r2") /\
    checkoutToken s' = checkoutToken (newSession 1 1 "r2") /\
    preCheckoutUrl s' = preCheckoutUrl (newSession 1 1 "r2") /\
    preShippingDone s' = preShippingDone (newSession 1 1 "r2") /\
    preShippingRateId s' = preShippingRateId (newSession 1 1 "r2") /\
    prePaymentToken s' = prePaymentToken (newSession 1 1 "r2") /\
    baseUrl s' = baseUrl (newSession 1 1 "r2") /\ useH2 s' = useH2 (newSession 1 1 "r2") /\
    logs s' = (logs (newSession 1 1 "r2") ++
               [mkLog info "Saved session expired (>4h old). Starting fresh."])%list.
Proof.
  apply (restore_rejects_expired 1700014400001 1700000000000
           (serializeSession 1700000000000 (newSession 0 0 "r1")) (newSession 1 1 "r2")).
  - reflexivity.
  - discriminate.
  - reflexivity.
Defined.

(** C4, as stated, fails for the timestamp [0], which is more than four
    hours in the past and is accepted: the snapshot is loaded. *)
Lemma restore_accepts_epoch_zero :
  let d := mkSnapshot None None None (Some "token-of-1970-snapshot") None None None
                      None None None None None (Some 0) in
  1700000000000 - 0 > fourHours /\
  fst (restoreSession 1700000000000 (Some d) (newSession 0 0 "r1")) = true /\
  authToken (snd (restoreSession 1700000000000 (Some d) (newSession 0 0 "r1")))
    = Some "token-of-1970-snapshot"%string /\
  authToken (newSession 0 0 "r1") = None.
Proof. repeat split. Qed.

(** C10.  A snapshot whose [savedAt] is absent or zero is accepted whatever
    its age: every field is loaded from it (with the defaults of the code
    for missing fields; [useH2] is [true] when absent and is taken as it is,
    [null] included, when present) and [true] is returned.  [false] is returned, and
    nothing loaded, exactly when the input is [null]/[undefined] or
    [savedAt] is a non-zero timestamp more than four hours old. *)
Theorem restore_age_check_needs_savedAt (now : Z) (s : Session) :
  (forall d,
     s_savedAt d = None \/ s_savedAt d = Some 0 ->
     exists msg,
       restoreSession now (Some d) s = (true, pushLog msg success (loadSnapshot d s)) /\
       jar (loadSnapshot d s) = match s_cookies d with Some c => c | None => [] end /\
       ua (loadSnapshot d s) = Str.orElse (s_ua d) (ua s) /\
       fingerprint (loadSnapshot d s)
         = match s_fingerprint d with Some f => f | None => fingerprint s end /\
       authToken (loadSnapshot d s) = orNull (s_authToken d) /\
       paymentGatewayId (loadSnapshot d s) = orNull (s_paymentGatewayId d) /\
       checkoutToken (loadSnapshot d s) = orNull (s_checkoutToken d) /\
       preCheckoutUrl (loadSnapshot d s) = orNull (s_preCheckoutUrl d) /\
       preShippingDone (loadSnapshot d s)
         = match s_preShippingDone d with Some b => b | None => false end /\
       preShippingRateId (loadSnapshot d s) = orNull (s_preShippingRateId d) /\
       prePaymentToken (loadSnapshot d s) = orNull (s_prePaymentToken d) /\
       baseUrl (loadSnapshot d s) = orNull (s_baseUrl d) /\
       useH2 (loadSnapshot d s) = match s_useH2 d with Some v => v | None => Some true end)
  /\
  (forall data,
     fst (restoreSession now data s) = false <->
     data = None \/
     exists d t, data = Some d /\ s_savedAt d = Some t /\ t <> 0 /\ now - t > fourHours)
  /\
  (forall data,
     fst (restoreSession now data s) = false ->
     serializeSession 0 (snd (restoreSession now data s)) = serializeSession 0 s).
Proof.
  split; [|split].
  - intros d Hd.
    assert (E : expired now d = false).
    { unfold expired, savedAtTruthy. destruct Hd as [-> | ->]; reflexivity. }
    unfold restoreSession. rewrite E. eexists. split; [reflexivity|]. repeat split.
  - intros [d|]; simpl.
    + destruct (expired now d) eqn:E; simpl.
      * split; [|reflexivity]. intros _. right.
        apply expired_iff in E. destruct E as (t & H1 & H2 & H3).
        exists d, t. now repeat split.
      * split; [discriminate|]. intros [H | (d' & t & [= <-] & H1 & H2 & H3)];
          [discriminate|].
        assert (E' : expired now d = true) by (apply expired_iff; exists t; now repeat split).
        congruence.
    + split; [now left | reflexivity].
  - intros [d|]; simpl; [|reflexivity].
    destruct (expired now d); simpl; [reflexivity | discriminate].
Qed.

Lemma restore_age_check_needs_savedAt_witness :
  exists msg,
    restoreSession 1700000000000
      (Some (mkSnapshot None (Some "UA/1.0"%string) None (Some "tok"%string) None None None
                        None None None (Some "https://shop.example"%string) (Some (Some false)) None))
      (newSession 0 0 "r1")
    = (true,
       pushLog msg success
         (loadSnapshot
            (mkSnapshot None (Some "UA/1.0"%string) None (Some "tok"%string) None None None
                        None None None (Some "https://shop.example"%string) (Some (Some false)) None)
            (newSession 0 0 "r1"))) /\
    authToken
      (loadSnapshot
         (mkSnapshot None (Some "UA/1.0"%string) None (Some "tok"%string) None None None
                     None None None (Some "https://shop.example"%string) (Some (Some false)) None)
         (newSession 0 0 "r1"))
    = Some "tok"%string.
Proof.
  destruct (proj1 (restore_age_check_needs_savedAt 1700000000000 (newSession 0 0 "r1"))
              (mkSnapshot None (Some "UA/1.0"%string) None (Some "tok"%string) None None None
                          None None None (Some "https://shop.example"%string) (Some (Some false)) None))
    as (msg & E & _ & _ & _ & Ha & _).
  - left. reflexivity.
  - exists msg. split; [exact E | exact Ha].
Defined.

(** A snapshot with [useH2: null] leaves [null] in the session, which
    reads as HTTP/2 switched off. *)
Example restore_null_flag :
  let d := mkSnapshot None None None None None None None None None None None
                      (Some None) None in
  let s' := snd (restoreSession 1700000000000 (Some d) (newSession 0 0 "r1")) in
  useH2 s' = None /\ h2Enabled s' = false /\
  s_useH2 (serializeSession 1700000000001 s') = Some None.
Proof. repeat split. Qed.

End SnapshotFacts.

(** ** Address jigging *)

Section JigFacts.
Import AddressJigger.

Lemma truthy_append_l (a b : string) : Str.truthy a = true -> Str.truthy (a ++ b) = true.
Proof. destruct a; [discriminate | reflexivity]. Qed.

Lemma truthy_append_r (a b : string) : Str.truthy b = true -> Str.truthy (a ++ b) = true.
Proof. destruct a; [easy | reflexivity]. Qed.

Lemma truthy_map (f : ascii -> ascii) (s : string) : Str.truthy (Str.map f s) = Str.truthy s.
Proof. destruct s; reflexivity. Qed.

Lemma existsb_append (p : ascii -> bool) (a b : string) :
  Str.existsb p (a ++ b) = Str.existsb p a || Str.existsb p b.
Proof.
  induction a as [|c a IH]; simpl; [reflexivity|]. now rewrite IH, orb_assoc.
Qed.

Lemma existsb_truthy (p : ascii -> bool) (s : string) :
  Str.existsb p s = true -> Str.truthy s = true.
Proof. destruct s; [discriminate | reflexivity]. Qed.

Lemma existsb_map (p : ascii -> bool) (f : ascii -> ascii) (s : string) :
  (forall c, p (f c) = p c) -> Str.existsb p (Str.map f s) = Str.existsb p s.
Proof.
  intros H. induction s as [|c s IH]; simpl; [reflexivity|]. now rewrite H, IH.
Qed.


Lemma existsb_dropWhileEnd (p : ascii -> bool) (s : string) :
  Str.existsb (fun c => negb (p c)) s = true ->
  Str.existsb (fun c => negb (p c)) (Str.dropWhileEnd p s) = true.
Proof.
  induction s as [|c s IH]; simpl; [discriminate|].
  destruct (Str.dropWhileEnd p s) as [|d r] eqn:E.
  - destruct (p c) eqn:Ec; simpl.
    + intros H. specialize (IH H). discriminate.
    + intros _. now rewrite Ec.
  - intros H. simpl. apply orb_true_iff in H. apply orb_true_iff.
    destruct H as [H | H]; [now left | right; exact (IH H)].
Qed.

Lemma pick_Forall (P : string -> Prop) (n : nat) (vs : list string) :
  vs <> [] -> Forall P vs -> P (pick n vs).
Proof.
  intros Hne HF. unfold pick.
  assert (Hlen : List.length vs <> 0) by (destruct vs; [congruence | discriminate]).
  apply (proj1 (Forall_forall P vs) HF). apply nth_In.
  now apply Nat.mod_upper_bound.
Qed.

Lemma upperChar_dotComma (c : ascii) : isDotComma (Str.upperChar c) = isDotComma c.
Proof.
  destruct c as [b0 b1 b2 b3 b4 b5 b6 b7].
  destruct b0, b1, b2, b3, b4, b5, b6, b7; reflexivity.
Qed.

Lemma lowerChar_dotComma (c : ascii) : isDotComma (Str.lowerChar c) = isDotComma c.
Proof.
  destruct c as [b0 b1 b2 b3 b4 b5 b6 b7].
  destruct b0, b1, b2, b3, b4, b5, b6, b7; reflexivity.
Qed.

Lemma hasStreetText_upper (s : string) :
  hasStreetText (Str.toUpperCase s) = hasStreetText s.
Proof.
  unfold hasStreetText, Str.toUpperCase. apply existsb_map.
  intros c. now rewrite upperChar_dotComma.
Qed.

Lemma hasStreetText_lower (s : string) :
  hasStreetText (Str.toLowerCase s) = hasStreetText s.
Proof.
  unfold hasStreetText, Str.toLowerCase. apply existsb_map.
  intros c. now rewrite lowerChar_dotComma.
Qed.

Lemma hasStreetText_capitalize (p : string) :
  hasStreetText (capitalize p) = hasStreetText p.
Proof.
  destruct p as [|c t]; [reflexivity|].
  unfold capitalize, hasStreetText. simpl. now rewrite upperChar_dotComma.
Qed.

Lemma truthy_capitalize (p : string) : Str.truthy (capitalize p) = Str.truthy p.
Proof. destruct p; reflexivity. Qed.

Lemma tableGet_In (k : string) (vs : list string) (t : table) :
  tableGet k t = Some vs -> In vs (List.map snd t).
Proof.
  induction t as [|[k' v] t IH]; simpl; [discriminate|].
  destruct (String.eqb k' k); [intros [= ->]; now left | intros H; right; now apply IH].
Qed.

(** Every row of a table is a non-empty list of strings satisfying [p]. *)
Lemma table_rows (p : string -> bool) (t : table) (k : string) (vs : list string) :
  List.forallb (fun row => negb (Nat.eqb (List.length row) 0) && List.forallb p row)
               (List.map snd t) = true ->
  tableGet k t = Some vs ->
  vs <> [] /\ Forall (fun v => p v = true) vs.
Proof.
  intros Hall Hget. apply tableGet_In in Hget.
  rewrite forallb_forall in Hall. specialize (Hall vs Hget).
  apply andb_true_iff in Hall. destruct Hall as [Hlen Hp]. split.
  - intros ->. discriminate.
  - apply Forall_forall. now apply forallb_forall.
Qed.

(** *** Words that select a built-in object *)

Lemma tableGet_key (k : string) (vs : list string) (t : table) :
  tableGet k t = Some vs -> In k (List.map fst t).
Proof.
  induction t as [|[k' v] t IH]; simpl; [discriminate|].
  destruct (String.eqb k' k) eqn:E.
  - apply String.eqb_eq in E. intros _. now left.
  - intros H. right. now apply IH.
Qed.

Lemma tableLookup_inherited (k : string) (t : table) :
  ownKeysPlain t = true -> Obj.inherited k = true -> tableLookup k t = Builtin.
Proof.
  intros Ht Hk. unfold tableLookup.
  destruct (tableGet k t) as [vs|] eqn:E; [|now rewrite Hk].
  apply tableGet_key in E. unfold ownKeysPlain in Ht. rewrite forallb_forall in Ht.
  specialize (Ht k E). now rewrite Hk in Ht.
Qed.

Lemma tableLookup_plain (k : string) (t : table) :
  Obj.inherited k = false ->
  tableLookup k t = match tableGet k t with Some vs => Variants vs | None => Missing end.
Proof. intros Hk. unfold tableLookup. now rewrite Hk. Qed.

Lemma dropLastIf_snoc (p : ascii -> bool) (y : string) (c : ascii) :
  p c = true -> dropLastIf p (y ++ String c "") = y.
Proof.
  intros Hc. induction y as [|d y IH].
  - simpl. now rewrite Hc.
  - change (String d y ++ String c "") with (String d (y ++ String c "")).
    cbn [dropLastIf]. rewrite IH. now destruct y.
Qed.

Lemma dropLastIf_cases (p : ascii -> bool) (x : string) :
  dropLastIf p x = x \/
  exists c, p c = true /\ x = dropLastIf p x ++ String c "".
Proof.
  induction x as [|d x IH]; [now left|].
  destruct x as [|e x'].
  - simpl. destruct (p d) eqn:E; [right; now exists d | now left].
  - change (dropLastIf p (String d (String e x')))
      with (String d (dropLastIf p (String e x'))).
    destruct IH as [E | (c & Hc & E)].
    + left. now rewrite E.
    + right. exists c. split; [exact Hc|]. cbn [append]. f_equal. exact E.
Qed.

Lemma inherited_In (k : string) : Obj.inherited k = true -> In k Obj.inheritedNames.
Proof.
  unfold Obj.inherited. intros H. apply existsb_exists in H.
  destruct H as (x & Hx & E). apply String.eqb_eq in E. now subst x.
Qed.

(** An inherited name does not end with a full stop or a comma. *)
Lemma inherited_unstripped (k : string) :
  Obj.inherited k = true -> dropLastIf isDotComma k = k.
Proof.
  intros H. apply inherited_In in H. simpl in H.
  repeat (destruct H as [<- | H]; [reflexivity|]). destruct H.
Qed.

(** A word that selects a built-in object in [DIRECTIONS] selects one in
    [STREET_TYPES], whose lookup comes first. *)
Lemma direction_builtin_is_street (w : string) :
  namesBuiltin isDot w = true -> namesBuiltin isDotComma w = true.
Proof.
  unfold namesBuiltin. set (x := Str.toLowerCase w). clearbody x. intros H.
  destruct (dropLastIf_cases isDot x) as [E | (c & Hc & E)].
  - rewrite E in H. now rewrite (inherited_unstripped x H).
  - set (key := dropLastIf isDot x) in *. rewrite E.
    rewrite dropLastIf_snoc; [exact H|].
    unfold isDotComma. unfold isDot in Hc. now rewrite Hc.
Qed.

Lemma rowsSatisfy_pick (p : string -> bool) (t : table) (k : string) (vs : list string)
  (n : nat) (upper : bool) :
  rowsSatisfy p t = true -> tableGet k t = Some vs ->
  p (if upper then capitalize (pick n vs) else pick n vs) = true.
Proof.
  intros Hall Hget.
  destruct (table_rows (fun v => p v && p (capitalize v)) t k vs Hall Hget) as [Hne HF].
  assert (H : p (pick n vs) && p (capitalize (pick n vs)) = true)
    by (apply (pick_Forall (fun v => p v && p (capitalize v) = true)); assumption).
  apply andb_true_iff in H. destruct H as [H1 H2]. now destruct upper.
Qed.

(** One step of the word loop on a word that selects no built-in object:
    the word stays a string, and one that [p] holds of gives one. *)
Lemma replaceFrom_plain (p : string -> bool) (t : table) (strip : ascii -> bool) (n : nat)
  (w : string) :
  rowsSatisfy p t = true -> namesBuiltin strip w = false ->
  exists w', replaceFrom t strip n (Some w) = Ok (Some w') /\
             (p w = true -> p w' = true).
Proof.
  intros Ht Hw. unfold replaceFrom. unfold namesBuiltin in Hw.
  rewrite (tableLookup_plain _ t Hw).
  destruct (tableGet _ t) as [vs|] eqn:E.
  - eexists. split; [reflexivity|]. intros _.
    exact (rowsSatisfy_pick p t _ vs n (firstIsUpper w) Ht E).
  - exists w. now split.
Qed.

Lemma replaceFrom_builtin (t : table) (strip : ascii -> bool) (n : nat) (w : string) :
  ownKeysPlain t = true -> namesBuiltin strip w = true ->
  replaceFrom t strip n (Some w) =
  if firstIsUpper w then undefinedHas "charAt" else Ok None.
Proof.
  intros Ht Hw. unfold replaceFrom. now rewrite (tableLookup_inherited _ t Ht Hw).
Qed.

Lemma jigWord_plain (p : string -> bool) (seed i : nat) (w : string) :
  rowsSatisfy (andPlain p) STREET_TYPES = true ->
  rowsSatisfy p DIRECTIONS = true ->
  namesBuiltin isDotComma w = false ->
  exists w', jigWord seed i w = Ok (Some w') /\ (p w = true -> p w' = true).
Proof.
  intros Hs Hd Hw. unfold jigWord.
  assert (Hdir : namesBuiltin isDot w = false).
  { destruct (namesBuiltin isDot w) eqn:E; [|reflexivity].
    apply direction_builtin_is_street in E. congruence. }
  unfold replaceFrom at 1. unfold namesBuiltin in Hw.
  rewrite (tableLookup_plain _ STREET_TYPES Hw).
  destruct (tableGet _ STREET_TYPES) as [vs|] eqn:E; cbn [rbind].
  - pose proof (rowsSatisfy_pick (andPlain p) STREET_TYPES _ vs (seed + i)
                  (firstIsUpper w) Hs E) as H1.
    apply andb_true_iff in H1. destruct H1 as [H1 H2]. apply negb_true_iff in H2.
    destruct (replaceFrom_plain p DIRECTIONS isDot (seed + i + 1) _ Hd H2)
      as (w' & E' & Hp).
    exists w'. split; [exact E'|]. intros _. now apply Hp.
  - exact (replaceFrom_plain p DIRECTIONS isDot (seed + i + 1) w Hd Hdir).
Qed.

Lemma jigWord_builtin (seed i : nat) (w : string) :
  namesBuiltin isDotComma w = true -> exists msg, jigWord seed i w = Throw msg.
Proof.
  intros Hw. unfold jigWord.
  rewrite (replaceFrom_builtin STREET_TYPES isDotComma _ w eq_refl Hw).
  destruct (firstIsUpper w); eexists; reflexivity.
Qed.

Lemma jigWords_plain (p : string -> bool) (seed : nat) (ws : list string) :
  rowsSatisfy (andPlain p) STREET_TYPES = true ->
  rowsSatisfy p DIRECTIONS = true ->
  forall i,
    List.existsb (namesBuiltin isDotComma) ws = false ->
    exists ws',
      jigWords seed i ws = Ok (List.map Some ws') /\
      List.length ws' = List.length ws /\
      (Forall (fun w => p w = true) ws -> Forall (fun w => p w = true) ws').
Proof.
  intros Hs Hd. induction ws as [|w ws IH]; intros i Hw.
  - exists []. now repeat split.
  - simpl in Hw. apply orb_false_iff in Hw. destruct Hw as [Hw Hws].
    destruct (jigWord_plain p seed i w Hs Hd Hw) as (w' & E & Hp).
    destruct (IH (S i) Hws) as (ws' & E' & Hl & HF).
    exists (w' :: ws'). cbn [jigWords]. rewrite E. cbn [rbind]. rewrite E'. cbn [rbind].
    split; [reflexivity|]. split; [simpl; now rewrite Hl|].
    intros H. inversion H; subst. constructor; [now apply Hp | now apply HF].
Qed.

Lemma jigWords_builtin (seed : nat) (ws : list string) :
  forall i,
    List.existsb (namesBuiltin isDotComma) ws = true ->
    exists msg, jigWords seed i ws = Throw msg.
Proof.
  induction ws as [|w ws IH]; intros i Hw; [discriminate|].
  simpl in Hw. cbn [jigWords].
  destruct (namesBuiltin isDotComma w) eqn:E.
  - destruct (jigWord_builtin seed i w E) as [msg Em]. exists msg. now rewrite Em.
  - simpl in Hw. destruct (IH (S i) Hw) as [msg Em].
    destruct (jigWord_plain (fun _ => true) seed i w eq_refl eq_refl E) as (w' & E' & _).
    exists msg. rewrite E'. cbn [rbind]. now rewrite Em.
Qed.

Lemma joinWords_strings (ws : list string) :
  joinWords (List.map Some ws) = String.concat " " ws.
Proof. unfold joinWords. now rewrite map_map, map_id. Qed.

Lemma splitWs_not_nil (s : string) : splitWs s <> [].
Proof.
  induction s as [|c t IH]; simpl; [discriminate|].
  destruct (Str.isSpace c).
  - destruct t as [|d t']; [discriminate|]. destruct (Str.isSpace d); [exact IH | discriminate].
  - destruct (splitWs t); discriminate.
Qed.

Lemma splitWs_space (c : ascii) (t : string) :
  Str.isSpace c = true ->
  splitWs (String c t) =
  match t with
  | String d _ => if Str.isSpace d then splitWs t else EmptyString :: splitWs t
  | EmptyString => EmptyString :: splitWs t
  end.
Proof. intros Hc. simpl. now rewrite Hc. Qed.

Lemma splitWs_leading_space (c : ascii) (t : string) :
  Str.isSpace c = true -> 2 <= List.length (splitWs (String c t)).
Proof.
  revert c. induction t as [|d t IH]; intros c Hc; rewrite (splitWs_space c _ Hc).
  - simpl. lia.
  - destruct (Str.isSpace d) eqn:Ed.
    + exact (IH d Ed).
    + pose proof (splitWs_not_nil (String d t)) as Hn.
      destruct (splitWs (String d t)); [congruence | simpl; lia].
Qed.

(** A split with a single piece is the whole string. *)
Lemma splitWs_single (s w : string) : splitWs s = [w] -> w = s.
Proof.
  revert w. induction s as [|c t IH]; intros w.
  - simpl. now intros [= <-].
  - destruct (Str.isSpace c) eqn:Ec.
    + intros H. pose proof (splitWs_leading_space c t Ec) as Hl.
      rewrite H in Hl. simpl in Hl. lia.
    + simpl. rewrite Ec. destruct (splitWs t) as [|w0 ws] eqn:Es.
      * now destruct (splitWs_not_nil t).
      * intros [= <- ->]. now rewrite (IH w0 eq_refl).
Qed.

Lemma hasStreetText_space_join (x y : string) (l : list string) :
  hasStreetText (String.concat " " (x :: y :: l)) = true.
Proof.
  change (String.concat " " (x :: y :: l)) with (x ++ " " ++ String.concat " " (y :: l)).
  unfold hasStreetText. rewrite existsb_append. apply orb_true_iff. right. reflexivity.
Qed.

Lemma hasStreetText_numbered (addr : string) (seed : nat) :
  hasStreetText addr = true -> hasStreetText (numbered addr seed) = true.
Proof.
  intros Hs. unfold numbered.
  destruct (matchStreetNumber addr) as [[num rest]|]; [|exact Hs].
  unfold hasStreetText. rewrite existsb_append. apply orb_true_iff. now right.
Qed.

Lemma truthy_finished (r : string) (seed : nat) :
  hasStreetText r = true -> Str.truthy (finished r seed) = true.
Proof.
  intros H2. unfold finished.
  set (r3 := if seed mod 5 =? 1 then Str.toUpperCase r
             else if seed mod 5 =? 2 then Str.toLowerCase r else r).
  assert (H3 : hasStreetText r3 = true).
  { unfold r3. destruct (seed mod 5 =? 1); [now rewrite hasStreetText_upper|].
    destruct (seed mod 5 =? 2); [now rewrite hasStreetText_lower | exact H2]. }
  destruct ((seed mod 3 =? 1) && negb (Str.endsWith "." r3)).
  - apply truthy_append_l. exact (existsb_truthy _ _ H3).
  - destruct (seed mod 3 =? 2).
    + apply (existsb_truthy (fun c => negb (isDotComma c))).
      now apply existsb_dropWhileEnd.
    + exact (existsb_truthy _ _ H3).
Qed.

(** [_jigStreetAddress] throws exactly when a word of the loop selects a
    built-in object; otherwise an address with street text keeps some. *)
Lemma jigStreetAddress_outcome (addr : string) (seed : nat) :
  match _jigStreetAddress addr seed with
  | Ok r =>
      List.existsb (namesBuiltin isDotComma) (splitWs (numbered addr seed)) = false /\
      (hasStreetText addr = true -> Str.truthy r = true)
  | Throw _ =>
      List.existsb (namesBuiltin isDotComma) (splitWs (numbered addr seed)) = true
  end.
Proof.
  unfold _jigStreetAddress. destruct (Str.truthy addr) eqn:Ht; cbn [negb].
  - destruct (List.existsb (namesBuiltin isDotComma) (splitWs (numbered addr seed))) eqn:Eb.
    + destruct (jigWords_builtin seed _ 0 Eb) as [msg Em]. now rewrite Em.
    + destruct (jigWords_plain hasStreetText seed (splitWs (numbered addr seed))
                  eq_refl eq_refl 0 Eb) as (ws' & E & Hl & HF).
      rewrite E. cbn [rbind]. split; [reflexivity|]. intros Hs.
      rewrite joinWords_strings. apply truthy_finished.
      pose proof (hasStreetText_numbered addr seed Hs) as H1.
      destruct (splitWs (numbered addr seed)) as [|w [|w2 ws]] eqn:Es.
      * now destruct (splitWs_not_nil (numbered addr seed)).
      * apply splitWs_single in Es. subst w.
        destruct ws' as [|w' [|? ?]]; try discriminate Hl.
        simpl. assert (HF' := HF (Forall_cons _ H1 (Forall_nil _))).
        now inversion HF'.
      * destruct ws' as [|w' [|w2' ws'']]; try discriminate Hl.
        apply hasStreetText_space_join.
  - destruct addr; [|discriminate Ht]. split; [reflexivity | discriminate].
Qed.

Lemma truthy_closeUp (s : string) : Str.truthy (closeUp s) = Str.truthy s.
Proof.
  destruct s as [|c t]; [reflexivity|]. simpl.
  now destruct (notDigit c && _ && _).
Qed.

Lemma truthy_spaceOut (s : string) : Str.truthy (spaceOut s) = Str.truthy s.
Proof.
  destruct s as [|c [|d t]]; try reflexivity. simpl.
  now destruct (notDigit c && Str.isDigit d).
Qed.

Lemma truthy_concat_two (x y : string) (l : list string) :
  Str.truthy (String.concat " " (x :: y :: l)) = true.
Proof.
  change (String.concat " " (x :: y :: l)) with (x ++ " " ++ String.concat " " (y :: l)).
  now apply truthy_append_r.
Qed.

Lemma truthy_spaced (r : string) (seed : nat) :
  Str.truthy r = true -> Str.truthy (spaced r seed) = true.
Proof.
  intros H1. unfold spaced.
  set (r2 := if seed mod 4 =? 1 then closeUp r else r).
  assert (H2 : Str.truthy r2 = true).
  { unfold r2. destruct (seed mod 4 =? 1); [now rewrite truthy_closeUp | exact H1]. }
  set (r3 := if seed mod 4 =? 2 then spaceOut r2 else r2).
  assert (H3 : Str.truthy r3 = true).
  { unfold r3. destruct (seed mod 4 =? 2); [now rewrite truthy_spaceOut | exact H2]. }
  destruct (seed mod 6 =? 3); [unfold Str.toUpperCase; now rewrite truthy_map|].
  destruct (seed mod 6 =? 4); [unfold Str.toLowerCase; now rewrite truthy_map | exact H3].
Qed.

(** [_jigAddressLine2] throws exactly when the first word of a non-empty
    line selects a built-in object; otherwise a non-empty line stays so. *)
Lemma jigAddressLine2_outcome (addr2 addr1 : string) (seed : nat) :
  match _jigAddressLine2 addr2 addr1 seed with
  | Ok r =>
      match splitWs addr2 with w :: _ => namesBuiltin isDotComma w | [] => false end
        = false /\
      (Str.truthy addr2 = true -> Str.truthy r = true)
  | Throw _ =>
      match splitWs addr2 with w :: _ => namesBuiltin isDotComma w | [] => false end = true
  end.
Proof.
  unfold _jigAddressLine2. destruct (Str.truthy addr2) eqn:Ht; cbn [negb].
  - unfold prefixed. destruct (splitWs addr2) as [|w rest] eqn:Es.
    + now destruct (splitWs_not_nil addr2).
    + destruct (namesBuiltin isDotComma w) eqn:Eb.
      * unfold namesBuiltin in Eb.
        now rewrite (tableLookup_inherited _ UNIT_PREFIXES eq_refl Eb).
      * unfold namesBuiltin in Eb. rewrite (tableLookup_plain _ UNIT_PREFIXES Eb).
        assert (Hjoin : forall w', (rest = [] -> Str.truthy w' = true) ->
                  Str.truthy (String.concat " " (w' :: rest)) = true).
        { intros w' Hw'. destruct rest as [|w2 ws]; [now apply Hw'|].
          apply truthy_concat_two. }
        destruct (tableGet _ UNIT_PREFIXES) as [vs|] eqn:E; cbn [rbind];
          (split; [reflexivity|]); intros _; apply truthy_spaced, Hjoin; intros Hr.
        -- rewrite truthy_capitalize.
           destruct (table_rows Str.truthy UNIT_PREFIXES _ vs eq_refl E) as [Hne HF].
           now apply pick_Forall.
        -- subst rest. apply splitWs_single in Es. now subst w.
  - destruct addr2; [|discriminate Ht]. split; [reflexivity | discriminate].
Qed.








Lemma truthy_orEmpty (o : option string) : Str.truthy (orEmpty o) = Str.otruthy o.
Proof. destruct o as [[|c t]|]; reflexivity. Qed.


(** The outcome of [jig] at an index other than 0. *)
Lemma jig_outcome (a : Address) (k : nat) :
  match jig (Some a) (S k) with
  | Ok b =>
      meetsBuiltin a (S k) = false /\
      email b = email a /\ county b = county a /\ state b = state a /\
      country b = country a /\
      firstName b = Some (_jigFirstName (orEmpty (firstName a)) (S k)) /\
      lastName b = Some (_jigLastName (orEmpty (lastName a)) (S k)) /\
      city b = Some (_jigCity (orEmpty (city a)) (S k)) /\
      zip b = Some (_jigPostcode (orEmpty (zip a)) (S k)) /\
      phone b = Some (_jigPhone (orEmpty (phone a)) (S k)) /\
      (hasStreetText (orEmpty (address a)) = true -> Str.otruthy (address b) = true) /\
      (Str.otruthy (address2 a) = true -> Str.otruthy (address2 b) = true)
  | Throw _ => meetsBuiltin a (S k) = true
  end.
Proof.
  unfold jig, meetsBuiltin.
  pose proof (jigStreetAddress_outcome (orEmpty (address a)) (S k)) as H1.
  destruct (_jigStreetAddress (orEmpty (address a)) (S k)) as [line1|msg]; cbn [rbind].
  - destruct H1 as [E1 K1]. rewrite E1. cbn [orb].
    pose proof (jigAddressLine2_outcome (orEmpty (address2 a)) (orEmpty (address a)) (S k))
      as H2.
    destruct (_jigAddressLine2 (orEmpty (address2 a)) (orEmpty (address a)) (S k))
      as [line2|msg]; cbn [rbind]; [|exact H2].
    destruct H2 as [E2 K2].
    cbn [email firstName lastName address address2 city county state zip country phone
         Str.otruthy].
    repeat split; try assumption. intros H. apply K2. now rewrite truthy_orEmpty.
  - now rewrite H1.
Qed.



(** A street address with the word [Constructor] makes [jig] throw at
    every index but 0: [STREET_TYPES["constructor"]] is the built-in
    [Object], which has no variants to pick from. *)
Example jig_throws_on_builtin_word :
  let a := mkAddress None (Some "Ash") (Some "Ketchum") (Some "12 Constructor Road")
                     None (Some "London") None None (Some "SW1A 1AA") None None in
  asciiAddress a = true /\ meetsBuiltin a 1 = true /\
  AddressJigger.jig (Some a) 0 = Ok a /\
  AddressJigger.jig (Some a) 1 = undefinedHas "charAt".
Proof. repeat split. Qed.

Example jig_demo :
  AddressJigger.jig
    (Some (mkAddress (Some "ash@example.com") (Some "Ash") (Some "Ketchum")
                     (Some "12 Pallet Road") (Some "Flat 4B") (Some "London") None None
                     (Some "SW1A 1AA") (Some "GB") (Some "+44 7911 123456"))) 7
  = Ok (mkAddress (Some "ash@example.com") (Some "A.") (Some "Ketchum")
                  (Some "#12 pallet road.") (Some "Flt 4B") (Some "London") None None
                  (Some "SW1A 1AA") (Some "GB") (Some "447911123456")).
Proof. reflexivity. Qed.


End JigFacts.

(** ** A program logic for the checkout methods

    [triple Pre m P Post] is proved by following the structure of [m]. *)

Section Triples.

Import FastCheckout.

Lemma triple_weaken {A : Type} (Pre Pre' : Session -> Prop) (P P' : Event -> Prop)
  (Post Post' : Res A -> Session -> Prop) (m : M A) :
  triple Pre m P Post ->
  (forall s, Pre' s -> Pre s) ->
  (forall e, P e -> P' e) ->
  (forall r s, Post r s -> Post' r s) ->
  triple Pre' m P' Post'.
Proof.
  intros Hm Hpre Hp Hpost st Hst.
  destruct (Hm st (Hpre _ Hst)) as [Hev Hr]. split.
  - eapply Forall_impl; [exact Hp | exact Hev].
  - now apply Hpost.
Qed.

Lemma triple_ret {A : Type} (Pre : Session -> Prop) (P : Event -> Prop)
  (Post : Res A -> Session -> Prop) (a : A) :
  (forall s, Pre s -> Post (Ok a) s) -> triple Pre (ret a) P Post.
Proof. intros H st Hst. split; [constructor | now apply H]. Qed.

Lemma triple_throw {A : Type} (Pre : Session -> Prop) (P : Event -> Prop)
  (Post : Res A -> Session -> Prop) (msg : string) :
  (forall s, Pre s -> Post (Throw msg) s) -> triple Pre (throw msg) P Post.
Proof. intros H st Hst. split; [constructor | now apply H]. Qed.

Lemma triple_bind {A B : Type} (Pre : Session -> Prop) (Mid : Res A -> Session -> Prop)
  (P : Event -> Prop) (Post : Res B -> Session -> Prop) (m : M A) (f : A -> M B) :
  triple Pre m P Mid ->
  (forall a, triple (Mid (Ok a)) (f a) P Post) ->
  (forall msg s, Mid (Throw msg) s -> Post (Throw msg) s) ->
  triple Pre (bind m f) P Post.
Proof.
  intros Hm Hf Hthrow st Hst. unfold bind.
  destruct (Hm st Hst) as [Hev Hmid].
  destruct (m st) as [[r st1] e1]. unfold resultOf, stateOf, eventsOf in *. simpl in *.
  destruct r as [a | msg].
  - destruct (Hf a st1 Hmid) as [Hev2 Hpost].
    destruct (f a st1) as [[r2 st2] e2]. simpl in *. split.
    + apply Forall_app. now split.
    + exact Hpost.
  - simpl. split; [exact Hev | now apply Hthrow].
Qed.

Lemma triple_tryCatch {A : Type} (Pre : Session -> Prop) (Mid : Res A -> Session -> Prop)
  (P : Event -> Prop) (Post : Res A -> Session -> Prop) (m : M A) (h : string -> M A) :
  triple Pre m P Mid ->
  (forall msg, triple (Mid (Throw msg)) (h msg) P Post) ->
  (forall a s, Mid (Ok a) s -> Post (Ok a) s) ->
  triple Pre (tryCatch m h) P Post.
Proof.
  intros Hm Hh Hok st Hst. unfold tryCatch.
  destruct (Hm st Hst) as [Hev Hmid].
  destruct (m st) as [[r st1] e1]. unfold resultOf, stateOf, eventsOf in *. simpl in *.
  destruct r as [a | msg].
  - simpl. split; [exact Hev | now apply Hok].
  - destruct (Hh msg st1 Hmid) as [Hev2 Hpost].
    destruct (h msg st1) as [[r2 st2] e2]. simpl in *. split.
    + apply Forall_app. now split.
    + exact Hpost.
Qed.

Lemma triple_modify (Pre : Session -> Prop) (P : Event -> Prop)
  (Post : Res unit -> Session -> Prop) (f : Session -> Session) :
  (forall s, Pre s -> Post (Ok tt) (f s)) -> triple Pre (modify f) P Post.
Proof. intros H st Hst. split; [constructor | now apply H]. Qed.

(** *** Invariants *)

Variable I : Session -> Prop.
Variable P : Event -> Prop.

Lemma keeps_ret {A : Type} (a : A) : keeps_ I P (ret a).
Proof. now apply triple_ret. Qed.

Lemma keeps_throw {A : Type} (msg : string) : keeps_ I P (@throw A msg).
Proof. now apply triple_throw. Qed.

Lemma keeps_bind {A B : Type} (m : M A) (f : A -> M B) :
  keeps_ I P m -> (forall a, keeps_ I P (f a)) -> keeps_ I P (bind m f).
Proof. intros Hm Hf. eapply triple_bind; [exact Hm | exact Hf | auto]. Qed.

Lemma keeps_tryCatch {A : Type} (m : M A) (h : string -> M A) :
  keeps_ I P m -> (forall msg, keeps_ I P (h msg)) -> keeps_ I P (tryCatch m h).
Proof. intros Hm Hh. eapply triple_tryCatch; [exact Hm | exact Hh | auto]. Qed.

Lemma keeps_lift {A : Type} (r : Res A) : keeps_ I P (lift r).
Proof. destruct r; [apply keeps_ret | apply keeps_throw]. Qed.

Lemma keeps_gets {A : Type} (f : Session -> A) : keeps_ I P (gets f).
Proof. intros st Hst. split; [constructor | exact Hst]. Qed.

Lemma keeps_modify (f : Session -> Session) :
  (forall s, I s -> I (f s)) -> keeps_ I P (modify f).
Proof. intro H. now apply triple_modify. Qed.

Lemma keeps_now : keeps_ I P now.
Proof. intros st Hst. split; [constructor | exact Hst]. Qed.

Lemma keeps_sleep (ms : nat) : keeps_ I P (_sleep ms).
Proof. intros st Hst. split; [constructor | exact Hst]. Qed.

Lemma keeps_random (n : nat) : keeps_ I P (random n).
Proof.
  intros st Hst. unfold random.
  destruct (draws st); (split; [constructor | exact Hst]).
Qed.

Lemma keeps_swallow {A : Type} (m : M A) : keeps_ I P m -> keeps_ I P (swallow m).
Proof.
  intro Hm. unfold swallow. apply keeps_tryCatch.
  - apply keeps_bind; [exact Hm | intro; apply keeps_ret].
  - intro. apply keeps_ret.
Qed.

Lemma keeps_attempt (t : Transport) (meth url : string) (hdrs : Dict.dict string)
  (b : Payload) :
  (forall s, I s -> P (mkEvent t meth url hdrs b (authToken s))) ->
  keeps_ I P (attempt t meth url hdrs b).
Proof.
  intros H st Hst. unfold attempt.
  destruct (script st) as [| [ms [r | msg]] rest];
    (split; [constructor; [now apply H | constructor] | exact Hst]).
Qed.

End Triples.

(** One step of a proof of [keeps_ I P m] along the structure of [m]. *)
Ltac keeps_step :=
  lazymatch goal with
  | |- FastCheckout.keeps_ _ _ (FastCheckout.bind _ _) => apply keeps_bind; [ | intros ]
  | |- FastCheckout.keeps_ _ _ (FastCheckout.tryCatch _ _) =>
      apply keeps_tryCatch; [ | intros ]
  | |- FastCheckout.keeps_ _ _ (FastCheckout.ret _) => apply keeps_ret
  | |- FastCheckout.keeps_ _ _ (FastCheckout.throw _) => apply keeps_throw
  | |- FastCheckout.keeps_ _ _ (FastCheckout.lift _) => apply keeps_lift
  | |- FastCheckout.keeps_ _ _ (FastCheckout.gets _) => apply keeps_gets
  | |- FastCheckout.keeps_ _ _ FastCheckout.now => apply keeps_now
  | |- FastCheckout.keeps_ _ _ (FastCheckout._sleep _) => apply keeps_sleep
  | |- FastCheckout.keeps_ _ _ (FastCheckout.random _) => apply keeps_random
  | |- FastCheckout.keeps_ _ _ (FastCheckout.swallow _) => apply keeps_swallow
  | |- FastCheckout.keeps_ _ _ (if ?c then _ else _) => destruct c
  | |- FastCheckout.keeps_ _ _ (match ?x with _ => _ end) => destruct x
  end.

Section RequestFacts.

Import FastCheckout.
Context `{RT : Runtime}.

Variable I : Session -> Prop.
Variable P : Event -> Prop.
Hypothesis I_quiet : quiet I.

Lemma quiet_jar (j : CookieJar.store) : forall s, I s -> I (set_jar j s).
Proof. intros s Hs. now apply I_quiet. Qed.

Lemma quiet_useH2 : forall s, I s -> I (set_useH2 (Some false) s).
Proof. intros s Hs. now apply I_quiet. Qed.

Lemma quiet_log (msg : string) (ty : LogType) :
  marksPayment msg = false -> keeps_ I P (log msg ty).
Proof. intro Hm. apply keeps_modify. intros s Hs. now apply I_quiet. Qed.

Lemma jarGet_keeps (url : string) : keeps_ I P (jarGet url).
Proof. unfold jarGet. repeat keeps_step. Qed.

Lemma jarUpdate_keeps (url : string) (cs : list string) : keeps_ I P (jarUpdate url cs).
Proof.
  unfold jarUpdate. repeat keeps_step. apply keeps_modify, quiet_jar.
Qed.

Section OnePayload.

Variable b : Payload.
Hypothesis P_body :
  forall s t meth url hdrs, I s -> P (mkEvent t meth url hdrs b (authToken s)).

Lemma engine_request_keeps (url meth : string) (hdrs : Dict.dict string) :
  keeps_ I P (HttpEngine.request url meth hdrs b).
Proof.
  unfold HttpEngine.request, HttpEngine._requestUndici, HttpEngine._requestH2,
    HttpEngine.storeCookies.
  repeat first
    [ keeps_step
    | apply jarGet_keeps
    | apply jarUpdate_keeps
    | apply keeps_attempt; intros; now apply P_body ].
Qed.

Lemma requestOnce_keeps (url : string) (o : Options) (hdrs : Dict.dict string) :
  o_body o = b -> keeps_ I P (requestOnce url o hdrs).
Proof.
  intro Hb. unfold requestOnce. rewrite Hb.
  repeat first
    [ keeps_step
    | apply jarGet_keeps
    | apply jarUpdate_keeps
    | apply engine_request_keeps
    | apply keeps_attempt; intros; now apply P_body ].
Qed.

Lemma requestFrom_keeps (url : string) (o : Options) (hdrs : Dict.dict string)
  (retries : nat) :
  o_body o = b ->
  forall left attempt, keeps_ I P (requestFrom url o hdrs retries attempt left).
Proof.
  intro Hb. induction left as [| left IH]; intro attempt; simpl.
  - apply keeps_ret.
  - repeat first
      [ keeps_step
      | apply IH
      | now apply requestOnce_keeps
      | apply keeps_modify, quiet_useH2
      | apply quiet_log; reflexivity ].
Qed.

Lemma request_keeps (url : string) (o : Options) :
  o_body o = b -> keeps_ I P (request url o).
Proof.
  intro Hb. unfold request.
  repeat first [ keeps_step | now apply requestFrom_keeps ].
Qed.

End OnePayload.

End RequestFacts.

(** ** The steps before the payment step

    None of them submits a payment and none logs a line that marks the
    payment step. *)

Section SteadyFacts.

Import FastCheckout.
Context `{RT : Runtime}.

Lemma beforePayment_steady : steady beforePayment.
Proof.
  intros s s' Hs Hl e Hin. destruct (Hl e Hin) as [Hold | Hnew]; [now apply Hs | exact Hnew].
Qed.

Lemma always_steady : steady (fun _ => True).
Proof. intros s s' _ _. exact Logic.I. Qed.

Variable I : Session -> Prop.
Hypothesis I_steady : steady I.

Lemma steady_logs (s s' : Session) : logs s' = logs s -> I s -> I s'.
Proof.
  intros E Hs. apply (I_steady s s' Hs). intros e Hin. left. now rewrite <- E.
Qed.

Lemma steady_pushLog (msg : string) (ty : LogType) (s : Session) :
  marksPayment msg = false -> I s -> I (pushLog msg ty s).
Proof.
  intros Hm Hs. apply (I_steady s _ Hs). intros e Hin. simpl in Hin.
  apply in_app_or in Hin. destruct Hin as [Hin | [<- | []]]; [now left | now right].
Qed.

Lemma steady_quiet : quiet I.
Proof.
  intros s Hs. repeat split.
  - intro j. now apply (steady_logs s).
  - now apply (steady_logs s).
  - intros msg ty Hm. now apply steady_pushLog.
Qed.

(** With an auth token held on top of a steady invariant. *)
Lemma steady_token_quiet : quiet (fun s => I s /\ Str.otruthy (authToken s) = true).
Proof.
  intros s [Hs Ht]. repeat split; try exact Ht.
  - now apply (steady_logs s).
  - now apply (steady_logs s).
  - now apply steady_pushLog.
Qed.

Lemma plain_request (url : string) (o : Options) :
  completesPayment (o_body o) = false -> keeps_ I notPayment (request url o).
Proof.
  intro Hb. apply (request_keeps I notPayment steady_quiet (o_body o)).
  - intros. exact Hb.
  - reflexivity.
Qed.

Lemma plain_log (msg : string) (ty : LogType) :
  marksPayment msg = false -> keeps_ I notPayment (log msg ty).
Proof. apply quiet_log, steady_quiet. Qed.

Lemma plain_modify (f : Session -> Session) :
  (forall s, logs (f s) = logs s) -> keeps_ I notPayment (modify f).
Proof.
  intro Hf. apply keeps_modify. intros s Hs. now apply (steady_logs s).
Qed.

Lemma plain_attempt (t : Transport) (meth url : string) (hdrs : Dict.dict string)
  (b : Payload) :
  completesPayment b = false -> keeps_ I notPayment (attempt t meth url hdrs b).
Proof. intro Hb. apply keeps_attempt. intros. exact Hb. Qed.

End SteadyFacts.

(** A side condition on a log line or a request body, decided by
    evaluation once the conditionals in it are split. *)
Ltac plain_side :=
  unfold FastCheckout.tokenField, FastCheckout.postJson, FastCheckout.GET; simpl;
  repeat match goal with
         | |- context [if ?c then _ else _] => destruct c
         end;
  reflexivity.

(** A proof of [keeps_ I notPayment m], for a steady [I], along the
    structure of [m], with the lemmas of the database [plain] for the
    methods it calls. *)
Ltac plain :=
  repeat first
    [ keeps_step
    | progress cbv zeta
    | apply plain_request; [assumption | plain_side]
    | apply plain_log; [assumption | plain_side]
    | apply plain_modify; [assumption | reflexivity]
    | apply plain_attempt; plain_side
    | solve [auto with plain] ].

Create HintDb plain.

Section StepFacts.

Import FastCheckout.
Context `{RT : Runtime}.

Variable I : Session -> Prop.
Hypothesis I_steady : steady I.

Lemma absolute_plain (loc base : string) :
  keeps_ I notPayment (absolute loc base).
Proof. unfold absolute. plain. Qed.

Lemma jsonOf_plain (r : Response) : keeps_ I notPayment (jsonOf r).
Proof. unfold jsonOf. plain. Qed.

#[local] Hint Resolve absolute_plain jsonOf_plain : plain.

Lemma backupAttempt_plain (b : nat) (url : string) (jars : list CookieJar.store)
  (slot back : nat) :
  keeps_ I notPayment (backupAttempt b url jars slot back).
Proof. unfold backupAttempt. plain. Qed.

Lemma pollOnce_plain (url : string) (pollUrl : option string) (elapsed : string) :
  keeps_ I notPayment (pollOnce url pollUrl elapsed).
Proof. unfold pollOnce. plain. Qed.

#[local] Hint Resolve backupAttempt_plain pollOnce_plain : plain.

Lemma pollLoop_plain (start : Z) (url : string) (pollUrl : option string) :
  forall left, keeps_ I notPayment (pollLoop left start url pollUrl).
Proof. induction left as [| left IH]; simpl; plain. Qed.

#[local] Hint Resolve pollLoop_plain : plain.

Lemma handleQueueIfPresent_plain (res : Response) (url : string) :
  keeps_ I notPayment (handleQueueIfPresent res url).
Proof. unfold handleQueueIfPresent. plain. Qed.

Lemma getPaymentSessionToken_plain (payment : Payment) :
  keeps_ I notPayment (getPaymentSessionToken payment).
Proof. unfold getPaymentSessionToken. plain. Qed.

#[local] Hint Resolve handleQueueIfPresent_plain getPaymentSessionToken_plain : plain.

Lemma fromProductJson_plain (jsonUrl : string) (itemName : option string) :
  keeps_ I notPayment (fromProductJson jsonUrl itemName).
Proof. unfold fromProductJson. plain. Qed.

Lemma fromSearch_plain (base itemName : string) :
  keeps_ I notPayment (fromSearch base itemName).
Proof. unfold fromSearch. plain. Qed.

Lemma scanProducts_plain (lowerName : string) :
  forall products, keeps_ I notPayment (scanProducts lowerName products).
Proof. induction products as [| product rest IH]; simpl; plain. Qed.

#[local] Hint Resolve fromProductJson_plain fromSearch_plain scanProducts_plain : plain.

Lemma scanPages_plain (base lowerName : string) :
  forall pages, keeps_ I notPayment (scanPages base lowerName pages).
Proof. induction pages as [| page later IH]; simpl; plain. Qed.

#[local] Hint Resolve scanPages_plain : plain.

Lemma resolveVariant_plain (storeUrl productUrl itemName variantId : option string) :
  keeps_ I notPayment (resolveVariant storeUrl productUrl itemName variantId).
Proof. unfold resolveVariant. plain. Qed.

Lemma directCheckout_plain (baseUrl variantId : string) :
  keeps_ I notPayment (directCheckout baseUrl variantId).
Proof. unfold directCheckout. plain. Qed.

Lemma addToCart_plain (baseUrl variantId : string) :
  keeps_ I notPayment (addToCart baseUrl variantId).
Proof. unfold addToCart. plain. Qed.

Lemma createCheckout_plain (baseUrl : string) :
  keeps_ I notPayment (createCheckout baseUrl).
Proof. unfold createCheckout. plain. Qed.

Lemma refreshFrom_plain (pageBody what : string) :
  keeps_ I notPayment (refreshFrom pageBody what).
Proof. unfold refreshFrom. plain. Qed.

#[local] Hint Resolve resolveVariant_plain directCheckout_plain addToCart_plain
  createCheckout_plain refreshFrom_plain : plain.

Lemma submitShippingAddress_plain (checkoutUrl : string) (details : Address) :
  keeps_ I notPayment (submitShippingAddress checkoutUrl details).
Proof. unfold submitShippingAddress. plain. Qed.

Lemma ratesFromApi_plain (checkoutUrl : string) :
  keeps_ I notPayment (ratesFromApi checkoutUrl).
Proof. unfold ratesFromApi. plain. Qed.

#[local] Hint Resolve submitShippingAddress_plain ratesFromApi_plain : plain.

Lemma selectShippingRate_plain (checkoutUrl : string) :
  keeps_ I notPayment (selectShippingRate checkoutUrl).
Proof. unfold selectShippingRate. plain. Qed.

Lemma followProcessing_plain (loc checkoutUrl : string) :
  forall left, keeps_ I notPayment (followProcessing left loc checkoutUrl).
Proof. induction left as [| left IH]; simpl; plain. Qed.

Lemma graphqlCreate_plain (gqlUrl : string) (gqlHeaders : Dict.dict string)
  (variantId : string) (jiggedDetails : Address) :
  keeps_ I notPayment (graphqlCreate gqlUrl gqlHeaders variantId jiggedDetails).
Proof. unfold graphqlCreate. plain. Qed.

Lemma sendConfirmationEmail_plain (confirmationEmail itemName storeUrl : string) :
  keeps_ I notPayment (sendConfirmationEmail confirmationEmail itemName storeUrl).
Proof. unfold sendConfirmationEmail. plain. Qed.

#[local] Hint Resolve selectShippingRate_plain followProcessing_plain graphqlCreate_plain
  sendConfirmationEmail_plain : plain.

Lemma upToPayment_plain (baseUrl resolvedVariant : string) (jigged : Address) :
  keeps_ I notPayment (upToPayment baseUrl resolvedVariant jigged).
Proof. unfold upToPayment. plain. Qed.

Lemma elapsedSeconds_plain : keeps_ I notPayment elapsedSeconds.
Proof. unfold elapsedSeconds. plain. Qed.

Lemma failedAt_plain (step : string) : keeps_ I notPayment (failedAt step).
Proof. unfold failedAt. plain. Qed.

#[local] Hint Resolve upToPayment_plain elapsedSeconds_plain failedAt_plain : plain.

Lemma complete_plain (cfg : Config) (dryRun : bool) (baseUrl resolvedVariant : string)
  (dryTag liveTag mode : string) :
  keeps_ I notPayment (complete cfg dryRun baseUrl resolvedVariant dryTag liveTag mode).
Proof. unfold complete. plain. Qed.

End StepFacts.

(** ** The payment step *)

Section SpecFacts.

Import FastCheckout.

Lemma unfailing_ret {A : Type} (a : A) : unfailing (ret a).
Proof. intro st. now exists a. Qed.

Lemma unfailing_gets {A : Type} (f : Session -> A) : unfailing (gets f).
Proof. intro st. now exists (f (sess st)). Qed.

Lemma unfailing_modify (f : Session -> Session) : unfailing (modify f).
Proof. intro st. now exists tt. Qed.

Lemma unfailing_bind {A B : Type} (m : M A) (f : A -> M B) :
  unfailing m -> (forall a, unfailing (f a)) -> unfailing (bind m f).
Proof.
  intros Hm Hf st. unfold bind. destruct (Hm st) as [a Ha].
  destruct (m st) as [[r st1] e1]. unfold resultOf in Ha. simpl in Ha. subst r.
  destruct (Hf a st1) as [b Hb]. destruct (f a st1) as [[r2 st2] e2].
  exists b. exact Hb.
Qed.

Lemma unfailing_tryCatch {A : Type} (m : M A) (h : string -> M A) :
  (forall msg, unfailing (h msg)) -> unfailing (tryCatch m h).
Proof.
  intros Hh st. unfold tryCatch. destruct (m st) as [[[a | msg] st1] e1].
  - now exists a.
  - destruct (Hh msg st1) as [b Hb]. destruct (h msg st1) as [[r2 st2] e2].
    exists b. exact Hb.
Qed.

(** A step that keeps [I], makes only attempts satisfying [P] and never
    throws, in front of a postcondition that such attempts may precede. *)
Lemma spec_after {A B : Type} (I : Session -> Prop) (P : Event -> Prop)
  (Post : Res B -> Session -> list Event -> Prop) (m : M A) (f : A -> M B) :
  keeps_ I P m -> unfailing m ->
  (forall e1 r s e2, Forall P e1 -> Post r s e2 -> Post r s (e1 ++ e2)%list) ->
  (forall a, spec I (f a) Post) ->
  spec I (bind m f) Post.
Proof.
  intros Hk Hu Hpre Hf st Hst. unfold bind.
  destruct (Hk st Hst) as [Hev HI]. destruct (Hu st) as [a Ha].
  destruct (m st) as [[r st1] e1]. unfold resultOf, stateOf, eventsOf in *. simpl in *.
  subst r. specialize (Hf a st1 HI).
  destruct (f a st1) as [[r2 st2] e2]. simpl in *. now apply Hpre.
Qed.

Lemma keeps_weaken {A : Type} (I : Session -> Prop) (P P' : Event -> Prop) (m : M A) :
  (forall e, P e -> P' e) -> keeps_ I P m -> keeps_ I P' m.
Proof. intros HP Hm. eapply triple_weaken; [exact Hm | auto | exact HP | auto]. Qed.

Lemma notPayment_paysWithToken (e : Event) : notPayment e -> paysWithToken e.
Proof. unfold notPayment, paysWithToken. intros -> H. discriminate H. Qed.

(** The token check in front of a payment submission: the submission
    starts from a session that holds a token. *)
Lemma keeps_token_check {B : Type} (I : Session -> Prop) (P : Event -> Prop)
  (no yes : option string -> M B) :
  (forall tok, keeps_ I P (no tok)) ->
  (forall tok,
     triple (fun s => I s /\ Str.otruthy (authToken s) = true) (yes tok) P
            (fun _ s => I s)) ->
  keeps_ I P (bind (gets authToken)
                   (fun tok => if negb (Str.otruthy tok) then no tok else yes tok)).
Proof.
  intros Hno Hyes st Hst. unfold bind, gets. cbv beta iota.
  destruct (Str.otruthy (authToken (sess st))) eqn:Htok; simpl.
  - specialize (Hyes (authToken (sess st)) st (conj Hst Htok)).
    destruct (yes (authToken (sess st)) st) as [[r st2] e2]. exact Hyes.
  - specialize (Hno (authToken (sess st)) st Hst).
    destruct (no (authToken (sess st)) st) as [[r st2] e2]. exact Hno.
Qed.

(** The equations of [bind] on the silent primitives. *)
Lemma bind_gets {A B : Type} (g : Session -> A) (f : A -> M B) (st : St) :
  bind (gets g) f st = f (g (sess st)) st.
Proof. unfold bind, gets. now destruct (f (g (sess st)) st) as [[r st2] e2]. Qed.

Lemma bind_ret {A B : Type} (a : A) (f : A -> M B) (st : St) :
  bind (ret a) f st = f a st.
Proof. unfold bind, ret. now destruct (f a st) as [[r st2] e2]. Qed.

Lemma bind_throw {A B : Type} (msg : string) (f : A -> M B) (st : St) :
  bind (throw msg) f st = (Throw msg, st, []).
Proof. reflexivity. Qed.

Lemma bind_modify {B : Type} (g : Session -> Session) (f : unit -> M B) (st : St) :
  bind (modify g) f st = f tt (mkSt (g (sess st)) (script st) (clock st) (draws st)).
Proof.
  unfold bind, modify.
  now destruct (f tt (mkSt (g (sess st)) (script st) (clock st) (draws st))) as [[r st2] e2].
Qed.

Lemma bind_now {B : Type} (f : Z -> M B) (st : St) : bind now f st = f (clock st) st.
Proof. unfold bind, now. now destruct (f (clock st) st) as [[r st2] e2]. Qed.

Lemma bind_assoc {A B C : Type} (m : M A) (f : A -> M B) (g : B -> M C) (st : St) :
  bind (bind m f) g st = bind m (fun a => bind (f a) g) st.
Proof.
  unfold bind. destruct (m st) as [[[a | msg] st1] e1]; [ | reflexivity ].
  destruct (f a st1) as [[[b | msg] st2] e2]; [ | reflexivity ].
  destruct (g b st2) as [[r st3] e3]. now rewrite app_assoc.
Qed.

Lemma bind_run {A B : Type} (m : M A) (f : A -> M B) (st : St) :
  bind m f st =
  match m st with
  | (Ok a, st1, e1) => let '(r, st2, e2) := f a st1 in (r, st2, (e1 ++ e2)%list)
  | (Throw msg, st1, e1) => (Throw msg, st1, e1)
  end.
Proof. reflexivity. Qed.

Lemma tryCatch_run {A : Type} (m : M A) (h : string -> M A) (st : St) :
  tryCatch m h st =
  match m st with
  | (Throw msg, st1, e1) => let '(r, st2, e2) := h msg st1 in (r, st2, (e1 ++ e2)%list)
  | (Ok a, st1, e1) => (Ok a, st1, e1)
  end.
Proof. unfold tryCatch. now destruct (m st) as [[[a | msg] st1] e1]. Qed.

(** A step that keeps [I] in front of a continuation. *)
Lemma triple_seq {A B : Type} (I : Session -> Prop) (P : Event -> Prop)
  (Post : Res B -> Session -> Prop) (m : M A) (f : A -> M B) :
  keeps_ I P m ->
  (forall a, triple I (f a) P Post) ->
  (forall msg s, I s -> Post (Throw msg) s) ->
  triple I (bind m f) P Post.
Proof. intros Hm Hf Ht. eapply triple_bind; [exact Hm | exact Hf | exact Ht]. Qed.

(** A pure step that may throw, in front of a continuation. *)
Lemma triple_lift {A B : Type} (Pre : Session -> Prop) (P : Event -> Prop)
  (Post : Res B -> Session -> Prop) (r : Res A) (f : A -> M B) :
  (forall a, r = Ok a -> triple Pre (f a) P Post) ->
  (forall msg s, r = Throw msg -> Pre s -> Post (Throw msg) s) ->
  triple Pre (bind (lift r) f) P Post.
Proof.
  intros Hok Hthrow st Hst. destruct r as [a | msg]; simpl lift.
  - rewrite bind_ret. now apply Hok.
  - rewrite bind_throw. split; [constructor | now apply (Hthrow msg)].
Qed.

(** A value with a truthy property is neither [undefined] nor [null]: its
    properties can be read. *)
Lemma opt_truthy_readable (k k' : string) (v id : jsval) :
  J.opt k v = Ok id -> J.truthy id = true -> exists w, J.get k' v = Ok w.
Proof.
  intros Hopt Ht. destruct v as [[| b | n | t | l | fs] |]; simpl in *;
    try (eexists; reflexivity);
    injection Hopt as <-; discriminate Ht.
Qed.

End SpecFacts.

#[export] Hint Resolve beforePayment_steady always_steady
  absolute_plain jsonOf_plain backupAttempt_plain pollOnce_plain pollLoop_plain
  handleQueueIfPresent_plain getPaymentSessionToken_plain fromProductJson_plain
  fromSearch_plain scanProducts_plain scanPages_plain resolveVariant_plain
  directCheckout_plain addToCart_plain createCheckout_plain refreshFrom_plain
  submitShippingAddress_plain ratesFromApi_plain selectShippingRate_plain
  followProcessing_plain graphqlCreate_plain sendConfirmationEmail_plain
  upToPayment_plain elapsedSeconds_plain failedAt_plain complete_plain : plain.

(** A proof of [unfailing m] along the structure of [m]. *)
Ltac surely :=
  unfold FastCheckout.log;
  repeat first
    [ apply unfailing_bind; [ | intros ]
    | apply unfailing_tryCatch; intros
    | apply unfailing_ret
    | apply unfailing_gets
    | apply unfailing_modify
    | match goal with
      | |- FastCheckout.unfailing (if ?c then _ else _) => destruct c
      end ].

Section PaymentFacts.

Import FastCheckout.
Context `{RT : Runtime}.

(** *** While a token is held *)

Section WithToken.

Variable J : Session -> Prop.
Hypothesis J_quiet : quiet J.
Hypothesis J_token : forall s, J s -> Str.otruthy (authToken s) = true.

Lemma held_request (url : string) (o : Options) : keeps_ J paysWithToken (request url o).
Proof.
  apply (request_keeps J paysWithToken J_quiet (o_body o)); [ | reflexivity ].
  intros s t meth u hdrs Hs _. now apply J_token.
Qed.

Lemma held_log (msg : string) (ty : LogType) :
  marksPayment msg = false -> keeps_ J paysWithToken (log msg ty).
Proof. apply quiet_log, J_quiet. Qed.

Ltac held :=
  repeat first
    [ keeps_step
    | progress cbv zeta
    | apply held_request
    | apply held_log; plain_side
    | solve [auto] ].

Lemma held_absolute (loc base : string) : keeps_ J paysWithToken (absolute loc base).
Proof. unfold absolute. held. Qed.

Lemma held_followProcessing (loc checkoutUrl : string) :
  forall left, keeps_ J paysWithToken (followProcessing left loc checkoutUrl).
Proof.
  pose proof held_absolute as Habs.
  induction left as [| left IH]; simpl; held.
Qed.

Lemma sendPayment_held (checkoutUrl : string) (payment : Payment)
  (sessionToken tok : option string) :
  keeps_ J paysWithToken (sendPayment checkoutUrl payment sessionToken tok).
Proof.
  pose proof held_followProcessing as Hfollow.
  unfold sendPayment. held.
Qed.

Lemma graphqlSendPayment_held (checkoutUrl sessionToken : string) (tok : option string) :
  keeps_ J paysWithToken (graphqlSendPayment checkoutUrl sessionToken tok).
Proof. unfold graphqlSendPayment. held. Qed.

End WithToken.

(** *** From any session *)

Variable I : Session -> Prop.
Hypothesis I_steady : steady I.

Let held (s : Session) : Prop := I s /\ Str.otruthy (authToken s) = true.

Lemma held_token : forall s, held s -> Str.otruthy (authToken s) = true.
Proof. now intros s [_ H]. Qed.

(** The GraphQL payment: the form goes out only behind the token check. *)
Lemma graphqlPayment_pays (checkout : jsval) (payment : Payment) :
  keeps_ I paysWithToken (graphqlPayment checkout payment).
Proof.
  unfold graphqlPayment.
  repeat first
    [ apply keeps_token_check;
      [ intro
      | intro;
        eapply triple_weaken;
        [ apply (graphqlSendPayment_held held (steady_token_quiet I I_steady) held_token)
        | exact (fun s H => H)
        | exact (fun e H => H)
        | exact (fun r s H => proj1 H) ] ]
    | keeps_step
    | progress cbv zeta
    | apply keeps_weaken with (P := notPayment);
      [ exact notPayment_paysWithToken | solve [plain] ] ].
Qed.

(** The live [submitPayment]: every submission is made with a token held;
    it ends either with a token held, or without one, and then it returned
    [false] after logging the failure and submitted nothing. *)
Lemma submitPayment_live (checkoutUrl : string) (payment : Payment) :
  spec I (submitPayment checkoutUrl payment false)
    (fun r s e =>
       Forall paysWithToken e /\
       ((Str.otruthy (authToken s) = true /\ I s) \/
        (Str.otruthy (authToken s) = false /\ r = Ok false /\ Forall notPayment e /\
         tokenMissingLogged (logs s)))).
Proof.
  assert (Hpre : forall e1 (r : Res bool) s e2,
            Forall notPayment e1 ->
            Forall paysWithToken e2 /\
            ((Str.otruthy (authToken s) = true /\ I s) \/
             (Str.otruthy (authToken s) = false /\ r = Ok false /\ Forall notPayment e2 /\
              tokenMissingLogged (logs s))) ->
            Forall paysWithToken (e1 ++ e2) /\
            ((Str.otruthy (authToken s) = true /\ I s) \/
             (Str.otruthy (authToken s) = false /\ r = Ok false /\
              Forall notPayment (e1 ++ e2) /\ tokenMissingLogged (logs s)))).
  { intros e1 r s e2 H1 [H2 H3]. split.
    - apply Forall_app. split; [ | exact H2 ].
      eapply Forall_impl; [exact notPayment_paysWithToken | exact H1].
    - destruct H3 as [H3 | (Ha & Hb & Hc & Hd)]; [now left | right].
      repeat split; try assumption. apply Forall_app. now split. }
  unfold submitPayment. cbv iota.
  apply spec_after with (P := notPayment); [plain | surely | exact Hpre | intros _].
  apply spec_after with (P := notPayment);
    [unfold tokenizeCard; plain | unfold tokenizeCard; surely | exact Hpre
    | intros sessionToken].
  apply spec_after with (P := notPayment);
    [unfold loadPaymentPage; plain | unfold loadPaymentPage; surely | exact Hpre
    | intros _].
  apply spec_after with (P := notPayment);
    [unfold retryCheckoutUrl; plain | unfold retryCheckoutUrl; surely | exact Hpre
    | intros _].
  intros st Hst. rewrite bind_gets.
  destruct (Str.otruthy (authToken (sess st))) eqn:Htok;
    [ change (negb true) with false | change (negb false) with true ]; cbv iota.
  - pose proof (sendPayment_held held (steady_token_quiet I I_steady) held_token
                  checkoutUrl payment sessionToken (authToken (sess st)) st
                  (conj Hst Htok)) as [Hev [HI Ht]].
    destruct (sendPayment checkoutUrl payment sessionToken (authToken (sess st)) st)
      as [[r st2] e2].
    unfold resultOf, stateOf, eventsOf in *. simpl in *.
    split; [exact Hev | left; now split].
  - unfold resultOf, stateOf, eventsOf. simpl. split; [constructor | right].
    repeat split; try assumption; try constructor.
    unfold tokenMissingLogged. apply in_or_app. right. now left.
Qed.

(** The dry-run [submitPayment] makes no request and returns [true] after
    logging that the payment step was reached. *)
Lemma submitPayment_dry (checkoutUrl : string) (payment : Payment) (st : St) :
  resultOf (submitPayment checkoutUrl payment true st) = Ok true /\
  eventsOf (submitPayment checkoutUrl payment true st) = [] /\
  In (mkLog success dryRunReached)
     (logs (sess (stateOf (submitPayment checkoutUrl payment true st)))) /\
  forall e, In e (logs (sess st)) ->
            In e (logs (sess (stateOf (submitPayment checkoutUrl payment true st)))).
Proof.
  unfold resultOf, stateOf, eventsOf. simpl. repeat split.
  - apply in_or_app. left. apply in_or_app. right. now left.
  - intros e He. apply in_or_app. left. apply in_or_app. now left.
Qed.

End PaymentFacts.

(** Running the silent primitives at the head of a computation. *)
Ltac silently :=
  repeat first
    [ rewrite bind_assoc
    | rewrite bind_now
    | rewrite bind_gets
    | rewrite bind_ret
    | rewrite bind_modify ].

(** A step of a proof of [triple I (bind m f) notPayment Post] whose first
    part [m] only keeps the steady invariant [I]. *)
Ltac seq :=
  eapply triple_seq; [ solve [plain] | intros | ].

Section DryRunFacts.

Import FastCheckout.
Context `{RT : Runtime}.

Variable I : Session -> Prop.
Hypothesis I_steady : steady I.

(** A checkout that [graphqlCreate] hands on has a truthy [id], so its
    [webUrl] can be read. *)
Lemma graphqlCreate_readable (gqlUrl : string) (gqlHeaders : Dict.dict string)
  (variantId : string) (jiggedDetails : Address) :
  triple I (graphqlCreate gqlUrl gqlHeaders variantId jiggedDetails) notPayment
    (fun r s => I s /\ forall c, r = Ok (Some c) -> exists w, J.get "webUrl" c = Ok w).
Proof.
  assert (Hthrow : forall msg s, I s ->
            I s /\ forall c, Throw msg = Ok (Some c) ->
                             exists w, J.get "webUrl" c = Ok w).
  { intros msg s Hs. split; [exact Hs | intros c E; discriminate E]. }
  assert (Hnone : forall s, I s ->
            I s /\ forall c, Ok None = Ok (Some c) -> exists w, J.get "webUrl" c = Ok w).
  { intros s Hs. split; [exact Hs | intros c E; discriminate E]. }
  unfold graphqlCreate.
  do 6 (seq; [ | exact Hthrow ]).
  match goal with |- triple _ (if ?c then _ else _) _ _ => destruct c end.
  - do 3 (seq; [ | exact Hthrow ]). apply triple_ret. exact Hnone.
  - apply triple_lift; [ intros id Hid | intros msg s _; apply Hthrow ].
    destruct (J.truthy id) eqn:Htruthy; simpl negb; cbv iota.
    + do 6 (seq; [ | exact Hthrow ]). apply triple_ret. intros s Hs. split; [exact Hs | ].
      intros c E. injection E as <-. exact (opt_truthy_readable _ _ _ _ Hid Htruthy).
    + seq; [ | exact Hthrow ]. apply triple_ret. exact Hnone.
Qed.

(** The dry-run GraphQL checkout: a result means that the dry-run
    confirmation was logged; otherwise the payment step was not reached. *)
Lemma graphqlCheckout_dry (storeUrl variantId : string) (checkoutDetails : Address)
  (payment : Payment) (taskIndex : nat) :
  triple I (graphqlCheckout storeUrl variantId checkoutDetails payment true taskIndex)
    notPayment
    (fun r s =>
       match r with
       | Ok (Some g) => g_success g = true /\ dryRunConfirmed (logs s)
       | _ => I s
       end).
Proof.
  unfold graphqlCheckout.
  apply triple_lift; [ intros baseUrl _ | intros msg s _ Hs; exact Hs ].
  cbv zeta. seq; [ | intros msg s Hs; exact Hs ].
  match goal with |- triple _ (if ?c then _ else _) _ _ => destruct c end.
  - seq; [ | intros msg s Hs; exact Hs ]. apply triple_ret. auto.
  - seq; [ | intros msg s Hs; exact Hs ].
    eapply triple_tryCatch with
      (Mid := fun r s =>
                match r with
                | Ok (Some g) => g_success g = true /\ dryRunConfirmed (logs s)
                | _ => I s
                end).
    + eapply triple_bind; [ apply (graphqlCreate_readable) | | ].
      * intros [checkout | ].
        -- intros st [Hs Hread]. destruct (Hread checkout eq_refl) as [w Hw].
           unfold log. rewrite bind_modify, Hw. simpl lift. rewrite bind_ret.
           unfold ret, resultOf, stateOf, eventsOf. simpl.
           split; [constructor | split; [reflexivity | ] ].
           right. apply in_or_app. right. now left.
        -- apply triple_ret. now intros s [Hs _].
      * now intros msg s [Hs _].
    + intro msg. seq; [ | intros msg' s Hs; exact Hs ]. apply triple_ret. auto.
    + auto.
Qed.

Lemma failedAt_spec (P : Event -> Prop) (step : string) :
  triple I (failedAt step) P
    (fun r s => I s /\ r = Ok (mkRunResult false (Some step) None None None None (logs s))).
Proof. intros st Hst. split; [constructor | now split]. Qed.

(** An early return of steps 2 to 4 names one of two steps. *)
Lemma upToPayment_steps (baseUrl resolvedVariant : string) (jigged : Address) :
  triple I (upToPayment baseUrl resolvedVariant jigged) notPayment
    (fun r s => I s /\
                forall step, r = Ok (inr step) ->
                             step = "add-to-cart" \/ step = "create-checkout").
Proof.
  assert (Hthrow : forall msg s, I s ->
            I s /\ forall step, Throw msg = Ok (@inr string string step) ->
                                step = "add-to-cart" \/ step = "create-checkout").
  { intros msg s Hs. split; [exact Hs | intros c E; discriminate E]. }
  unfold upToPayment. seq; [ | exact Hthrow ].
  eapply triple_bind with
    (Mid := fun r s => I s /\
                       forall step, r = Ok (@inr string string step) ->
                                    step = "add-to-cart" \/ step = "create-checkout").
  - match goal with |- triple _ (if ?c then _ else _) _ _ => destruct c end.
    + cbv zeta. do 5 (seq; [ | exact Hthrow ]). apply triple_ret.
      intros s Hs. split; [exact Hs | intros step E; discriminate E].
    + seq; [ | exact Hthrow ].
      match goal with |- triple _ (if ?c then _ else _) _ _ => destruct c end.
      * apply triple_ret. intros s Hs. split; [exact Hs | ].
        intros step E. injection E as <-. now left.
      * seq; [ | exact Hthrow ].
        match goal with |- triple _ (if ?c then _ else _) _ _ => destruct c end;
          apply triple_ret; intros s Hs; (split; [exact Hs | ]); intros step E.
        -- injection E as <-. now right.
        -- discriminate E.
  - intros [checkoutUrl | step].
    + eapply triple_weaken with (Pre := I) (P := notPayment);
        [ | now intros s [Hs _] | auto | intros r s H; exact H ].
      do 2 (seq; [ | exact Hthrow ]). apply triple_ret.
      intros s Hs. split; [exact Hs | intros step E; discriminate E].
    + apply triple_ret. intros s [Hs Hstep]. split; [exact Hs | ].
      intros step' E. injection E as <-. now apply Hstep.
  - intros msg s [Hs _]. now apply Hthrow.
Qed.

(** The success exit in dry-run mode, once a dry-run confirmation is in
    the log: no request, and the result of a completed dry run. *)
Lemma complete_dry (cfg : Config) (baseUrl resolvedVariant dryTag liveTag mode : string) :
  triple (fun s => dryRunConfirmed (logs s))
    (complete cfg true baseUrl resolvedVariant dryTag liveTag mode) notPayment
    (fun r s => exists res, r = Ok res /\ r_logs res = logs s /\ dryRunComplete res).
Proof.
  intros st Hst. unfold complete, elapsedSeconds, log. silently.
  change (negb true && Str.otruthy (c_confirmationEmail cfg)) with false. cbv iota.
  silently.
  unfold ret, resultOf, stateOf, eventsOf. simpl.
  split; [constructor | ]. eexists. split; [reflexivity | ]. split; [reflexivity | ].
  unfold dryRunComplete. simpl. repeat split.
  destruct Hst as [H | H]; [left | right]; apply in_or_app; now left.
Qed.

End DryRunFacts.

(** ** The whole run *)

Section RunFacts.

Import FastCheckout.
Context `{RT : Runtime}.

Lemma earlyFailure_step (step : string) (l : list LogEntry) :
  step = "resolve-variant" \/ step = "add-to-cart" \/ step = "create-checkout" ->
  earlyFailure (mkRunResult false (Some step) None None None None l).
Proof.
  intro H. unfold earlyFailure. simpl. repeat split.
  destruct H as [-> | [-> | ->]]; auto.
Qed.

(** The body of [run] in dry-run mode. *)
Lemma runBody_dry (cfg : Config) (baseUrl : string) :
  dryRunOf cfg = true ->
  triple beforePayment (runBody cfg baseUrl) notPayment
    (fun r s =>
       match r with
       | Ok res =>
           r_logs res = logs s /\
           (dryRunComplete res \/ (earlyFailure res /\ beforePayment s))
       | Throw _ => beforePayment s
       end).
Proof.
  intro Hdry. pose proof beforePayment_steady as Hsteady.
  unfold runBody. rewrite Hdry. cbv zeta.
  seq; [ | intros msg s Hs; exact Hs ].
  match goal with |- triple _ (if ?c then _ else _) _ _ => destruct c end.
  - eapply triple_weaken;
      [ apply (failedAt_spec beforePayment) | auto | intros e H; exact H | ].
    intros r s [Hs ->]. split; [reflexivity | right; split; [ | exact Hs ] ].
    apply earlyFailure_step. now left.
  - eapply triple_bind;
      [ apply (graphqlCheckout_dry beforePayment Hsteady)
      | intros [g | ]
      | intros msg s Hs; exact Hs ].
    + intros st [Hg Hc]. cbv beta iota. rewrite Hg. cbv iota.
      destruct (complete_dry cfg baseUrl (Str.orElse a "") "(GraphQL) " "(GraphQL) "
                  "graphql" st Hc) as [Hev (res & Hres & Hlogs & Hd)].
      split; [exact Hev | ]. rewrite Hres. split; [exact Hlogs | now left].
    + cbv beta iota. seq; [ | intros msg s Hs; exact Hs ].
      eapply triple_bind;
        [ apply (upToPayment_steps beforePayment Hsteady)
        | intros [currentUrl | step]
        | now intros msg s [Hs _] ].
      * intros st [Hs _].
        destruct (submitPayment_dry currentUrl
                    match c_paymentDetails cfg with
                    | Some p => p
                    | None => noPayment
                    end st) as (Hr & He & Hin & _).
        unfold bind.
        destruct (submitPayment currentUrl
                    match c_paymentDetails cfg with
                    | Some p => p
                    | None => noPayment
                    end true st) as [[r st1] e1].
        unfold resultOf, stateOf, eventsOf in Hr, He, Hin. simpl in Hr, He, Hin.
        subst r e1. cbv iota.
        destruct (complete_dry cfg baseUrl (Str.orElse a "") "complete " "" "fast" st1
                    (or_introl Hin)) as [Hev (res & Hres & Hlogs & Hd)].
        destruct (complete cfg true baseUrl (Str.orElse a "") "complete " "" "fast" st1)
          as [[r2 st2] e2].
        unfold resultOf, stateOf, eventsOf in *. simpl in *. subst r2.
        split; [exact Hev | split; [exact Hlogs | now left] ].
      * intros st [Hs Hstep]. specialize (Hstep step eq_refl).
        split; [constructor | ]. unfold resultOf, stateOf. simpl.
        split; [reflexivity | right; split; [ | exact Hs ] ].
        apply earlyFailure_step. now right.
Qed.

(** [run] in dry-run mode: no payment submission; the result is that of a
    completed dry run, or an early failure with no payment-step line in
    the log. *)
Lemma run_dry (cfg : Config) :
  dryRunOf cfg = true ->
  triple (fun _ => True) (run cfg) notPayment
    (fun r s =>
       match r with
       | Ok res =>
           r_logs res = logs s /\
           (dryRunComplete res \/ (earlyFailure res /\ beforePayment s))
       | Throw _ => beforePayment s
       end).
Proof.
  intro Hdry. pose proof beforePayment_steady as Hsteady.
  pose proof always_steady as Halways.
  intros st _. unfold run. rewrite bind_now, !bind_modify.
  match goal with
  | |- Forall _ (eventsOf (?m ?st1)) /\ _ =>
      cut (triple beforePayment m notPayment
             (fun r s1 =>
                match r with
                | Ok res =>
                    r_logs res = logs s1 /\
                    (dryRunComplete res \/ (earlyFailure res /\ beforePayment s1))
                | Throw _ => beforePayment s1
                end));
      [ intro Hrest; apply (Hrest st1); intros e [] | ]
  end.
  do 7 (seq; [ | intros msg s Hs; exact Hs ]).
  eapply triple_tryCatch; [ apply (runBody_dry cfg _ Hdry) | | ].
  - intro msg. intros st' Hst. unfold log. silently.
    unfold ret, resultOf, stateOf, eventsOf. simpl.
    split; [constructor | split; [reflexivity | right] ]. split.
    + unfold earlyFailure. simpl. repeat split. right. right. right.
      split; [reflexivity | discriminate].
    + now apply (steady_pushLog beforePayment Hsteady).
  - auto.
Qed.

(** *** Live mode *)

Lemma graphqlCheckout_live (storeUrl variantId : string) (checkoutDetails : Address)
  (payment : Payment) (taskIndex : nat) :
  keeps_ beforePayment paysWithToken
    (graphqlCheckout storeUrl variantId checkoutDetails payment false taskIndex).
Proof.
  pose proof beforePayment_steady as Hsteady.
  unfold graphqlCheckout. cbv beta iota zeta.
  repeat first
    [ keeps_step
    | progress cbv zeta
    | apply graphqlPayment_pays; assumption
    | apply keeps_weaken with (P := notPayment);
      [ exact notPayment_paysWithToken | solve [plain] ] ].
Qed.

Lemma plain_pays {A : Type} (m : M A) :
  keeps_ beforePayment notPayment m -> keeps_ beforePayment paysWithToken m.
Proof. apply keeps_weaken. exact notPayment_paysWithToken. Qed.

(** The body of [run] in live mode: every submission is made with a token
    held; the run ends with no payment-step line in the log, or refused at
    the payment step. *)
Lemma runBody_live (cfg : Config) (baseUrl : string) :
  dryRunOf cfg = false ->
  triple beforePayment (runBody cfg baseUrl) paysWithToken
    (fun r s =>
       match r with
       | Ok res => beforePayment s \/ refusedAtPayment res
       | Throw _ => beforePayment s
       end).
Proof.
  intro Hlive. pose proof beforePayment_steady as Hsteady.
  assert (Hkeep : forall (m : M RunResult),
            keeps_ beforePayment notPayment m ->
            triple beforePayment m paysWithToken
              (fun r s =>
                 match r with
                 | Ok res => beforePayment s \/ refusedAtPayment res
                 | Throw _ => beforePayment s
                 end)).
  { intros m Hm. eapply triple_weaken;
      [ exact Hm | auto | exact notPayment_paysWithToken | ].
    intros [res | msg] s Hs; [now left | exact Hs]. }
  unfold runBody. rewrite Hlive. cbv zeta.
  eapply triple_seq; [ apply plain_pays; solve [plain] | intros resolved | auto ].
  match goal with |- triple _ (if ?c then _ else _) _ _ => destruct c end.
  { apply Hkeep. plain. }
  eapply triple_seq; [ apply graphqlCheckout_live | intros gqlResult | auto ].
  match goal with |- triple _ (if ?c then _ else _) _ _ => destruct c end.
  { apply Hkeep. plain. }
  eapply triple_seq; [ apply plain_pays; solve [plain] | intros _ | auto ].
  eapply triple_seq; [ apply plain_pays; solve [plain] | intros [currentUrl | step] | auto ].
  2: { apply Hkeep. plain. }
  intros st Hst.
  destruct (submitPayment_live beforePayment Hsteady currentUrl
              match c_paymentDetails cfg with
              | Some p => p
              | None => noPayment
              end st Hst) as [Hev Hcase].
  unfold bind.
  destruct (submitPayment currentUrl
              match c_paymentDetails cfg with
              | Some p => p
              | None => noPayment
              end false st) as [[r st1] e1].
  unfold resultOf, stateOf, eventsOf in Hev, Hcase. simpl in Hev, Hcase.
  destruct Hcase as [[Htok Hb] | (Htok & Hr & Hnp & Hlog)].
  - destruct r as [paid | msg].
    + assert (Hnext : keeps_ beforePayment notPayment
                        (if paid
                         then complete cfg false baseUrl (Str.orElse resolved "")
                                       "complete " "" "fast"
                         else failedAt "payment")) by plain.
      destruct (Hkeep _ Hnext st1 Hb) as [Hev2 Hpost].
      destruct ((if paid
                 then complete cfg false baseUrl (Str.orElse resolved "")
                               "complete " "" "fast"
                 else failedAt "payment") st1) as [[r2 st2] e2].
      unfold resultOf, stateOf, eventsOf in *. simpl in *.
      split; [ apply Forall_app; now split | exact Hpost ].
    + unfold resultOf, stateOf, eventsOf. simpl. now split.
  - subst r. unfold resultOf, stateOf, eventsOf. simpl.
    split; [ now rewrite app_nil_r | right ].
    unfold refusedAtPayment. simpl. now repeat split.
Qed.

Lemma run_live (cfg : Config) :
  dryRunOf cfg = false ->
  triple (fun _ => True) (run cfg) paysWithToken
    (fun r s =>
       match r with
       | Ok res => beforePayment s \/ refusedAtPayment res
       | Throw _ => beforePayment s
       end).
Proof.
  intro Hlive. pose proof beforePayment_steady as Hsteady.
  intros st _. unfold run. rewrite bind_now, !bind_modify.
  match goal with
  | |- Forall _ (eventsOf (?m ?st1)) /\ _ =>
      cut (triple beforePayment m paysWithToken
             (fun r s1 =>
                match r with
                | Ok res => beforePayment s1 \/ refusedAtPayment res
                | Throw _ => beforePayment s1
                end));
      [ intro Hrest; apply (Hrest st1); intros e [] | ]
  end.
  do 7 (eapply triple_seq; [ apply plain_pays; solve [plain] | intros | auto ]).
  eapply triple_tryCatch; [ apply (runBody_live cfg _ Hlive) | | auto ].
  intro msg. eapply triple_weaken with (Pre := beforePayment) (P := notPayment)
                                       (Post := fun _ s => beforePayment s);
    [ change (keeps_ beforePayment notPayment
                (bind (log ("Fatal: " ++ msg) error)
                   (fun _ => bind (gets logs)
                      (fun l => ret (mkRunResult false None None None None (Some msg) l)))));
      plain
    | auto
    | exact notPayment_paysWithToken
    | intros [res | msg'] s Hs; [now left | exact Hs] ].
Qed.

End RunFacts.

(** ** Dry run and live run side by side *)

Section ModeFacts.

Import FastCheckout.
Context `{RT : Runtime}.













End ModeFacts.

(** ** The run, step by step *)

Section StepwiseFacts.

Import FastCheckout.
Context `{RT : Runtime}.

Lemma run_start (cfg : Config) (st : St) :
  run cfg st =
  bind (runStart cfg) (fun baseUrl => tryCatch (runBody cfg baseUrl) runCatch) st.
Proof.
  unfold run, runStart, runCatch, log, random. destruct st as [s sc cl dr].
  destruct (c_mobileMode cfg); [ | destruct dr ];
    (destruct (getBaseUrlOf (c_storeUrl cfg) (c_productUrl cfg));
     cbv beta iota zeta delta [bind now modify gets ret lift throw sess script clock draws];
     [ | reflexivity ]);
    match goal with
    | |- context [tryCatch ?m ?h ?s] => destruct (tryCatch m h s) as [[? ?] ?]
    end; reflexivity.
Qed.


Lemma out_eta {A : Type} (x : Res A * St * list Event) :
  x = (resultOf x, stateOf x, eventsOf x).
Proof. now destruct x as [[r s] e]. Qed.

Lemma out_of {A : Type} (x : Res A * St * list Event) (r : Res A) :
  resultOf x = r -> x = (r, stateOf x, eventsOf x).
Proof. intros <-. apply out_eta. Qed.

(** [run] through its opening statements. *)
Lemma run_started (cfg : Config) (st st0 : St) (baseUrl : string) (e0 : list Event)
  (r : Res RunResult) (st' : St) (e : list Event) :
  runStart cfg st = (Ok baseUrl, st0, e0) ->
  tryCatch (runBody cfg baseUrl) runCatch st0 = (r, st', e) ->
  run cfg st = (r, st', (e0 ++ e)%list).
Proof.
  intros H0 H. rewrite run_start, bind_run, H0, H. reflexivity.
Qed.

(** The [try] of [run] through its first steps, on the REST path: the
    variant is resolved, the GraphQL checkout yields no success, and steps 2
    to 4 hand a URL to the payment step. *)
Lemma runBody_reaches_payment (cfg : Config) (baseUrl : string) (st0 st1 st2 st3 st4 : St)
  (resolved : option string) (gql : option GqlResult) (url : string)
  (e1 e2 e3 e4 : list Event) (r : Res RunResult) :
  resolveVariant (Some baseUrl) (c_productUrl cfg) (c_itemName cfg) (c_variantId cfg) st0
    = (Ok resolved, st1, e1) ->
  Str.otruthy resolved = true ->
  graphqlCheckout baseUrl (Str.orElse resolved "") (jiggedOf cfg) (paymentDetailsOf cfg)
    (dryRunOf cfg) (taskIndexOf cfg) st1 = (Ok gql, st2, e2) ->
  match gql with Some g => g_success g | None => false end = false ->
  bind match gql with
       | None => log "GraphQL unavailable, using REST checkout." info
       | Some _ => ret tt
       end
       (fun _ => upToPayment baseUrl (Str.orElse resolved "") (jiggedOf cfg)) st2
    = (Ok (inl url), st3, e3) ->
  tryCatch
    (bind (submitPayment url (paymentDetailsOf cfg) (dryRunOf cfg))
       (fun paid : bool =>
          if paid
          then complete cfg (dryRunOf cfg) baseUrl (Str.orElse resolved "") "complete " "" "fast"
          else failedAt "payment"))
    runCatch st3 = (r, st4, e4) ->
  tryCatch (runBody cfg baseUrl) runCatch st0 = (r, st4, (e1 ++ e2 ++ e3 ++ e4)%list).
Proof.
  intros H1 Ht H2 Hg H3 H4.
  unfold jiggedOf, paymentDetailsOf, taskIndexOf, checkoutDetailsOf in *.
  unfold runBody. cbv zeta. rewrite tryCatch_run in *. rewrite bind_run, H1.
  rewrite Ht. cbn [negb]. rewrite bind_run, H2. rewrite Hg.
  match goal with
  | |- context [bind ?n (fun _ => bind ?u ?k) st2] =>
      rewrite <- (bind_assoc n (fun _ => u) k st2)
  end.
  rewrite bind_run, H3.
  match type of H4 with
  | context [bind ?m ?k st3] => destruct (bind m k st3) as [[[res | msg] s'] e']
  end.
  - injection H4 as <- <- <-. reflexivity.
  - destruct (runCatch msg s') as [[r5 s5] e5]. injection H4 as <- <- <-.
    now rewrite !app_assoc.
Qed.


Lemma sameButLog_refl (a : St) : sameButLog a a.
Proof. now repeat split. Qed.









(** The attempts of a guarded computation begin with those of its first
    part. *)
Lemma tryCatch_bind_events {A B : Type} (m : M A) (f : A -> M B) (h : string -> M B)
  (st : St) :
  exists rest, eventsOf (tryCatch (bind m f) h st) = (eventsOf (m st) ++ rest)%list.
Proof.
  rewrite tryCatch_run, bind_run.
  destruct (m st) as [[[a | msg] st1] e1].
  - destruct (f a st1) as [[[b | msg] st2] e2].
    + now exists e2.
    + destruct (h msg st2) as [[r3 st3] e3]. exists (e2 ++ e3)%list.
      unfold eventsOf. simpl. now rewrite app_assoc.
  - destruct (h msg st1) as [[r3 st3] e3]. now exists e3.
Qed.

(** *** The live payment step *)

(** The live [submitPayment] through its steps: the card vault, the payment
    page, the retry; then the token check decides between the submission
    and the refusal. *)
Lemma submitPayment_steps (checkoutUrl : string) (payment : Payment) (st' st1 st2 st3 : St)
  (sessionToken : option string) (e1 e2 e3 : list Event) :
  bind (log "Submitting payment..." info) (fun _ => tokenizeCard payment) st'
    = (Ok sessionToken, st1, e1) ->
  loadPaymentPage checkoutUrl st1 = (Ok tt, st2, e2) ->
  retryCheckoutUrl checkoutUrl st2 = (Ok tt, st3, e3) ->
  submitPayment checkoutUrl payment false st' =
  if Str.otruthy (authToken (sess st3))
  then (resultOf (sendPayment checkoutUrl payment sessionToken (authToken (sess st3)) st3),
        stateOf (sendPayment checkoutUrl payment sessionToken (authToken (sess st3)) st3),
        (e1 ++ e2 ++ e3 ++
         eventsOf (sendPayment checkoutUrl payment sessionToken (authToken (sess st3)) st3))
        %list)
  else (Ok false,
        mkSt (pushLog fatalNoToken error (sess st3)) (script st3) (clock st3) (draws st3),
        (e1 ++ e2 ++ e3)%list).
Proof.
  intros H1 H2 H3. unfold submitPayment. cbv iota.
  match goal with
  | |- context [bind ?n (fun _ => bind (tokenizeCard payment) ?k) st'] =>
      rewrite <- (bind_assoc n (fun _ => tokenizeCard payment) k st')
  end.
  rewrite bind_run, H1, bind_run, H2, bind_run, H3, bind_gets.
  destruct (Str.otruthy (authToken (sess st3))); cbn [negb].
  - now destruct (sendPayment checkoutUrl payment sessionToken (authToken (sess st3)) st3)
      as [[r s] e].
  - unfold log. rewrite bind_modify. unfold ret. now rewrite app_nil_r.
Qed.

Lemma payment_steps_unfailing (checkoutUrl : string) (payment : Payment) :
  unfailing (bind (log "Submitting payment..." info) (fun _ => tokenizeCard payment)) /\
  unfailing (loadPaymentPage checkoutUrl) /\
  unfailing (retryCheckoutUrl checkoutUrl).
Proof.
  split; [ | split ].
  - unfold tokenizeCard. surely.
  - unfold loadPaymentPage. surely.
  - unfold retryCheckoutUrl. surely.
Qed.

Lemma unit_result (x : Res unit * St * list Event) :
  (exists a, resultOf x = Ok a) -> x = (Ok tt, stateOf x, eventsOf x).
Proof. intros [[] E]. now apply out_of. Qed.

(** [request] leaves the token alone. *)
Lemma request_token (url : string) (o : Options) (st : St) :
  authToken (sess (stateOf (request url o st))) = authToken (sess st).
Proof.
  assert (Hq : quiet (fun s => authToken s = authToken (sess st))).
  { intros s Hs. now repeat split. }
  destruct (request_keeps (fun s => authToken s = authToken (sess st)) (fun _ => True) Hq
              (o_body o) (fun _ _ _ _ _ _ => Logic.I) url o eq_refl st eq_refl) as [_ H].
  exact H.
Qed.

Lemma orElse_truthy (x : option string) :
  Str.otruthy x = true -> Some (Str.orElse x "") = x.
Proof. destruct x as [[ | c t] | ]; simpl; intro H; try discriminate H; reflexivity. Qed.

(** Step 2 is one [request] of the payment page; the token afterwards is
    the one the page carries, or the one held before. *)
Lemma loadPaymentPage_harvest (checkoutUrl : string) (st : St) :
  eventsOf (loadPaymentPage checkoutUrl st) =
    eventsOf (request (withStep checkoutUrl "payment_method") GET st) /\
  authToken (sess (stateOf (loadPaymentPage checkoutUrl st))) =
    match resultOf (request (withStep checkoutUrl "payment_method") GET st) with
    | Ok r => if Str.otruthy (extractAuthToken (body r)) then extractAuthToken (body r)
              else authToken (sess st)
    | Throw _ => authToken (sess st)
    end.
Proof.
  pose proof (request_token (withStep checkoutUrl "payment_method") GET st) as Htok.
  unfold loadPaymentPage, log. rewrite tryCatch_run, bind_run.
  destruct (request (withStep checkoutUrl "payment_method") GET st)
    as [[[r | msg] st1] e1]; unfold resultOf, stateOf, eventsOf in *; cbn [fst snd] in *.
  - cbv zeta.
    assert (Hgw : forall (k : unit -> M unit),
              bind match extractPaymentGateway (body r) with
                   | Some freshGw =>
                       if Str.truthy freshGw then modify (set_paymentGatewayId (Some freshGw))
                       else ret tt
                   | None => ret tt
                   end k st1 =
              k tt (mkSt match extractPaymentGateway (body r) with
                         | Some freshGw =>
                             if Str.truthy freshGw
                             then set_paymentGatewayId (Some freshGw) (sess st1)
                             else sess st1
                         | None => sess st1
                         end (script st1) (clock st1) (draws st1))).
    { intro k. destruct (extractPaymentGateway (body r)) as [gw | ];
        [ destruct (Str.truthy gw) | ];
        rewrite ?bind_modify, ?bind_ret; try reflexivity; now destruct st1. }
    rewrite Hgw.
    destruct (Str.otruthy (extractAuthToken (body r))) eqn:Et.
    + rewrite bind_modify. unfold modify. cbn [fst snd sess authToken set_authToken pushLog
        set_logs]. split; [now rewrite app_nil_r | ].
      now apply orElse_truthy.
    + unfold modify. cbn [fst snd sess]. split; [now rewrite app_nil_r | ].
      rewrite <- Htok.
      destruct (extractPaymentGateway (body r)) as [gw | ]; [ destruct (Str.truthy gw) | ];
        reflexivity.
  - unfold modify. cbn [fst snd sess]. split; [now rewrite app_nil_r | exact Htok].
Qed.

(** Step 2b does nothing while a token is held; without one it is one
    [request] of the checkout URL, and the token afterwards is the one that
    page carries, or the one held before. *)
Lemma retryCheckoutUrl_harvest (checkoutUrl : string) (st : St) :
  if Str.otruthy (authToken (sess st))
  then retryCheckoutUrl checkoutUrl st = (Ok tt, st, [])
  else
    eventsOf (retryCheckoutUrl checkoutUrl st) =
      eventsOf (bind (log "Auth token missing — retrying from checkout URL..." error)
                  (fun _ => request checkoutUrl GET) st) /\
    authToken (sess (stateOf (retryCheckoutUrl checkoutUrl st))) =
      match resultOf (bind (log "Auth token missing — retrying from checkout URL..." error)
                        (fun _ => request checkoutUrl GET) st) with
      | Ok r => if Str.otruthy (extractAuthToken (body r)) then extractAuthToken (body r)
                else authToken (sess st)
      | Throw _ => authToken (sess st)
      end.
Proof.
  unfold retryCheckoutUrl. rewrite bind_gets.
  destruct (Str.otruthy (authToken (sess st))) eqn:Eheld; cbn [negb]; [reflexivity | ].
  unfold log. rewrite !bind_modify.
  set (st0 := mkSt (pushLog "Auth token missing — retrying from checkout URL..." error
                      (sess st)) (script st) (clock st) (draws st)).
  pose proof (request_token checkoutUrl GET st0) as Htok.
  change (authToken (sess st0)) with (authToken (sess st)) in Htok.
  rewrite tryCatch_run, bind_run.
  destruct (request checkoutUrl GET st0) as [[[r | msg] st1] e1];
    unfold resultOf, stateOf, eventsOf in *; cbn [fst snd] in *.
  - cbv zeta.
    assert (Hgw : forall s1 : St,
              exists s2 : St,
                bind (gets paymentGatewayId)
                  (fun gw1 =>
                     if negb (Str.otruthy gw1)
                     then match extractPaymentGateway (body r) with
                          | Some retryGw =>
                              if Str.truthy retryGw
                              then modify (set_paymentGatewayId (Some retryGw))
                              else ret tt
                          | None => ret tt
                          end
                     else ret tt) s1 = (Ok tt, s2, []) /\
                authToken (sess s2) = authToken (sess s1)).
    { intro s1. rewrite bind_gets.
      destruct (negb (Str.otruthy (paymentGatewayId (sess s1))));
        [ destruct (extractPaymentGateway (body r)) as [gw | ];
          [ destruct (Str.truthy gw) | ] | ];
        eexists; split; reflexivity. }
    destruct (Str.otruthy (extractAuthToken (body r))) eqn:Et.
    + rewrite bind_assoc, bind_modify, bind_modify.
      match goal with
      | |- context [bind (gets paymentGatewayId) ?k ?s1] =>
          destruct (Hgw s1) as (s2 & -> & Hs2)
      end.
      cbn [fst snd]. split; [now rewrite app_nil_r | ].
      rewrite Hs2. cbn [sess authToken set_authToken pushLog set_logs].
      now apply orElse_truthy.
    + rewrite bind_ret.
      destruct (Hgw st1) as (s2 & -> & Hs2).
      cbn [fst snd]. split; [now rewrite app_nil_r | ].
      now rewrite Hs2.
  - unfold ret. cbn [fst snd]. split; [now rewrite app_nil_r | exact Htok].
Qed.

(** The exit of [run] after the payment step returned [false]. *)
Lemma payment_step_refused (cfg : Config) (baseUrl v url : string) (payment : Payment)
  (st3 : St) :
  resultOf (submitPayment url payment false st3) = Ok false ->
  tryCatch
    (bind (submitPayment url payment false)
       (fun paid : bool =>
          if paid then complete cfg false baseUrl v "complete " "" "fast"
          else failedAt "payment"))
    runCatch st3 =
  (Ok (mkRunResult false (Some "payment") None None None None
         (logs (sess (stateOf (submitPayment url payment false st3))))),
   stateOf (submitPayment url payment false st3),
   eventsOf (submitPayment url payment false st3)).
Proof.
  intro H. rewrite tryCatch_run, bind_run.
  destruct (submitPayment url payment false st3) as [[r s] e].
  unfold resultOf in H. cbn [fst] in H. subst r.
  unfold failedAt. rewrite bind_gets. unfold ret, stateOf, eventsOf. cbn [fst snd].
  now rewrite app_nil_r.
Qed.

End StepwiseFacts.

(** ** Dry-run mode and the auth token: the theorems *)


Lemma beforePayment_not_refused (s : FastCheckout.Session) :
  FastCheckout.beforePayment s -> ~ FastCheckout.tokenMissingLogged (FastCheckout.logs s).
Proof. intros Hs H. apply Hs in H. discriminate H. Qed.




(** C2.  From every state and for every configuration, [run] makes a
    payment-completion request only while an auth token is held, and in
    live mode a run that logged the missing-token failure returns
    [success: false, step: "payment"].  The live [submitPayment] makes a
    payment-completion request only while a token is held; when it ends
    without a token it returned [false], logged the failure and made no
    payment-completion request.  Its steps, in order: the card vault is
    asked for a session token; the payment page ([?step=payment_method]) is
    requested, whatever the session holds, and the token it carries
    replaces the one held; only with no token held after that, the checkout
    URL itself is requested, once, and its token taken; then, with no token
    held, [submitPayment] logs the failure and returns [false] after the
    attempts of those steps and no other, and with a token held it posts
    the payment form with that token.  A live [run] whose steps reach the
    payment step makes the attempts of those steps and then those of
    [submitPayment]; when [submitPayment] returns [false], that is all it
    makes, and its result is [success: false, step: "payment"]. *)
Theorem payment_only_with_token `{RT : Runtime} (cfg : FastCheckout.Config)
  (st : FastCheckout.St) (checkoutUrl : string) (payment : FastCheckout.Payment)
  (st' : FastCheckout.St) :
  let out := FastCheckout.run cfg st in
  let paid := FastCheckout.submitPayment checkoutUrl payment false st' in
  Forall FastCheckout.paysWithToken (FastCheckout.eventsOf out) /\
  (FastCheckout.dryRunOf cfg = false ->
   FastCheckout.tokenMissingLogged
     (FastCheckout.logs (FastCheckout.sess (FastCheckout.stateOf out))) ->
   exists res, FastCheckout.resultOf out = Ok res /\ FastCheckout.refusedAtPayment res) /\
  Forall FastCheckout.paysWithToken (FastCheckout.eventsOf paid) /\
  (Str.otruthy (FastCheckout.authToken (FastCheckout.sess (FastCheckout.stateOf paid))) = false ->
   FastCheckout.resultOf paid = Ok false /\
   Forall FastCheckout.notPayment (FastCheckout.eventsOf paid) /\
   FastCheckout.tokenMissingLogged
     (FastCheckout.logs (FastCheckout.sess (FastCheckout.stateOf paid)))) /\
  (let p1 := FastCheckout.bind
               (FastCheckout.log "Submitting payment..." FastCheckout.info)
               (fun _ => FastCheckout.tokenizeCard payment) st' in
   let p2 := FastCheckout.loadPaymentPage checkoutUrl (FastCheckout.stateOf p1) in
   let p3 := FastCheckout.retryCheckoutUrl checkoutUrl (FastCheckout.stateOf p2) in
   let tok := FastCheckout.authToken (FastCheckout.sess (FastCheckout.stateOf p3)) in
   exists sessionToken,
     FastCheckout.resultOf p1 = Ok sessionToken /\
     FastCheckout.resultOf p2 = Ok tt /\
     FastCheckout.resultOf p3 = Ok tt /\
     if Str.otruthy tok
     then
       let sent := FastCheckout.sendPayment checkoutUrl payment sessionToken tok
                     (FastCheckout.stateOf p3) in
       paid = (FastCheckout.resultOf sent, FastCheckout.stateOf sent,
               (FastCheckout.eventsOf p1 ++ FastCheckout.eventsOf p2 ++
                FastCheckout.eventsOf p3 ++ FastCheckout.eventsOf sent)%list)
     else
       FastCheckout.resultOf paid = Ok false /\
       FastCheckout.eventsOf paid =
         (FastCheckout.eventsOf p1 ++ FastCheckout.eventsOf p2 ++
          FastCheckout.eventsOf p3)%list /\
       FastCheckout.sess (FastCheckout.stateOf paid) =
         FastCheckout.pushLog FastCheckout.fatalNoToken FastCheckout.error
           (FastCheckout.sess (FastCheckout.stateOf p3))) /\
  (forall s : FastCheckout.St,
     let page := FastCheckout.request
                   (FastCheckout.withStep checkoutUrl "payment_method")
                   FastCheckout.GET s in
     let loaded := FastCheckout.loadPaymentPage checkoutUrl s in
     FastCheckout.eventsOf loaded = FastCheckout.eventsOf page /\
     FastCheckout.authToken (FastCheckout.sess (FastCheckout.stateOf loaded)) =
       match FastCheckout.resultOf page with
       | Ok r =>
           if Str.otruthy (FastCheckout.extractAuthToken (FastCheckout.body r))
           then FastCheckout.extractAuthToken (FastCheckout.body r)
           else FastCheckout.authToken (FastCheckout.sess s)
       | Throw _ => FastCheckout.authToken (FastCheckout.sess s)
       end) /\
  (forall s : FastCheckout.St,
     let again := FastCheckout.bind
                    (FastCheckout.log "Auth token missing — retrying from checkout URL..."
                       FastCheckout.error)
                    (fun _ => FastCheckout.request checkoutUrl FastCheckout.GET) s in
     let retried := FastCheckout.retryCheckoutUrl checkoutUrl s in
     if Str.otruthy (FastCheckout.authToken (FastCheckout.sess s))
     then retried = (Ok tt, s, [])
     else
       FastCheckout.eventsOf retried = FastCheckout.eventsOf again /\
       FastCheckout.authToken (FastCheckout.sess (FastCheckout.stateOf retried)) =
         match FastCheckout.resultOf again with
         | Ok r =>
             if Str.otruthy (FastCheckout.extractAuthToken (FastCheckout.body r))
             then FastCheckout.extractAuthToken (FastCheckout.body r)
             else FastCheckout.authToken (FastCheckout.sess s)
         | Throw _ => FastCheckout.authToken (FastCheckout.sess s)
         end) /\
  (FastCheckout.dryRunOf cfg = false ->
   forall (baseUrl : string) (resolved : option string)
          (gql : option FastCheckout.GqlResult) (url : string),
     let v := Str.orElse resolved "" in
     let s0 := FastCheckout.runStart cfg st in
     let s1 := FastCheckout.resolveVariant (Some baseUrl) (FastCheckout.c_productUrl cfg)
                 (FastCheckout.c_itemName cfg) (FastCheckout.c_variantId cfg)
                 (FastCheckout.stateOf s0) in
     let s2 := FastCheckout.graphqlCheckout baseUrl v (FastCheckout.jiggedOf cfg)
                 (FastCheckout.paymentDetailsOf cfg) false (FastCheckout.taskIndexOf cfg)
                 (FastCheckout.stateOf s1) in
     let s3 := FastCheckout.bind
                 match gql with
                 | None => FastCheckout.log "GraphQL unavailable, using REST checkout."
                             FastCheckout.info
                 | Some _ => FastCheckout.ret tt
                 end
                 (fun _ => FastCheckout.upToPayment baseUrl v (FastCheckout.jiggedOf cfg))
                 (FastCheckout.stateOf s2) in
     let pay := FastCheckout.submitPayment url (FastCheckout.paymentDetailsOf cfg) false
                  (FastCheckout.stateOf s3) in
     FastCheckout.resultOf s0 = Ok baseUrl ->
     FastCheckout.resultOf s1 = Ok resolved ->
     Str.otruthy resolved = true ->
     FastCheckout.resultOf s2 = Ok gql ->
     match gql with Some g => FastCheckout.g_success g | None => false end = false ->
     FastCheckout.resultOf s3 = Ok (inl url) ->
     (exists rest,
        FastCheckout.eventsOf out =
          (FastCheckout.eventsOf s0 ++ FastCheckout.eventsOf s1 ++
           FastCheckout.eventsOf s2 ++ FastCheckout.eventsOf s3 ++
           FastCheckout.eventsOf pay ++ rest)%list) /\
     (FastCheckout.resultOf pay = Ok false ->
      out = (Ok (FastCheckout.mkRunResult false (Some "payment") None None None None
                   (FastCheckout.logs (FastCheckout.sess (FastCheckout.stateOf pay)))),
             FastCheckout.stateOf pay,
             (FastCheckout.eventsOf s0 ++ FastCheckout.eventsOf s1 ++
              FastCheckout.eventsOf s2 ++ FastCheckout.eventsOf s3 ++
              FastCheckout.eventsOf pay)%list))).
Proof.
  intros out paid. subst out paid.
  split; [ | split; [ | split; [ | split; [ | split; [ | split; [ | split ] ] ] ] ] ].
  - destruct (FastCheckout.dryRunOf cfg) eqn:Hmode.
    + destruct (run_dry cfg Hmode st Logic.I) as [Hev _].
      eapply Forall_impl; [exact notPayment_paysWithToken | exact Hev].
    + now destruct (run_live cfg Hmode st Logic.I) as [Hev _].
  - intros Hmode Hlog. destruct (run_live cfg Hmode st Logic.I) as [_ Hpost].
    destruct (FastCheckout.resultOf (FastCheckout.run cfg st)) as [res | msg].
    + destruct Hpost as [Hb | Hr]; [now elim (beforePayment_not_refused _ Hb) | ].
      now exists res.
    + now elim (beforePayment_not_refused _ Hpost).
  - now destruct (submitPayment_live (fun _ => True) always_steady checkoutUrl payment
                    st' Logic.I) as [Hev _].
  - intro Htok.
    destruct (submitPayment_live (fun _ => True) always_steady checkoutUrl payment
                st' Logic.I) as [_ [[Ht _] | (_ & Hr & Hn & Hl)]].
    + rewrite Htok in Ht. discriminate Ht.
    + now repeat split.
  - intros p1 p2 p3 tok.
    destruct (payment_steps_unfailing checkoutUrl payment) as (U1 & U2 & U3).
    destruct (U1 st') as [sessionToken E1]. fold p1 in E1.
    pose proof (unit_result p2 (U2 _)) as E2.
    pose proof (unit_result p3 (U3 _)) as E3.
    exists sessionToken. split; [exact E1 | ].
    split; [now rewrite E2 | ]. split; [now rewrite E3 | ].
    apply out_of in E1.
    rewrite (submitPayment_steps checkoutUrl payment st' _ _ _ sessionToken _ _ _ E1 E2 E3).
    fold tok. destruct (Str.otruthy tok); [reflexivity | now repeat split].
  - intros s page loaded. apply loadPaymentPage_harvest.
  - intros s again retried. apply retryCheckoutUrl_harvest.
  - intros Hlive baseUrl resolved gql url v s0 s1 s2 s3 pay H0 H1 Ht H2 Hg H3.
    subst v pay.
    apply out_of in H0. apply out_of in H1. apply out_of in H2. apply out_of in H3.
    assert (Hrun : forall r st4 e4,
              FastCheckout.tryCatch
                (FastCheckout.bind
                   (FastCheckout.submitPayment url (FastCheckout.paymentDetailsOf cfg) false)
                   (fun paid : bool =>
                      if paid
                      then FastCheckout.complete cfg false baseUrl (Str.orElse resolved "")
                             "complete " "" "fast"
                      else FastCheckout.failedAt "payment"))
                FastCheckout.runCatch (FastCheckout.stateOf s3) = (r, st4, e4) ->
              FastCheckout.run cfg st =
              (r, st4,
               (FastCheckout.eventsOf s0 ++ FastCheckout.eventsOf s1 ++
                FastCheckout.eventsOf s2 ++ FastCheckout.eventsOf s3 ++ e4)%list)).
    { intros r st4 e4 E4. eapply run_started; [exact H0 | ].
      eapply runBody_reaches_payment with (gql := gql) (url := url);
        [ exact H1 | exact Ht | rewrite Hlive; exact H2 | exact Hg | exact H3 | ].
      rewrite Hlive. exact E4. }
    split.
    + destruct (tryCatch_bind_events
                  (FastCheckout.submitPayment url (FastCheckout.paymentDetailsOf cfg) false)
                  (fun paid : bool =>
                     if paid
                     then FastCheckout.complete cfg false baseUrl (Str.orElse resolved "")
                            "complete " "" "fast"
                     else FastCheckout.failedAt "payment")
                  FastCheckout.runCatch (FastCheckout.stateOf s3)) as [rest Hrest].
      exists rest. rewrite <- Hrest. erewrite Hrun; [reflexivity | apply out_eta].
    + intro Hfalse. apply Hrun. now apply payment_step_refused.
Qed.

Lemma payment_only_with_token_witness :
  let cfg := Demo.config false in
  let st := Demo.startWith
              (Demo.tokenlessScript ++
               [Demo.page "vault"; Demo.page "pay"; Demo.page "retry"])%list in
  let out := @FastCheckout.run Demo.runtime cfg st in
  let s0 := @FastCheckout.runStart Demo.runtime cfg st in
  let s1 := @FastCheckout.resolveVariant Demo.runtime (Some "https://shop.example") None None
              (Some "42") (FastCheckout.stateOf s0) in
  let s2 := @FastCheckout.graphqlCheckout Demo.runtime "https://shop.example" "42"
              (FastCheckout.jiggedOf cfg) (FastCheckout.paymentDetailsOf cfg) false
              (FastCheckout.taskIndexOf cfg) (FastCheckout.stateOf s1) in
  let s3 := FastCheckout.bind
              (FastCheckout.log "GraphQL unavailable, using REST checkout." FastCheckout.info)
              (fun _ => @FastCheckout.upToPayment Demo.runtime "https://shop.example" "42"
                          (FastCheckout.jiggedOf cfg))
              (FastCheckout.stateOf s2) in
  let url := "https://shop.example/checkouts/c1" in
  let payment := FastCheckout.paymentDetailsOf cfg in
  let pay := @FastCheckout.submitPayment Demo.runtime url payment false
               (FastCheckout.stateOf s3) in
  let p1 := FastCheckout.bind
              (FastCheckout.log "Submitting payment..." FastCheckout.info)
              (fun _ => @FastCheckout.tokenizeCard Demo.runtime payment)
              (FastCheckout.stateOf s3) in
  let p2 := @FastCheckout.loadPaymentPage Demo.runtime url (FastCheckout.stateOf p1) in
  let p3 := @FastCheckout.retryCheckoutUrl Demo.runtime url (FastCheckout.stateOf p2) in
  (FastCheckout.dryRunOf cfg = false /\
   FastCheckout.resultOf s0 = Ok "https://shop.example" /\
   FastCheckout.resultOf s1 = Ok (Some "42") /\
   FastCheckout.resultOf s2 = Ok None /\
   FastCheckout.resultOf s3 = Ok (inl url) /\
   Str.otruthy (FastCheckout.authToken (FastCheckout.sess (FastCheckout.stateOf p3))) = false) /\
  List.map Demo.shape (FastCheckout.eventsOf p1) =
    [ (FastCheckout.NodeFetch, "POST", "https://deposit.shopifycs.com/sessions", false) ] /\
  List.map Demo.shape (FastCheckout.eventsOf p2) =
    [ (FastCheckout.H2, "GET", "https://shop.example/checkouts/c1?step=payment_method",
       false) ] /\
  List.map Demo.shape (FastCheckout.eventsOf p3) =
    [ (FastCheckout.H2, "GET", "https://shop.example/checkouts/c1", false) ] /\
  FastCheckout.resultOf pay = Ok false /\
  FastCheckout.eventsOf pay =
    (FastCheckout.eventsOf p1 ++ FastCheckout.eventsOf p2 ++ FastCheckout.eventsOf p3)%list /\
  out = (Ok (FastCheckout.mkRunResult false (Some "payment") None None None None
               (FastCheckout.logs (FastCheckout.sess (FastCheckout.stateOf pay)))),
         FastCheckout.stateOf pay,
         (FastCheckout.eventsOf s0 ++ FastCheckout.eventsOf s1 ++
          FastCheckout.eventsOf s2 ++ FastCheckout.eventsOf s3 ++
          FastCheckout.eventsOf pay)%list) /\
  Forall FastCheckout.notPayment (FastCheckout.eventsOf out).
Proof.
  intros cfg st out s0 s1 s2 s3 url payment pay p1 p2 p3.
  assert (E0 : FastCheckout.resultOf s0 = Ok "https://shop.example")
    by (vm_compute; reflexivity).
  assert (E1 : FastCheckout.resultOf s1 = Ok (Some "42")) by (vm_compute; reflexivity).
  assert (E2 : FastCheckout.resultOf s2 = Ok None) by (vm_compute; reflexivity).
  assert (E3 : FastCheckout.resultOf s3 = Ok (inl url)) by (vm_compute; reflexivity).
  assert (Etok : Str.otruthy (FastCheckout.authToken
                                (FastCheckout.sess (FastCheckout.stateOf p3))) = false)
    by (vm_compute; reflexivity).
  destruct (@payment_only_with_token Demo.runtime cfg st url payment
              (FastCheckout.stateOf s3))
    as (_ & _ & _ & _ & Hsteps & _ & _ & Hrun).
  destruct Hsteps as (sessionToken & _ & _ & _ & Hcase).
  fold p1 p2 p3 in Hcase. rewrite Etok in Hcase. destruct Hcase as (Hfalse & Hev & _).
  destruct (Hrun eq_refl "https://shop.example" (Some "42") None url E0 E1 eq_refl E2
              eq_refl E3) as [_ Hout].
  specialize (Hout Hfalse).
  split; [now repeat split | ].
  split; [vm_compute; reflexivity | ]. split; [vm_compute; reflexivity | ].
  split; [vm_compute; reflexivity | ].
  split; [exact Hfalse | ]. split; [exact Hev | ]. split; [exact Hout | ].
  vm_compute. repeat constructor.
Defined.

(** A dry run against the reference store: five requests, none a payment
    submission, and the result of a completed dry run. *)
Example dry_run_demo :
  let out := @FastCheckout.run Demo.runtime (Demo.config true)
               (Demo.startWith Demo.upToPaymentScript) in
  List.map Demo.shape (FastCheckout.eventsOf out) =
    [ (FastCheckout.H2, "GET", "https://shop.example", false);
      (FastCheckout.H2, "GET", "https://shop.example/cart/42:1", false);
      (FastCheckout.H2, "GET", "https://shop.example/checkouts/c1", false);
      (FastCheckout.H2, "GET", "https://shop.example/checkouts/c1?step=shipping_method",
       false);
      (FastCheckout.H2, "GET", "https://shop.example/checkouts/c1/shipping_rates.json",
       false) ] /\
  match FastCheckout.resultOf out with
  | Ok res =>
      (FastCheckout.r_success res, FastCheckout.r_step res, FastCheckout.r_dryRun res,
       FastCheckout.r_mode res) = (true, Some "complete", Some true, Some "fast")
  | Throw _ => False
  end.
Proof. vm_compute. split; reflexivity. Qed.

(** The live run against the same store goes on with the card vault, the
    payment page and the submission, made with the fresh token. *)
Example live_run_demo :
  let out := @FastCheckout.run Demo.runtime (Demo.config false)
               (Demo.startWith (Demo.upToPaymentScript ++ Demo.paymentScript)%list) in
  List.map (fun e => (Demo.shape e, FastCheckout.tokenHeld e))
           (skipn 5 (FastCheckout.eventsOf out)) =
    [ (FastCheckout.NodeFetch, "POST", "https://deposit.shopifycs.com/sessions", false,
       Some "tok-0123456789");
      (FastCheckout.H2, "GET", "https://shop.example/checkouts/c1?step=payment_method",
       false, Some "tok-0123456789");
      (FastCheckout.H2, "POST", "https://shop.example/checkouts/c1", true,
       Some "fresh-0123456789") ] /\
  match FastCheckout.resultOf out with
  | Ok res =>
      (FastCheckout.r_success res, FastCheckout.r_step res, FastCheckout.r_dryRun res) =
      (true, Some "complete", Some false)
  | Throw _ => False
  end.
Proof. vm_compute. split; reflexivity. Qed.

(** Without a token on any page the live run loads the payment page, retries
    the checkout URL once and is refused at the payment step. *)
Example refused_run_demo :
  let out := @FastCheckout.run Demo.runtime (Demo.config false)
               (Demo.startWith
                  (Demo.tokenlessScript ++
                   [Demo.page "vault"; Demo.page "pay"; Demo.page "retry"])%list) in
  List.map Demo.shape (skipn 5 (FastCheckout.eventsOf out)) =
    [ (FastCheckout.NodeFetch, "POST", "https://deposit.shopifycs.com/sessions", false);
      (FastCheckout.H2, "GET", "https://shop.example/checkouts/c1?step=payment_method",
       false);
      (FastCheckout.H2, "GET", "https://shop.example/checkouts/c1", false) ] /\
  match FastCheckout.resultOf out with
  | Ok res =>
      (FastCheckout.r_success res, FastCheckout.r_step res, FastCheckout.r_error res) =
      (false, Some "payment", None)
  | Throw _ => False
  end.
Proof. vm_compute. split; reflexivity. Qed.

(** ** The protocol flag *)

Section ProtocolFacts.

Import FastCheckout.
Context `{RT : Runtime}.

(** The session has been downgraded. *)
Let downgraded (s : Session) : Prop := h2Enabled s = false.

(** The attempt went over node-fetch, the fallback transport. *)
Let fallback (e : Event) : Prop := transport e = NodeFetch.

Lemma downgraded_quiet : quiet downgraded.
Proof. intros s Hs. repeat split; auto. Qed.

Lemma requestOnce_fallback (url : string) (o : Options) (hdrs : Dict.dict string) :
  keeps_ downgraded fallback (requestOnce url o hdrs).
Proof.
  intros st Hst. unfold requestOnce. rewrite !bind_gets.
  assert (Hflag : h2Enabled (sess st) = false) by exact Hst.
  rewrite Hflag. cbv beta iota delta [andb].
  match goal with
  | |- Forall _ (eventsOf (?m st)) /\ _ =>
      assert (Hm : keeps_ downgraded fallback m); [ | exact (Hm st Hst) ]
  end.
  repeat first
    [ keeps_step
    | apply (jarGet_keeps downgraded fallback)
    | apply (jarUpdate_keeps downgraded fallback downgraded_quiet)
    | apply keeps_attempt; intros; reflexivity ].
Qed.

Lemma requestFrom_fallback (url : string) (o : Options) (hdrs : Dict.dict string)
  (retries : nat) :
  forall left attempt, keeps_ downgraded fallback (requestFrom url o hdrs retries attempt left).
Proof.
  induction left as [| left IH]; intro attempt; simpl.
  - apply keeps_ret.
  - repeat first
      [ keeps_step
      | apply IH
      | apply requestOnce_fallback
      | apply keeps_modify; intros s Hs; reflexivity
      | apply (quiet_log downgraded fallback downgraded_quiet); reflexivity ].
Qed.

(** Once the flag is cleared, a request only uses the fallback transport
    and leaves the flag cleared. *)
Lemma request_fallback (url : string) (o : Options) :
  keeps_ downgraded fallback (request url o).
Proof.
  unfold request. repeat first [ keeps_step | apply requestFrom_fallback ].
Qed.

Lemma requestsInTurn_fallback (rs : list (string * Options)) :
  forall st, h2Enabled (sess st) = false ->
    Forall (fun r => Forall (fun e => transport e = NodeFetch) (fst r) /\ snd r = false)
           (requestsInTurn rs st).
Proof.
  induction rs as [| [url o] rs IH]; intros st Hst; simpl; constructor.
  - destruct (request_fallback url o st Hst) as [Hev Hflag]. now split.
  - apply IH. now destruct (request_fallback url o st Hst) as [_ Hflag].
Qed.

End ProtocolFacts.

(** C9.  For every sequence of requests made in turn in one session: once
    a request has left the session downgraded (the protocol flag cleared),
    every later request makes all its attempts over node-fetch, the
    HTTP/1.1 fallback transport, and leaves the session downgraded. *)
Theorem downgrade_is_sticky `{RT : Runtime} (rs : list (string * FastCheckout.Options))
  (st : FastCheckout.St) (k j : nat) (evk evj : list FastCheckout.Event) (bj : bool)
  (Hkj : k < j)
  (Hk : nth_error (FastCheckout.requestsInTurn rs st) k = Some (evk, false))
  (Hj : nth_error (FastCheckout.requestsInTurn rs st) j = Some (evj, bj)) :
  Forall (fun e => FastCheckout.transport e = FastCheckout.NodeFetch) evj /\ bj = false.
Proof.
  revert st k j Hkj Hk Hj.
  induction rs as [| [url o] rs IH]; intros st k j Hkj Hk Hj.
  - destruct k; discriminate Hk.
  - destruct j as [| j]; [inversion Hkj | ]. simpl in Hj.
    destruct k as [| k].
    + simpl in Hk. injection Hk as _ Hflag.
      pose proof (requestsInTurn_fallback rs _ Hflag) as Hall.
      rewrite Forall_forall in Hall.
      exact (Hall _ (nth_error_In _ _ Hj)).
    + simpl in Hk. eapply (IH _ k j); [ | exact Hk | exact Hj ].
      now apply PeanoNat.lt_S_n.
Qed.

Lemma downgrade_is_sticky_witness :
  let rounds :=
    @FastCheckout.requestsInTurn Demo.runtime
      [ ("https://shop.example/a", FastCheckout.GET);
        ("https://shop.example/b", FastCheckout.GET) ]
      (Demo.startWith [ FastCheckout.Failed "h2 reset"; FastCheckout.Failed "refused";
                        Demo.page "a"; Demo.page "b" ]) in
  Forall (fun e => FastCheckout.transport e = FastCheckout.NodeFetch)
         (fst (nth 1 rounds ([], true))) /\
  false = false.
Proof.
  intro rounds.
  apply (@downgrade_is_sticky Demo.runtime
           [ ("https://shop.example/a", FastCheckout.GET);
             ("https://shop.example/b", FastCheckout.GET) ]
           (Demo.startWith [ FastCheckout.Failed "h2 reset"; FastCheckout.Failed "refused";
                             Demo.page "a"; Demo.page "b" ])
           0 1 (fst (nth 0 rounds ([], true))) (fst (nth 1 rounds ([], true))) false).
  - apply PeanoNat.Nat.lt_0_1.
  - vm_compute. reflexivity.
  - vm_compute. reflexivity.
Defined.

(** A downgrade: the HTTP/2 attempt and the engine's own HTTP/1.1 attempt
    both fail, the flag is cleared, and from there on node-fetch is used. *)
Example downgrade_demo :
  List.map (fun r => (List.map FastCheckout.transport (fst r), snd r))
    (@FastCheckout.requestsInTurn Demo.runtime
       [ ("https://shop.example/a", FastCheckout.GET);
         ("https://shop.example/b", FastCheckout.GET) ]
       (Demo.startWith [ FastCheckout.Failed "h2 reset"; FastCheckout.Failed "refused";
                         Demo.page "a"; Demo.page "b" ])) =
  [ ([FastCheckout.H2; FastCheckout.Undici; FastCheckout.NodeFetch], false);
    ([FastCheckout.NodeFetch], false) ].
Proof. vm_compute. reflexivity. Qed.

(** An HTTP/2 failure that the engine recovers from with its own HTTP/1.1
    attempt does not downgrade the session: the next request tries HTTP/2
    again. *)
Lemma h2_failure_retried_by_next_request :
  List.map (fun r => (List.map FastCheckout.transport (fst r), snd r))
    (@FastCheckout.requestsInTurn Demo.runtime
       [ ("https://shop.example/a", FastCheckout.GET);
         ("https://shop.example/b", FastCheckout.GET) ]
       (Demo.startWith [ FastCheckout.Failed "h2 reset"; Demo.page "a"; Demo.page "b" ])) =
  [ ([FastCheckout.H2; FastCheckout.Undici], true);
    ([FastCheckout.H2], true) ].
Proof. vm_compute. reflexivity. Qed.

(** ** The fleet *)

Section FleetFacts.

Import FastCheckout FleetRunner.
Context `{RT : Runtime}.

Variable agentOf : string -> option string.

(** [run] rejects only when the base URL cannot be computed; every
    exception of a checkout step is caught by [run] itself. *)
Lemma run_throws_only_on_url (cfg : Config) (st : St) (msg : string) :
  resultOf (run cfg st) = Throw msg ->
  getBaseUrlOf (c_storeUrl cfg) (c_productUrl cfg) = Throw msg.
Proof.
  unfold run. rewrite bind_now, !bind_modify.
  assert (Hua : unfailing (if c_mobileMode cfg then modify (set_ua MOBILE_UA)
                           else bind (random 8)
                                  (fun i => modify (set_ua (nth i UA_POOL ""))))).
  { destruct (c_mobileMode cfg); [apply unfailing_modify | ].
    intro st0. unfold bind, random. destruct (draws st0); now exists tt. }
  match goal with
  | |- resultOf (bind _ ?f ?st1) = _ -> _ =>
      unfold bind at 1; destruct (Hua st1) as [[] Hu];
      destruct ((if c_mobileMode cfg then modify (set_ua MOBILE_UA)
                 else bind (random 8) (fun i => modify (set_ua (nth i UA_POOL ""))))
                  st1) as [[r st2] e2]
  end.
  unfold resultOf in Hu. simpl in Hu. subst r. rewrite !bind_modify.
  destruct (getBaseUrlOf (c_storeUrl cfg) (c_productUrl cfg)) as [baseUrl | msg'];
    simpl lift.
  - rewrite bind_ret. unfold log. rewrite bind_modify, bind_gets, bind_modify.
    match goal with
    | |- context [tryCatch ?m ?h ?st3] =>
        assert (Hcatch : unfailing (tryCatch m h)) by surely;
        destruct (Hcatch st3) as [res Hres]; destruct (tryCatch m h st3) as [[r3 st4] e4]
    end.
    unfold resultOf in *. simpl in *. subst r3. intro E. discriminate E.
  - rewrite bind_throw. unfold resultOf. simpl. intro E. now injection E as ->.
Qed.

Lemma setResult_length (i : nat) (r : BotResult) (bots : list Bot) :
  List.length (setResult i r bots) = List.length bots.
Proof.
  revert i. induction bots as [| b rest IH]; intros [| i]; simpl; auto.
Qed.

(** [bot.result = r] changes the result of that bot and nothing else. *)
Lemma setResult_nth (i : nat) (r : BotResult) (bots : list Bot) (j : nat) (b : Bot) :
  nth_error bots j = Some b ->
  nth_error (setResult i r bots) j =
    Some (mkBot (botId b) (user b) (instance b) (if j =? i then r else result b)).
Proof.
  revert i j. induction bots as [| b0 rest IH]; intros i j Hj.
  - destruct j; discriminate Hj.
  - destruct i as [| i]; destruct j as [| j]; simpl in *.
    + now injection Hj as ->.
    + rewrite Hj. now destruct b.
    + injection Hj as ->. now destruct b.
    + now apply IH.
Qed.

Lemma runSingleBot_reads (opts : Opts) (target : Target) (envOf : nat -> TaskEnv)
  (i : nat) (b b' : Bot) :
  user b' = user b -> instance b' = instance b ->
  _runSingleBot envOf opts target i b' = _runSingleBot envOf opts target i b.
Proof. intros Hu Hi. unfold _runSingleBot, taskState. now rewrite Hu, Hi. Qed.

(** After the tasks of [order] completed, in whatever order, the bot at
    each position holds its own user and instance, and for a task of
    [order] the result of its own [_runSingleBot]. *)
Lemma runBots_nth (opts : Opts) (target : Target) (envOf : nat -> TaskEnv)
  (order : list nat) :
  forall (bots : list Bot) (j : nat) (b : Bot),
    nth_error bots j = Some b ->
    exists b',
      nth_error (runBots envOf opts target order bots) j = Some b' /\
      botId b' = botId b /\ user b' = user b /\ instance b' = instance b /\
      result b' = if List.existsb (Nat.eqb j) order
                  then _runSingleBot envOf opts target j b
                  else result b.
Proof.
  induction order as [| i later IH]; intros bots j b Hj; simpl.
  - exists b. now repeat split.
  - destruct (nth_error bots i) as [bi | ] eqn:Hi.
    + pose proof (setResult_nth i (_runSingleBot envOf opts target i bi) bots j b Hj)
        as Hset.
      destruct (IH _ j _ Hset) as (b' & Hb' & Hid & Hu & Hinst & Hres).
      exists b'. simpl in *. repeat split; try assumption.
      rewrite Hres. destruct (j =? i) eqn:Eji.
      * apply PeanoNat.Nat.eqb_eq in Eji. subst i.
        rewrite Hj in Hi. injection Hi as ->. simpl.
        destruct (List.existsb (Nat.eqb j) later); [ | reflexivity ].
        now apply runSingleBot_reads.
      * simpl. destruct (List.existsb (Nat.eqb j) later); [ | reflexivity ].
        now apply runSingleBot_reads.
    + destruct (IH _ j _ Hj) as (b' & Hb' & Hid & Hu & Hinst & Hres).
      exists b'. repeat split; try assumption. rewrite Hres.
      destruct (j =? i) eqn:Eji; [ | reflexivity ].
      apply PeanoNat.Nat.eqb_eq in Eji. subst i. rewrite Hj in Hi. discriminate Hi.
Qed.

Lemma runBots_length (opts : Opts) (target : Target) (envOf : nat -> TaskEnv)
  (order : list nat) :
  forall bots, List.length (runBots envOf opts target order bots) = List.length bots.
Proof.
  induction order as [| i later IH]; intro bots; simpl; [reflexivity | ].
  destruct (nth_error bots i); rewrite IH; [apply setResult_length | reflexivity].
Qed.

Lemma createBots_length (envOf : nat -> TaskEnv) (proxyList : list string)
  (users : list User) :
  forall i, List.length (createBots agentOf envOf proxyList users i) = List.length users.
Proof. induction users as [| u rest IH]; intro i; simpl; auto. Qed.

Lemma createBots_nth (envOf : nat -> TaskEnv) (proxyList : list string)
  (users : list User) :
  forall i k,
    nth_error (createBots agentOf envOf proxyList users i) k =
    option_map (newBot agentOf envOf proxyList (i + k)) (nth_error users k).
Proof.
  induction users as [| u rest IH]; intros i [| k]; simpl; try reflexivity.
  - now rewrite PeanoNat.Nat.add_0_r.
  - rewrite IH. now rewrite PeanoNat.Nat.add_succ_comm.
Qed.

(** The tally counts the successes and the others. *)
Lemma tally_counts (bots : list Bot) :
  tally bots =
    (List.length (List.filter (fun b => resultSuccess (result b)) bots),
     List.length (List.filter (fun b => negb (resultSuccess (result b))) bots)).
Proof.
  unfold tally.
  assert (H : forall a f,
            fold_left (fun (acc : nat * nat) b =>
                         if resultSuccess (result b) then (S (fst acc), snd acc)
                         else (fst acc, S (snd acc))) bots (a, f) =
            (a + List.length (List.filter (fun b => resultSuccess (result b)) bots),
             f + List.length (List.filter (fun b => negb (resultSuccess (result b))) bots))).
  { induction bots as [| b rest IH]; intros a f; simpl.
    - now rewrite !PeanoNat.Nat.add_0_r.
    - destruct (resultSuccess (result b)); simpl; rewrite IH; simpl;
        now rewrite ?PeanoNat.Nat.add_succ_r. }
  exact (H 0 0).
Qed.



Lemma settled_nth (envOf : nat -> TaskEnv) (opts : Opts) (target : Target)
  (users : list User) :
  forall i k,
    nth_error (settled agentOf envOf opts target users i) k =
    option_map (settledBot agentOf envOf opts target (i + k)) (nth_error users k).
Proof.
  induction users as [| u rest IH]; intros i [| k]; simpl; try reflexivity.
  - now rewrite PeanoNat.Nat.add_0_r.
  - rewrite IH. now rewrite PeanoNat.Nat.add_succ_comm.
Qed.


(** Whatever the order in which the tasks complete, [this.bots] ends up
    holding, for each task, the result of its own [_runSingleBot]. *)
Lemma runBots_settled (envOf : nat -> TaskEnv) (opts : Opts) (target : Target)
  (order : list nat) (users : list User) :
  (forall k, k < List.length users -> In k order) ->
  runBots envOf opts target order (createBots agentOf envOf (o_proxyList opts) users 0) =
  settled agentOf envOf opts target users 0.
Proof.
  intro Hcover. apply nth_error_ext. intro k.
  rewrite settled_nth. simpl.
  destruct (nth_error users k) as [u | ] eqn:Hu; simpl.
  - assert (Hb : nth_error (createBots agentOf envOf (o_proxyList opts) users 0) k =
                 Some (newBot agentOf envOf (o_proxyList opts) k u)).
    { rewrite createBots_nth. simpl. now rewrite Hu. }
    destruct (runBots_nth opts target envOf order _ k _ Hb)
      as (b' & Hb' & Hid & Huser & Hinst & Hres).
    rewrite Hb'. f_equal.
    assert (Hin : List.existsb (Nat.eqb k) order = true).
    { apply existsb_exists. exists k. split; [ | apply PeanoNat.Nat.eqb_refl ].
      apply Hcover. apply nth_error_Some. now rewrite Hu. }
    rewrite Hin in Hres. unfold settledBot, taskResult.
    destruct b' as [id' u' inst' r']. simpl in *. now subst.
  - apply nth_error_None. rewrite runBots_length, createBots_length.
    now apply nth_error_None.
Qed.

(** What an accepted launch returns. *)
Lemma launchIn_accepted (envOf : nat -> TaskEnv) (order : list nat) (opts : Opts)
  (users : list User) (target : Target) (began ended : Z) :
  accepted opts users target ->
  (forall k, k < List.length users -> In k order) ->
  let bots := settled agentOf envOf opts target users 0 in
  launchIn agentOf envOf order opts began ended =
    Ok {| f_success := 0 <? List.length (List.filter (fun b => resultSuccess (result b)) bots);
          successCount := List.length (List.filter (fun b => resultSuccess (result b)) bots);
          failCount :=
            List.length (List.filter (fun b => negb (resultSuccess (result b))) bots);
          total := List.length users;
          f_elapsed := Fmt.quotientFixed 1 (ended - began) 1000;
          f_dryRun := FleetRunner.dryRunOf opts;
          summaries := List.map summarize bots |}.
Proof.
  intros (Husers & Hsome & Hcap & Htarget & Hurl) Hcover bots.
  unfold launchIn. rewrite Husers, Htarget.
  destruct users as [| u0 rest]; [now elim Hsome | ].
  assert (Hle : (50 <? List.length (u0 :: rest)) = false)
    by now apply PeanoNat.Nat.ltb_ge.
  rewrite Hle.
  assert (Hneg : negb (Str.otruthy (t_storeUrl target)) &&
                 negb (Str.otruthy (t_productUrl target)) = false).
  { destruct (Str.otruthy (t_storeUrl target)), (Str.otruthy (t_productUrl target));
      try reflexivity; discriminate Hurl. }
  rewrite Hneg. rewrite (runBots_settled envOf opts target order (u0 :: rest) Hcover).
  fold bots. now rewrite tally_counts.
Qed.

Lemma seq_covers (n k : nat) : k < n -> In k (seq 0 n).
Proof. intro H. apply in_seq. lia. Qed.

Lemma launch_accepted (envOf : nat -> TaskEnv) (opts : Opts) (users : list User)
  (target : Target) (began ended : Z) :
  accepted opts users target ->
  launch agentOf envOf opts began ended =
  launchIn agentOf envOf (seq 0 (List.length users)) opts began ended.
Proof. intros (Husers & _). unfold launch. now rewrite Husers. Qed.

(** A task's bot depends on the environment of that task only. *)
Lemma settledBot_own (envOf envOf' : nat -> TaskEnv) (opts : Opts) (target : Target)
  (k : nat) (u : User) :
  envOf k = envOf' k ->
  settledBot agentOf envOf opts target k u = settledBot agentOf envOf' opts target k u.
Proof.
  intro He. unfold settledBot, taskResult, _runSingleBot, taskState, newBot.
  now rewrite He.
Qed.

End FleetFacts.


Lemma demo_accepted (users : list FleetRunner.User) :
  users <> [] -> List.length users <= 50 ->
  FleetRunner.accepted (Demo.opts users) users
    (FleetRunner.mkTarget (Some "https://shop.example") None None (Some "42")).
Proof. intros Hsome Hcap. now repeat split. Qed.


(** A fleet of 5 against the reference store, which answers the task of
    index 2 only. *)
Example fleet_of_five_demo :
  match @FleetRunner.launch Demo.runtime Demo.noAgent (Demo.onlyTask 2)
          (Demo.opts (List.map Demo.user [1; 2; 3; 4; 5])) 0 500 with
  | Ok res =>
      (FleetRunner.f_success res, FleetRunner.successCount res, FleetRunner.failCount res,
       FleetRunner.total res, List.map Demo.outcome (FleetRunner.summaries res)) =
      (true, 1, 4, 5,
       [ ("bot-1", "u1", false, "connect ECONNREFUSED", "");
         ("bot-2", "u2", false, "connect ECONNREFUSED", "");
         ("bot-3", "u3", true, "", "complete");
         ("bot-4", "u4", false, "connect ECONNREFUSED", "");
         ("bot-5", "u5", false, "connect ECONNREFUSED", "") ])
  | Throw _ => False
  end.
Proof. vm_compute. reflexivity. Qed.

(** C3.  In an accepted launch, for the task of every user: when building
    its configuration throws, or [run] rejects, the summary of the task is
    [success: false] with the message as [error] and step [fatal]; [run]
    rejects only when the base URL cannot be computed, since it catches the
    exceptions of its checkout steps itself, and when [run] returns, the
    summary carries the success flag, error and step of that result; the
    summary is the same whatever the other tasks are and meet, and
    whatever the order in which the tasks complete, and the launch returns
    its result. *)
Theorem fleet_task_isolation `{RT : Runtime} (agentOf : string -> option string)
  (envOf : nat -> FleetRunner.TaskEnv) (opts : FleetRunner.Opts)
  (users : list FleetRunner.User) (target : FleetRunner.Target) (began ended : Z)
  (k : nat) (u : FleetRunner.User)
  (Hacc : FleetRunner.accepted opts users target)
  (Hu : nth_error users k = Some u) :
  let bot := FleetRunner.newBot agentOf envOf (FleetRunner.o_proxyList opts) k u in
  exists res s,
    FleetRunner.launch agentOf envOf opts began ended = Ok res /\
    nth_error (FleetRunner.summaries res) k = Some s /\
    (FleetRunner.stopped (envOf k) = false ->
     forall msg,
       FleetRunner.configFor opts target u k = Throw msg \/
       (exists cfg, FleetRunner.configFor opts target u k = Ok cfg /\
                    FastCheckout.resultOf
                      (FastCheckout.run cfg (FleetRunner.taskState envOf k bot)) =
                    Throw msg) ->
       (FleetRunner.s_success s, FleetRunner.s_error s, FleetRunner.s_step s) =
       (false, msg, "fatal")) /\
    (FleetRunner.stopped (envOf k) = false ->
     forall cfg r,
       FleetRunner.configFor opts target u k = Ok cfg ->
       FastCheckout.resultOf (FastCheckout.run cfg (FleetRunner.taskState envOf k bot)) =
       Ok r ->
       (FleetRunner.s_success s, FleetRunner.s_error s, FleetRunner.s_step s) =
       (FastCheckout.r_success r, Str.orElse (FastCheckout.r_error r) "",
        Str.orElse (FastCheckout.r_step r) "")) /\
    (forall cfg st msg,
       FastCheckout.resultOf (FastCheckout.run cfg st) = Throw msg ->
       FastCheckout.getBaseUrlOf (FastCheckout.c_storeUrl cfg)
                                 (FastCheckout.c_productUrl cfg) = Throw msg) /\
    (forall envOf' users',
       envOf' k = envOf k -> nth_error users' k = Some u ->
       List.length users' <= 50 ->
       exists res',
         FleetRunner.launch agentOf envOf' (FleetRunner.withUsers users' opts) began ended =
         Ok res' /\
         nth_error (FleetRunner.summaries res') k = Some s) /\
    (forall order,
       (forall i, i < List.length users -> In i order) ->
       FleetRunner.launchIn agentOf envOf order opts began ended = Ok res).
Proof.
  intro bot. eexists. exists (FleetRunner.summarize
                               (FleetRunner.settledBot agentOf envOf opts target k u)).
  split.
  { rewrite (launch_accepted agentOf envOf opts users target began ended Hacc).
    apply (launchIn_accepted agentOf envOf _ opts users target began ended Hacc).
    intros i Hi. now apply seq_covers. }
  cbn [FleetRunner.summaries].
  split; [ now rewrite nth_error_map, settled_nth, Hu | ].
  split; [ | split; [ | split; [ | split ] ] ].
  - intros Hrun msg Hthrow.
    unfold FleetRunner.summarize, FleetRunner.settledBot, FleetRunner.taskResult,
      FleetRunner._runSingleBot.
    cbn [FleetRunner.result FleetRunner.user]. rewrite Hrun.
    destruct Hthrow as [Hcfg | (cfg & Hcfg & Hres)].
    + cbn [FleetRunner.user FleetRunner.newBot]. now rewrite Hcfg.
    + cbn [FleetRunner.user FleetRunner.newBot]. rewrite Hcfg.
      fold bot. now rewrite Hres.
  - intros Hrun cfg r Hcfg Hres.
    unfold FleetRunner.summarize, FleetRunner.settledBot, FleetRunner.taskResult,
      FleetRunner._runSingleBot.
    cbn [FleetRunner.result FleetRunner.user]. rewrite Hrun.
    cbn [FleetRunner.user FleetRunner.newBot]. rewrite Hcfg.
    fold bot. now rewrite Hres.
  - intros cfg st msg. apply run_throws_only_on_url.
  - intros envOf' users' Henv Hu' Hcap'.
    assert (Hacc' : FleetRunner.accepted (FleetRunner.withUsers users' opts) users' target).
    { destruct Hacc as (_ & _ & _ & Htarget & Hurl). repeat split; try assumption.
      intro E. rewrite E in Hu'. destruct k; discriminate Hu'. }
    eexists. split.
    + rewrite (launch_accepted agentOf envOf' _ users' target began ended Hacc').
      apply (launchIn_accepted agentOf envOf' _ _ users' target began ended Hacc').
      intros i Hi. now apply seq_covers.
    + cbn [FleetRunner.summaries]. rewrite nth_error_map, settled_nth, Hu'.
      cbn [option_map Nat.add]. f_equal. f_equal.
      change (FleetRunner.settledBot agentOf envOf'
                (FleetRunner.withUsers users' opts) target k u)
        with (FleetRunner.settledBot agentOf envOf' opts target k u).
      apply settledBot_own. exact Henv.
  - intros order Hcover.
    apply (launchIn_accepted agentOf envOf order opts users target began ended Hacc Hcover).
Qed.

Lemma fleet_task_isolation_witness :
  exists res s,
    @FleetRunner.launch Demo.runtime Demo.noAgent (Demo.onlyTask 0)
      (Demo.opts (List.map Demo.user [1; 9; 3])) 0 500 = Ok res /\
    nth_error (FleetRunner.summaries res) 1 = Some s /\
    (FleetRunner.s_success s, FleetRunner.s_error s, FleetRunner.s_step s) =
    (false, "profile unreadable", "fatal").
Proof.
  destruct (@fleet_task_isolation Demo.runtime Demo.noAgent (Demo.onlyTask 0)
              (Demo.opts (List.map Demo.user [1; 9; 3]))
              (List.map Demo.user [1; 9; 3])
              (FleetRunner.mkTarget (Some "https://shop.example") None None (Some "42"))
              0 500 1 (Demo.user 9))
    as (res & s & Hres & Hs & Hfatal & _).
  - apply demo_accepted; [discriminate | simpl; lia].
  - reflexivity.
  - exists res, s. split; [exact Hres | ]. split; [exact Hs | ].
    apply Hfatal; [reflexivity | ]. left. reflexivity.
Defined.

(** An exception thrown by a checkout step (here every connection is
    refused, so the direct checkout link throws) is caught by [run] and
    recorded with its message and no step, not as [fatal]; a sibling whose
    configuration cannot be built is recorded as [fatal], and the task the
    store answers succeeds. *)
Lemma step_exception_is_not_fatal :
  match @FleetRunner.launch Demo.runtime Demo.noAgent (Demo.onlyTask 0)
          (Demo.opts (List.map Demo.user [1; 9; 3])) 0 500 with
  | Ok res =>
      List.map Demo.outcome (FleetRunner.summaries res) =
      [ ("bot-1", "u1", true, "", "complete");
        ("bot-2", "u9", false, "profile unreadable", "fatal");
        ("bot-3", "u3", false, "connect ECONNREFUSED", "") ]
  | Throw _ => False
  end.
Proof. vm_compute. reflexivity. Qed.

(** ** Further properties of the cookie jar *)

Section CookieFrame.

Import CookieJar.

Lemma cookiesFor_assign_unrelated (domain d : string) (jar : Dict.dict string) (s : store) :
  serves domain d = false ->
  cookiesFor domain (Dict.assign d jar s) = cookiesFor domain s.
Proof.
  intros Hs. unfold cookiesFor.
  induction s as [|[k v] s IH]; simpl.
  - now rewrite Hs.
  - destruct (String.eqb k d) eqn:E; simpl.
    + apply String.eqb_eq in E. subst k. now rewrite Hs.
    + now rewrite IH.
Qed.

(** A new entry that contributes no cookie to [domain] leaves the cookies
    for [domain] as they are, wherever the entry is listed. *)
Lemma cookiesFor_define_silent (domain d : string) (jar : Dict.dict string) (s : store) :
  Dict.lookup d s = None ->
  (if serves domain d then List.map render jar else []) = [] ->
  cookiesFor domain (Obj.define d jar s) = cookiesFor domain s.
Proof.
  intros Hnew Hsilent. unfold Obj.define. rewrite Hnew. unfold cookiesFor.
  destruct (Obj.arrayIndex d) as [i|].
  - clear Hnew. induction s as [|[k v] s IH]; simpl.
    + now rewrite Hsilent.
    + destruct (Obj.arrayIndex k) as [j'|]; [destruct (j' <? i)%N|]; simpl;
        rewrite ?Hsilent, ?IH; reflexivity.
  - rewrite flat_map_app. simpl. now rewrite Hsilent, !app_nil_r.
Qed.

Lemma updateDomain_unrelated (domain d : string) (arr : list string) (s : store) :
  serves domain d = false ->
  cookiesFor domain (updateDomain d arr s) = cookiesFor domain s.
Proof.
  intros Hs. unfold updateDomain.
  destruct (Dict.lookup d s) as [jar|] eqn:E.
  - now apply cookiesFor_assign_unrelated.
  - destruct (Obj.inherited d); [reflexivity|].
    apply cookiesFor_define_silent; [exact E | now rewrite Hs].
Qed.

(** X1.  An update of the jar for a URL whose host does not name an
    inherited property changes nothing of what [get] returns for a URL
    whose host is neither the updated host nor suffix-related to it. *)
Theorem cookie_update_leaves_other_domains
  (parseUrl : string -> option Url) (url url' : string) (u u' : Url)
  (h : SetCookie) (s s' : store) :
  parseUrl url = Some u ->
  parseUrl url' = Some u' ->
  Obj.inherited (hostname u) = false ->
  serves (hostname u') (hostname u) = false ->
  update parseUrl url h s = Ok s' ->
  get parseUrl url' s' = get parseUrl url' s.
Proof.
  intros Hu Hu' _ Hs Hup. unfold get. rewrite Hu'. f_equal. f_equal.
  unfold update in Hup. rewrite Hu in Hup.
  destruct h as [| raw | raws].
  - now injection Hup as <-.
  - destruct (Str.truthy raw); injection Hup as <-; [now apply updateDomain_unrelated | reflexivity].
  - injection Hup as <-. now apply updateDomain_unrelated.
Qed.

Lemma cookie_update_leaves_other_domains_witness :
  get SimpleUrl.parse "https://other.test/"
      (updateDomain "shop.example" ["sid=abc; Path=/"] [("other.test", [("k", "v")])])
  = get SimpleUrl.parse "https://other.test/" [("other.test", [("k", "v")])].
Proof.
  apply (cookie_update_leaves_other_domains SimpleUrl.parse
           "https://shop.example/cart" "https://other.test/"
           (mkUrl "https:" "shop.example" "" "/cart" "" "https://shop.example/cart")
           (mkUrl "https:" "other.test" "" "/" "" "https://other.test/")
           (Headers ["sid=abc; Path=/"])); reflexivity.
Defined.

Lemma assign_same_value {V : Type} (k : string) (v : V) (m : Dict.dict V) :
  Dict.lookup k m = Some v -> Dict.assign k v m = m.
Proof.
  induction m as [|[k' v'] m IH]; simpl; [discriminate|].
  destruct (String.eqb k' k) eqn:E.
  - now intros [= ->].
  - intros H. now rewrite IH.
Qed.

Lemma storeCookie_fold_malformed (raws : list string) (jar : Dict.dict string) :
  Forall (fun raw => parseCookie raw = None) raws ->
  fold_left storeCookie raws jar = jar.
Proof.
  induction 1 as [|raw raws Hraw _ IH]; simpl; [reflexivity|].
  unfold storeCookie at 2. now rewrite Hraw.
Qed.

(** X2.  Set-cookie headers without a name (no [=], or [=] in first
    place) are skipped: an update made of such headers only leaves [get]
    unchanged for every URL. *)
Theorem cookie_malformed_headers_ignored
  (parseUrl : string -> option Url) (url url' : string) (raws : list string)
  (s s' : store) :
  Forall (fun raw => parseCookie raw = None) raws ->
  update parseUrl url (Headers raws) s = Ok s' ->
  get parseUrl url' s' = get parseUrl url' s.
Proof.
  intros Hraws Hup. unfold get.
  destruct (parseUrl url') as [u'|]; [|reflexivity]. f_equal. f_equal.
  unfold update in Hup. destruct (parseUrl url) as [u|]; [|discriminate].
  injection Hup as <-. unfold updateDomain.
  destruct (Dict.lookup (hostname u) s) as [jar|] eqn:E.
  - rewrite (storeCookie_fold_malformed raws jar Hraws).
    now rewrite (assign_same_value _ _ _ E).
  - destruct (Obj.inherited (hostname u)); [reflexivity|].
    rewrite (storeCookie_fold_malformed raws [] Hraws).
    apply cookiesFor_define_silent; [exact E | now destruct (serves _ _)].
Qed.

Lemma cookie_malformed_headers_ignored_witness :
  get SimpleUrl.parse "https://shop.example/"
      (updateDomain "shop.example" ["flag; Path=/"; "=x"; ""] [("shop.example", [("k", "v")])])
  = get SimpleUrl.parse "https://shop.example/" [("shop.example", [("k", "v")])].
Proof.
  apply (cookie_malformed_headers_ignored SimpleUrl.parse
           "https://shop.example/cart" "https://shop.example/"
           ["flag; Path=/"; "=x"; ""]).
  - repeat constructor.
  - reflexivity.
Defined.

Lemma indexOf_app_first (c : ascii) (a b : string) :
  Str.indexOf c a = None ->
  Str.indexOf c (a ++ String c b) = Some (String.length a).
Proof.
  induction a as [|x a IH]; simpl.
  - now rewrite Ascii.eqb_refl.
  - destruct (Ascii.eqb x c); [discriminate|].
    destruct (Str.indexOf c a); [discriminate|]. intros _. now rewrite IH.
Qed.

Lemma indexOf_app_none (c : ascii) (a b : string) :
  Str.indexOf c a = None -> Str.indexOf c b = None -> Str.indexOf c (a ++ b) = None.
Proof.
  induction a as [|x a IH]; simpl; [auto|].
  destruct (Ascii.eqb x c); [discriminate|].
  destruct (Str.indexOf c a); [discriminate|]. intros _ Hb. now rewrite IH.
Qed.

Lemma before_app_first (c : ascii) (a b : string) :
  Str.indexOf c a = None -> Str.before c (a ++ String c b) = a.
Proof.
  induction a as [|x a IH]; simpl.
  - now rewrite Ascii.eqb_refl.
  - destruct (Ascii.eqb x c); [discriminate|].
    destruct (Str.indexOf c a); [discriminate|]. intros _. now rewrite IH.
Qed.

Lemma before_none (c : ascii) (a : string) :
  Str.indexOf c a = None -> Str.before c a = a.
Proof.
  induction a as [|x a IH]; simpl; [reflexivity|].
  destruct (Ascii.eqb x c); [discriminate|].
  destruct (Str.indexOf c a); [discriminate|]. intros _. now rewrite IH.
Qed.

Lemma take_app_length (a b : string) : Str.take (String.length a) (a ++ b) = a.
Proof. induction a as [|x a IH]; simpl; [now destruct b | now rewrite IH]. Qed.

Lemma drop_app_length (a b : string) : Str.drop (String.length a) (a ++ b) = b.
Proof. induction a as [|x a IH]; simpl; [reflexivity | exact IH]. Qed.

Lemma drop_app_succ (c : ascii) (a b : string) :
  Str.drop (S (String.length a)) (a ++ String c b) = b.
Proof. induction a as [|x a IH]; simpl; [reflexivity | exact IH]. Qed.

(** A header [name=value], alone or followed by [;] and attributes, parses
    to its name and value. *)
Lemma parseCookie_render (n v attrs : string) :
  Str.truthy n = true -> Str.trim n = n ->
  Str.indexOf "=" n = None -> Str.indexOf ";" n = None -> Str.indexOf ";" v = None ->
  parseCookie (render (n, v)) = Some (n, v) /\
  parseCookie (render (n, v) ++ ";" ++ attrs) = Some (n, v).
Proof.
  intros Hn Htrim Heq Hsemi Hv.
  assert (Hnv : Str.indexOf ";" (n ++ "=" ++ v) = None).
  { apply indexOf_app_none; [exact Hsemi|]. simpl. now rewrite Hv. }
  assert (Hparse : forall raw, Str.before ";" raw = n ++ "=" ++ v ->
                               parseCookie raw = Some (n, v)).
  { intros raw Hraw. unfold parseCookie. rewrite Hraw.
    change (n ++ "=" ++ v) with (n ++ String "=" v).
    rewrite (indexOf_app_first "=" n v Heq).
    destruct n as [|x n]; [discriminate|].
    change (String.length (String x n)) with (S (String.length n)). cbv iota.
    change (S (String.length n)) with (String.length (String x n)).
    now rewrite take_app_length, Htrim, drop_app_succ. }
  unfold render. cbn [fst snd]. split; apply Hparse.
  - now apply before_none.
  - change (";" ++ attrs) with (String ";" attrs).
    now apply before_app_first.
Qed.

Lemma define_fresh {V : Type} (k : string) (v : V) : Obj.define k v [] = [(k, v)].
Proof. unfold Obj.define. simpl. now destruct (Obj.arrayIndex k). Qed.

(** X3.  On an empty jar, [update(url, header)] with the header
    [name=value], alone or followed by [;] and attributes, and then
    [get(url)] give back exactly [name=value]: for a host that does not
    name an inherited property, an ASCII name that is non-empty, without
    white space around it, without [=] or [;] and other than [__proto__],
    and a value without [;]. *)
Theorem cookie_render_parse_roundtrip
  (parseUrl : string -> option Url) (url : string) (u : Url) (n v attrs : string) :
  parseUrl url = Some u ->
  Obj.inherited (hostname u) = false ->
  Str.isAscii n = true -> Str.truthy n = true -> Str.trim n = n ->
  Str.indexOf "=" n = None -> Str.indexOf ";" n = None -> n <> "__proto__" ->
  Str.indexOf ";" v = None ->
  forall raw, raw = render (n, v) \/ raw = render (n, v) ++ ";" ++ attrs ->
  exists s',
    update parseUrl url (OneHeader raw) empty = Ok s' /\
    update parseUrl url (Headers [raw]) empty = Ok s' /\
    get parseUrl url s' = Ok (n ++ "=" ++ v).
Proof.
  intros Hu Hhost _ Hn Htrim Heq Hsemi Hproto Hv raw Hraw.
  destruct (parseCookie_render n v attrs Hn Htrim Heq Hsemi Hv) as [P1 P2].
  assert (Hparse : parseCookie raw = Some (n, v)) by (destruct Hraw as [-> | ->]; assumption).
  assert (Htruthy : Str.truthy raw = true).
  { destruct Hraw as [-> | ->]; unfold render; cbn [fst snd];
      repeat apply truthy_append_l; exact Hn. }
  assert (Hstore : updateDomain (hostname u) [raw] empty = [(hostname u, [(n, v)])]).
  { unfold updateDomain, empty. cbn [Dict.lookup]. rewrite Hhost. cbn [fold_left].
    unfold storeCookie. rewrite Hparse. unfold Obj.set.
    destruct (String.eqb n "__proto__") eqn:E; [apply String.eqb_eq in E; contradiction|].
    now rewrite !define_fresh. }
  exists [(hostname u, [(n, v)])]. unfold update, get. rewrite Hu, Htruthy, Hstore.
  repeat split. unfold cookiesFor, serves. simpl. rewrite String.eqb_refl. simpl.
  reflexivity.
Qed.

Lemma cookie_render_parse_roundtrip_witness :
  exists s',
    update SimpleUrl.parse "https://shop.example/cart"
           (OneHeader "sid=a=b c; Path=/; HttpOnly") empty = Ok s' /\
    update SimpleUrl.parse "https://shop.example/cart"
           (Headers ["sid=a=b c; Path=/; HttpOnly"]) empty = Ok s' /\
    get SimpleUrl.parse "https://shop.example/cart" s' = Ok "sid=a=b c".
Proof.
  apply (cookie_render_parse_roundtrip SimpleUrl.parse "https://shop.example/cart"
           (mkUrl "https:" "shop.example" "" "/cart" "" "https://shop.example/cart")
           "sid" "a=b c" " Path=/; HttpOnly"); try reflexivity; try discriminate.
  right. reflexivity.
Defined.

End CookieFrame.

(** ** Further properties of the proxy pool *)

Section MoreProxyFacts.

Import SmartProxyManager.

Lemma createFrom_urls (l : list string) :
  forall i, List.map url (createFrom i l) =
            List.map (fun p => if Str.includes "://" p then p else "http://" ++ p) l.
Proof. induction l as [|p l IH]; intros i; simpl; [reflexivity | now rewrite IH]. Qed.

(** X4.  Whatever calls are made on it, the pool keeps the identities it
    was built from, in order: every entry of the list, with [http://] put
    in front of an entry without a scheme.  No call adds, removes or
    renames one. *)
Theorem proxy_pool_identities_fixed (proxyList : list string) (cs : list Call) :
  List.map url (run cs (create proxyList)) =
  List.map (fun p => if Str.includes "://" p then p else "http://" ++ p) proxyList.
Proof. unfold create. now rewrite run_urls, createFrom_urls. Qed.

Lemma reportBan_absent (u : string) (now : Z) (s : pool) :
  ~ In u (List.map url s) -> reportBan u now s = s.
Proof.
  induction s as [|p s IH]; simpl; [reflexivity|]. intros H.
  destruct (String.eqb (url p) u) eqn:E.
  - apply String.eqb_eq in E. destruct H. now left.
  - rewrite IH; [reflexivity|]. intros Hin. apply H. now right.
Qed.

Lemma reportSuccess_absent (u : string) (ms : Q) (s : pool) :
  ~ In u (List.map url s) -> reportSuccess u ms s = s.
Proof.
  induction s as [|p s IH]; simpl; [reflexivity|]. intros H.
  destruct (String.eqb (url p) u) eqn:E.
  - apply String.eqb_eq in E. destruct H. now left.
  - rewrite IH; [reflexivity|]. intros Hin. apply H. now right.
Qed.

(** X5.  A ban or a latency reported under an entry as listed, without
    a scheme, matches no identity and leaves the pool as it is: the pool
    holds that entry as [http://entry]. *)
Theorem proxy_report_bare_entry_ignored (proxyList : list string) (cs : list Call)
  (raw : string) (now : Z) (ms : Q) :
  Str.includes "://" raw = false ->
  reportBan raw now (run cs (create proxyList)) = run cs (create proxyList) /\
  reportSuccess raw ms (run cs (create proxyList)) = run cs (create proxyList).
Proof.
  intros Hraw.
  assert (Habs : ~ In raw (List.map url (run cs (create proxyList)))).
  { unfold create. rewrite run_urls, createFrom_urls. intros Hin. apply in_map_iff in Hin.
    destruct Hin as (p & Hp & _).
    destruct (Str.includes "://" p) eqn:E.
    - subst p. now rewrite E in Hraw.
    - subst raw. simpl in Hraw. destruct p; discriminate Hraw. }
  split; [now apply reportBan_absent | now apply reportSuccess_absent].
Qed.

Lemma proxy_report_bare_entry_ignored_witness :
  reportBan "10.0.0.1:8080" 5000 (run [GetNext 100000] (create ["10.0.0.1:8080"]))
  = run [GetNext 100000] (create ["10.0.0.1:8080"]) /\
  reportSuccess "10.0.0.1:8080" 120 (run [GetNext 100000] (create ["10.0.0.1:8080"]))
  = run [GetNext 100000] (create ["10.0.0.1:8080"]).
Proof. apply proxy_report_bare_entry_ignored. reflexivity. Defined.

(** X6.  [getNext] returns [null] only on an empty pool; on any other
    pool it returns an identity of the pool, at the position it reports. *)
Theorem proxy_getNext_returns_pool_member (now : Z) (s : pool) :
  match fst (getNext now s) with
  | None => s = []
  | Some (i, p) => exists q, nth_error s i = Some q /\ url p = url q
  end.
Proof.
  destruct s as [|p0 rest]; [reflexivity|].
  destruct (candidates now (p0 :: rest)) as [|c cs] eqn:Ec.
  - rewrite (getNext_reset now p0 rest Ec). simpl. now exists p0.
  - destruct (getNext_pick now (p0 :: rest)) as (j & p & E & Hin & _); [now rewrite Ec|].
    rewrite E. cbn [fst]. apply candidates_In in Hin. destruct Hin as [Hn _].
    now exists p.
Qed.

End MoreProxyFacts.

(** ** What address jigging keeps *)

Section JigIdentity.

Import AddressJigger.

Ltac by_character c := destruct c as [[] [] [] [] [] [] [] []]; reflexivity.

Lemma upperChar_idem (c : ascii) : Str.upperChar (Str.upperChar c) = Str.upperChar c.
Proof. by_character c. Qed.

Lemma upperChar_lowerChar (c : ascii) : Str.upperChar (Str.lowerChar c) = Str.upperChar c.
Proof. by_character c. Qed.

Lemma notSpace_upperChar (c : ascii) : notSpace (Str.upperChar c) = notSpace c.
Proof. by_character c. Qed.

Lemma notSpace_lowerChar (c : ascii) : notSpace (Str.lowerChar c) = notSpace c.
Proof. by_character c. Qed.

Lemma upper_idem (s : string) : Str.toUpperCase (Str.toUpperCase s) = Str.toUpperCase s.
Proof.
  unfold Str.toUpperCase.
  induction s as [|c s IH]; cbn [Str.map]; [reflexivity | now rewrite upperChar_idem, IH].
Qed.

Lemma upper_lower (s : string) : Str.toUpperCase (Str.toLowerCase s) = Str.toUpperCase s.
Proof.
  unfold Str.toUpperCase, Str.toLowerCase.
  induction s as [|c s IH]; cbn [Str.map]; [reflexivity | now rewrite upperChar_lowerChar, IH].
Qed.

Lemma filter_upper (s : string) :
  Str.filter notSpace (Str.toUpperCase s) = Str.toUpperCase (Str.filter notSpace s).
Proof.
  unfold Str.toUpperCase.
  induction s as [|c s IH]; cbn [Str.map Str.filter]; [reflexivity|].
  rewrite notSpace_upperChar. destruct (notSpace c); cbn [Str.map]; now rewrite IH.
Qed.

Lemma filter_lower (s : string) :
  Str.filter notSpace (Str.toLowerCase s) = Str.toLowerCase (Str.filter notSpace s).
Proof.
  unfold Str.toLowerCase.
  induction s as [|c s IH]; cbn [Str.map Str.filter]; [reflexivity|].
  rewrite notSpace_lowerChar. destruct (notSpace c); cbn [Str.map]; now rewrite IH.
Qed.

Lemma filter_idem (p : ascii -> bool) (s : string) :
  Str.filter p (Str.filter p s) = Str.filter p s.
Proof.
  induction s as [|c s IH]; simpl; [reflexivity|].
  destruct (p c) eqn:E; simpl; [now rewrite E, IH | exact IH].
Qed.

Lemma filter_append (p : ascii -> bool) (a b : string) :
  Str.filter p (a ++ b) = Str.filter p a ++ Str.filter p b.
Proof.
  induction a as [|c a IH]; simpl; [reflexivity|].
  destruct (p c); simpl; now rewrite IH.
Qed.

Lemma take_drop (n : nat) (s : string) : Str.take n s ++ Str.drop n s = s.
Proof.
  revert s. induction n as [|n IH]; intros [|c s]; simpl; try reflexivity.
  now rewrite IH.
Qed.

Lemma postcodeKey_jig (zip : string) (seed : nat) :
  postcodeKey (_jigPostcode zip seed) = postcodeKey zip.
Proof.
  unfold _jigPostcode. destruct (negb (Str.truthy zip)); [reflexivity|]. cbv zeta.
  assert (Hclean : postcodeKey (Str.toUpperCase (Str.filter notSpace zip)) = postcodeKey zip).
  { unfold postcodeKey. now rewrite filter_upper, filter_idem, upper_idem. }
  apply (pick_Forall (fun v => postcodeKey v = postcodeKey zip)); [discriminate|].
  repeat (apply Forall_cons || apply Forall_nil).
  - reflexivity.
  - exact Hclean.
  - destruct (3 <? _); [|exact Hclean].
    rewrite <- Hclean. unfold postcodeKey at 1 2, dropLastN, lastN.
    rewrite !filter_append. simpl (Str.filter notSpace " ").
    change ("" ++ ?x) with x.
    rewrite <- filter_append, take_drop. reflexivity.
  - unfold postcodeKey. now rewrite filter_lower, upper_lower.
  - rewrite <- Hclean. unfold postcodeKey. now rewrite filter_lower, upper_lower.
Qed.

Lemma upper_append (a b : string) :
  Str.toUpperCase (a ++ b) = Str.toUpperCase a ++ Str.toUpperCase b.
Proof.
  unfold Str.toUpperCase.
  induction a as [|c a IH]; cbn [Str.map append]; [reflexivity | now rewrite IH].
Qed.

Lemma upper_normalized (name : string) : Str.toUpperCase (normalized name) = Str.toUpperCase name.
Proof.
  unfold normalized, initialUpper, Str.charAt0.
  rewrite upper_append, upper_idem, upper_lower, <- upper_append.
  now rewrite (take_drop 1 name).
Qed.

Lemma upper_caseVariants (name : string) (seed : nat) :
  Str.toUpperCase
    (pick seed [ name; Str.toUpperCase name; Str.toLowerCase name; normalized name ])
  = Str.toUpperCase name.
Proof.
  apply (pick_Forall (fun v => Str.toUpperCase v = Str.toUpperCase name)); [discriminate|].
  repeat (apply Forall_cons || apply Forall_nil);
    [reflexivity | apply upper_idem | apply upper_lower | apply upper_normalized].
Qed.

Lemma upper_jigLastName (name : string) (seed : nat) :
  Str.toUpperCase (_jigLastName name seed) = Str.toUpperCase name.
Proof.
  unfold _jigLastName. destruct (negb (Str.truthy name)); [reflexivity|].
  apply upper_caseVariants.
Qed.

Lemma upper_jigCity (name : string) (seed : nat) :
  Str.toUpperCase (_jigCity name seed) = Str.toUpperCase name.
Proof.
  unfold _jigCity. destruct (negb (Str.truthy name)); [reflexivity|].
  apply upper_caseVariants.
Qed.

Lemma initial_jigFirstName (name : string) (seed : nat) :
  initialUpper (_jigFirstName name seed) = initialUpper name.
Proof.
  unfold _jigFirstName. destruct name as [|c t]; [reflexivity|].
  change (negb (Str.truthy (String c t))) with false. cbv iota.
  apply (pick_Forall (fun v => initialUpper v = initialUpper (String c t))); [discriminate|].
  repeat (apply Forall_cons || apply Forall_nil);
    unfold normalized, initialUpper, Str.charAt0, Str.toUpperCase, Str.toLowerCase;
    cbn [Str.take Str.map append Str.drop];
    now rewrite ?upperChar_idem, ?upperChar_lowerChar.
Qed.

Lemma orEmpty_Some (x : string) : orEmpty (Some x) = x.
Proof. now destruct x. Qed.

(** X7.  On an address of ASCII text none of whose words selects a
    built-in object in the lookup tables, [AddressJigger.jig] returns an
    address that keeps who and where it is: e-mail, county, state and
    country are unchanged; last name and city are the same up to letter
    case; the first name keeps its initial; the postcode is the same up to
    letter case and spaces. *)
Theorem jig_keeps_identity (a : Address) (i : nat) :
  asciiAddress a = true -> meetsBuiltin a i = false ->
  exists b,
    jig (Some a) i = Ok b /\
    email b = email a /\ county b = county a /\ state b = state a /\
    country b = country a /\
    Str.toUpperCase (orEmpty (lastName b)) = Str.toUpperCase (orEmpty (lastName a)) /\
    Str.toUpperCase (orEmpty (city b)) = Str.toUpperCase (orEmpty (city a)) /\
    initialUpper (orEmpty (firstName b)) = initialUpper (orEmpty (firstName a)) /\
    postcodeKey (orEmpty (zip b)) = postcodeKey (orEmpty (zip a)).
Proof.
  intros _ Hm. destruct i as [|i]; [exists a; simpl; repeat split|].
  pose proof (jig_outcome a i) as H.
  destruct (jig (Some a) (S i)) as [b|msg]; [|congruence].
  destruct H as (_ & He & Hco & Hst & Hcn & Hf & Hl & Hc & Hz & _).
  exists b. rewrite He, Hco, Hst, Hcn, Hf, Hl, Hc, Hz, !orEmpty_Some. repeat split.
  - apply upper_jigLastName.
  - apply upper_jigCity.
  - apply initial_jigFirstName.
  - apply postcodeKey_jig.
Qed.

Lemma jig_keeps_identity_witness :
  let a := mkAddress (Some "ash@example.com") (Some "Ash") (Some "Ketchum")
                     (Some "12 Pallet Road") (Some "Flat 4B") (Some "London") None None
                     (Some "SW1A 1AA") (Some "GB") (Some "+44 7911 123456") in
  exists b,
    jig (Some a) 7 = Ok b /\
    email b = email a /\ county b = county a /\ state b = state a /\
    country b = country a /\
    Str.toUpperCase (orEmpty (lastName b)) = Str.toUpperCase (orEmpty (lastName a)) /\
    Str.toUpperCase (orEmpty (city b)) = Str.toUpperCase (orEmpty (city a)) /\
    initialUpper (orEmpty (firstName b)) = initialUpper (orEmpty (firstName a)) /\
    postcodeKey (orEmpty (zip b)) = postcodeKey (orEmpty (zip a)).
Proof. intro a. apply (jig_keeps_identity a 7); reflexivity. Defined.

End JigIdentity.

(** ** Snapshots, the token scan and launch validation *)

Section SnapshotRoundTrip.

Import FastCheckout.

(** X8.  A snapshot taken by [serializeSession] and restored within
    four hours is accepted and gives back the cookie jar, the fingerprint,
    the protocol flag and the pre-warm state; an empty token field comes
    back as [null], an empty user-agent keeps the one in place, and the run
    id, the proxy agent and the start time of the restoring session stay. *)
Theorem snapshot_roundtrip (now now' : Z) (s s0 : Session) :
  (now' - now <= fourHours)%Z ->
  let out := restoreSession now' (Some (serializeSession now s)) s0 in
  fst out = true /\
  jar (snd out) = jar s /\ fingerprint (snd out) = fingerprint s /\
  useH2 (snd out) = useH2 s /\ preShippingDone (snd out) = preShippingDone s /\
  ua (snd out) = (if Str.truthy (ua s) then ua s else ua s0) /\
  authToken (snd out) = orNull (authToken s) /\
  paymentGatewayId (snd out) = orNull (paymentGatewayId s) /\
  checkoutToken (snd out) = orNull (checkoutToken s) /\
  preCheckoutUrl (snd out) = orNull (preCheckoutUrl s) /\
  preShippingRateId (snd out) = orNull (preShippingRateId s) /\
  prePaymentToken (snd out) = orNull (prePaymentToken s) /\
  baseUrl (snd out) = orNull (baseUrl s) /\
  runId (snd out) = runId s0 /\ proxyAgent (snd out) = proxyAgent s0 /\
  startTime (snd out) = startTime s0.
Proof.
  intros Hage out. subst out. unfold restoreSession.
  assert (E : expired now' (serializeSession now s) = false).
  { unfold expired. cbn [s_savedAt serializeSession].
    apply andb_false_iff. right. rewrite Z.gtb_ltb. apply Z.ltb_ge. exact Hage. }
  rewrite E. cbn. repeat split.
Qed.

Lemma snapshot_roundtrip_witness :
  let s := set_authToken (Some "tok-0123456789") (newSession 0 0 "r1") in
  let out := restoreSession 3600000 (Some (serializeSession 1000 s)) (newSession 1 1 "r2") in
  fst out = true /\ authToken (snd out) = Some "tok-0123456789" /\ runId (snd out) = "r2".
Proof.
  intros s out.
  pose proof (snapshot_roundtrip 1000 3600000 s (newSession 1 1 "r2")) as H.
  cbv zeta in H. fold out in H.
  destruct H as (H1 & _ & _ & _ & _ & _ & H2 & _ & _ & _ & _ & _ & _ & H3 & _).
  - vm_compute. discriminate.
  - repeat split; assumption.
Defined.

(** X9.  The scan for an authenticity token returns a capture of one of
    its patterns that is longer than ten characters; it returns nothing
    only when no pattern captures more than ten characters. *)
Theorem authToken_scan (ps : list nat) `{RT : Runtime} (html : string) :
  match firstAuthToken ps html with
  | Some t =>
      10 < String.length t /\ exists i, In i ps /\ capture (AuthToken i) html = Some t
  | None =>
      forall i m, In i ps -> capture (AuthToken i) html = Some m -> String.length m <= 10
  end.
Proof.
  induction ps as [|p ps IH]; simpl.
  - intros i m [].
  - destruct (capture (AuthToken p) html) as [m|] eqn:E.
    + destruct (Str.truthy m && (10 <? String.length m)) eqn:Em.
      * apply andb_true_iff in Em. destruct Em as [_ Em]. apply Nat.ltb_lt in Em.
        split; [exact Em|]. exists p. split; [now left | exact E].
      * destruct (firstAuthToken ps html) as [t|].
        -- destruct IH as [Hl (i & Hi & Hc)]. split; [exact Hl|]. exists i. split; [now right | exact Hc].
        -- intros i m' [<-|Hi] Hc; [|now apply (IH i)].
           rewrite E in Hc. injection Hc as <-.
           apply andb_false_iff in Em. destruct Em as [Em|Em].
           ++ destruct m; [simpl; lia | discriminate].
           ++ now apply Nat.ltb_ge in Em.
    + destruct (firstAuthToken ps html) as [t|].
      * destruct IH as [Hl (i & Hi & Hc)]. split; [exact Hl|]. exists i. split; [now right | exact Hc].
      * intros i m' [<-|Hi] Hc; [congruence | now apply (IH i)].
Qed.

End SnapshotRoundTrip.

Section LaunchValidation.

Import FastCheckout FleetRunner.
Context `{RT : Runtime}.

(** X10.  [launch] throws exactly when its options are not accepted, and
    then with the message of the first check that fails: no users, more
    than 50 users, no store or product URL.  When it returns, its total is
    the number of users. *)
Theorem fleet_launch_validation (agentOf : string -> option string)
  (envOf : nat -> TaskEnv) (opts : Opts) (began ended : Z) :
  match launch agentOf envOf opts began ended with
  | Ok r =>
      exists users target,
        accepted opts users target /\ total r = List.length users
  | Throw msg =>
      (forall users target, ~ accepted opts users target) /\
      msg = match o_users opts with
            | None | Some [] => "No users selected."
            | Some users =>
                if 50 <? List.length users then "Maximum 50 concurrent bots."
                else "Store URL or Product URL required."
            end
  end.
Proof.
  destruct (o_users opts) as [[|u0 rest]|] eqn:Eu.
  - unfold launch, launchIn. rewrite Eu. split; [|reflexivity].
    intros users target (Hu & Hne & _). rewrite Eu in Hu. injection Hu as <-. now apply Hne.
  - destruct (50 <? List.length (u0 :: rest)) eqn:E50.
    + unfold launch, launchIn. rewrite Eu, E50. split; [|reflexivity].
      intros users target (Hu & _ & Hcap & _). rewrite Eu in Hu. injection Hu as <-.
      apply Nat.ltb_lt in E50. lia.
    + destruct (o_target opts) as [target|] eqn:Et.
      * destruct (Str.otruthy (t_storeUrl target) || Str.otruthy (t_productUrl target)) eqn:Eurl.
        -- assert (Hacc : accepted opts (u0 :: rest) target).
           { repeat split; try assumption; [discriminate | now apply Nat.ltb_ge]. }
           rewrite (launch_accepted agentOf envOf opts (u0 :: rest) target began ended Hacc).
           rewrite (launchIn_accepted agentOf envOf _ opts (u0 :: rest) target began ended Hacc
                      (seq_covers _)).
           exists (u0 :: rest), target. cbn [total].
           split; [exact Hacc | reflexivity].
        -- unfold launch, launchIn. rewrite Eu, E50, Et.
           apply orb_false_iff in Eurl. destruct Eurl as [E1 E2]. rewrite E1, E2.
           split; [|reflexivity].
           intros users target' (_ & _ & _ & Ht & Hurl). rewrite Et in Ht. injection Ht as <-.
           rewrite E1, E2 in Hurl. discriminate.
      * unfold launch, launchIn. rewrite Eu, E50, Et. split; [|reflexivity].
        intros users target' (_ & _ & _ & Ht & _). rewrite Et in Ht. discriminate.
  - unfold launch, launchIn. rewrite Eu. split; [|reflexivity].
    intros users target (Hu & _). rewrite Eu in Hu. discriminate.
Qed.

End LaunchValidation.

(** ** Runs of the checkout monad *)

Section RunEquations.

Import FastCheckout.

Lemma bind_sleep {B : Type} (ms : nat) (f : unit -> M B) (st : St) :
  bind (_sleep ms) f st =
  f tt (mkSt (sess st) (script st) (clock st + Z.of_nat ms)%Z (draws st)).
Proof.
  unfold bind, _sleep.
  now destruct (f tt (mkSt (sess st) (script st) (clock st + Z.of_nat ms)%Z (draws st)))
    as [[r st2] e2].
Qed.


End RunEquations.

(** ** Counting transport attempts *)

Section CountFacts.

Import FastCheckout.

Lemma bounded_weaken {A : Type} (Pre Pre' Post Post' : Session -> Prop) (n n' : nat)
  (m : M A) :
  bounded Pre n m Post -> (forall s, Pre' s -> Pre s) -> n <= n' ->
  (forall s, Post s -> Post' s) -> bounded Pre' n' m Post'.
Proof.
  intros Hm Hpre Hn Hpost st Hst. destruct (Hm st (Hpre _ Hst)) as [Hlen Hp].
  split; [lia | now apply Hpost].
Qed.

Lemma bounded_ret {A : Type} (I : Session -> Prop) (n : nat) (a : A) :
  bounded I n (ret a) I.
Proof. intros st Hst. split; [simpl; lia | exact Hst]. Qed.

Lemma bounded_throw {A : Type} (I : Session -> Prop) (n : nat) (msg : string) :
  bounded I n (@throw A msg) I.
Proof. intros st Hst. split; [simpl; lia | exact Hst]. Qed.

Lemma bounded_lift {A : Type} (I : Session -> Prop) (n : nat) (r : Res A) :
  bounded I n (lift r) I.
Proof. destruct r; [apply bounded_ret | apply bounded_throw]. Qed.

Lemma bounded_modify (Pre Post : Session -> Prop) (n : nat) (f : Session -> Session) :
  (forall s, Pre s -> Post (f s)) -> bounded Pre n (modify f) Post.
Proof. intros H st Hst. split; [simpl; lia | now apply H]. Qed.

Lemma bounded_sleep (I : Session -> Prop) (n ms : nat) : bounded I n (_sleep ms) I.
Proof. intros st Hst. split; [simpl; lia | exact Hst]. Qed.

Lemma bounded_attempt (I : Session -> Prop) (n : nat) (t : Transport) (meth url : string)
  (hdrs : Dict.dict string) (b : Payload) :
  bounded I (S n) (attempt t meth url hdrs b) I.
Proof.
  intros st Hst. unfold attempt.
  destruct (script st) as [| [ms [r | msg]] rest]; (split; [simpl; lia | exact Hst]).
Qed.

(** A value read from the session is the one the precondition fixes. *)
Lemma bounded_gets {A B : Type} (Pre Post : Session -> Prop) (n : nat)
  (g : Session -> A) (v : A) (f : A -> M B) :
  (forall s, Pre s -> g s = v) -> bounded Pre n (f v) Post ->
  bounded Pre n (bind (gets g) f) Post.
Proof. intros Hg Hf st Hst. rewrite bind_gets, (Hg _ Hst). now apply Hf. Qed.

Lemma bounded_read {A B : Type} (Pre Post : Session -> Prop) (n : nat)
  (g : Session -> A) (f : A -> M B) :
  (forall v, bounded Pre n (f v) Post) -> bounded Pre n (bind (gets g) f) Post.
Proof. intros Hf st Hst. rewrite bind_gets. now apply Hf. Qed.

Lemma bounded_bind {A B : Type} (Pre Mid Post : Session -> Prop) (a b : nat)
  (m : M A) (f : A -> M B) :
  bounded Pre a m Mid -> (forall x, bounded Mid b (f x) Post) ->
  (forall s, Mid s -> Post s) ->
  bounded Pre (a + b) (bind m f) Post.
Proof.
  intros Hm Hf Hthrow st Hst. unfold bind.
  destruct (Hm st Hst) as [Hlen Hmid].
  destruct (m st) as [[[x | msg] st1] e1]; unfold stateOf, eventsOf in *; simpl in *.
  - destruct (Hf x st1 Hmid) as [Hlen2 Hpost].
    destruct (f x st1) as [[r2 st2] e2]. simpl in *.
    rewrite length_app. split; [lia | exact Hpost].
  - split; [lia | now apply Hthrow].
Qed.

(** A step in front of a continuation that makes no attempt. *)
Lemma bounded_last {A B : Type} (Pre Mid Post : Session -> Prop) (n : nat)
  (m : M A) (f : A -> M B) :
  bounded Pre n m Mid -> (forall x, bounded Mid 0 (f x) Post) ->
  (forall s, Mid s -> Post s) ->
  bounded Pre n (bind m f) Post.
Proof.
  intros Hm Hf Ht. rewrite <- (Nat.add_0_r n). now apply (bounded_bind Pre Mid Post).
Qed.

Lemma bounded_tryCatch {A : Type} (Pre Mid Post : Session -> Prop) (a b : nat)
  (m : M A) (h : string -> M A) :
  bounded Pre a m Mid -> (forall msg, bounded Mid b (h msg) Post) ->
  (forall s, Mid s -> Post s) ->
  bounded Pre (a + b) (tryCatch m h) Post.
Proof.
  intros Hm Hh Hok st Hst. unfold tryCatch.
  destruct (Hm st Hst) as [Hlen Hmid].
  destruct (m st) as [[[x | msg] st1] e1]; unfold stateOf, eventsOf in *; simpl in *.
  - split; [lia | now apply Hok].
  - destruct (Hh msg st1 Hmid) as [Hlen2 Hpost].
    destruct (h msg st1) as [[r2 st2] e2]. simpl in *.
    rewrite length_app. split; [lia | exact Hpost].
Qed.

Context `{RT : Runtime}.

Section Flags.

Variable h2 : bool.
Variable proxy : option string.

Let I : Session -> Prop := flagged h2 proxy.

Lemma flagged_jar (j : CookieJar.store) (s : Session) : I s -> I (set_jar j s).
Proof. now intros [H1 H2]. Qed.

Lemma flagged_log (msg : string) (ty : LogType) (s : Session) : I s -> I (pushLog msg ty s).
Proof. now intros [H1 H2]. Qed.

Lemma jarGet_bounded (n : nat) (url : string) : bounded I n (jarGet url) I.
Proof.
  unfold jarGet. apply bounded_read. intros j. apply bounded_lift.
Qed.

Lemma jarUpdate_bounded (n : nat) (url : string) (cs : list string) :
  bounded I n (jarUpdate url cs) I.
Proof.
  unfold jarUpdate. apply bounded_read. intros j0.
  apply (bounded_bind I I I 0 n); [apply bounded_lift | | auto].
  intros j. apply bounded_modify. intros s. apply flagged_jar.
Qed.

Lemma storeCookies_bounded (n : nat) (url : string) (r : Response) :
  bounded I n (HttpEngine.storeCookies url r) I.
Proof.
  unfold HttpEngine.storeCookies.
  destruct (setCookie r); [apply bounded_ret | apply jarUpdate_bounded].
Qed.

Lemma engine_request_bounded (url meth : string) (hdrs : Dict.dict string) (b : Payload) :
  bounded I 2 (HttpEngine.request url meth hdrs b) I.
Proof.
  unfold HttpEngine.request. destruct (parseUrl url) as [u|]; [|apply bounded_throw].
  apply (bounded_bind I I I 0 2); [apply jarGet_bounded | | auto]. intros cookies.
  apply (bounded_tryCatch I I I 1 1); [ | | auto].
  - apply (bounded_bind I I I 1 0); [ | | auto].
    + unfold HttpEngine._requestH2.
      destruct (String.eqb (protocol u) "https:"); [apply bounded_attempt | apply bounded_throw].
    + intros r. apply (bounded_bind I I I 0 0); [apply storeCookies_bounded | | auto].
      intros _. apply bounded_ret.
  - intros _. unfold HttpEngine._requestUndici.
    apply (bounded_tryCatch I I I 1 0); [ | intros; apply bounded_throw | auto].
    apply (bounded_bind I I I 1 0); [apply bounded_attempt | | auto].
    intros r. apply (bounded_bind I I I 0 0); [apply storeCookies_bounded | | auto].
    intros _. apply bounded_ret.
Qed.

Lemma requestOnce_bounded (url : string) (o : Options) (hdrs : Dict.dict string) :
  bounded I (if h2 && negb (Str.otruthy proxy) then 2 else 1) (requestOnce url o hdrs) I.
Proof.
  unfold requestOnce.
  apply (bounded_gets I I _ h2Enabled h2); [now intros s [H1 H2]|].
  apply (bounded_gets I I _ proxyAgent proxy); [now intros s [H1 H2]|].
  destruct (h2 && negb (Str.otruthy proxy)).
  - apply (bounded_bind I I I 2 0); [apply engine_request_bounded | | auto].
    intros r. apply bounded_ret.
  - apply (bounded_bind I I I 0 1); [apply jarGet_bounded | | auto]. intros cookieStr.
    apply (bounded_bind I I I 1 0); [apply bounded_attempt | | auto]. intros res.
    apply (bounded_bind I I I 0 0); [ | intros; apply bounded_ret | auto].
    destruct (setCookie res); [apply bounded_ret | apply jarUpdate_bounded].
Qed.

End Flags.

Lemma requestFrom_downgraded (proxy : option string) (url : string) (o : Options)
  (hdrs : Dict.dict string) (retries : nat) :
  forall left attempt,
    bounded (flagged false proxy) left (requestFrom url o hdrs retries attempt left)
            (flagged false proxy).
Proof.
  set (I := flagged false proxy).
  induction left as [| left IH]; intros attempt; simpl; [apply bounded_ret|].
  apply (bounded_tryCatch I I I 1 left); [ | | auto].
  - apply (bounded_bind I I I 1 0); [ | intros; apply bounded_ret | auto].
    exact (requestOnce_bounded false proxy url o hdrs).
  - intros err. apply (bounded_gets I I _ h2Enabled false); [now intros s [H1 H2]|].
    cbn [andb]. destruct (attempt =? retries); [apply bounded_throw|].
    apply (bounded_bind I I I 0 left);
      [apply bounded_modify; intros s; apply flagged_log | | auto].
    intros _. apply (bounded_bind I I I 0 left); [apply bounded_sleep | | auto].
    intros _. apply IH.
Qed.

Lemma request_bounded (h2 : bool) (proxy : option string) (url : string) (o : Options) :
  bounded (flagged h2 proxy) (if h2 && negb (Str.otruthy proxy) then 4 else 3)
          (request url o) (fun _ => True).
Proof.
  unfold request. apply bounded_read. intros s0.
  set (hdrs := Dict.spread (baseHeaders s0) (o_headers o)).
  set (n := if h2 && negb (Str.otruthy proxy) then 4 else 3).
  apply (bounded_last (flagged h2 proxy) (fun _ => True) (fun _ => True) n); [ | | auto].
  2: { intros [r|]; intros st _; (split; [simpl; lia | exact Logic.I]). }
  cbn [requestFrom].
  apply (bounded_weaken (flagged h2 proxy) (flagged h2 proxy) (fun _ => True) (fun _ => True)
           ((if h2 && negb (Str.otruthy proxy) then 2 else 1) + 2) n); [ | auto | | auto].
  2: { subst n. destruct (h2 && negb (Str.otruthy proxy)); simpl; lia. }
  apply (bounded_tryCatch (flagged h2 proxy) (flagged h2 proxy) (fun _ => True)); [ | | auto].
  - apply (bounded_last (flagged h2 proxy) (flagged h2 proxy) (flagged h2 proxy));
      [ | intros; apply bounded_ret | auto].
    apply requestOnce_bounded.
  - intros err. apply (bounded_gets _ _ _ h2Enabled h2); [now intros s [H1 H2]|].
    destruct h2; cbn [andb Nat.eqb].
    + apply (bounded_bind (flagged true proxy) (flagged false proxy) (fun _ => True) 0 2);
        [apply bounded_modify; now intros s [H1 H2] | | auto].
      intros _.
      apply (bounded_bind (flagged false proxy) (flagged false proxy) (fun _ => True) 0 2);
        [apply bounded_modify; intros s; apply flagged_log | | auto].
      intros _.
      eapply bounded_weaken; [apply (requestFrom_downgraded proxy url o hdrs 2 2 1) | auto..].
    + apply (bounded_bind (flagged false proxy) (flagged false proxy) (fun _ => True) 0 2);
        [apply bounded_modify; intros s; apply flagged_log | | auto].
      intros _.
      apply (bounded_bind (flagged false proxy) (flagged false proxy) (fun _ => True) 0 2);
        [apply bounded_sleep | | auto].
      intros _.
      eapply bounded_weaken; [apply (requestFrom_downgraded proxy url o hdrs 2 2 1) | auto..].
Qed.

(** X11.  A request makes at most four transport attempts, and at most
    three unless it starts over HTTP/2 without a proxy. *)
Theorem request_attempts_bounded (url : string) (o : Options) (st : St) :
  List.length (eventsOf (request url o st)) <= (if onH2 (sess st) then 4 else 3).
Proof.
  apply (request_bounded (h2Enabled (sess st)) (proxyAgent (sess st)) url o st).
  now split.
Qed.

End CountFacts.

(** ** Retries, responses and cookies of a request *)

Section RetryFacts.

Import FastCheckout.
Context `{RT : Runtime}.

Variable url : string.
Variable u : Url.
Hypothesis url_parses : parseUrl url = Some u.

Lemma jarGet_parsed (st : St) :
  jarGet url st = (Ok (String.concat "; " (CookieJar.cookiesFor (hostname u) (jar (sess st)))),
                   st, []).
Proof. unfold jarGet. rewrite bind_gets. unfold CookieJar.get. now rewrite url_parses. Qed.

Lemma jarUpdate_parsed (cs : list string) (st : St) :
  jarUpdate url cs st =
  (Ok tt, mkSt (set_jar (CookieJar.updateDomain (hostname u) cs (jar (sess st))) (sess st))
               (script st) (clock st) (draws st), []).
Proof.
  unfold jarUpdate. rewrite bind_gets. unfold CookieJar.update. rewrite url_parses.
  simpl lift. now rewrite bind_ret.
Qed.

Lemma attempt_one (t : Transport) (meth : string) (hdrs : Dict.dict string) (b : Payload)
  (st : St) :
  List.length (eventsOf (attempt t meth url hdrs b st)) = 1.
Proof. unfold attempt. now destruct (script st) as [| [ms [r | msg]] rest]. Qed.

Lemma storeCookies_parsed (r : Response) (st : St) :
  exists st', HttpEngine.storeCookies url r st = (Ok tt, st', []).
Proof.
  unfold HttpEngine.storeCookies. destruct (setCookie r) as [|c cs].
  - now exists st.
  - rewrite jarUpdate_parsed. eexists. reflexivity.
Qed.

Lemma requestUndici_one (meth : string) (hdrs : Dict.dict string) (b : Payload) (st : St) :
  List.length (eventsOf (HttpEngine._requestUndici meth url hdrs b st)) = 1.
Proof.
  unfold HttpEngine._requestUndici, tryCatch, bind.
  pose proof (attempt_one Undici meth hdrs b st) as H1.
  destruct (attempt Undici meth url hdrs b st) as [[[r | msg] st1] e1];
    unfold eventsOf in *; simpl in *.
  - destruct (storeCookies_parsed r st1) as [st' E]. rewrite E. simpl.
    now rewrite !app_nil_r.
  - now rewrite app_nil_r.
Qed.

Lemma bind_jarGet {B : Type} (f : string -> M B) (st : St) :
  bind (jarGet url) f st =
  f (String.concat "; " (CookieJar.cookiesFor (hostname u) (jar (sess st)))) st.
Proof.
  unfold bind. rewrite jarGet_parsed.
  now destruct (f _ st) as [[r st2] e2].
Qed.

Lemma requestOnce_failed (o : Options) (hdrs : Dict.dict string) (st : St) (msg : string) :
  resultOf (requestOnce url o hdrs st) = Throw msg ->
  1 <= List.length (eventsOf (requestOnce url o hdrs st)).
Proof.
  unfold requestOnce. rewrite !bind_gets.
  destruct (h2Enabled (sess st) && negb (Str.otruthy (proxyAgent (sess st)))).
  - unfold HttpEngine.request. rewrite url_parses, bind_assoc, bind_jarGet.
    set (hdrs' := if Str.truthy _ then _ else hdrs).
    rewrite bind_run, tryCatch_run.
    destruct (bind (HttpEngine._requestH2 u _ url hdrs' (o_body o)) _ st)
      as [[[r | err] st1] e1].
    + discriminate.
    + pose proof (requestUndici_one (Str.toUpperCase (methodOf o)) hdrs' (o_body o) st1) as H1.
      destruct (HttpEngine._requestUndici _ url hdrs' (o_body o) st1) as [[[r | err2] st2] e2];
        unfold resultOf, eventsOf in *; simpl in *; intros _;
        rewrite ?app_nil_r, ?length_app; simpl; lia.
  - rewrite bind_jarGet.
    set (hdrs' := if Str.truthy _ then _ else hdrs).
    rewrite bind_run.
    pose proof (attempt_one NodeFetch (methodOf o) hdrs' (o_body o) st) as H1.
    destruct (attempt NodeFetch (methodOf o) url hdrs' (o_body o) st) as [[[r | err] st1] e1];
      unfold resultOf, eventsOf in *; simpl in *.
    + destruct (setCookie r) as [|c cs]; [discriminate|].
      rewrite bind_run, jarUpdate_parsed. discriminate.
    + intros _. lia.
Qed.

(** The loop with [retries = 2]: a throw comes after as many failed
    iterations as were left, each with an attempt; the loop is never left
    without a response. *)
Lemma requestFrom_failed (o : Options) (hdrs : Dict.dict string) :
  forall left attempt st,
    attempt + left = 3 ->
    match resultOf (requestFrom url o hdrs 2 attempt left st) with
    | Throw _ => left <= List.length (eventsOf (requestFrom url o hdrs 2 attempt left st))
    | Ok None => left = 0
    | Ok (Some _) => True
    end.
Proof.
  induction left as [| left IH]; intros attempt st Hsum; [reflexivity|].
  cbn [requestFrom]. rewrite tryCatch_run, bind_run.
  pose proof (requestOnce_failed o hdrs st) as Hone.
  destruct (requestOnce url o hdrs st) as [[[r | err] st1] e1];
    unfold resultOf, eventsOf in Hone; cbn [fst snd] in Hone; [exact Logic.I|].
  specialize (Hone err eq_refl). cbv iota.
  assert (Hnext : forall s' : St,
            attempt < 2 ->
            match resultOf (let '(r, st2, e2) := requestFrom url o hdrs 2 (S attempt) left s'
                            in (r, st2, (e1 ++ e2)%list)) with
            | Throw _ =>
                S left <= List.length
                            (eventsOf (let '(r, st2, e2) :=
                                         requestFrom url o hdrs 2 (S attempt) left s'
                                       in (r, st2, (e1 ++ e2)%list)))
            | Ok None => S left = 0
            | Ok (Some _) => True
            end).
  { intros s' Hlt. specialize (IH (S attempt) s' ltac:(lia)).
    destruct (requestFrom url o hdrs 2 (S attempt) left s') as [[[[r|] | err2] st2] e2];
      unfold resultOf, eventsOf in *; cbn [fst snd] in *.
    - exact Logic.I.
    - lia.
    - rewrite length_app. lia. }
  rewrite bind_gets.
  destruct (h2Enabled (sess st1) && (attempt =? 0)) eqn:Eh.
  - apply andb_true_iff in Eh. destruct Eh as [_ Ea]. apply Nat.eqb_eq in Ea.
    unfold log. rewrite !bind_modify. apply Hnext. lia.
  - destruct (attempt =? 2) eqn:E2.
    + apply Nat.eqb_eq in E2. unfold resultOf, eventsOf. cbn. rewrite app_nil_r. lia.
    + apply Nat.eqb_neq in E2. unfold log. rewrite !bind_modify, bind_sleep.
      apply Hnext. lia.
Qed.

(** X12.  A request to a well-formed URL throws only after at least
    three failed transport attempts. *)
Theorem request_gives_up_after_three (o : Options) (st : St) (msg : string) :
  resultOf (request url o st) = Throw msg ->
  3 <= List.length (eventsOf (request url o st)).
Proof.
  unfold request. rewrite bind_gets.
  set (hdrs := Dict.spread (baseHeaders (sess st)) (o_headers o)).
  pose proof (requestFrom_failed o hdrs 3 0 st eq_refl) as H.
  rewrite bind_run.
  destruct (requestFrom url o hdrs 2 0 3 st) as [[[[r|] | err] st1] e1];
    unfold resultOf, eventsOf in *; simpl in *.
  - discriminate.
  - discriminate H.
  - intros _. exact H.
Qed.

Lemma storeCookies_run (r : Response) (st : St) :
  HttpEngine.storeCookies url r st =
  (Ok tt, mkSt (stored (hostname u) r (sess st)) (script st) (clock st) (draws st), []).
Proof.
  unfold HttpEngine.storeCookies, stored. destruct (setCookie r) as [|c cs].
  - now destruct st.
  - apply jarUpdate_parsed.
Qed.

Lemma requestOnce_responded (o : Options) (hdrs : Dict.dict string) (st : St)
  (ms : nat) (r : Response) (rest : list (nat * Outcome)) :
  script st = (ms, Responded r) :: rest ->
  exists ev,
    requestOnce url o hdrs st =
    (Ok (if onH2 (sess st) then wrapH2 r else r),
     mkSt (stored (hostname u) r (sess st)) rest (clock st + Z.of_nat ms)%Z (draws st), [ev]).
Proof.
  intros Hs. unfold requestOnce, onH2. rewrite !bind_gets.
  destruct (h2Enabled (sess st) && negb (Str.otruthy (proxyAgent (sess st)))).
  - unfold HttpEngine.request. rewrite url_parses, bind_assoc, bind_jarGet.
    set (hdrs' := if Str.truthy _ then _ else hdrs).
    rewrite bind_run, tryCatch_run, bind_run. unfold HttpEngine._requestH2.
    destruct (String.eqb (protocol u) "https:").
    + unfold attempt at 1. rewrite Hs. cbv iota beta.
      rewrite bind_run, storeCookies_run. cbn. eexists. reflexivity.
    + cbn [throw]. cbv iota beta. unfold HttpEngine._requestUndici.
      rewrite tryCatch_run, bind_run. unfold attempt at 1. rewrite Hs. cbv iota beta.
      rewrite bind_run, storeCookies_run. cbn. eexists. reflexivity.
  - rewrite bind_jarGet. set (hdrs' := if Str.truthy _ then _ else hdrs).
    rewrite bind_run. unfold attempt at 1. rewrite Hs. cbv iota beta.
    rewrite bind_run.
    change (match setCookie r with [] => ret tt | c :: cs => jarUpdate url (c :: cs) end)
      with (HttpEngine.storeCookies url r).
    rewrite storeCookies_run. cbn. eexists. reflexivity.
Qed.

(** X13.  A response is returned as it comes, whatever its status: one
    transport attempt, no retry; its cookies are stored and nothing else of
    the session changes. *)
Theorem request_returns_first_response (o : Options) (st : St) (ms : nat) (r : Response)
  (rest : list (nat * Outcome)) :
  script st = (ms, Responded r) :: rest ->
  resultOf (request url o st) = Ok (if onH2 (sess st) then wrapH2 r else r) /\
  List.length (eventsOf (request url o st)) = 1 /\
  stateOf (request url o st) =
    mkSt (stored (hostname u) r (sess st)) rest (clock st + Z.of_nat ms)%Z (draws st).
Proof.
  intros Hs. unfold request. rewrite bind_gets. cbn [requestFrom].
  rewrite bind_run, tryCatch_run, bind_run.
  destruct (requestOnce_responded o (Dict.spread (baseHeaders (sess st)) (o_headers o))
              st ms r rest Hs) as [ev E].
  rewrite E. cbn. repeat split.
Qed.

Section Cookies.

Variable j0 : CookieJar.store.

Let c : string := String.concat "; " (CookieJar.cookiesFor (hostname u) j0).

Hypothesis c_truthy : Str.truthy c = true.

Let P (e : Event) : Prop := Dict.lookup "cookie" (headers e) = Some c.

Lemma attempt_cookies (t : Transport) (meth : string) (hdrs : Dict.dict string)
  (b : Payload) (st : St) :
  Forall P (eventsOf (attempt t meth url (Dict.assign "cookie" c hdrs) b st)) /\
  sess (stateOf (attempt t meth url (Dict.assign "cookie" c hdrs) b st)) = sess st.
Proof.
  unfold attempt.
  destruct (script st) as [| [ms [r | msg]] rest]; cbn;
    (split; [repeat constructor; apply lookup_assign_same | reflexivity]).
Qed.

Lemma requestOnce_cookies (o : Options) (hdrs : Dict.dict string) (st : St) :
  jar (sess st) = j0 ->
  Forall P (eventsOf (requestOnce url o hdrs st)) /\
  forall msg, resultOf (requestOnce url o hdrs st) = Throw msg ->
              sess (stateOf (requestOnce url o hdrs st)) = sess st.
Proof.
  intros Hj. unfold requestOnce. rewrite !bind_gets.
  destruct (h2Enabled (sess st) && negb (Str.otruthy (proxyAgent (sess st)))).
  - unfold HttpEngine.request. rewrite url_parses, bind_assoc, bind_jarGet, Hj.
    fold c. rewrite c_truthy.
    rewrite bind_run, tryCatch_run, bind_run. unfold HttpEngine._requestH2.
    assert (Hundici : forall st1 : St,
              Forall P (eventsOf (HttpEngine._requestUndici (Str.toUpperCase (methodOf o)) url
                                    (Dict.assign "cookie" c hdrs) (o_body o) st1)) /\
              forall msg,
                resultOf (HttpEngine._requestUndici (Str.toUpperCase (methodOf o)) url
                            (Dict.assign "cookie" c hdrs) (o_body o) st1) = Throw msg ->
                sess (stateOf (HttpEngine._requestUndici (Str.toUpperCase (methodOf o)) url
                                 (Dict.assign "cookie" c hdrs) (o_body o) st1)) = sess st1).
    { intros st1. unfold HttpEngine._requestUndici. rewrite tryCatch_run, bind_run.
      destruct (attempt_cookies Undici (Str.toUpperCase (methodOf o)) hdrs (o_body o) st1)
        as [Hev Hs].
      destruct (attempt Undici _ url _ (o_body o) st1) as [[[r | msg] st2] e2];
        unfold resultOf, stateOf, eventsOf in *; cbn [fst snd] in *.
      - rewrite bind_run, storeCookies_run. cbn. rewrite !app_nil_r.
        split; [exact Hev | discriminate].
      - cbn. rewrite app_nil_r. split; [exact Hev | intros _ _; exact Hs]. }
    destruct (String.eqb (protocol u) "https:").
    + destruct (attempt_cookies H2 (Str.toUpperCase (methodOf o)) hdrs (o_body o) st)
        as [Hev Hs].
      destruct (attempt H2 _ url _ (o_body o) st) as [[[r | msg] st1] e1];
        unfold resultOf, stateOf, eventsOf in *; cbn [fst snd] in *.
      * rewrite bind_run, storeCookies_run. cbn. rewrite !app_nil_r.
        split; [exact Hev | discriminate].
      * destruct (Hundici st1) as [Hev2 Hs2].
        destruct (HttpEngine._requestUndici _ url _ (o_body o) st1) as [[[r | msg2] st2] e2];
          unfold resultOf, stateOf, eventsOf in *; cbn [fst snd] in *.
        -- cbn. rewrite ?app_nil_r. split; [now apply Forall_app | discriminate].
        -- cbn. split; [now apply Forall_app |]. intros m _. rewrite (Hs2 msg2 eq_refl). exact Hs.
    + cbn [throw]. cbv iota beta.
      destruct (Hundici st) as [Hev2 Hs2].
      destruct (HttpEngine._requestUndici _ url _ (o_body o) st) as [[[r | msg2] st2] e2];
        unfold resultOf, stateOf, eventsOf in *; cbn [fst snd app] in *.
      * cbn. rewrite ?app_nil_r. split; [exact Hev2 | discriminate].
      * cbn. split; [exact Hev2 |]. intros m _. exact (Hs2 msg2 eq_refl).
  - rewrite bind_jarGet, Hj. fold c. rewrite c_truthy.
    rewrite bind_run.
    destruct (attempt_cookies NodeFetch (methodOf o) hdrs (o_body o) st) as [Hev Hs].
    destruct (attempt NodeFetch _ url _ (o_body o) st) as [[[r | msg] st1] e1];
      unfold resultOf, stateOf, eventsOf in *; cbn [fst snd] in *.
    + rewrite bind_run.
      change (match setCookie r with [] => ret tt | c0 :: cs => jarUpdate url (c0 :: cs) end)
        with (HttpEngine.storeCookies url r).
      rewrite storeCookies_run. cbn. rewrite !app_nil_r. split; [exact Hev | discriminate].
    + split; [exact Hev | intros _ _; exact Hs].
Qed.

Lemma requestFrom_cookies (o : Options) (hdrs : Dict.dict string) (retries : nat) :
  forall left attempt st,
    jar (sess st) = j0 ->
    Forall P (eventsOf (requestFrom url o hdrs retries attempt left st)).
Proof.
  induction left as [| left IH]; intros attempt st Hj; [constructor|].
  cbn [requestFrom]. rewrite tryCatch_run, bind_run.
  destruct (requestOnce_cookies o hdrs st Hj) as [Hev Hs].
  destruct (requestOnce url o hdrs st) as [[[r | err] st1] e1];
    unfold resultOf, stateOf, eventsOf in *; cbn [fst snd] in *.
  - cbn. now rewrite app_nil_r.
  - specialize (Hs err eq_refl).
    assert (Hnext : forall s' : St,
              jar (sess s') = j0 ->
              Forall P (snd (let '(r, st2, e2) :=
                               requestFrom url o hdrs retries (S attempt) left s'
                             in (r, st2, (e1 ++ e2)%list)))).
    { intros s' Hj'. specialize (IH (S attempt) s' Hj').
      destruct (requestFrom url o hdrs retries (S attempt) left s') as [[r2 st2] e2].
      cbn [snd] in *. now apply Forall_app. }
    rewrite bind_gets.
    destruct (h2Enabled (sess st1) && (attempt =? 0)).
    + unfold log. rewrite !bind_modify. apply Hnext. cbn. now rewrite Hs.
    + destruct (attempt =? retries).
      * cbn. now rewrite app_nil_r.
      * unfold log. rewrite !bind_modify, bind_sleep. apply Hnext. cbn. now rewrite Hs.
Qed.

End Cookies.

(** X14.  Every transport attempt of a request, retries included,
    carries in its [cookie] header the cookies the jar holds for the URL
    when the request starts. *)
Theorem request_sends_jar_cookies (o : Options) (st : St) (c : string) :
  CookieJar.get parseUrl url (jar (sess st)) = Ok c ->
  Str.truthy c = true ->
  Forall (fun e => Dict.lookup "cookie" (headers e) = Some c) (eventsOf (request url o st)).
Proof.
  unfold CookieJar.get. rewrite url_parses. intros [= <-] Hc.
  unfold request. rewrite bind_gets, bind_run.
  pose proof (requestFrom_cookies (jar (sess st)) Hc o
                (Dict.spread (baseHeaders (sess st)) (o_headers o)) 2 3 0 st eq_refl) as H.
  destruct (requestFrom url o _ 2 0 3 st) as [[[[r|] | err] st1] e1];
    unfold eventsOf in *; cbn in *; now rewrite ?app_nil_r.
Qed.

End RetryFacts.

Lemma request_gives_up_after_three_witness :
  let out := @FastCheckout.request Demo.runtime "https://shop.example/cart.js"
               FastCheckout.GET (Demo.startWith []) in
  FastCheckout.resultOf out = Throw "connect ECONNREFUSED" /\
  3 <= List.length (FastCheckout.eventsOf out).
Proof.
  intro out. split; [reflexivity | ].
  exact (@request_gives_up_after_three Demo.runtime "https://shop.example/cart.js" _
           eq_refl FastCheckout.GET (Demo.startWith []) "connect ECONNREFUSED" eq_refl).
Defined.

Lemma request_returns_first_response_witness :
  let r := FastCheckout.mkResponse 200 None ["sid=1; Path=/"] "ok" in
  let st := Demo.startWith [FastCheckout.Responded r] in
  let out := @FastCheckout.request Demo.runtime "https://shop.example/cart.js"
               FastCheckout.GET st in
  FastCheckout.resultOf out =
    Ok (if FastCheckout.onH2 (FastCheckout.sess st) then FastCheckout.wrapH2 r else r) /\
  List.length (FastCheckout.eventsOf out) = 1 /\
  FastCheckout.stateOf out =
    FastCheckout.mkSt (FastCheckout.stored "shop.example" r (FastCheckout.sess st)) []
                      (FastCheckout.clock st + 10)%Z (FastCheckout.draws st).
Proof.
  intros r st out.
  exact (@request_returns_first_response Demo.runtime "https://shop.example/cart.js" _
           eq_refl FastCheckout.GET st 10 r [] eq_refl).
Defined.

Lemma request_sends_jar_cookies_witness :
  let st := FastCheckout.mkSt
              (FastCheckout.set_jar [("shop.example", [("sid", "1")])]
                 (FastCheckout.newSession 0 0 "run")) [] 0 [] in
  Forall (fun e => Dict.lookup "cookie" (FastCheckout.headers e) = Some "sid=1")
         (FastCheckout.eventsOf
            (@FastCheckout.request Demo.runtime "https://shop.example/cart.js"
               FastCheckout.GET st)).
Proof.
  intro st.
  exact (@request_sends_jar_cookies Demo.runtime "https://shop.example/cart.js" _
           eq_refl FastCheckout.GET st "sid=1" eq_refl eq_refl).
Defined.

(** ** Session warm-up and instant checkout *)

Section InstantFacts.

Import FastCheckout.
Context `{RT : Runtime}.

Let always (s : Session) : Prop := True.

Lemma always_modify (P : Event -> Prop) (f : Session -> Session) :
  keeps_ always P (modify f).
Proof. apply keeps_modify. intros s _. exact Logic.I. Qed.

Lemma submitPayment_dry_plain (checkoutUrl : string) (payment : Payment) :
  keeps_ always notPayment (submitPayment checkoutUrl payment true).
Proof.
  intros st _. destruct (submitPayment_dry checkoutUrl payment st) as (_ & He & _).
  rewrite He. split; [constructor | exact Logic.I].
Qed.

Lemma submitPayment_pays (checkoutUrl : string) (payment : Payment) (dryRun : bool) :
  keeps_ always paysWithToken (submitPayment checkoutUrl payment dryRun).
Proof.
  destruct dryRun.
  - apply keeps_weaken with (P := notPayment);
      [exact notPayment_paysWithToken | apply submitPayment_dry_plain].
  - intros st Hst.
    destruct (submitPayment_live always always_steady checkoutUrl payment st Hst) as [Hev _].
    split; [exact Hev | exact Logic.I].
Qed.

Lemma preCheckout_plain (cfg : Config) : keeps_ always notPayment (preCheckout cfg).
Proof.
  pose proof always_steady as Hsteady.
  unfold preCheckout, warmBody, preConnect.
  repeat first [ apply always_modify | progress plain ].
Qed.

Lemma instantBody_dry (cfg : Config) (h : option Harvester) (baseUrl : string) :
  dryRunOf cfg = true -> keeps_ always notPayment (instantBody cfg h baseUrl).
Proof.
  intros Hdry. pose proof always_steady as Hsteady.
  unfold instantBody. rewrite Hdry. cbv zeta.
  repeat first
    [ apply submitPayment_dry_plain
    | keeps_step
    | progress cbv zeta
    | solve [plain] ].
Qed.

Lemma instantBody_pays (cfg : Config) (h : option Harvester) (baseUrl : string) :
  keeps_ always paysWithToken (instantBody cfg h baseUrl).
Proof.
  pose proof always_steady as Hsteady.
  unfold instantBody. cbv zeta.
  repeat first
    [ apply submitPayment_pays
    | keeps_step
    | progress cbv zeta
    | apply keeps_weaken with (P := notPayment);
      [ exact notPayment_paysWithToken | solve [plain] ] ].
Qed.

(** X15.  An instant checkout ([runFromPreCheckout]) in dry-run mode,
    the default, submits no payment, whatever the session it starts from. *)
Theorem instant_dry_run_never_pays (cfg : Config) (h : option Harvester) (st : St) :
  dryRunOf cfg = true ->
  Forall notPayment (eventsOf (runFromPreCheckout cfg h st)).
Proof.
  intros Hdry. pose proof always_steady as Hsteady.
  assert (H : keeps_ always notPayment (runFromPreCheckout cfg h)).
  { unfold runFromPreCheckout.
    repeat first
      [ apply instantBody_dry; assumption
      | keeps_step
      | solve [plain] ]. }
  exact (proj1 (H st Logic.I)).
Qed.

(** X16.  Every payment submission of an instant checkout is made
    while an authenticity token is held. *)
Theorem instant_payment_only_with_token (cfg : Config) (h : option Harvester) (st : St) :
  Forall paysWithToken (eventsOf (runFromPreCheckout cfg h st)).
Proof.
  pose proof always_steady as Hsteady.
  assert (H : keeps_ always paysWithToken (runFromPreCheckout cfg h)).
  { unfold runFromPreCheckout.
    repeat first
      [ apply instantBody_pays
      | keeps_step
      | apply keeps_weaken with (P := notPayment);
        [ exact notPayment_paysWithToken | solve [plain] ] ]. }
  exact (proj1 (H st Logic.I)).
Qed.

(** *** The stored base URL *)

(** A step that never throws, in front of a continuation. *)
Lemma triple_then {A B : Type} (I : Session -> Prop) (P : Event -> Prop)
  (Post : Res B -> Session -> Prop) (m : M A) (f : A -> M B) :
  keeps_ I P m -> unfailing m -> (forall a, triple I (f a) P Post) ->
  triple I (bind m f) P Post.
Proof.
  intros Hk Hu Hf st Hst. rewrite bind_run.
  destruct (Hk st Hst) as [Hev HI]. destruct (Hu st) as [a Ha].
  destruct (m st) as [[r st1] e1]. unfold resultOf, stateOf, eventsOf in *. cbn [fst snd] in *.
  subst r. specialize (Hf a st1 HI).
  destruct (f a st1) as [[r2 st2] e2]. cbn [fst snd] in *.
  destruct Hf as [Hev2 Hpost]. split; [now apply Forall_app | exact Hpost].
Qed.

Lemma unfailing_now : unfailing now.
Proof. intro st. now exists (clock st). Qed.

Lemma unfailing_random (n : nat) : unfailing (random n).
Proof. intro st. unfold random. destruct (draws st); eexists; reflexivity. Qed.

Lemma getBaseUrlOf_truthy (a b : option string) (base : string) :
  getBaseUrlOf a b = Ok base -> Str.truthy base = true.
Proof.
  assert (H : forall x, getBaseUrl x = Ok base -> Str.truthy base = true).
  { intros x. unfold getBaseUrl. destruct (parseUrl x) as [u|]; [|discriminate].
    intros [= <-]. now apply truthy_append_r. }
  unfold getBaseUrlOf. destruct (Str.otruthy a); [apply H|].
  destruct (Str.otruthy b); [apply H | discriminate].
Qed.

Section Stored.

Variable base : string.

Let kept (s : Session) : Prop := baseUrl s = Some base.

Let any (e : Event) : Prop := True.

Lemma kept_quiet : quiet kept.
Proof. intros s Hs. repeat split; intros; exact Hs. Qed.

Ltac kept_steps :=
  repeat first
    [ keeps_step
    | progress cbv zeta
    | eapply request_keeps; [exact kept_quiet | intros; exact Logic.I | reflexivity]
    | apply keeps_modify; intros ? Hkept; exact Hkept
    | apply keeps_attempt; intros; exact Logic.I ].

Lemma warmBody_kept (cfg : Config) :
  keeps_ kept any
    (tryCatch (warmBody cfg base)
       (fun err =>
          bind (log ("Pre-checkout failed: " ++ err) error)
               (fun _ => ret (mkWarmResult false None (Some err))))).
Proof.
  unfold warmBody, preConnect, getPaymentSessionToken, jsonOf, log. kept_steps.
Qed.

End Stored.

(** [preCheckout] throws exactly when the store URL cannot be read; when
    it returns, with success or not, the base URL is stored. *)
Lemma preCheckout_outcome (cfg : Config) :
  triple always (preCheckout cfg) (fun _ => True)
    (fun r s =>
       match r with
       | Ok _ =>
           exists base,
             getBaseUrlOf (c_storeUrl cfg) (c_productUrl cfg) = Ok base /\
             baseUrl s = Some base
       | Throw msg => getBaseUrlOf (c_storeUrl cfg) (c_productUrl cfg) = Throw msg
       end).
Proof.
  assert (Hany : forall (A : Type) (m : M A), keeps_ always (fun _ => True) m).
  { intros A m st _. split; [ | exact Logic.I].
    apply Forall_forall. intros e _. exact Logic.I. }
  unfold preCheckout.
  apply triple_then; [apply Hany | apply unfailing_now | intros t0].
  do 3 (apply triple_then; [apply Hany | apply unfailing_modify | intros _]).
  apply triple_then; [apply Hany | apply unfailing_random | intros i].
  apply triple_then; [apply Hany | apply unfailing_modify | intros _].
  apply triple_lift; [intros base Hbase | intros msg s E _; exact E].
  intros st _. unfold log. rewrite !bind_modify.
  match goal with
  | |- Forall _ (eventsOf (_ ?st1)) /\ _ =>
      destruct (warmBody_kept base cfg st1 eq_refl) as [Hev Hkept];
      assert (Hu : unfailing
                     (tryCatch (warmBody cfg base)
                        (fun err =>
                           bind (log ("Pre-checkout failed: " ++ err) error)
                                (fun _ => ret (mkWarmResult false None (Some err))))))
        by surely;
      destruct (Hu st1) as [w Hw]
  end.
  unfold log in Hw, Hev, Hkept.
  split; [exact Hev|]. rewrite Hw. now exists base.
Qed.

(** X17.  [preCheckout] makes no payment submission.  It throws exactly
    when the store URL cannot be read, with that error; when it returns,
    with success or not, the base URL is stored in the session. *)
Theorem preCheckout_warms_without_paying (cfg : Config) (st : St) :
  Forall notPayment (eventsOf (preCheckout cfg st)) /\
  match resultOf (preCheckout cfg st) with
  | Ok _ =>
      exists base,
        getBaseUrlOf (c_storeUrl cfg) (c_productUrl cfg) = Ok base /\
        baseUrl (sess (stateOf (preCheckout cfg st))) = Some base
  | Throw msg => getBaseUrlOf (c_storeUrl cfg) (c_productUrl cfg) = Throw msg
  end.
Proof.
  split.
  - exact (proj1 (preCheckout_plain cfg st Logic.I)).
  - exact (proj2 (preCheckout_outcome cfg st Logic.I)).
Qed.

Lemma runFromPreCheckout_returns (cfg : Config) (h : option Harvester) (st : St) :
  Str.otruthy (baseUrl (sess st)) = true ->
  exists res, resultOf (runFromPreCheckout cfg h st) = Ok res.
Proof.
  intros Hb. unfold runFromPreCheckout. rewrite bind_now, bind_modify, bind_gets.
  cbn [sess baseUrl set_startTime]. rewrite Hb. cbv iota. rewrite bind_ret.
  unfold log. rewrite bind_modify.
  match goal with
  | |- exists res, resultOf (?m ?st1) = Ok res =>
      assert (Hu : unfailing m) by surely; exact (Hu st1)
  end.
Qed.

(** X18.  After a warm-up that returned, successful or not, an instant
    checkout returns a result and does not throw, for every configuration:
    it reads the base URL the warm-up stored. *)
Theorem instant_checkout_after_warmup_returns (cfg cfg' : Config) (h : option Harvester)
  (st : St) (w : WarmResult) :
  resultOf (preCheckout cfg st) = Ok w ->
  exists res, resultOf (runFromPreCheckout cfg' h (stateOf (preCheckout cfg st))) = Ok res.
Proof.
  intros Hw. apply runFromPreCheckout_returns.
  pose proof (proj2 (preCheckout_outcome cfg st Logic.I)) as H. rewrite Hw in H.
  destruct H as (base & Hbase & Hstored). rewrite Hstored.
  exact (getBaseUrlOf_truthy _ _ _ Hbase).
Qed.



End InstantFacts.

Lemma instant_dry_run_never_pays_witness :
  FastCheckout.dryRunOf (Demo.config true) = true /\
  Forall FastCheckout.notPayment
    (FastCheckout.eventsOf
       (@FastCheckout.runFromPreCheckout Demo.runtime (Demo.config true) None
          (Demo.startWith Demo.upToPaymentScript))).
Proof.
  split; [reflexivity | ].
  exact (@instant_dry_run_never_pays Demo.runtime (Demo.config true) None
           (Demo.startWith Demo.upToPaymentScript) eq_refl).
Defined.

Lemma instant_checkout_after_warmup_returns_witness :
  let warm := @FastCheckout.preCheckout Demo.runtime (Demo.config true)
                (Demo.startWith [Demo.page "welcome"]) in
  (exists w, FastCheckout.resultOf warm = Ok w) /\
  exists res,
    FastCheckout.resultOf
      (@FastCheckout.runFromPreCheckout Demo.runtime (Demo.config true) None
         (FastCheckout.stateOf warm)) = Ok res.
Proof.
  intro warm. split; [eexists; vm_compute; reflexivity | ].
  eapply (@instant_checkout_after_warmup_returns Demo.runtime (Demo.config true)
            (Demo.config true) None (Demo.startWith [Demo.page "welcome"])).
  vm_compute. reflexivity.
Defined.

(** ** The payment form and the success exit *)

Section PaymentFormFacts.

Import FastCheckout.
Context `{RT : Runtime}.

Lemma quiet_always : quiet (fun _ => True).
Proof. intros s _. repeat split. Qed.

Lemma paymentForm_completes (tok gw : option string) (card : list (string * string)) :
  completesPayment (Form (paymentForm tok gw card)) = true.
Proof.
  unfold completesPayment, paymentForm.
  rewrite !existsb_app. cbn. now rewrite !orb_true_r.
Qed.

Lemma always_keeps_modify (P : Event -> Prop) (f : Session -> Session) :
  keeps_ (fun _ => True) P (modify f).
Proof. apply keeps_modify. intros s _. exact Logic.I. Qed.

Lemma always_bounded_modify (n : nat) (f : Session -> Session) :
  bounded (fun _ => True) n (modify f) (fun _ => True).
Proof. apply bounded_modify. intros s _. exact Logic.I. Qed.

Lemma request_at_most_four (url : string) (o : Options) :
  bounded (fun _ => True) 4 (request url o) (fun _ => True).
Proof.
  intros st _. split; [ | exact Logic.I].
  pose proof (request_bounded (h2Enabled (sess st)) (proxyAgent (sess st)) url o st
                (conj eq_refl eq_refl)) as [H _].
  destruct (h2Enabled (sess st) && negb (Str.otruthy (proxyAgent (sess st)))); lia.
Qed.

(** What follows the response to the payment form. *)
Ltac after_payment res :=
  cbv zeta;
  destruct (Str.otruthy (location res));
  destruct (confirms (Str.orElse (location res) ""));
  destruct (Str.includes "processing" (Str.orElse (location res) ""));
  cbn [andb orb]; unfold log.

Lemma sendPayment_only_submits (checkoutUrl : string) (payment : Payment)
  (sessionToken tok : option string) :
  keeps_ (fun _ => True) (fun e => isPaymentSubmission e = true)
         (sendPayment checkoutUrl payment sessionToken tok).
Proof.
  unfold sendPayment. apply keeps_bind; [apply keeps_gets | intros gw].
  apply keeps_bind.
  { unfold log. repeat first [ keeps_step | apply always_keeps_modify ]. }
  intros card. apply keeps_bind.
  { apply (request_keeps (fun _ => True) _ quiet_always
             (Form (paymentForm tok gw card))); [ | reflexivity].
    intros s t meth url hdrs _. apply paymentForm_completes. }
  intros res. after_payment res;
    repeat first [ keeps_step | apply always_keeps_modify ].
Qed.

Lemma sendPayment_bounded (checkoutUrl : string) (payment : Payment)
  (sessionToken tok : option string) :
  bounded (fun _ => True) 4 (sendPayment checkoutUrl payment sessionToken tok)
          (fun _ => True).
Proof.
  set (T := fun _ : Session => True).
  assert (Hsilent : forall (A : Type) (n : nat) (msg : string) (ty : LogType) (a : A),
            bounded T n (bind (log msg ty) (fun _ => ret a)) T).
  { intros A n msg ty a. apply (bounded_bind T T T 0 n); [ | | auto].
    - apply always_bounded_modify.
    - intros _. apply bounded_ret. }
  unfold sendPayment. apply bounded_read. intros gw.
  apply (bounded_bind T T T 0 4); [ | | auto].
  { destruct (Str.otruthy sessionToken); [apply bounded_ret|].
    destruct (Str.otruthy (preToken payment)); [apply Hsilent | apply bounded_ret]. }
  intros card. apply (bounded_last T T T 4); [apply request_at_most_four | | auto].
  intros res. after_payment res; fold (log "ORDER CONFIRMED!" success);
    try apply Hsilent.
  all: apply (bounded_bind T T T 0 0); [apply bounded_ret | | auto]; intros [|].
  all: try apply bounded_ret.
  all: destruct (ok res || (status res =? 302)); [apply Hsilent|].
  all: destruct (_ || _); apply Hsilent.
Qed.

(** X19.  Of the requests [submitPayment] makes from the payment form
    on, every transport attempt carries the payment form, and there are at
    most four: the loop over the processing page is never entered. *)
Theorem payment_processing_never_followed (checkoutUrl : string) (payment : Payment)
  (sessionToken tok : option string) (st : St) :
  Forall (fun e => isPaymentSubmission e = true)
         (eventsOf (sendPayment checkoutUrl payment sessionToken tok st)) /\
  List.length (eventsOf (sendPayment checkoutUrl payment sessionToken tok st)) <= 4.
Proof.
  split.
  - exact (proj1 (sendPayment_only_submits checkoutUrl payment sessionToken tok st Logic.I)).
  - exact (proj1 (sendPayment_bounded checkoutUrl payment sessionToken tok st Logic.I)).
Qed.

(** *** Where the card number goes *)

Let cardless (e : Event) : Prop := sendsRawCard e = false.

Lemma cardless_request (url : string) (o : Options) :
  match o_body o with
  | Form fields =>
      List.existsb (fun kv => String.eqb (fst kv) "checkout[credit_card][number]") fields
  | _ => false
  end = false ->
  keeps_ (fun _ => True) cardless (request url o).
Proof.
  intros Hb. apply (request_keeps (fun _ => True) _ quiet_always (o_body o)); [ | reflexivity].
  intros s t meth u hdrs _. exact Hb.
Qed.

Ltac cardless_steps :=
  repeat first
    [ keeps_step
    | progress cbv zeta
    | apply cardless_request; reflexivity
    | apply always_keeps_modify
    | apply keeps_attempt; intros; reflexivity ].

Lemma cardless_followProcessing (loc checkoutUrl : string) :
  forall left, keeps_ (fun _ => True) cardless (followProcessing left loc checkoutUrl).
Proof.
  induction left as [| left IH]; cbn [followProcessing]; unfold absolute, log.
  - cardless_steps.
  - repeat first [ apply IH | cardless_steps ].
Qed.

Lemma tokenForm_cardless (tok gw : option string) (t : string) :
  List.existsb (fun kv => String.eqb (fst kv) "checkout[credit_card][number]")
               (paymentForm tok gw (tokenCard t gw)) = false.
Proof. reflexivity. Qed.

Lemma sendPayment_cardless (checkoutUrl : string) (payment : Payment)
  (sessionToken tok : option string) :
  Str.otruthy sessionToken || Str.otruthy (preToken payment) = true ->
  keeps_ (fun _ => True) cardless (sendPayment checkoutUrl payment sessionToken tok).
Proof.
  intros Htoken. unfold sendPayment. apply keeps_bind; [apply keeps_gets | intros gw].
  eapply triple_bind with
    (Mid := fun r _ =>
              forall card, r = Ok card ->
                List.existsb
                  (fun kv => String.eqb (fst kv) "checkout[credit_card][number]")
                  (paymentForm tok gw card) = false).
  - destruct (Str.otruthy sessionToken).
    + apply triple_ret. intros s _ card [= <-]. apply tokenForm_cardless.
    + destruct (Str.otruthy (preToken payment)); [ | discriminate Htoken].
      intros st _. unfold log. rewrite bind_modify.
      split; [constructor | intros card [= <-]; apply tokenForm_cardless].
  - intros card st Hcard. specialize (Hcard card eq_refl).
    match goal with
    | |- Forall _ (eventsOf (?m st)) /\ _ =>
        assert (K : keeps_ (fun _ => True) cardless m); [ | exact (K st Logic.I)]
    end.
    apply keeps_bind; [apply cardless_request; exact Hcard | intros res].
    unfold log.
    repeat first [ apply cardless_followProcessing | cardless_steps ].
  - intros; exact Logic.I.
Qed.

(** X20.  With a pre-token in the payment details, no request of
    [submitPayment] is a form with the card number in it, whether the card
    vault answers or not. *)
Theorem pretoken_keeps_card_out_of_form (checkoutUrl : string) (payment : Payment)
  (dryRun : bool) (st : St) :
  Str.otruthy (preToken payment) = true ->
  Forall (fun e => sendsRawCard e = false)
         (eventsOf (submitPayment checkoutUrl payment dryRun st)).
Proof.
  intros Hpre.
  assert (H : keeps_ (fun _ => True) cardless (submitPayment checkoutUrl payment dryRun)).
  { unfold submitPayment, tokenizeCard, loadPaymentPage, retryCheckoutUrl,
      getPaymentSessionToken, jsonOf, log.
    repeat first
      [ apply sendPayment_cardless; rewrite Hpre; apply orb_true_r
      | cardless_steps ]. }
  exact (proj1 (H st Logic.I)).
Qed.

(** *** The success exit *)

Lemma sendConfirmationEmail_unfailing (confirmationEmail itemName storeUrl : string) :
  unfailing (sendConfirmationEmail confirmationEmail itemName storeUrl).
Proof.
  unfold sendConfirmationEmail.
  destruct (negb (Str.truthy confirmationEmail)); surely.
Qed.

Lemma complete_returns (cfg : Config) (dryRun : bool)
  (baseUrl resolvedVariant dryTag liveTag mode : string) (st : St) :
  let out := complete cfg dryRun baseUrl resolvedVariant dryTag liveTag mode st in
  (exists res,
     resultOf out = Ok res /\ r_success res = true /\ r_step res = Some "complete" /\
     r_dryRun res = Some dryRun /\ r_mode res = Some mode /\ r_error res = None /\
     r_logs res = logs (sess (stateOf out))) /\
  (if dryRun then eventsOf out = [] else True).
Proof.
  intros out. subst out. unfold complete, elapsedSeconds, log. silently.
  destruct (negb dryRun && Str.otruthy (c_confirmationEmail cfg)) eqn:Email.
  - destruct dryRun; [discriminate Email|].
    rewrite bind_run.
    match goal with
    | |- context [sendConfirmationEmail ?a ?b ?c ?s] =>
        destruct (sendConfirmationEmail_unfailing a b c s) as [[] Hok];
        destruct (sendConfirmationEmail a b c s) as [[r st1] e1]
    end.
    unfold resultOf, stateOf, eventsOf in *. cbn [fst snd] in *. subst r.
    rewrite bind_gets. cbn. split; [ | exact Logic.I].
    eexists. repeat split.
  - silently. cbn. split; [ | now destruct dryRun].
    eexists. repeat split.
Qed.

(** X21.  The success exit of a checkout always returns the success
    result (step [complete], the mode, no error, the session log): a
    confirmation e-mail that cannot be sent changes nothing.  In dry-run
    mode the exit makes no transport attempt. *)
Theorem completion_survives_email_failure (cfg : Config) (dryRun : bool)
  (baseUrl resolvedVariant dryTag liveTag mode : string) (st : St) :
  let out := complete cfg dryRun baseUrl resolvedVariant dryTag liveTag mode st in
  (exists res,
     resultOf out = Ok res /\ r_success res = true /\ r_step res = Some "complete" /\
     r_dryRun res = Some dryRun /\ r_mode res = Some mode /\ r_error res = None /\
     r_logs res = logs (sess (stateOf out))) /\
  (if dryRun then eventsOf out = [] else True).
Proof. apply complete_returns. Qed.

End PaymentFormFacts.

Lemma pretoken_keeps_card_out_of_form_witness :
  let payment := FastCheckout.withPreToken (Some "west_0123456789")
                   (FastCheckout.mkPayment (Some "4242424242424242") (Some "Ash Ketchum")
                      (Some "12") (Some "2030") (Some "123") None None) in
  let st := FastCheckout.mkSt
              (FastCheckout.set_authToken (Some "tok-0123456789")
                 (FastCheckout.newSession 0 0 "run"))
              (List.map (fun o => (10, o))
                 [ Demo.page "token:fresh-0123456789;";
                   Demo.redirect "https://shop.example/checkouts/c1/thank_you" ]) 0 [] in
  Str.otruthy (FastCheckout.preToken payment) = true /\
  Forall (fun e => FastCheckout.sendsRawCard e = false)
         (FastCheckout.eventsOf
            (@FastCheckout.submitPayment Demo.runtime "https://shop.example/checkouts/c1"
               payment false st)).
Proof.
  intros payment st. split; [reflexivity | ].
  exact (@pretoken_keeps_card_out_of_form Demo.runtime "https://shop.example/checkouts/c1"
           payment false st eq_refl).
Defined.

(** ** The steps a result can name *)

Section StepNames.

Import FastCheckout.
Context `{RT : Runtime}.

(** A condition that does not read the session is kept by every method. *)
Lemma keeps_const {A : Type} (C : Prop) (m : M A) :
  keeps_ (fun _ => C) (fun _ => True) m.
Proof.
  intros st Hc. split; [ | exact Hc]. apply Forall_forall. intros e _. exact Logic.I.
Qed.

(** One step of a triple over such a condition. *)
Ltac pass x :=
  eapply triple_seq; [ apply keeps_const | intros x | try (intros; discriminate) ].

Lemma truthy_orElse (o : option string) (d : string) :
  Str.otruthy o = true -> Str.truthy (Str.orElse o d) = true.
Proof. destruct o as [[|c t]|]; simpl; intros H; try discriminate; reflexivity. Qed.

Lemma location_url_truthy (baseUrl : string) (loc : option string) :
  Str.otruthy loc = true ->
  Str.truthy (if Str.startsWith "http" (Str.orElse loc "") then Str.orElse loc ""
              else baseUrl ++ Str.orElse loc "") = true.
Proof.
  intros H. apply (truthy_orElse loc "") in H.
  destruct (Str.startsWith "http" _); [exact H | now apply truthy_append_r].
Qed.

(** [createCheckout] never returns an empty URL. *)
Lemma createCheckout_truthy (baseUrl : string) :
  triple (fun _ => True) (createCheckout baseUrl) (fun _ => True)
    (fun r _ => forall url, r = Ok url -> Str.truthy url = true).
Proof.
  unfold createCheckout. pass ipattern:(_). pass res.
  eapply triple_bind with
    (Mid := fun r _ => forall url, r = Ok url -> Str.truthy url = true).
  - destruct (Str.otruthy (location res)) eqn:Eloc.
    + apply triple_ret. intros s0 _ url [= <-]. now apply location_url_truthy.
    + pass getRes. destruct (Str.otruthy (location getRes)) eqn:Eget.
      * apply triple_ret. intros s0 _ url [= <-]. now apply location_url_truthy.
      * destruct (capture CheckoutPathInBody (body getRes)); apply triple_ret;
          intros s0 _ url [= <-]; now apply truthy_append_r.
  - intros checkoutUrl.
    apply triple_weaken with (Pre := fun _ => Str.truthy checkoutUrl = true)
                             (P := fun _ => True)
                             (Post := fun r _ => forall url, r = Ok url ->
                                                             Str.truthy url = true);
      [ | intros s0 H; exact (H checkoutUrl eq_refl) | auto | auto ].
    repeat (pass ipattern:(?)). apply triple_ret. intros s0 H url [= <-]. exact H.
  - intros; discriminate.
Qed.

(** A result that does not name the step [create-checkout]. *)
Let elsewhere (r : Res RunResult) : Prop :=
  forall res, r = Ok res -> r_step res <> Some "create-checkout".

Lemma failedAt_elsewhere (C : Prop) (step : string) :
  step <> "create-checkout" ->
  triple (fun _ => C) (failedAt step) (fun _ => True) (fun r _ => elsewhere r).
Proof.
  intros Hstep st _. split; [constructor|].
  intros res [= <-]. cbn. intros [= E]. now apply Hstep.
Qed.

Lemma complete_elsewhere (C : Prop) (cfg : Config) (dryRun : bool)
  (baseUrl resolvedVariant dryTag liveTag mode : string) :
  triple (fun _ => C) (complete cfg dryRun baseUrl resolvedVariant dryTag liveTag mode)
         (fun _ => True) (fun r _ => elsewhere r).
Proof.
  intros st Hc.
  split; [exact (proj1 (keeps_const C _ st Hc))|].
  destruct (complete_returns cfg dryRun baseUrl resolvedVariant dryTag liveTag mode st)
    as [(res & Hres & _ & Hstep & _) _].
  intros res' Hres'. rewrite Hres in Hres'. injection Hres' as <-.
  rewrite Hstep. discriminate.
Qed.

Lemma upToPayment_located (baseUrl resolvedVariant : string) (jigged : Address) :
  triple (fun _ => True) (upToPayment baseUrl resolvedVariant jigged) (fun _ => True)
    (fun r _ => r <> Ok (inr "create-checkout")).
Proof.
  unfold upToPayment. pass direct.
  eapply triple_bind with (Mid := fun r _ => r <> Ok (@inr string string "create-checkout")).
  - destruct (Str.otruthy direct).
    + cbv zeta. repeat (pass ipattern:(?)). apply triple_ret. intros; discriminate.
    + pass added. destruct (negb added).
      * apply triple_ret. intros; discriminate.
      * eapply triple_bind; [apply createCheckout_truthy | | intros; discriminate].
        intros checkoutUrl st Hurl. rewrite (Hurl checkoutUrl eq_refl).
        split; [constructor | discriminate].
  - intros [checkoutUrl | step].
    + repeat (pass ipattern:(?)). apply triple_ret. intros; discriminate.
    + apply triple_ret. intros s0 H. exact H.
  - intros; discriminate.
Qed.

Lemma runBody_elsewhere (cfg : Config) (baseUrl : string) :
  triple (fun _ => True) (runBody cfg baseUrl) (fun _ => True) (fun r _ => elsewhere r).
Proof.
  unfold runBody. cbv zeta. pass resolved.
  destruct (negb (Str.otruthy resolved)); [now apply failedAt_elsewhere|].
  pass gqlResult.
  match goal with |- triple _ (if ?c then _ else _) _ _ => destruct c end;
    [apply complete_elsewhere|].
  pass ipattern:(_).
  eapply triple_bind; [apply upToPayment_located | | intros; discriminate].
  intros [currentUrl | step].
  - pass paid. destruct paid; [apply complete_elsewhere | now apply failedAt_elsewhere].
  - intros st Hstep. apply (failedAt_elsewhere True); [ | exact Logic.I].
    intros ->. now apply Hstep.
Qed.

Lemma instantBody_elsewhere (cfg : Config) (h : option Harvester) (baseUrl : string) :
  triple (fun _ => True) (instantBody cfg h baseUrl) (fun _ => True)
         (fun r _ => elsewhere r).
Proof.
  unfold instantBody. cbv zeta. pass resolved.
  destruct (negb (Str.otruthy resolved)); [now apply failedAt_elsewhere|].
  pass direct.
  eapply triple_bind with (Mid := fun r _ => r <> Ok (@inr string string "create-checkout")).
  - destruct (negb (Str.otruthy direct)).
    + pass added. destruct (negb added).
      * apply triple_ret. intros; discriminate.
      * eapply triple_bind; [apply createCheckout_truthy | | intros; discriminate].
        intros checkoutUrl st Hurl. rewrite (Hurl checkoutUrl eq_refl).
        split; [constructor | discriminate].
    + repeat (pass ipattern:(?)). apply triple_ret. intros; discriminate.
  - intros [checkoutUrl | step].
    + apply triple_weaken with (Pre := fun _ => True) (P := fun _ => True)
                               (Post := fun r _ => elsewhere r); [ | auto | auto | auto].
      pass currentUrl. pass currentUrl'. pass pre. pass paymentOpts. pass paid.
      destruct paid; [apply complete_elsewhere | now apply failedAt_elsewhere].
    + intros st Hstep. apply (failedAt_elsewhere True); [ | exact Logic.I].
      intros ->. now apply Hstep.
  - intros; discriminate.
Qed.

Lemma caught_elsewhere (C : Prop) (err : string) :
  triple (fun _ => C)
    (bind (log ("Fatal: " ++ err) error)
          (fun _ => bind (gets logs)
                         (fun l => ret (mkRunResult false None None None None (Some err) l))))
    (fun _ => True) (fun r _ => elsewhere r).
Proof.
  intros st _. unfold log. rewrite bind_modify, bind_gets.
  split; [constructor|]. intros res [= <-]. discriminate.
Qed.

(** X22.  Neither [run] nor [runFromPreCheckout] ever returns a result
    with the step [create-checkout]: [createCheckout] returns a non-empty
    URL or throws, so that failure branch is never taken. *)
Theorem create_checkout_step_never_reported (cfg : Config) (h : option Harvester)
  (st : St) :
  match resultOf (run cfg st) with
  | Ok res => r_step res <> Some "create-checkout"
  | Throw _ => True
  end /\
  match resultOf (runFromPreCheckout cfg h st) with
  | Ok res => r_step res <> Some "create-checkout"
  | Throw _ => True
  end.
Proof.
  assert (Hrun : triple (fun _ => True) (run cfg) (fun _ => True) (fun r _ => elsewhere r)).
  { unfold run. repeat (pass ipattern:(?)).
    eapply triple_tryCatch;
      [apply runBody_elsewhere | intros err; apply (caught_elsewhere (elsewhere (Throw err))) | auto]. }
  assert (Hinstant : triple (fun _ => True) (runFromPreCheckout cfg h) (fun _ => True)
                            (fun r _ => elsewhere r)).
  { unfold runFromPreCheckout. repeat (pass ipattern:(?)).
    eapply triple_tryCatch;
      [apply instantBody_elsewhere | intros err; apply (caught_elsewhere (elsewhere (Throw err))) | auto]. }
  split.
  - destruct (Hrun st Logic.I) as [_ H].
    destruct (resultOf (run cfg st)) as [res|]; [now apply H | exact Logic.I].
  - destruct (Hinstant st Logic.I) as [_ H].
    destruct (resultOf (runFromPreCheckout cfg h st)) as [res|];
      [now apply H | exact Logic.I].
Qed.

End StepNames.

(** ** Redirect chains and the fleet in dry-run mode *)

Section RedirectFacts.

Import FastCheckout.
Context `{RT : Runtime}.

Lemma absolute_bounded (n : nat) (loc base : string) :
  bounded (fun _ => True) n (absolute loc base) (fun _ => True).
Proof.
  unfold absolute. destruct (Str.startsWith "http" loc); [apply bounded_ret|].
  destruct (resolveUrl loc base); [apply bounded_ret | apply bounded_throw].
Qed.

Lemma followRedirects_bounded :
  forall maxRedirects url,
    bounded (fun _ => True) (4 * (maxRedirects + 1)) (followRedirects url maxRedirects)
            (fun _ => True).
Proof.
  set (T := fun _ : Session => True).
  induction maxRedirects as [| n IH]; intros url; cbn [followRedirects].
  - apply (bounded_last T T T 4); [apply request_at_most_four | | auto].
    intros res. apply bounded_ret.
  - apply (bounded_weaken T T T T (4 + 4 * (n + 1))); [ | auto | lia | auto].
    apply (bounded_bind T T T 4 (4 * (n + 1))); [apply request_at_most_four | | auto].
    intros res. cbv zeta.
    destruct (negb (Str.otruthy (location res)) || (status res <? 300) || (400 <=? status res));
      [apply bounded_ret|].
    apply (bounded_bind T T T 0 (4 * (n + 1))); [apply absolute_bounded | | auto].
    intros next. apply IH.
Qed.

(** X23.  [followRedirects] ends after at most [maxRedirects + 1]
    requests, also on a circular chain of redirects: at most four transport
    attempts for each. *)
Theorem followRedirects_attempts_bounded (url : string) (maxRedirects : nat) (st : St) :
  List.length (eventsOf (followRedirects url maxRedirects st)) <= 4 * (maxRedirects + 1).
Proof. exact (proj1 (followRedirects_bounded maxRedirects url st Logic.I)). Qed.

End RedirectFacts.

Section FleetDryRun.

Import FastCheckout FleetRunner.
Context `{RT : Runtime}.

(** X24.  A fleet launched in dry-run mode, the default, hands every bot
    a dry-run configuration: no task submits payment, whatever the store
    answers. *)
Theorem fleet_dry_run_never_pays (opts : Opts) (target : Target) (u : User) (k : nat) :
  FleetRunner.dryRunOf opts = true ->
  match configFor opts target u k with
  | Ok cfg => forall st, Forall notPayment (eventsOf (run cfg st))
  | Throw _ => True
  end.
Proof.
  intros Hdry. unfold configFor.
  destruct (o_toCheckoutConfig opts u) as [userConfig | msg]; [ | exact Logic.I].
  cbn [rbind].
  destruct (AddressJigger.jig (uc_checkoutDetails userConfig) k) as [jigged | msg];
    [ | exact Logic.I].
  cbn [rbind]. intros st.
  apply (run_dry _); [ | exact Logic.I].
  unfold FastCheckout.dryRunOf. cbn [c_dryRun]. exact Hdry.
Qed.

End FleetDryRun.

Lemma fleet_dry_run_never_pays_witness :
  let opts := Demo.opts [Demo.user 1] in
  let target := FleetRunner.mkTarget (Some "https://shop.example") None None (Some "42") in
  FleetRunner.dryRunOf opts = true /\
  match @FleetRunner.configFor opts target (Demo.user 1) 0 with
  | Ok cfg =>
      forall st, Forall FastCheckout.notPayment
                   (FastCheckout.eventsOf (@FastCheckout.run Demo.runtime cfg st))
  | Throw _ => True
  end.
Proof.
  intros opts target. split; [reflexivity | ].
  exact (@fleet_dry_run_never_pays Demo.runtime opts target (Demo.user 1) 0 eq_refl).
Defined.

(** ** Country normalisation *)

Section CountryFacts.

Import UserManager.

Ltac by_character c := destruct c as [[] [] [] [] [] [] [] []]; reflexivity.










End CountryFacts.
